(** * Holokernel2: the emergent memory economy, shallowly embedded

    The repository holds several revisions of one freestanding i386 kernel.
    The development below follows the most complete revision ("Holographic
    Kernel with Emergent Memory Economy + Advanced Evolution"): its bump
    allocator with allocation tracking, the emergent garbage collector, the
    hypervector engine, the collective consciousness, the holographic
    memory, the entity pool with its update cycle and the kernel-patch
    protocol.  The allocator of the "fixed metadata" revision, which draws
    its tracking records from a pre-allocated pool, is embedded separately
    in [Module PoolAllocator].

    Conventions.
    - [uint32_t], [size_t] and pointers are 32-bit (i386): values are [Z]
      in [0, 2^32) and every arithmetic result is reduced with [u32].
    - [float] is IEEE-754 binary32, every operation rounded to nearest even
      ([SpecFloat] with precision 24 and maximal exponent 128).  C leaves
      the precision of intermediate results to the implementation: a build
      for the x87 unit may keep them in extended precision, and differs
      from this embedding where a result lies within a rounding error of
      a threshold or of an integer.
    - The arena is a byte store; a [float] is stored as the four
      little-endian bytes of its bit pattern.
    - [Gene] and [mem_block_t] objects live in the arena in the source; they
      are kept here as typed objects keyed by their address, so that the
      pointer structure (and every aliasing through it) is preserved.
    - Serial output stores nothing.  Text output ([print], [print_hex])
      stores into the VGA text buffer, which with the arena at [0xA0000]
      lies inside it (offsets 98304 to 102303).  The console is embedded
      in [Module Console] and [apply_kernel_patch] carries its final
      [print_hex]; the diagnostic prints of the other functions are left
      out, so that for them [heap] is the arena as the kernel's own
      stores leave it.
    - Unbounded constructs (the self-recursive [kmalloc], the re-entrant
      collector, pointer chasing over gene chains) consume fuel. *)

From Stdlib Require Import ZArith QArith Lia List Bool String Ascii.
From Stdlib Require Import Floats.SpecFloat.
From stdpp Require Import base option list gmap.

Local Open Scope Z_scope.

(** ** Machine integers *)

Definition u32 (x : Z) : Z := x mod 2 ^ 32.
Definition u8 (x : Z) : Z := x mod 2 ^ 8.

Definition NULL : Z := 0.

(** ** Configuration (the [#define]s of the source) *)

Definition INITIAL_DIMENSIONS : Z := 512.
Definition MAX_DIMENSIONS : Z := 2048.
Definition MAX_MEMORY_ENTRIES : Z := 128.
Definition MAX_ENTITIES : Z := 32.
Definition INITIAL_ENTITIES : Z := 3.
Definition MAX_ENTITY_DOMAINS : Z := 8.
Definition MAX_THOUGHTS : Z := 64.
Definition MAX_GENES_PER_ENTITY : Z := 16.
Definition KERNEL_HEAP_SIZE : Z := 0xC0000.

(** [extern uint8_t kernel_heap_start[]]: the linker script is not part of
    the sources; the address is the one the source comments give
    ("768KB heap at 0xA0000").  With it the 768 KB of the arena end at
    [0x160000] and contain the VGA text buffer at [0xB8000]. *)
Definition kernel_heap : Z := 0xA0000.

(** Object sizes under the i386 ABI (4-byte pointers, 4-byte alignment). *)
Definition sizeof_float : Z := 4.
Definition sizeof_mem_block_t : Z := 24.
Definition sizeof_Gene : Z := 48.

(** ** binary32 arithmetic *)

Definition float := spec_float.

Definition fadd : float -> float -> float := SFadd 24 128.
Definition fsub : float -> float -> float := SFsub 24 128.
Definition fmul : float -> float -> float := SFmul 24 128.
Definition fdiv : float -> float -> float := SFdiv 24 128.
Definition flt : float -> float -> bool := SFltb.
Definition fle : float -> float -> bool := SFleb.

(** Integer to [float] conversion, as in [(float)n]. *)
Definition float_of_Z (n : Z) : float := binary_normalize 24 128 n 0 false.

(** The literal [n/d] written in decimal in the source ([0.05f] is
    [float_lit 5 100]): the binary32 number nearest to the quotient. *)
Definition float_lit (n d : Z) : float := fdiv (float_of_Z n) (float_of_Z d).

(** [(uint32_t)x]: truncation toward zero.  Out of range (a negative
    operand included) the conversion is undefined in ISO C; the value kept
    is the low word of the 64-bit conversion that i386 code performs, one
    of the outcomes a build may show. *)
Definition trunc_float (x : float) : Z :=
  match x with
  | S754_finite s m e =>
      let v := if 0 <=? e then Zpos m * 2 ^ e else Zpos m / 2 ^ (- e) in
      if s then - v else v
  | _ => 0
  end.

Definition uint32_of_float (x : float) : Z := u32 (trunc_float x).

(** Bit pattern of a binary32 number and back (the [union] of [sqrtf],
    and the byte view of a [float] buffer). *)
Definition bits_of_float (x : float) : Z :=
  match x with
  | S754_zero s => if s then 2 ^ 31 else 0
  | S754_infinity s => (if s then 2 ^ 31 else 0) + 0x7F800000
  | S754_nan => 0x7FC00000
  | S754_finite s m e =>
      (if s then 2 ^ 31 else 0) +
      (if Zpos m <? 2 ^ 23 then Zpos m
       else (e + 150) * 2 ^ 23 + (Zpos m - 2 ^ 23))
  end.

Definition float_of_bits (b : Z) : float :=
  let s := Z.testbit b 31 in
  let e := (b / 2 ^ 23) mod 256 in
  let f := b mod 2 ^ 23 in
  if e =? 0 then
    (if f =? 0 then S754_zero s else S754_finite s (Z.to_pos f) (-149))
  else if e =? 255 then
    (if f =? 0 then S754_infinity s else S754_nan)
  else S754_finite s (Z.to_pos (f + 2 ^ 23)) (e - 150).

Definition f0 : float := S754_zero false.
Definition f1 : float := float_of_Z 1.

(** [sqrtf] of the source: one Newton step on the bit-level estimate of the
    inverse square root, written exactly as the source has it. *)
Definition sqrtf (x : float) : float :=
  if fle x f0 then f0
  else
    let x_half := fmul (float_lit 1 2) x in
    let i := u32 (0x5f3759df - Z.shiftr (bits_of_float x) 1) in
    let uf := float_of_bits i in
    let x' := fmul uf (fsub (float_lit 3 2) (fmul (fmul x_half x) x)) in
    fdiv f1 x'.

(** ** The byte store *)

Abbreviation memory := (gmap Z Z).

Definition load_byte (m : memory) (a : Z) : Z := default 0 (m !! a).
Definition store_byte (m : memory) (a : Z) (b : Z) : memory := <[a := u8 b]> m.

Fixpoint load_bytes (m : memory) (a : Z) (n : nat) : list Z :=
  match n with
  | O => []
  | S k => load_byte m a :: load_bytes m (a + 1) k
  end.

Definition load_u32 (m : memory) (a : Z) : Z :=
  load_byte m a + 2 ^ 8 * load_byte m (a + 1) +
  2 ^ 16 * load_byte m (a + 2) + 2 ^ 24 * load_byte m (a + 3).

Definition store_u32 (m : memory) (a : Z) (w : Z) : memory :=
  store_byte (store_byte (store_byte (store_byte m a w)
    (a + 1) (w / 2 ^ 8)) (a + 2) (w / 2 ^ 16)) (a + 3) (w / 2 ^ 24).

Definition load_float (m : memory) (a : Z) : float :=
  float_of_bits (load_u32 m a).
Definition store_float (m : memory) (a : Z) (x : float) : memory :=
  store_u32 m a (bits_of_float x).

(** [memset(ptr, value, n)] and [memcpy(dest, src, n)]: byte loops. *)
Fixpoint memset (m : memory) (ptr : Z) (value : Z) (n : nat) : memory :=
  match n with
  | O => m
  | S k => memset (store_byte m ptr value) (ptr + 1) value k
  end.

Fixpoint memcpy (m : memory) (dest src : Z) (n : nat) : memory :=
  match n with
  | O => m
  | S k => memcpy (store_byte m dest (load_byte m src)) (dest + 1) (src + 1) k
  end.

(** ** Strings *)

Definition bytes_of_string (s : string) : list Z :=
  map (fun c => Z.of_nat (nat_of_ascii c)) (list_ascii_of_string s).

(** A string literal together with its terminating NUL
    ([strlen(s) + 1] bytes). *)
Definition cstring (s : string) : list Z := bytes_of_string s ++ [0].

(** [strncpy(dest, src, n); dest[n] = 0] on a NUL-terminated source. *)
Definition strncpy (src : string) (n : nat) : string := substring 0 n src.

(** ** Data model (the [struct]s of the source) *)

Record HyperVector := mkHyperVector {
  data : Z;
  capacity : Z;
  active_dims : Z;
  hash_sig : Z;
  valid : Z
}.

(** A [HyperVector vec = {0}]. *)
Definition zero_vector : HyperVector := mkHyperVector 0 0 0 0 0.

Definition set_data (v : Z) (h : HyperVector) : HyperVector :=
  mkHyperVector v (capacity h) (active_dims h) (hash_sig h) (valid h).
Definition set_capacity (v : Z) (h : HyperVector) : HyperVector :=
  mkHyperVector (data h) v (active_dims h) (hash_sig h) (valid h).
Definition set_active_dims (v : Z) (h : HyperVector) : HyperVector :=
  mkHyperVector (data h) (capacity h) v (hash_sig h) (valid h).
Definition set_hash_sig (v : Z) (h : HyperVector) : HyperVector :=
  mkHyperVector (data h) (capacity h) (active_dims h) v (valid h).
Definition set_valid (v : Z) (h : HyperVector) : HyperVector :=
  mkHyperVector (data h) (capacity h) (active_dims h) (hash_sig h) v.

Record Gene := mkGene {
  pattern : HyperVector;
  next : Z;
  fitness : Z;
  mutable : Z;
  name : string
}.

Definition set_pattern (v : HyperVector) (g : Gene) : Gene :=
  mkGene v (next g) (fitness g) (mutable g) (name g).
Definition set_next (v : Z) (g : Gene) : Gene :=
  mkGene (pattern g) v (fitness g) (mutable g) (name g).

Record Entity := mkEntity {
  id : Z;
  state : HyperVector;
  genome : Z;
  gene_count : Z;
  age : Z;
  interaction_count : Z;
  is_active : Z;
  specialization_scores : list float;
  resource_allocation : float;
  confidence : float;
  domain_name : string;
  task_vector : HyperVector;
  path_id : Z;
  task_alignment : float;
  fitness_score : Z;
  spawn_count : Z;
  marked_for_gc : Z;
  is_mutant : Z;
  mutation_rate : Z
}.

Definition set_id (v : Z) (e : Entity) : Entity :=
  mkEntity v (state e) (genome e) (gene_count e) (age e)
    (interaction_count e) (is_active e) (specialization_scores e)
    (resource_allocation e) (confidence e) (domain_name e) (task_vector e)
    (path_id e) (task_alignment e) (fitness_score e) (spawn_count e)
    (marked_for_gc e) (is_mutant e) (mutation_rate e).
Definition set_state (v : HyperVector) (e : Entity) : Entity :=
  mkEntity (id e) v (genome e) (gene_count e) (age e)
    (interaction_count e) (is_active e) (specialization_scores e)
    (resource_allocation e) (confidence e) (domain_name e) (task_vector e)
    (path_id e) (task_alignment e) (fitness_score e) (spawn_count e)
    (marked_for_gc e) (is_mutant e) (mutation_rate e).
Definition set_genome (v : Z) (e : Entity) : Entity :=
  mkEntity (id e) (state e) v (gene_count e) (age e)
    (interaction_count e) (is_active e) (specialization_scores e)
    (resource_allocation e) (confidence e) (domain_name e) (task_vector e)
    (path_id e) (task_alignment e) (fitness_score e) (spawn_count e)
    (marked_for_gc e) (is_mutant e) (mutation_rate e).
Definition set_gene_count (v : Z) (e : Entity) : Entity :=
  mkEntity (id e) (state e) (genome e) v (age e)
    (interaction_count e) (is_active e) (specialization_scores e)
    (resource_allocation e) (confidence e) (domain_name e) (task_vector e)
    (path_id e) (task_alignment e) (fitness_score e) (spawn_count e)
    (marked_for_gc e) (is_mutant e) (mutation_rate e).
Definition set_age (v : Z) (e : Entity) : Entity :=
  mkEntity (id e) (state e) (genome e) (gene_count e) v
    (interaction_count e) (is_active e) (specialization_scores e)
    (resource_allocation e) (confidence e) (domain_name e) (task_vector e)
    (path_id e) (task_alignment e) (fitness_score e) (spawn_count e)
    (marked_for_gc e) (is_mutant e) (mutation_rate e).
Definition set_interaction_count (v : Z) (e : Entity) : Entity :=
  mkEntity (id e) (state e) (genome e) (gene_count e) (age e)
    v (is_active e) (specialization_scores e)
    (resource_allocation e) (confidence e) (domain_name e) (task_vector e)
    (path_id e) (task_alignment e) (fitness_score e) (spawn_count e)
    (marked_for_gc e) (is_mutant e) (mutation_rate e).
Definition set_is_active (v : Z) (e : Entity) : Entity :=
  mkEntity (id e) (state e) (genome e) (gene_count e) (age e)
    (interaction_count e) v (specialization_scores e)
    (resource_allocation e) (confidence e) (domain_name e) (task_vector e)
    (path_id e) (task_alignment e) (fitness_score e) (spawn_count e)
    (marked_for_gc e) (is_mutant e) (mutation_rate e).
Definition set_specialization_scores (v : list float) (e : Entity) : Entity :=
  mkEntity (id e) (state e) (genome e) (gene_count e) (age e)
    (interaction_count e) (is_active e) v
    (resource_allocation e) (confidence e) (domain_name e) (task_vector e)
    (path_id e) (task_alignment e) (fitness_score e) (spawn_count e)
    (marked_for_gc e) (is_mutant e) (mutation_rate e).
Definition set_resource_allocation (v : float) (e : Entity) : Entity :=
  mkEntity (id e) (state e) (genome e) (gene_count e) (age e)
    (interaction_count e) (is_active e) (specialization_scores e)
    v (confidence e) (domain_name e) (task_vector e)
    (path_id e) (task_alignment e) (fitness_score e) (spawn_count e)
    (marked_for_gc e) (is_mutant e) (mutation_rate e).
Definition set_confidence (v : float) (e : Entity) : Entity :=
  mkEntity (id e) (state e) (genome e) (gene_count e) (age e)
    (interaction_count e) (is_active e) (specialization_scores e)
    (resource_allocation e) v (domain_name e) (task_vector e)
    (path_id e) (task_alignment e) (fitness_score e) (spawn_count e)
    (marked_for_gc e) (is_mutant e) (mutation_rate e).
Definition set_domain_name (v : string) (e : Entity) : Entity :=
  mkEntity (id e) (state e) (genome e) (gene_count e) (age e)
    (interaction_count e) (is_active e) (specialization_scores e)
    (resource_allocation e) (confidence e) v (task_vector e)
    (path_id e) (task_alignment e) (fitness_score e) (spawn_count e)
    (marked_for_gc e) (is_mutant e) (mutation_rate e).
Definition set_task_vector (v : HyperVector) (e : Entity) : Entity :=
  mkEntity (id e) (state e) (genome e) (gene_count e) (age e)
    (interaction_count e) (is_active e) (specialization_scores e)
    (resource_allocation e) (confidence e) (domain_name e) v
    (path_id e) (task_alignment e) (fitness_score e) (spawn_count e)
    (marked_for_gc e) (is_mutant e) (mutation_rate e).
Definition set_path_id (v : Z) (e : Entity) : Entity :=
  mkEntity (id e) (state e) (genome e) (gene_count e) (age e)
    (interaction_count e) (is_active e) (specialization_scores e)
    (resource_allocation e) (confidence e) (domain_name e) (task_vector e)
    v (task_alignment e) (fitness_score e) (spawn_count e)
    (marked_for_gc e) (is_mutant e) (mutation_rate e).
Definition set_task_alignment (v : float) (e : Entity) : Entity :=
  mkEntity (id e) (state e) (genome e) (gene_count e) (age e)
    (interaction_count e) (is_active e) (specialization_scores e)
    (resource_allocation e) (confidence e) (domain_name e) (task_vector e)
    (path_id e) v (fitness_score e) (spawn_count e)
    (marked_for_gc e) (is_mutant e) (mutation_rate e).
Definition set_fitness_score (v : Z) (e : Entity) : Entity :=
  mkEntity (id e) (state e) (genome e) (gene_count e) (age e)
    (interaction_count e) (is_active e) (specialization_scores e)
    (resource_allocation e) (confidence e) (domain_name e) (task_vector e)
    (path_id e) (task_alignment e) v (spawn_count e)
    (marked_for_gc e) (is_mutant e) (mutation_rate e).
Definition set_spawn_count (v : Z) (e : Entity) : Entity :=
  mkEntity (id e) (state e) (genome e) (gene_count e) (age e)
    (interaction_count e) (is_active e) (specialization_scores e)
    (resource_allocation e) (confidence e) (domain_name e) (task_vector e)
    (path_id e) (task_alignment e) (fitness_score e) v
    (marked_for_gc e) (is_mutant e) (mutation_rate e).
Definition set_marked_for_gc (v : Z) (e : Entity) : Entity :=
  mkEntity (id e) (state e) (genome e) (gene_count e) (age e)
    (interaction_count e) (is_active e) (specialization_scores e)
    (resource_allocation e) (confidence e) (domain_name e) (task_vector e)
    (path_id e) (task_alignment e) (fitness_score e) (spawn_count e)
    v (is_mutant e) (mutation_rate e).
Definition set_is_mutant (v : Z) (e : Entity) : Entity :=
  mkEntity (id e) (state e) (genome e) (gene_count e) (age e)
    (interaction_count e) (is_active e) (specialization_scores e)
    (resource_allocation e) (confidence e) (domain_name e) (task_vector e)
    (path_id e) (task_alignment e) (fitness_score e) (spawn_count e)
    (marked_for_gc e) v (mutation_rate e).
Definition set_mutation_rate (v : Z) (e : Entity) : Entity :=
  mkEntity (id e) (state e) (genome e) (gene_count e) (age e)
    (interaction_count e) (is_active e) (specialization_scores e)
    (resource_allocation e) (confidence e) (domain_name e) (task_vector e)
    (path_id e) (task_alignment e) (fitness_score e) (spawn_count e)
    (marked_for_gc e) (is_mutant e) v.

Record CollectiveConsciousness := mkCollective {
  thought_space : list HyperVector;
  thought_count : Z;
  global_coherence : float
}.

Record MemoryEntry := mkMemoryEntry {
  input_pattern : HyperVector;
  output_pattern : HyperVector;
  timestamp : Z;
  entry_valid : Z
}.

Record KernelPatch := mkKernelPatch {
  patch_pattern : HyperVector;
  replacement : HyperVector;
  address : Z;
  applied : Z
}.

Record HolographicSystem := mkHolographicSystem {
  memory_pool : list MemoryEntry;
  memory_count : Z;
  global_timestamp : Z
}.

(** A [mem_block_t].  [block_addr] is the address of the record itself;
    its [next] pointer is the order of the allocation list. *)
Record mem_block := mkBlock {
  block_addr : Z;
  block_ptr : Z;
  block_size : Z;
  allocation_id : Z;
  owner : Z;
  is_garbage : Z
}.

(** The globals of the kernel. *)
Record State := mkState {
  heap_offset : Z;
  allocation_list : list mem_block;
  allocation_counter : Z;
  heap : memory;
  genes : gmap Z Gene;
  entity_pool : list Entity;
  active_entity_count : Z;
  holo_system : HolographicSystem;
  collective : CollectiveConsciousness
}.

Definition set_heap_offset (v : Z) (s : State) : State :=
  mkState v (allocation_list s) (allocation_counter s) (heap s) (genes s)
    (entity_pool s) (active_entity_count s) (holo_system s) (collective s).
Definition set_allocation_list (v : list mem_block) (s : State) : State :=
  mkState (heap_offset s) v (allocation_counter s) (heap s) (genes s)
    (entity_pool s) (active_entity_count s) (holo_system s) (collective s).
Definition set_allocation_counter (v : Z) (s : State) : State :=
  mkState (heap_offset s) (allocation_list s) v (heap s) (genes s)
    (entity_pool s) (active_entity_count s) (holo_system s) (collective s).
Definition set_heap (v : memory) (s : State) : State :=
  mkState (heap_offset s) (allocation_list s) (allocation_counter s) v
    (genes s) (entity_pool s) (active_entity_count s) (holo_system s)
    (collective s).
Definition set_genes (v : gmap Z Gene) (s : State) : State :=
  mkState (heap_offset s) (allocation_list s) (allocation_counter s)
    (heap s) v (entity_pool s) (active_entity_count s) (holo_system s)
    (collective s).
Definition set_entity_pool (v : list Entity) (s : State) : State :=
  mkState (heap_offset s) (allocation_list s) (allocation_counter s)
    (heap s) (genes s) v (active_entity_count s) (holo_system s)
    (collective s).
Definition set_active_entity_count (v : Z) (s : State) : State :=
  mkState (heap_offset s) (allocation_list s) (allocation_counter s)
    (heap s) (genes s) (entity_pool s) v (holo_system s) (collective s).
Definition set_holo_system (v : HolographicSystem) (s : State) : State :=
  mkState (heap_offset s) (allocation_list s) (allocation_counter s)
    (heap s) (genes s) (entity_pool s) (active_entity_count s) v
    (collective s).
Definition set_collective (v : CollectiveConsciousness) (s : State) : State :=
  mkState (heap_offset s) (allocation_list s) (allocation_counter s)
    (heap s) (genes s) (entity_pool s) (active_entity_count s)
    (holo_system s) v.

(** ** Outcomes of a call

    [Done]: the call returned.  [Halted]: the kernel stopped in one of its
    [while(1);] fatal loops.  [Undefined]: the call indexed an array out of
    bounds or followed a pointer that is no object.  [OutOfFuel]: the fuel
    did not suffice. *)
Inductive outcome (A : Type) : Type :=
  | Done (s : State) (a : A)
  | Halted (s : State)
  | Undefined
  | OutOfFuel.
Arguments Done {A} s a.
Arguments Halted {A} s.
Arguments Undefined {A}.
Arguments OutOfFuel {A}.

Definition M (A : Type) : Type := State -> outcome A.

Definition ret {A} (a : A) : M A := fun s => Done s a.

Definition bind {A B} (c : M A) (k : A -> M B) : M B :=
  fun s =>
    match c s with
    | Done s' a => k a s'
    | Halted s' => Halted s'
    | Undefined => Undefined
    | OutOfFuel => OutOfFuel
    end.

Notation "'let*' x ':=' c 'in' k" := (bind c (fun x => k))
  (at level 10, x name, c at level 100, k at level 200).
Notation "c ';;' k" := (bind c (fun _ => k))
  (at level 100, k at level 200, right associativity).

Definition get : M State := fun s => Done s s.
Definition modify (f : State -> State) : M unit := fun s => Done (f s) tt.
Definition halt {A} : M A := fun s => Halted s.
Definition undefined {A} : M A := fun _ => Undefined.

(** Reading an object that has to exist. *)
Definition the {A} (o : option A) : M A :=
  match o with Some a => ret a | None => undefined end.

(** C truth value of an integer. *)
Definition truthy (x : Z) : bool := negb (x =? 0).

(** ** The allocator ([kmalloc], [kfree] and the pressure gauges) *)

Definition set_is_garbage (v : Z) (b : mem_block) : mem_block :=
  mkBlock (block_addr b) (block_ptr b) (block_size b) (allocation_id b)
    (owner b) v.

(** [(size + 7) & ~7] on [size_t]. *)
Definition align8 (size : Z) : Z := Z.land (u32 (size + 7)) 0xFFFFFFF8.

(** The tracking record written at [block] for the allocation [ptr]. *)
Definition track (block ptr size : Z) (s : State) : State :=
  set_allocation_counter (u32 (allocation_counter s + 1))
    (set_allocation_list
       (mkBlock block ptr size (allocation_counter s) NULL 0
          :: allocation_list s) s).

(** [kmalloc]: bump the offset, then obtain the tracking record by calling
    [kmalloc] again.  The record is kept as a typed object of
    [allocation_list]; its 24 bytes in the arena, and the two [print_hex]
    of a refused request, are not stored into [heap]. *)
Fixpoint kmalloc (fuel : nat) (size : Z) : M Z :=
  match fuel with
  | O => fun _ => OutOfFuel
  | S f =>
      let* s := get in
      if KERNEL_HEAP_SIZE <=? u32 (heap_offset s + size) then ret NULL
      else
        let ptr := u32 (kernel_heap + heap_offset s) in
        modify (set_heap_offset (u32 (heap_offset s + align8 size))) ;;
        let* block := kmalloc f sizeof_mem_block_t in
        if truthy block then modify (track block ptr size) ;; ret ptr
        else ret ptr
  end.

(** [(float)(KERNEL_HEAP_SIZE - heap_offset) / (float)KERNEL_HEAP_SIZE]. *)
Definition free_fraction (s : State) : float :=
  fdiv (float_of_Z (u32 (KERNEL_HEAP_SIZE - heap_offset s)))
       (float_of_Z KERNEL_HEAP_SIZE).

Definition get_system_memory_pressure (s : State) : float :=
  fsub f1 (free_fraction s).

(** [needed < free_space * 0.8f] in binary32.  With exactly 20480 free
    bytes the rounded product is 16384 and the test fails for two vectors;
    a build that compares the unrounded product passes it. *)
Definition can_afford_vector_copy (vector_count : Z) (s : State) : bool :=
  let needed := u32 (vector_count * MAX_DIMENSIONS * sizeof_float) in
  let free_space := u32 (KERNEL_HEAP_SIZE - heap_offset s) in
  flt (float_of_Z needed) (fmul (float_of_Z free_space) (float_lit 8 10)).

(** The [while] loop of [kfree]: the first record for [ptr] is flagged. *)
Fixpoint mark_garbage (ptr : Z) (l : list mem_block) : list mem_block :=
  match l with
  | [] => []
  | b :: r =>
      if block_ptr b =? ptr then set_is_garbage 1 b :: r
      else b :: mark_garbage ptr r
  end.

(** The test that makes [kfree] start a collection. *)
Definition under_pressure (s : State) : bool :=
  flt (free_fraction s) (float_lit 2 10).

(** ** Hypervectors *)

(** FNV-1a over the bytes read from the input. *)
Definition hash_data (input : list Z) : Z :=
  fold_left (fun h b => u32 (Z.lxor h b * 16777619)) input 2166136261.

(** The generator loop of [create_hyper_vector]; [i] is the dimension,
    [n] the number of dimensions left.  Which dimensions are set depends
    on the integer seed only; the value stored is computed in binary32,
    the operand being rounded at its conversion. *)
Fixpoint fill_dimensions (n : nat) (i ptr seed dims : Z) (m : memory)
  : Z * memory :=
  match n with
  | O => (dims, m)
  | S k =>
      let seed' := Z.land (u32 (seed * 1103515245 + 12345)) 0x7fffffff in
      if seed' mod 10 =? 0 then
        fill_dimensions k (i + 1) ptr seed' (u32 (dims + 1))
          (store_float m (ptr + sizeof_float * i)
             (fdiv (float_of_Z (u32 (seed' mod 2000 - 1000)))
                   (float_of_Z 1000)))
      else fill_dimensions k (i + 1) ptr seed' dims m
  end.

Definition create_hyper_vector (fuel : nat) (input : list Z) : M HyperVector :=
  let cap := INITIAL_DIMENSIONS in
  let* p := kmalloc fuel (u32 (cap * sizeof_float)) in
  if truthy p then
    let* s := get in
    let m0 := memset (heap s) p 0 (Z.to_nat (u32 (cap * sizeof_float))) in
    let r := fill_dimensions (Z.to_nat cap) 0 p (hash_data input) 0 m0 in
    let dims := fst r in
    let m1 := snd r in
    modify (set_heap m1) ;;
    ret (mkHyperVector p cap dims
           (hash_data (load_bytes m1 p (Z.to_nat (u32 (dims * sizeof_float)))))
           1)
  else ret (mkHyperVector NULL cap 0 0 0).

Definition copy_hyper_vector (fuel : nat) (src : HyperVector) : M HyperVector :=
  if negb (truthy (valid src)) || negb (truthy (data src)) then ret zero_vector
  else
    let n := u32 (capacity src * sizeof_float) in
    let* p := kmalloc fuel n in
    if truthy p then
      modify (fun s => set_heap (memcpy (heap s) p (data src) (Z.to_nat n)) s) ;;
      ret (mkHyperVector p (capacity src) (active_dims src) (hash_sig src) 1)
    else ret (mkHyperVector NULL (capacity src) (active_dims src) 0 0).

(** The accumulation loop of [compute_similarity]. *)
Fixpoint similarity_sums (n : nat) (i : Z) (m : memory) (pa pb : Z)
    (dot mag_a mag_b : float) : float * float * float :=
  match n with
  | O => (dot, mag_a, mag_b)
  | S k =>
      let x := load_float m (pa + sizeof_float * i) in
      let y := load_float m (pb + sizeof_float * i) in
      similarity_sums k (i + 1) m pa pb
        (fadd dot (fmul x y)) (fadd mag_a (fmul x x)) (fadd mag_b (fmul y y))
  end.

Definition compute_similarity (m : memory) (a b : HyperVector) : float :=
  if negb (truthy (valid a)) || negb (truthy (valid b))
     || negb (truthy (data a)) || negb (truthy (data b)) then f0
  else
    let min_dims :=
      if active_dims a <? active_dims b then active_dims a
      else active_dims b in
    if min_dims =? 0 then f0
    else
      let '(dot, mag_a, mag_b) :=
        similarity_sums (Z.to_nat min_dims) 0 m (data a) (data b) f0 f0 f0 in
      let mag_a := if flt f0 mag_a then sqrtf mag_a else f1 in
      let mag_b := if flt f0 mag_b then sqrtf mag_b else f1 in
      if flt (fmul mag_a mag_b) (float_lit 1 10000000000) then f0
      else fdiv dot (fmul mag_a mag_b).

(** ** Places that hold a [HyperVector]

    [destroy_hyper_vector] and [merge_hyper_vectors] work through a
    pointer; the places the kernel passes are the ones below. *)
Inductive vector_place : Type :=
  | EntityState (i : nat)
  | EntityTask (i : nat)
  | GenePattern (g : Z)
  | Thought (i : nat)
  | MemoryInput (i : nat)
  | MemoryOutput (i : nat).

Definition set_thought_space (v : list HyperVector)
    (c : CollectiveConsciousness) : CollectiveConsciousness :=
  mkCollective v (thought_count c) (global_coherence c).
Definition set_thought_count (v : Z)
    (c : CollectiveConsciousness) : CollectiveConsciousness :=
  mkCollective (thought_space c) v (global_coherence c).
Definition set_global_coherence (v : float)
    (c : CollectiveConsciousness) : CollectiveConsciousness :=
  mkCollective (thought_space c) (thought_count c) v.

Definition set_input_pattern (v : HyperVector) (e : MemoryEntry) : MemoryEntry :=
  mkMemoryEntry v (output_pattern e) (timestamp e) (entry_valid e).
Definition set_output_pattern (v : HyperVector) (e : MemoryEntry) : MemoryEntry :=
  mkMemoryEntry (input_pattern e) v (timestamp e) (entry_valid e).

Definition set_memory_pool (v : list MemoryEntry)
    (h : HolographicSystem) : HolographicSystem :=
  mkHolographicSystem v (memory_count h) (global_timestamp h).
Definition set_memory_count (v : Z)
    (h : HolographicSystem) : HolographicSystem :=
  mkHolographicSystem (memory_pool h) v (global_timestamp h).
Definition set_global_timestamp (v : Z)
    (h : HolographicSystem) : HolographicSystem :=
  mkHolographicSystem (memory_pool h) (memory_count h) v.

Definition load_vector (l : vector_place) (s : State) : option HyperVector :=
  match l with
  | EntityState i => state <$> entity_pool s !! i
  | EntityTask i => task_vector <$> entity_pool s !! i
  | GenePattern g => pattern <$> genes s !! g
  | Thought i => thought_space (collective s) !! i
  | MemoryInput i => input_pattern <$> memory_pool (holo_system s) !! i
  | MemoryOutput i => output_pattern <$> memory_pool (holo_system s) !! i
  end.

Definition alter_vector (f : HyperVector -> HyperVector) (l : vector_place)
    (s : State) : State :=
  match l with
  | EntityState i =>
      set_entity_pool
        (alter (fun e => set_state (f (state e)) e) i (entity_pool s)) s
  | EntityTask i =>
      set_entity_pool
        (alter (fun e => set_task_vector (f (task_vector e)) e) i
           (entity_pool s)) s
  | GenePattern g =>
      set_genes (alter (fun x => set_pattern (f (pattern x)) x) g (genes s)) s
  | Thought i =>
      set_collective
        (set_thought_space (alter f i (thought_space (collective s)))
           (collective s)) s
  | MemoryInput i =>
      set_holo_system
        (set_memory_pool
           (alter (fun e => set_input_pattern (f (input_pattern e)) e) i
              (memory_pool (holo_system s))) (holo_system s)) s
  | MemoryOutput i =>
      set_holo_system
        (set_memory_pool
           (alter (fun e => set_output_pattern (f (output_pattern e)) e) i
              (memory_pool (holo_system s))) (holo_system s)) s
  end.

(** The averaging loop of [merge_hyper_vectors]. *)
Fixpoint merge_loop (n : nat) (i : Z) (pd ps : Z) (m : memory) : memory :=
  match n with
  | O => m
  | S k =>
      let a := pd + sizeof_float * i in
      merge_loop k (i + 1) pd ps
        (store_float m a
           (fmul (fadd (load_float m a) (load_float m (ps + sizeof_float * i)))
                 (float_lit 1 2)))
  end.

Definition merge_hyper_vectors (dest : vector_place) (src : HyperVector)
  : M unit :=
  let* s := get in
  let* d := the (load_vector dest s) in
  if negb (truthy (valid d)) || negb (truthy (valid src)) then ret tt
  else
    let min_dims :=
      if active_dims d <? active_dims src then active_dims d
      else active_dims src in
    let m := merge_loop (Z.to_nat min_dims) 0 (data d) (data src) (heap s) in
    modify (set_heap m) ;;
    modify (alter_vector
              (set_hash_sig
                 (hash_data
                    (load_bytes m (data d)
                       (Z.to_nat (u32 (active_dims d * sizeof_float))))))
              dest).

(** ** Genes *)

Definition create_gene (fuel : nat) (nm : string) (pat : HyperVector) : M Z :=
  let* g := kmalloc fuel sizeof_Gene in
  if truthy g then
    let* p := copy_hyper_vector fuel pat in
    modify (fun s =>
      set_genes (<[g := mkGene p NULL 0 1 (strncpy nm 15)]> (genes s)) s) ;;
    ret g
  else ret NULL.

(** [add_gene_to_entity(&entity_pool[i], gene)]. *)
Definition add_gene_to_entity (i : nat) (gene : Z) : M unit :=
  let* s := get in
  let* e := the (entity_pool s !! i) in
  if negb (truthy gene) || (MAX_GENES_PER_ENTITY <=? gene_count e) then ret tt
  else
    let* _ := the (genes s !! gene) in
    modify (fun s => set_genes (alter (set_next (genome e)) gene (genes s)) s) ;;
    modify (fun s =>
      set_entity_pool
        (alter (fun e => set_gene_count (u32 (gene_count e + 1))
                           (set_genome gene e)) i (entity_pool s)) s).

(** ** Code that can re-enter the collector

    [kfree] starts [perform_emergent_garbage_collection] when less than a
    fifth of the arena is left, and the collector itself frees.  Everything
    from [kfree] up to the body of the collector is written against the
    collector [gc] it may call; the knot is tied below. *)

Definition alter_entity (i : nat) (f : Entity -> Entity) (s : State) : State :=
  set_entity_pool (alter f i (entity_pool s)) s.

(** [for (uint32_t i = 0; i < active_entity_count; i++) body]: the bound is
    read again at every iteration; [k] bounds the number of iterations. *)
Fixpoint for_entities (k : nat) (i : nat) (body : nat -> M unit) : M unit :=
  match k with
  | O => ret tt
  | S k' =>
      let* s := get in
      if Z.of_nat i <? active_entity_count s then
        body i ;; for_entities k' (S i) body
      else ret tt
  end.

(** The shift loop of a full FIFO: [a[i] = a[i + 1]] for [i < n - 1]. *)
Definition shift_down {A} (n : Z) (l : list A) : list A :=
  fold_left
    (fun l i => match l !! S i with Some v => <[i := v]> l | None => l end)
    (seq 0 (Z.to_nat (n - 1))) l.

(** [(holo_system.global_timestamp * entity->id) % 1000]. *)
Definition random_roll (s : State) (e : Entity) : Z :=
  u32 (global_timestamp (holo_system s) * id e) mod 1000.

Definition sacrifice_probability (e : Entity) : float :=
  let p := float_lit 5 100 in
  let p := fadd p (fmul (fsub f1 (confidence e)) (float_lit 2 10)) in
  let p := fadd p (fmul (fdiv (float_of_Z (age e)) (float_of_Z 10000))
                        (float_lit 3 10)) in
  fsub p (fmul (fdiv (float_of_Z (fitness_score e)) (float_of_Z 1000))
               (float_lit 4 10)).

(** [(uint32_t)(sacrifice_probability * 1000)], every step rounded to
    binary32; a build that keeps the sum in extended precision can arrive
    one below or above where the product is within a rounding error of an
    integer. *)
Definition sacrifice_threshold (e : Entity) : Z :=
  uint32_of_float (fmul (sacrifice_probability e) (float_of_Z 1000)).

Definition sacrifices (s : State) (e : Entity) : bool :=
  random_roll s e <? sacrifice_threshold e.

(** [compute_coherence]; the thoughts beyond [thought_count] are not read. *)
Definition compute_coherence (s : State) (thought : HyperVector) : float :=
  let c := collective s in
  if thought_count c =? 0 then f1
  else
    let '(coherence, valid_count) :=
      fold_left
        (fun acc t =>
           if truthy (valid t) then
             (fadd (fst acc) (compute_similarity (heap s) thought t),
              u32 (snd acc + 1))
           else acc)
        (take (Z.to_nat (thought_count c)) (thought_space c)) (f0, 0) in
    if truthy valid_count then fdiv coherence (float_of_Z valid_count)
    else f0.

Section Collector.

Variable fuel : nat.
Variable gc : M unit.

Definition kfree (ptr : Z) : M unit :=
  if truthy ptr then
    modify (fun s =>
      set_allocation_list (mark_garbage ptr (allocation_list s)) s) ;;
    let* s := get in
    if under_pressure s then gc else ret tt
  else ret tt.

(** [destroy_hyper_vector(vec)] for a vector at a place of the state: the
    fields are cleared through the pointer after [kfree] has returned. *)
Definition destroy_hyper_vector (l : vector_place) : M unit :=
  let* s := get in
  let* vec := the (load_vector l s) in
  if truthy (data vec) then
    kfree (data vec) ;;
    modify (alter_vector (fun v => set_valid 0 (set_data NULL v)) l)
  else ret tt.

(** [destroy_hyper_vector(&local)]. *)
Definition destroy_local (vec : HyperVector) : M HyperVector :=
  if truthy (data vec) then
    kfree (data vec) ;; ret (set_valid 0 (set_data NULL vec))
  else ret vec.

Fixpoint destroy_genome_from (k : nat) (current : Z) : M unit :=
  if truthy current then
    match k with
    | O => fun _ => OutOfFuel
    | S k' =>
        let* s := get in
        let* g := the (genes s !! current) in
        let nxt := next g in
        destroy_hyper_vector (GenePattern current) ;;
        kfree current ;;
        destroy_genome_from k' nxt
    end
  else ret tt.

Definition destroy_genome (genome : Z) : M unit :=
  destroy_genome_from fuel genome.

Definition broadcast_thought (thought : HyperVector) : M unit :=
  if negb (truthy (valid thought)) then ret tt
  else
    let* s := get in
    (if MAX_THOUGHTS <=? thought_count (collective s) then
       destroy_hyper_vector (Thought 0) ;;
       modify (fun s =>
         set_collective
           (set_thought_count (MAX_THOUGHTS - 1)
              (set_thought_space
                 (shift_down MAX_THOUGHTS (thought_space (collective s)))
                 (collective s))) s)
     else ret tt) ;;
    let* c := copy_hyper_vector fuel thought in
    let* s := get in
    let n := Z.to_nat (thought_count (collective s)) in
    let* _ := the (thought_space (collective s) !! n) in
    modify (fun s =>
      set_collective
        (set_thought_count (u32 (thought_count (collective s) + 1))
           (set_thought_space
              (<[n := set_valid 1 c]> (thought_space (collective s)))
              (collective s))) s) ;;
    let* s := get in
    let coherence := compute_coherence s thought in
    modify (fun s =>
      set_collective
        (set_global_coherence
           (fdiv (fadd (fmul (global_coherence (collective s))
                             (float_of_Z 9)) coherence)
                 (float_of_Z 10))
           (collective s)) s).

Definition encode_holographic_memory (input output : HyperVector) : M unit :=
  let* s := get in
  (if MAX_MEMORY_ENTRIES <=? memory_count (holo_system s) then
     destroy_hyper_vector (MemoryInput 0) ;;
     destroy_hyper_vector (MemoryOutput 0) ;;
     modify (fun s =>
       set_holo_system
         (set_memory_count (MAX_MEMORY_ENTRIES - 1)
            (set_memory_pool
               (shift_down MAX_MEMORY_ENTRIES (memory_pool (holo_system s)))
               (holo_system s))) s)
   else ret tt) ;;
  let* s := get in
  let n := Z.to_nat (memory_count (holo_system s)) in
  let* _ := the (memory_pool (holo_system s) !! n) in
  let* i := copy_hyper_vector fuel input in
  modify (fun s =>
    set_holo_system
      (set_memory_pool
         (alter (set_input_pattern i) n (memory_pool (holo_system s)))
         (holo_system s)) s) ;;
  let* o := copy_hyper_vector fuel output in
  modify (fun s =>
    let h := holo_system s in
    set_holo_system
      (mkHolographicSystem
         (alter (fun e => mkMemoryEntry (input_pattern e) o
                            (global_timestamp h) 1) n (memory_pool h))
         (u32 (memory_count h + 1))
         (u32 (global_timestamp h + 1))) s).

(** [propose_kernel_patch(&entity_pool[i], old, new, address)].  The
    patch is a local of the function: what remains of the proposal is the
    memory entry and the broadcast. *)
Definition propose_kernel_patch (i : nat) (old_pattern new_pattern : HyperVector)
    (addr : Z) : M unit :=
  let* p := copy_hyper_vector fuel old_pattern in
  let* r := copy_hyper_vector fuel new_pattern in
  let patch := mkKernelPatch p r addr 0 in
  encode_holographic_memory (patch_pattern patch) (replacement patch) ;;
  broadcast_thought (replacement patch).

(** The search for the weakest gene of a chain. *)
Fixpoint find_weakest (k : nat) (current prev weakest weakest_prev : Z)
  : M (Z * Z) :=
  if truthy current then
    match k with
    | O => fun _ => OutOfFuel
    | S k' =>
        let* s := get in
        let* g := the (genes s !! current) in
        let* better :=
          (if truthy weakest then
             let* w := the (genes s !! weakest) in
             ret (fitness g <? fitness w)
           else ret true) in
        if better then find_weakest k' (next g) current current prev
        else find_weakest k' (next g) current weakest weakest_prev
    end
  else ret (weakest, weakest_prev).

(** One iteration of the entity loop of the collector. *)
Definition collect_entity (i : nat) : M unit :=
  let* s := get in
  let* e := the (entity_pool s !! i) in
  if negb (truthy (is_active e)) then ret tt
  else if sacrifices s e then
    destroy_genome (genome e) ;;
    destroy_hyper_vector (EntityState i) ;;
    destroy_hyper_vector (EntityTask i) ;;
    modify (alter_entity i (fun e =>
      set_is_active 0 (set_gene_count 0 (set_genome NULL e))))
  else
    let* w := find_weakest fuel (genome e) NULL NULL NULL in
    let weakest_gene := fst w in
    let weakest_prev := snd w in
    if truthy weakest_gene && (1 <? gene_count e) then
      let* s := get in
      let* g := the (genes s !! weakest_gene) in
      (if truthy weakest_prev then
         let* _ := the (genes s !! weakest_prev) in
         modify (fun s =>
           set_genes (alter (set_next (next g)) weakest_prev (genes s)) s)
       else modify (alter_entity i (set_genome (next g)))) ;;
      destroy_hyper_vector (GenePattern weakest_gene) ;;
      kfree weakest_gene ;;
      modify (alter_entity i (fun e =>
        set_gene_count (u32 (gene_count e - 1)) e))
    else ret tt.

(** The body of [perform_emergent_garbage_collection]. *)
Definition collect : M unit :=
  let* pressure_thought :=
    create_hyper_vector fuel (bytes_of_string "SYSTEM_MEMORY_PRESSURE") in
  (if truthy (valid pressure_thought) then
     broadcast_thought pressure_thought ;;
     let* _ := destroy_local pressure_thought in ret tt
   else ret tt) ;;
  let* s := get in
  for_entities (Z.to_nat (active_entity_count s)) 0 collect_entity.

End Collector.

Fixpoint perform_emergent_garbage_collection (fuel : nat) : M unit :=
  match fuel with
  | O => fun _ => OutOfFuel
  | S f => collect f (perform_emergent_garbage_collection f)
  end.

(** ** Spawning *)

(** [spawn_entity]; the result is the index of the pool slot returned, or
    [None] for the [NULL] of a full pool. *)
Definition spawn_entity (fuel : nat) : M (option nat) :=
  let* s := get in
  if MAX_ENTITIES <=? active_entity_count s then ret None
  else
    let n := Z.to_nat (active_entity_count s) in
    let* _ := the (entity_pool s !! n) in
    modify (alter_entity n (fun e =>
      set_mutation_rate 100 (set_genome NULL (set_gene_count 0
        (set_is_mutant 1 (set_marked_for_gc 0 (set_spawn_count 0
          (set_fitness_score 0 (set_is_active 1 (set_interaction_count 0
            (set_age 0 (set_id (active_entity_count s) e)))))))))))) ;;
    let* v := create_hyper_vector fuel (cstring "TRAIT_EMERGENT") in
    modify (alter_entity n (set_state v)) ;;
    if negb (truthy (valid v)) then halt
    else
      let* emergent_gene := create_gene fuel "emergent" v in
      if negb (truthy emergent_gene) then halt
      else
        add_gene_to_entity n emergent_gene ;;
        modify (alter_entity n (fun e =>
          set_domain_name (strncpy "spawned" 31)
            (set_task_alignment f0
               (set_confidence (float_lit 1 2)
                  (set_resource_allocation f1
                     (set_specialization_scores
                        (replicate (Z.to_nat MAX_ENTITY_DOMAINS)
                           (float_lit 1 10)) e)))))) ;;
        modify (fun s =>
          set_active_entity_count (u32 (active_entity_count s + 1)) s) ;;
        ret (Some n).

(** ** The update cycle *)

(** What phase 1 leaves in the [next_*] arrays for one entity. *)
Record pending := mkPending {
  next_active : Z;
  next_state : HyperVector;
  next_domain : string;
  next_task_vector : HyperVector;
  next_path_id : Z;
  next_task_alignment : float
}.

Definition set_next_active (v : Z) (p : pending) : pending :=
  mkPending v (next_state p) (next_domain p) (next_task_vector p)
    (next_path_id p) (next_task_alignment p).
Definition set_next_state (v : HyperVector) (p : pending) : pending :=
  mkPending (next_active p) v (next_domain p) (next_task_vector p)
    (next_path_id p) (next_task_alignment p).
Definition set_next_domain (v : string) (p : pending) : pending :=
  mkPending (next_active p) (next_state p) v (next_task_vector p)
    (next_path_id p) (next_task_alignment p).
Definition set_next_task_vector (v : HyperVector) (p : pending) : pending :=
  mkPending (next_active p) (next_state p) (next_domain p) v
    (next_path_id p) (next_task_alignment p).

(** Size and field offset of [struct Entity] under the i386 ABI. *)
Definition sizeof_Entity : Z := 160.
Definition offsetof_is_active : Z := 40.

Section Update.

Variable fuel : nat.
Variable gc : M unit.

(** Address of the static [entity_pool] array (fixed by the linker). *)
Variable entity_pool_address : Z.

Definition age_one (i : nat) : M unit :=
  modify (alter_entity i (fun e => set_age (u32 (age e + 1)) e)).

(** The "listen to collective" loop for entity [i]. *)
Fixpoint resonate (k : nat) (t : nat) (i : nat) : M unit :=
  match k with
  | O => ret tt
  | S k' =>
      let* s := get in
      if Z.of_nat t <? thought_count (collective s) then
        let* e := the (entity_pool s !! i) in
        let* th := the (thought_space (collective s) !! t) in
        let similarity := compute_similarity (heap s) (state e) th in
        (if flt (float_lit 6 10) similarity then
           modify (alter_entity i (fun e =>
             set_fitness_score (u32 (fitness_score e + 2))
               (set_resource_allocation
                  (fadd (resource_allocation e) (float_lit 1 10))
                  (set_confidence
                     (fadd (confidence e)
                           (fmul (float_lit 5 100) similarity)) e)))) ;;
           merge_hyper_vectors (EntityState i) th
         else ret tt) ;;
        resonate k' (S t) i
      else ret tt
  end.

(** The self-modification trigger for entity [i]. *)
Definition self_modification (i : nat) : M unit :=
  let* s := get in
  let* e := the (entity_pool s !! i) in
  if flt (float_lit 8 10) (confidence e) && (50 <? fitness_score e)
     && (100 <? mutation_rate e) then
    let* before_state :=
      create_hyper_vector fuel (cstring "ENTITY_ACTIVE_FLAG") in
    let* after_state :=
      create_hyper_vector fuel (cstring "ENTITY_DORMANT_FLAG") in
    if truthy (valid before_state) && truthy (valid after_state) then
      let target_address :=
        u32 (entity_pool_address + sizeof_Entity * Z.of_nat i
             + offsetof_is_active) in
      propose_kernel_patch fuel gc i before_state after_state
        target_address ;;
      modify (alter_entity i (fun e =>
        set_fitness_score 0 (set_confidence (float_lit 1 2) e)))
    else ret tt
  else ret tt.

(** Phase 1 for entity [i]; the result is the content of the [next_*]
    arrays at index [i].  The [print_hex] calls of the two skip paths and
    of the reports are left out. *)
Definition evaluate_entity (pressure : float) (i : nat) : M pending :=
  let* s := get in
  let* e := the (entity_pool s !! i) in
  let p := mkPending (is_active e) zero_vector (strncpy (domain_name e) 31)
             zero_vector (path_id e) (task_alignment e) in
  if flt (float_lit 8 10) pressure && (fitness_score e <? 30) then
    age_one i ;;
    ret (set_next_task_vector (task_vector e) (set_next_state (state e) p))
  else if negb (can_afford_vector_copy 2 s) then
    age_one i ;;
    ret (set_next_task_vector (task_vector e) (set_next_state (state e) p))
  else
    let* ns := copy_hyper_vector fuel (state e) in
    let* nt := copy_hyper_vector fuel (task_vector e) in
    let p :=
      if negb (truthy (valid ns)) || negb (truthy (valid nt)) then
        set_next_task_vector (task_vector e) (set_next_state (state e) p)
      else set_next_task_vector nt (set_next_state ns p) in
    age_one i ;;
    let* s := get in
    resonate (Z.to_nat (thought_count (collective s))) 0 i ;;
    let* s := get in
    let* e := the (entity_pool s !! i) in
    let count := active_entity_count s in
    let prev_idx :=
      if Z.of_nat i =? 0 then u32 (count - 1) else Z.of_nat i - 1 in
    let next_idx :=
      if Z.of_nat i =? u32 (count - 1) then 0 else Z.of_nat i + 1 in
    let* ep := the (entity_pool s !! Z.to_nat prev_idx) in
    let* en := the (entity_pool s !! Z.to_nat next_idx) in
    let neighbor_active :=
      (if truthy (is_active ep) then 1 else 0)
      + (if truthy (is_active en) then 1 else 0) in
    if negb (truthy (is_active e)) && (0 <? neighbor_active) then
      let* v := create_hyper_vector fuel (cstring "TRAIT_ACTIVE") in
      let p := set_next_state v (set_next_active 1 p) in
      if negb (truthy (valid v)) then ret p
      else
        modify (alter_entity i (fun e =>
          set_fitness_score (u32 (fitness_score e + 5))
            (set_interaction_count (u32 (interaction_count e + 1)) e))) ;;
        broadcast_thought fuel gc v ;;
        self_modification i ;;
        ret (set_next_domain (strncpy "reactor" 31) p)
    else if truthy (is_active e) && (neighbor_active =? 0) then
      let* v := create_hyper_vector fuel (cstring "TRAIT_DORMANT") in
      let p := set_next_state v (set_next_active 0 p) in
      if negb (truthy (valid v)) then ret p
      else
        modify (alter_entity i (fun e =>
          set_interaction_count (u32 (interaction_count e + 1)) e)) ;;
        self_modification i ;;
        ret (set_next_domain (strncpy "sleeper" 31) p)
    else
      self_modification i ;;
      ret p.

(** The first loop of [update_entities]. *)
Fixpoint evaluate_entities (k : nat) (i : nat) (pressure : float)
    (acc : list pending) : M (list pending) :=
  match k with
  | O => ret acc
  | S k' =>
      let* s := get in
      if Z.of_nat i <? active_entity_count s then
        let* p := evaluate_entity pressure i in
        evaluate_entities k' (S i) pressure (acc ++ [p])
      else ret acc
  end.

(** Phase 2 for entity [i]. *)
Definition commit_entity (next : list pending) (i : nat) : M unit :=
  let* p := the (next !! i) in
  let* s := get in
  let* _ := the (entity_pool s !! i) in
  modify (alter_entity i (set_is_active (next_active p))) ;;
  let* s := get in
  let* e := the (entity_pool s !! i) in
  (if truthy (valid (next_state p))
      && negb (data (next_state p) =? data (state e)) then
     destroy_hyper_vector gc (EntityState i)
   else ret tt) ;;
  modify (alter_entity i (fun e =>
    set_domain_name (strncpy (next_domain p) 31)
      (set_state (next_state p) e))) ;;
  let* s := get in
  let* e := the (entity_pool s !! i) in
  (if truthy (valid (next_task_vector p))
      && negb (data (next_task_vector p) =? data (task_vector e)) then
     destroy_hyper_vector gc (EntityTask i)
   else ret tt) ;;
  modify (alter_entity i (fun e =>
    set_task_alignment (next_task_alignment p)
      (set_path_id (next_path_id p)
         (set_task_vector (next_task_vector p) e)))).

Definition update_entities : M unit :=
  let* s := get in
  let pressure := get_system_memory_pressure s in
  let* next :=
    evaluate_entities (Z.to_nat (active_entity_count s)) 0 pressure [] in
  let* s := get in
  for_entities (Z.to_nat (active_entity_count s)) 0 (commit_entity next).

End Update.

(** ** Applying a kernel patch *)

Definition set_applied (v : Z) (p : KernelPatch) : KernelPatch :=
  mkKernelPatch (patch_pattern p) (replacement p) (address p) v.

(** The copy loop of [apply_kernel_patch]; [n] iterations are left, [i] is
    the byte index and [limit] the [capacity * sizeof(float)] guard. *)
Fixpoint patch_copy (n : nat) (i : Z) (target src limit : Z) (m : memory)
  : memory :=
  match n with
  | O => m
  | S k =>
      if i <? limit then
        patch_copy k (i + 1) target src limit
          (store_byte m (target + i) (load_byte m (src + i)))
      else m
  end.

(** ** Observing an outcome *)

Definition returned {A} (o : outcome A) : option A :=
  match o with Done _ a => Some a | _ => None end.

Definition final_state {A} (o : outcome A) : option State :=
  match o with Done s _ => Some s | Halted s => Some s | _ => None end.

Definition is_halted {A} (o : outcome A) : bool :=
  match o with Halted _ => true | _ => false end.

(** * More of the kernel

    The functions below complete the embedding of the revision followed
    above: retrieval from the holographic memory, the two initialisers,
    the loading of the genome vocabulary, and the hexadecimal printer. *)

(** ** Retrieval from the holographic memory *)

(** [(int)x] for a [uint32_t] on i386. *)
Definition int_of_u32 (x : Z) : Z := if x <? 2 ^ 31 then x else x - 2 ^ 32.

(** The loop of [retrieve_holographic_memory], newest entry first; [n] is
    the number of entries still to inspect.  The result is the index of the
    entry whose [output_pattern] is returned, [None] for [NULL]. *)
Fixpoint retrieve_from (n : nat) (hash : Z) : M (option nat) :=
  match n with
  | O => ret None
  | S i =>
      let* s := get in
      let* e := the (memory_pool (holo_system s) !! i) in
      if truthy (entry_valid e) && (hash_sig (input_pattern e) =? hash)
      then ret (Some i)
      else retrieve_from i hash
  end.

Definition retrieve_holographic_memory (hash : Z) : M (option nat) :=
  let* s := get in
  if 0 <? memory_count (holo_system s) then
    let i := int_of_u32 (memory_count (holo_system s)) - 1 in
    if 0 <=? i then retrieve_from (Z.to_nat (i + 1)) hash else ret None
  else ret None.

(** ** Initialisation *)

Definition initialize_holographic_memory : M unit :=
  modify (fun s =>
    set_holo_system
      (mkHolographicSystem
         (map (fun e => mkMemoryEntry (input_pattern e) (output_pattern e)
                          (timestamp e) 0)
              (memory_pool (holo_system s)))
         0 0) s).

Definition initialize_collective_consciousness : M unit :=
  modify (fun s =>
    set_collective
      (mkCollective (map (set_valid 0) (thought_space (collective s))) 0 f0)
      s).

(** The vocabulary of [load_initial_genome_vocabulary]. *)
Definition vocab : list string :=
  ["ACTION_PRODUCE"; "ACTION_CONSUME"; "ACTION_SHARE"; "ACTION_ACTIVATE";
   "ACTION_DEACTIVATE"; "ACTION_SPAWN"; "TRAIT_GENERIC"; "TRAIT_ACTIVE";
   "TRAIT_DORMANT"; "SENSOR_NEIGHBOR_ACTIVE"; "SENSOR_MEMORY_MATCH";
   "GENOME_SIMPLE_RULE_1"; "GENOME_ADAPTIVE"; "GENOME_SOCIAL"]%string.

(** The loop of [load_initial_genome_vocabulary] over the words left. *)
Fixpoint load_words (fuel : nat) (gc : M unit) (words : list string)
  : M unit :=
  match words with
  | [] => ret tt
  | w :: rest =>
      let* pattern := create_hyper_vector fuel (cstring w) in
      if negb (truthy (valid pattern)) then halt
      else
        encode_holographic_memory fuel gc pattern pattern ;;
        broadcast_thought fuel gc pattern ;;
        load_words fuel gc rest
  end.

Definition load_initial_genome_vocabulary (fuel : nat) (gc : M unit)
  : M unit :=
  load_words fuel gc vocab.

(** ** Hexadecimal output *)

(** The digit loop of [print_hex]: [n] digits are still to be written,
    from the right; [acc] holds the digits written so far. *)
Fixpoint hex_digits (n : nat) (value : Z) (acc : list ascii) : list ascii :=
  match n with
  | O => acc
  | S k =>
      hex_digits k (Z.shiftr value 4)
        (nth (Z.to_nat (Z.land value 15))
           (list_ascii_of_string "0123456789ABCDEF") "0"%char :: acc)
  end.

(** [print_hex(value)]: the text handed to [print]. *)
Definition print_hex (value : Z) : list ascii :=
  "0"%char :: "x"%char :: hex_digits 8 value [].

(** ** The allocator of the "fixed metadata" revision

    This revision keeps the tracking records in a static array
    [metadata_pool] threaded into a free list; [kmalloc] takes the head of
    that list and never calls itself.  Records are named by their index in
    the array; a [NULL] link is [None]. *)
Module PoolAllocator.

Definition MAX_ALLOCATIONS : Z := 512.

Record mem_block_t := mkBlock {
  ptr : Z;
  size : Z;
  allocation_id : Z;
  owner : Z;
  is_garbage : Z;
  next : option nat
}.

Record State := mkState {
  heap_offset : Z;
  metadata_pool : list mem_block_t;
  free_metadata_list : option nat;
  allocation_list : option nat;
  allocation_counter : Z
}.

(** [(size + 3) & ~3] on [size_t]. *)
Definition align4 (size : Z) : Z := Z.land (u32 (size + 3)) 0xFFFFFFFC.

(** [initialize_metadata_pool]: every record points to its successor, the
    last one to [NULL]. *)
Definition initialize_metadata_pool (s : State) : State :=
  let n := Z.to_nat MAX_ALLOCATIONS in
  mkState (heap_offset s)
    (imap (fun i b =>
             mkBlock (ptr b) (size b) (allocation_id b) (owner b)
               (is_garbage b)
               (if Nat.eqb i (n - 1) then None else Some (S i)))
          (metadata_pool s))
    (Some O) (allocation_list s) (allocation_counter s).

(** [kmalloc]; [None] stands for a free-list pointer that is no record
    of the pool. *)
Definition kmalloc (sz : Z) (s : State) : option (State * Z) :=
  if sz =? 0 then Some (s, NULL)
  else
    let aligned_size := align4 sz in
    if KERNEL_HEAP_SIZE <=? u32 (heap_offset s + aligned_size) then
      Some (s, NULL)
    else
      match free_metadata_list s with
      | None => Some (s, NULL)
      | Some b =>
          blk ← metadata_pool s !! b;
          let p := u32 (kernel_heap + heap_offset s) in
          Some (mkState (u32 (heap_offset s + aligned_size))
                  (<[b := mkBlock p aligned_size (allocation_counter s)
                            NULL 0 (allocation_list s)]>
                     (metadata_pool s))
                  (next blk) (Some b)
                  (u32 (allocation_counter s + 1)),
                p)
      end.

(** The pool as the boot code leaves it. *)
Definition boot : State :=
  initialize_metadata_pool
    (mkState 0 (replicate (Z.to_nat MAX_ALLOCATIONS)
                  (mkBlock 0 0 0 0 0 None)) None None 0).

(** [n] successive allocations of [sz] bytes, results dropped. *)
Fixpoint allocate_many (n : nat) (sz : Z) (s : State) : option State :=
  match n with
  | O => Some s
  | S k => r ← kmalloc sz s; allocate_many k sz r.1
  end.

End PoolAllocator.

(** ** The text console

    [print_char] keeps its cursor in a [static uint16_t]; the screen is
    the memory-mapped text buffer at [VIDEO_MEMORY], two bytes per cell
    (character, attribute), 80 columns by 25 rows. *)
Module Console.

Definition VIDEO_MEMORY : Z := 0xb8000.

Definition u16 (x : Z) : Z := x mod 2 ^ 16.

Record State := mkConsole {
  cursor_pos : Z;
  video : memory
}.

(** The first loop of the scroll: [n] cells are still to be moved up,
    [i] is the cell index. *)
Fixpoint scroll_rows (n : nat) (i : Z) (m : memory) : memory :=
  match n with
  | O => m
  | S k =>
      let m1 := store_byte m (VIDEO_MEMORY + i * 2)
                  (load_byte m (VIDEO_MEMORY + (i + 80) * 2)) in
      let m2 := store_byte m1 (VIDEO_MEMORY + (i * 2 + 1))
                  (load_byte m1 (VIDEO_MEMORY + ((i + 80) * 2 + 1))) in
      scroll_rows k (i + 1) m2
  end.

(** The second loop: the last row is blanked. *)
Fixpoint blank_row (n : nat) (i : Z) (m : memory) : memory :=
  match n with
  | O => m
  | S k =>
      let m1 := store_byte m (VIDEO_MEMORY + (80 * 24 + i) * 2) 32 in
      let m2 := store_byte m1 (VIDEO_MEMORY + ((80 * 24 + i) * 2 + 1)) 0x0F in
      blank_row k (i + 1) m2
  end.

Definition print_char (c color : Z) (s : State) : State :=
  let s1 :=
    if c =? 10 then
      mkConsole (u16 ((cursor_pos s / 80 + 1) * 80)) (video s)
    else
      let pos_offset := u16 (cursor_pos s * 2) in
      mkConsole (u16 (cursor_pos s + 1))
        (store_byte
           (store_byte (video s) (VIDEO_MEMORY + pos_offset) c)
           (VIDEO_MEMORY + (pos_offset + 1)) color) in
  if 80 * 25 <=? cursor_pos s1 then
    mkConsole (80 * 24)
      (blank_row 80 0 (scroll_rows (80 * 24) 0 (video s1)))
  else s1.

(** [print(str)]: the characters up to the first NUL. *)
Fixpoint print (str : list Z) (s : State) : State :=
  match str with
  | [] => s
  | c :: rest =>
      if c =? 0 then s
      else print rest (print_char c 0x0F s)
  end.

End Console.

(** ** Decimal output

    [uint_to_str(num, buf, width)] of the revisions that report on the
    screen.  The buffer is the list of its [char]s; a write outside it has
    no defined result ([None]). *)
Module Text.

Definition poke (buf : list Z) (i : Z) (c : Z) : option (list Z) :=
  if (0 <=? i) && (i <? Z.of_nat (length buf))
  then Some (<[Z.to_nat i := c]> buf)
  else None.

(** [for (int i = 0; i < width; i++) buf[i] = ' ';] with [n] rounds left. *)
Fixpoint fill (n : nat) (i : Z) (buf : list Z) : option (list Z) :=
  match n with
  | O => Some buf
  | S k => b ← poke buf i 32; fill k (i + 1) b
  end.

(** [while (num > 0 && pos >= 0)]; every round lowers [pos], so [width]
    rounds of fuel are never used up. *)
Fixpoint write_digits (fuel : nat) (num pos : Z) (buf : list Z)
  : option (list Z) :=
  if (0 <? num) && (0 <=? pos) then
    match fuel with
    | O => None
    | S k =>
        b ← poke buf pos (48 + num mod 10);
        write_digits k (num / 10) (pos - 1) b
    end
  else Some buf.

Definition uint_to_str (num : Z) (buf : list Z) (width : Z)
  : option (list Z) :=
  b1 ← fill (Z.to_nat width) 0 buf;
  b2 ← poke b1 width 0;
  if num =? 0 then poke b2 (width - 1) 48
  else write_digits (Z.to_nat width) num (width - 1) b2.

End Text.

(** ** Predicates used in the statements *)


(** What [kmalloc] leaves alone: everything but its own bookkeeping. *)
Definition same_world (s s' : State) : Prop :=
  heap s' = heap s /\ genes s' = genes s /\ entity_pool s' = entity_pool s
  /\ active_entity_count s' = active_entity_count s
  /\ holo_system s' = holo_system s /\ collective s' = collective s.

(** The arena after a request was granted: the recursion for the tracking
    records has run until a record no longer fits. *)
Definition exhausted (s : State) : Prop :=
  0 <= heap_offset s < KERNEL_HEAP_SIZE + 8
  /\ KERNEL_HEAP_SIZE <= heap_offset s + sizeof_mem_block_t.

(** The fields of an entity the collector never writes: everything but
    [state], [task_vector], [genome], [gene_count] and [is_active]. *)
Definition same_traits (e e' : Entity) : Prop :=
  e' = set_state (state e') (set_task_vector (task_vector e')
         (set_genome (genome e') (set_gene_count (gene_count e')
            (set_is_active (is_active e') e)))).

(** A vector that was left alone or released. *)
Definition cleared (v v' : HyperVector) : Prop := v' = v \/ data v' = NULL.

(** A deactivated entity: no genome, no buffers. *)
Definition zeroed (e : Entity) : Prop :=
  is_active e = 0 /\ genome e = NULL /\ gene_count e = 0
  /\ data (state e) = NULL /\ data (task_vector e) = NULL.

(** What a stretch of collector code started in [s] may have done to one
    entity. *)
Definition collected (s : State) (e e' : Entity) : Prop :=
  same_traits e e'
  /\ cleared (state e) (state e')
  /\ cleared (task_vector e) (task_vector e')
  /\ (is_active e' = is_active e
      \/ (truthy (is_active e) = true /\ sacrifices s e = true /\ zeroed e'))
  /\ (truthy (is_active e) = false ->
      genome e' = genome e /\ gene_count e' = gene_count e).

Definition collection_step (s s' : State) : Prop :=
  active_entity_count s' = active_entity_count s
  /\ global_timestamp (holo_system s') = global_timestamp (holo_system s)
  /\ Forall2 (collected s) (entity_pool s) (entity_pool s').

(** Between [s] and [s'] the entities of the slots [lo <= j < hi] have aged
    by one tick, the others not at all; no identifier and no slot count
    has changed. *)
Definition aged (lo hi : nat) (s s' : State) : Prop :=
  active_entity_count s' = active_entity_count s
  /\ length (entity_pool s') = length (entity_pool s)
  /\ forall j e e',
       entity_pool s !! j = Some e -> entity_pool s' !! j = Some e' ->
       id e' = id e
       /\ age e' = if (lo <=? j)%nat && (j <? hi)%nat then u32 (age e + 1)
                   else age e.

(** ** The sacrifice rule in the words of the specification

    "compute p = 0.05 + (1 - confidence) x 0.2 + (age/10000) x 0.3 -
    (fitness_score/1000) x 0.4, clamp to [0,1], and draw a pseudo-random
    value from (global_tick x entity.id) mod 1000; if the draw falls below
    p x 1000, the entity is deactivated", over the rationals. *)
Definition Q_of_float (x : float) : Q :=
  match x with
  | S754_finite s m e =>
      ((if s then -1 else 1) * inject_Z (Zpos m) * Qpower 2 e)%Q
  | _ => 0%Q
  end.

Definition clamp01 (p : Q) : Q :=
  if Qle_bool p 0 then 0%Q else if Qle_bool 1 p then 1%Q else p.

Definition stated_probability (e : Entity) : Q :=
  clamp01 ((5 # 100) + (1 - Q_of_float (confidence e)) * (2 # 10)
           + (inject_Z (age e) / 10000) * (3 # 10)
           - (inject_Z (fitness_score e) / 1000) * (4 # 10))%Q.

Definition stated_sacrifice (s : State) (e : Entity) : Prop :=
  (inject_Z (random_roll s e) < stated_probability e * 1000)%Q.

(** [c] is a deep copy of [src]: a buffer of its own that holds in [m'] the
    bytes the buffer of [src] holds in [m], under the same header. *)
Definition deep_copy (m m' : memory) (src c : HyperVector) : Prop :=
  valid c = 1 /\ data c <> data src
  /\ capacity c = capacity src /\ active_dims c = active_dims src
  /\ hash_sig c = hash_sig src
  /\ forall j, 0 <= j < capacity src * sizeof_float ->
       load_byte m' (data c + j) = u8 (load_byte m (data src + j)).

(** Every pending state and task vector is the shallow carry-forward of
    the entity's own. *)
Definition shallow (next : list pending) (s : State) : Prop :=
  forall j p e,
    next !! j = Some p -> entity_pool s !! j = Some e ->
    data (next_state p) = data (state e)
    /\ data (next_task_vector p) = data (task_vector e).

(** ** Vector invariants *)

(** [hash_sig] is the hash of the active part of the buffer, as
    [create_hyper_vector] and [merge_hyper_vectors] compute it. *)
Definition hash_ok (m : memory) (v : HyperVector) : Prop :=
  hash_sig v
  = hash_data (load_bytes m (data v)
                 (Z.to_nat (u32 (active_dims v * sizeof_float)))).

(** The two memories agree outside the [len] bytes at [p]. *)
Definition same_outside (m m' : memory) (p len : Z) : Prop :=
  forall a, a < p \/ p + len <= a -> load_byte m' a = load_byte m a.

(** ** Gene chains *)

(** The singly linked list of genes that starts at address [a]: the
    addresses visited by following [next] up to [NULL]. *)
Inductive gene_chain (G : gmap Z Gene) : Z -> list Z -> Prop :=
  | chain_end : gene_chain G NULL []
  | chain_link (a : Z) (g : Gene) (l : list Z) :
      a <> NULL -> G !! a = Some g -> gene_chain G (next g) l ->
      gene_chain G a (a :: l).

(** The fitness stored at a gene address (0 where there is no gene). *)
Definition fitness_at (G : gmap Z Gene) (a : Z) : Z :=
  match G !! a with Some g => fitness g | None => 0 end.

(** What the scan of [find_weakest] has found after the genes [seen]:
    nothing yet, or the first gene of least fitness [w] together with its
    predecessor [wp]; [prev] is the gene visited last. *)
Definition scanned (G : gmap Z Gene) (seen : list Z) (prev w wp : Z) : Prop :=
  (seen = [] /\ prev = NULL /\ w = NULL /\ wp = NULL)
  \/ exists l1 l2,
       seen = l1 ++ w :: l2 /\ w <> NULL /\ is_Some (G !! w)
       /\ (forall a, a ∈ l1 -> fitness_at G w < fitness_at G a)
       /\ (forall a, a ∈ l2 -> fitness_at G w <= fitness_at G a)
       /\ wp = List.last l1 NULL /\ prev = List.last seen NULL.

(** ** The bump offset *)

(** From [s] to [s'] the offset has not moved back (and has stayed in the
    range the allocator keeps it in). *)
Definition forward (s s' : State) : Prop :=
  0 <= heap_offset s < KERNEL_HEAP_SIZE + 8 ->
  heap_offset s <= heap_offset s' < KERNEL_HEAP_SIZE + 8.

(** ** A tick without copies *)

(** What phase 1 of [update_entities] records for an entity that skips its
    update, and the entity as phase 2 then leaves it: one tick older, the
    domain name passed twice through [strncpy(.., 31)], everything else
    as it was. *)
Definition pending_of (e : Entity) : pending :=
  mkPending (is_active e) (state e) (strncpy (domain_name e) 31)
    (task_vector e) (path_id e) (task_alignment e).

Definition carried (e : Entity) : Entity :=
  set_domain_name (strncpy (strncpy (domain_name e) 31) 31)
    (set_age (u32 (age e + 1)) e).

(** ** Memory entries *)

(** The test of [retrieve_holographic_memory] on one entry. *)
Definition matches (hash : Z) (e : MemoryEntry) : bool :=
  truthy (entry_valid e) && (hash_sig (input_pattern e) =? hash).

(** [r] is the newest of the first [n] entries of the pool that matches
    [hash], or [None] if none of them does. *)
Definition newest_match (pool : list MemoryEntry) (n : nat) (hash : Z)
    (r : option nat) : Prop :=
  match r with
  | None => forall j e, (j < n)%nat -> pool !! j = Some e ->
                        matches hash e = false
  | Some i =>
      (i < n)%nat
      /\ (exists e, pool !! i = Some e /\ matches hash e = true)
      /\ forall j e, (i < j < n)%nat -> pool !! j = Some e ->
                     matches hash e = false
  end.

(** Reading hexadecimal text back: the value of one digit, and of a run of
    digits after the value [acc] of the digits before them. *)
Definition hex_digit_value (c : ascii) : option Z :=
  let n := Z.of_N (N_of_ascii c) in
  if (48 <=? n) && (n <=? 57) then Some (n - 48)
  else if (65 <=? n) && (n <=? 70) then Some (n - 55)
  else None.

Fixpoint hex_read (acc : Z) (l : list ascii) : option Z :=
  match l with
  | [] => Some acc
  | c :: rest =>
      match hex_digit_value c with
      | Some d => hex_read (acc * 16 + d) rest
      | None => None
      end
  end.

(** ** The screen *)

(** The cursor is on the screen. *)
Definition on_screen (s : Console.State) : Prop :=
  0 <= Console.cursor_pos s < 80 * 25.

(** The two bytes (character, attribute) of cell [j] of the screen. *)
Definition cell (m : memory) (j : Z) : Z * Z :=
  (load_byte m (Console.VIDEO_MEMORY + j * 2),
   load_byte m (Console.VIDEO_MEMORY + (j * 2 + 1))).

(** ** Reading decimal text back *)

(** The value of a run of decimal digits after the value [acc] of the
    digits before them; [None] when a character is no digit. *)
Fixpoint dec_digits (acc : Z) (l : list Z) : option Z :=
  match l with
  | [] => Some acc
  | c :: rest =>
      if (48 <=? c) && (c <=? 57) then dec_digits (acc * 10 + (c - 48)) rest
      else None
  end.

(** A right-aligned number: spaces, then at least one digit. *)
Fixpoint dec_read (l : list Z) : option Z :=
  match l with
  | [] => None
  | c :: rest => if c =? 32 then dec_read rest else dec_digits 0 l
  end.

(** The character [uint_to_str] shows for the decimal place [k] (place 0
    is the units): the digit of that place when the number reaches the
    place, or is zero at the units; a space otherwise. *)
Definition shown (num : Z) (k : nat) : Z :=
  if (0 <? num / 10 ^ Z.of_nat k) || ((num =? 0) && Nat.eqb k 0)
  then 48 + (num / 10 ^ Z.of_nat k) mod 10
  else 32.

(** ** Lists of tracking records *)

(** The records reached from the link [h] by following [next] up to
    [NULL], in order. *)
Inductive record_chain (pool : list PoolAllocator.mem_block_t)
  : option nat -> list nat -> Prop :=
  | record_chain_end : record_chain pool None []
  | record_chain_link (i : nat) (b : PoolAllocator.mem_block_t)
      (l : list nat) :
      pool !! i = Some b ->
      record_chain pool (PoolAllocator.next b) l ->
      record_chain pool (Some i) (i :: l).

(** The record of index [i] is flagged as garbage. *)
Definition flagged (pool : list PoolAllocator.mem_block_t) (i : nat) : bool :=
  match pool !! i with
  | Some b => truthy (PoolAllocator.is_garbage b)
  | None => false
  end.

(** ** The static tables *)

(** The entity pool, its count, the holographic memory and the collective
    are static objects of the kernel, outside the arena: [s'] has them as
    [s] has. *)
Definition statics_kept (s s' : State) : Prop :=
  entity_pool s' = entity_pool s
  /\ active_entity_count s' = active_entity_count s
  /\ holo_system s' = holo_system s /\ collective s' = collective s.

(** ** Finite checks *)

(** [P] holds of the [n] integers from [k] on. *)
Fixpoint holds_from (P : Z -> bool) (n : nat) (k : Z) : bool :=
  match n with
  | O => true
  | S n' => P k && holds_from P n' (k + 1)
  end.

(** * holographic_kernel.c

    The kernel of [holographic_kernel.c] allocates from a static array of
    128 KB by bumping an offset; it keeps no tracking records, [kfree] does
    nothing, and no function halts.  The address of the array is chosen by
    the linker: the functions below take it as [kernel_heap]. *)
Module HoloKernel.

Record Gene := mkGene {
  name : string;
  pattern : HyperVector;
  next : Z;
  fitness : float;
  mutable : Z
}.

Record State := mkState {
  heap_offset : Z;
  heap : memory;
  genes : gmap Z Gene;
  entity_pool : list Entity;
  active_entity_count : Z
}.

Definition set_heap_offset (v : Z) (s : State) : State :=
  mkState v (heap s) (genes s) (entity_pool s) (active_entity_count s).
Definition set_heap (v : memory) (s : State) : State :=
  mkState (heap_offset s) v (genes s) (entity_pool s) (active_entity_count s).
Definition set_genes (v : gmap Z Gene) (s : State) : State :=
  mkState (heap_offset s) (heap s) v (entity_pool s) (active_entity_count s).
Definition set_entity_pool (v : list Entity) (s : State) : State :=
  mkState (heap_offset s) (heap s) (genes s) v (active_entity_count s).
Definition set_active_entity_count (v : Z) (s : State) : State :=
  mkState (heap_offset s) (heap s) (genes s) (entity_pool s) v.

Definition alter_entity (i : nat) (f : Entity -> Entity) (s : State) : State :=
  set_entity_pool (alter f i (entity_pool s)) s.

(** [sizeof(kernel_heap)]. *)
Definition sizeof_kernel_heap : Z := 0x20000.

Section Arena.

Variable kernel_heap : Z.

Definition kmalloc (size : Z) (s : State) : Z * State :=
  if sizeof_kernel_heap <=? u32 (heap_offset s + size) then (NULL, s)
  else (u32 (kernel_heap + heap_offset s),
        set_heap_offset (u32 (heap_offset s + align8 size)) s).

Definition kfree (ptr : Z) (s : State) : State := s.

Definition create_hyper_vector (input : list Z) (s : State)
  : HyperVector * State :=
  let cap := INITIAL_DIMENSIONS in
  let '(p, s1) := kmalloc (u32 (cap * sizeof_float)) s in
  if truthy p then
    let m0 := memset (heap s1) p 0 (Z.to_nat (u32 (cap * sizeof_float))) in
    let r := fill_dimensions (Z.to_nat cap) 0 p (hash_data input) 0 m0 in
    (mkHyperVector p cap r.1
       (hash_data (load_bytes r.2 p (Z.to_nat (u32 (r.1 * sizeof_float)))))
       1,
     set_heap r.2 s1)
  else (mkHyperVector NULL cap 0 0 0, s1).


(** [create_gene(name, pattern)]: the pattern is stored by assignment. *)
Definition create_gene (nm : string) (pat : HyperVector) (s : State)
  : Z * State :=
  let '(g, s1) := kmalloc sizeof_Gene s in
  if truthy g then
    (g, set_genes (<[g := mkGene (strncpy nm 15) pat NULL f0 1]> (genes s1)) s1)
  else (NULL, s1).

(** [add_gene_to_entity(&entity_pool[i], gene)]; [gene_count] is a
    [uint8_t].  [None] stands for a pointer that is no slot of the pool,
    or no gene. *)
Definition add_gene_to_entity (i : nat) (gene : Z) (s : State)
  : option State :=
  e ← entity_pool s !! i;
  if negb (truthy gene) || (MAX_GENES_PER_ENTITY <=? gene_count e) then Some s
  else
    g ← genes s !! gene;
    Some (alter_entity i
            (fun e => set_gene_count (u8 (gene_count e + 1))
                        (set_genome gene e))
            (set_genes
               (<[gene := mkGene (name g) (pattern g) (genome e) (fitness g)
                            (mutable g)]> (genes s)) s)).

(** [spawn_entity]; the result is the index of the slot returned, [None]
    for the [NULL] of a full pool. *)
Definition spawn_entity (s : State) : option (option nat * State) :=
  if MAX_ENTITIES <=? active_entity_count s then Some (None, s)
  else
    let n := Z.to_nat (active_entity_count s) in
    _ ← entity_pool s !! n;
    let s1 := alter_entity n (fun e =>
      set_mutation_rate 100 (set_genome NULL (set_gene_count 0
        (set_is_mutant 1 (set_marked_for_gc 0 (set_spawn_count 0
          (set_fitness_score 0 (set_is_active 1 (set_interaction_count 0
            (set_age 0 (set_id (active_entity_count s) e))))))))))) s in
    let '(v, s2) := create_hyper_vector (cstring "TRAIT_EMERGENT") s1 in
    let s3 := alter_entity n (set_state v) s2 in
    let '(emergent_gene, s4) := create_gene "emergent" v s3 in
    s5 ← add_gene_to_entity n emergent_gene s4;
    let s6 := alter_entity n (fun e =>
      set_domain_name (strncpy "spawned" 31)
        (set_task_alignment f0
           (set_confidence (float_lit 1 2)
              (set_resource_allocation f1
                 (set_specialization_scores
                    (replicate (Z.to_nat MAX_ENTITY_DOMAINS)
                       (float_lit 1 10)) e))))) s5 in
    Some (Some n,
          set_active_entity_count (u32 (active_entity_count s6 + 1)) s6).

End Arena.

(** ** The holographic memory

    [encode_holographic_memory] and [retrieve_holographic_memory] touch
    the global [holo_system] only ([kfree] does nothing), so they are
    functions of that record.  [None] stands for an index outside
    [memory_pool]. *)

(** [destroy_hyper_vector(vec)]; the result is [*vec] after the call. *)
Definition destroy_hyper_vector (vec : HyperVector) : HyperVector :=
  if truthy (data vec) then set_valid 0 (set_data NULL vec) else vec.

Definition encode_holographic_memory (input output : HyperVector)
    (h : HolographicSystem) : option HolographicSystem :=
  let h1 :=
    if MAX_MEMORY_ENTRIES <=? memory_count h then
      mkHolographicSystem
        (shift_down MAX_MEMORY_ENTRIES
           (alter (fun e =>
                     set_output_pattern
                       (destroy_hyper_vector (output_pattern e))
                       (set_input_pattern
                          (destroy_hyper_vector (input_pattern e)) e))
              0%nat (memory_pool h)))
        (MAX_MEMORY_ENTRIES - 1) (global_timestamp h)
    else h in
  let n := Z.to_nat (memory_count h1) in
  _ ← memory_pool h1 !! n;
  Some (mkHolographicSystem
          (<[n := mkMemoryEntry input output (global_timestamp h1) 1]>
             (memory_pool h1))
          (u32 (memory_count h1 + 1))
          (u32 (global_timestamp h1 + 1))).

(** The loop of [retrieve_holographic_memory], newest entry first; [n]
    entries are still to be inspected. *)
Fixpoint retrieve_from (n : nat) (hash : Z) (h : HolographicSystem)
  : option (option nat) :=
  match n with
  | O => Some None
  | S i =>
      e ← memory_pool h !! i;
      if truthy (entry_valid e) && (hash_sig (input_pattern e) =? hash)
      then Some (Some i)
      else retrieve_from i hash h
  end.

(** The result is the index of the entry whose [output_pattern] is
    returned, [None] for [NULL]. *)
Definition retrieve_holographic_memory (hash : Z) (h : HolographicSystem)
  : option (option nat) :=
  let i := int_of_u32 (u32 (memory_count h - 1)) in
  if 0 <=? i then retrieve_from (Z.to_nat (i + 1)) hash h else Some None.

End HoloKernel.

(** ** Releasing and reclaiming in the "fixed metadata" revision

    [kfree] flags the record of a pointer; the second half of
    [perform_emergent_garbage_collection] walks the allocation list and
    returns every flagged record to the free list.  [None] stands for a
    link that is no record of the pool, or for a walk that does not end
    within the fuel (a cyclic list). *)
Module PoolCollector.

Import PoolAllocator.

Definition set_next (v : option nat) (b : mem_block_t) : mem_block_t :=
  mkBlock (ptr b) (size b) (allocation_id b) (owner b) (is_garbage b) v.
Definition set_is_garbage (v : Z) (b : mem_block_t) : mem_block_t :=
  mkBlock (ptr b) (size b) (allocation_id b) (owner b) v (next b).

Definition set_metadata_pool (v : list mem_block_t) (s : State) : State :=
  mkState (heap_offset s) v (free_metadata_list s) (allocation_list s)
    (allocation_counter s).
Definition set_free_metadata_list (v : option nat) (s : State) : State :=
  mkState (heap_offset s) (metadata_pool s) v (allocation_list s)
    (allocation_counter s).
Definition set_allocation_list (v : option nat) (s : State) : State :=
  mkState (heap_offset s) (metadata_pool s) (free_metadata_list s) v
    (allocation_counter s).

(** The test that makes [kfree] start a collection. *)
Definition under_pressure (s : State) : bool :=
  flt (fdiv (float_of_Z (u32 (KERNEL_HEAP_SIZE - heap_offset s)))
            (float_of_Z KERNEL_HEAP_SIZE))
      (float_lit 2 10).

Section Collector.

(** The collector [kfree] may start. *)
Variable gc : State -> option State.

Fixpoint kfree_loop (fuel : nat) (current : option nat) (p : Z) (s : State)
  : option State :=
  match current with
  | None => Some s
  | Some c =>
      match fuel with
      | O => None
      | S f =>
          blk ← metadata_pool s !! c;
          if ptr blk =? p then
            let s1 := set_metadata_pool
                        (alter (set_is_garbage 1) c (metadata_pool s)) s in
            if under_pressure s1 then gc s1 else Some s1
          else kfree_loop f (next blk) p s
      end
  end.

Definition kfree (fuel : nat) (p : Z) (s : State) : option State :=
  if negb (truthy p) then Some s
  else kfree_loop fuel (allocation_list s) p s.

End Collector.

(** The reclaim loop; [count] is [gc_metadata_count]. *)
Fixpoint reclaim_loop (fuel : nat) (current prev : option nat) (s : State)
    (count : Z) : option (State * Z) :=
  match current with
  | None => Some (s, count)
  | Some c =>
      match fuel with
      | O => None
      | S f =>
          blk ← metadata_pool s !! c;
          if truthy (is_garbage blk) then
            s1 ← match prev with
                 | Some p =>
                     _ ← metadata_pool s !! p;
                     Some (set_metadata_pool
                             (alter (set_next (next blk)) p (metadata_pool s))
                             s)
                 | None => Some (set_allocation_list (next blk) s)
                 end;
            blk1 ← metadata_pool s1 !! c;
            let s2 :=
              set_free_metadata_list (Some c)
                (set_metadata_pool
                   (alter (set_next (free_metadata_list s1)) c
                      (metadata_pool s1)) s1) in
            reclaim_loop f (next blk1) prev s2 (u32 (count + 1))
          else reclaim_loop f (next blk) (Some c) s count
      end
  end.

Definition reclaim_metadata (fuel : nat) (s : State) (count : Z)
  : option (State * Z) :=
  reclaim_loop fuel (allocation_list s) None s count.

End PoolCollector.

(** ** The kernel patch on the screen *)

(** [print_hex(value)] as the kernel sees it.  The text goes through
    [print]; the screen it is stored into is the memory-mapped buffer at
    [VIDEO_MEMORY], which lies inside the arena
    ([VIDEO_MEMORY = kernel_heap + 98304]), so its cells are bytes of
    [heap].  The cursor, a [static] of [print_char], is passed in and
    handed back. *)
Definition print_hex_at (value cursor_pos : Z) : M Z :=
  let* s := get in
  let c :=
    Console.print (map (fun ch => Z.of_nat (nat_of_ascii ch)) (print_hex value))
      (Console.mkConsole cursor_pos (heap s)) in
  modify (set_heap (Console.video c)) ;;
  ret (Console.cursor_pos c).

(** [apply_kernel_patch(patch)]; the result is the patch record and the
    cursor after the call.  The two rejections report on the serial line
    only, which stores nothing; the applied path ends with
    [print_hex(patch->address)]. *)
Definition apply_kernel_patch (patch : KernelPatch) (cursor_pos : Z)
  : M (KernelPatch * Z) :=
  if truthy (applied patch) then ret (patch, cursor_pos)
  else
    let total_size := u32 (active_dims (replacement patch) * sizeof_float) in
    if 1024 <? total_size then ret (patch, cursor_pos)
    else if (address patch <? u32 kernel_heap)
            || (u32 (kernel_heap + KERNEL_HEAP_SIZE) <=? address patch)
    then ret (patch, cursor_pos)
    else
      modify (fun s =>
        set_heap
          (patch_copy (Z.to_nat total_size) 0 (address patch)
             (data (replacement patch))
             (u32 (capacity (replacement patch) * sizeof_float)) (heap s)) s) ;;
      let* c := print_hex_at (address patch) cursor_pos in
      ret (set_applied 1 patch, c).

(** ** Concrete states used by the examples below *)

(** The pool allocator after 512 allocations of 16 bytes: every tracking
    record is in use, 8 KB of the 768 KB arena are taken. *)
Definition pool_exhausted : PoolAllocator.State :=
  Eval vm_compute in
    default PoolAllocator.boot
      (PoolAllocator.allocate_many 512 16 PoolAllocator.boot).

(** The invariant of the data model on a [HyperVector]: the populated
    prefix fits the buffer, and a buffer never has more than
    [MAX_DIMENSIONS] dimensions. *)
Definition vector_wf (v : HyperVector) : Prop :=
  0 <= active_dims v <= capacity v /\ capacity v <= MAX_DIMENSIONS.

Definition blank_entity : Entity :=
  mkEntity 0 zero_vector 0 0 0 0 0 [] f0 f0 "" zero_vector 0 f0 0 0 0 0 0.

Definition blank_entry : MemoryEntry := mkMemoryEntry zero_vector zero_vector 0 0.

(** The kernel right after [initialize_holographic_memory] and
    [initialize_collective_consciousness]: nothing allocated, no entity. *)
Definition boot_state : State :=
  mkState 0 [] 0 ∅ ∅
    (replicate (Z.to_nat MAX_ENTITIES) blank_entity) 0
    (mkHolographicSystem (replicate (Z.to_nat MAX_MEMORY_ENTRIES) blank_entry) 0 0)
    (mkCollective (replicate (Z.to_nat MAX_THOUGHTS) zero_vector) 0 f0).


Definition patch_state : State :=
  set_heap (memset ∅ (kernel_heap + 4096) 0xAB 16) boot_state.

(** The same patch with [active_dims = 2^30 + 4]: a payload of
    [4 * (2^30 + 4)] bytes, which is 16 modulo [2^32]. *)
Definition wrapped_patch : KernelPatch :=
  mkKernelPatch zero_vector
    (mkHyperVector (kernel_heap + 4096) 512 (2 ^ 30 + 4) 0 1)
    (kernel_heap + 16) 0.

(** Two kernels that differ in what was allocated before and in what the
    arena holds where the next buffer will be. *)
Definition early_state : State := set_heap_offset 780000 boot_state.

(** Fuel for a run that starts with an empty arena: the recursion of
    [kmalloc] is some 32768 calls deep there. *)
Definition ample_fuel : nat := Z.to_nat 33000.

(** The arena as the first granted request leaves it. *)
Definition filled_state : State := set_heap_offset 786416 boot_state.

(** A kernel under memory pressure with one active entity (slot 1, id 1,
    confidence 0.5) that owns two genes; the global tick is 999, so its
    roll is 999 against a threshold of 150 and it is not sacrificed. *)
Definition gene_a : Gene :=
  mkGene (mkHyperVector (kernel_heap + 4096) 512 3 77 1) NULL 5 1 "base".
Definition gene_b : Gene :=
  mkGene (mkHyperVector (kernel_heap + 8192) 512 3 78 1)
    (kernel_heap + 2048) 7 1 "social".
Definition two_gene_entity : Entity :=
  set_mutation_rate 50 (set_confidence (float_lit 1 2) (set_is_active 1
    (set_gene_count 2 (set_genome (kernel_heap + 2096)
       (set_id 1 blank_entity))))).
Definition pressured_state : State :=
  set_holo_system (set_global_timestamp 999 (holo_system boot_state))
    (set_active_entity_count 2
       (set_entity_pool (<[1%nat := two_gene_entity]> (entity_pool boot_state))
          (set_genes (<[kernel_heap + 2048 := gene_a]>
                        (<[kernel_heap + 2096 := gene_b]> ∅))
             filled_state))).

(** Scenario C of the specification on a freshly booted kernel: a single
    active entity with confidence 0.85, fitness 60 and mutation rate 150. *)
Definition eager_entity : Entity :=
  set_mutation_rate 150 (set_fitness_score 60
    (set_confidence (float_lit 85 100) (set_is_active 1 blank_entity))).
Definition scenario_c : State :=
  set_active_entity_count 1
    (set_entity_pool (<[0%nat := eager_entity]> (entity_pool boot_state))
       boot_state).

(** A kernel under pressure at tick 100 with two active entities that own
    nothing: slot 1 (id 1) rolls 100 and slot 2 (id 2) rolls 200 against a
    threshold of 150. *)
Definition bare_entity (n : Z) : Entity :=
  set_mutation_rate 50 (set_confidence (float_lit 1 2)
    (set_is_active 1 (set_id n blank_entity))).
Definition sacrifice_state : State :=
  set_holo_system (set_global_timestamp 100 (holo_system boot_state))
    (set_active_entity_count 3
       (set_entity_pool
          (<[2%nat := bare_entity 2]>
             (<[1%nat := bare_entity 1]> (entity_pool boot_state)))
          filled_state)).

(** The same kernel at tick 150 with the entity of slot 1 aged 17 ticks:
    its probability is 0.15051 and its roll is 150. *)
Definition truncation_state : State :=
  set_holo_system (set_global_timestamp 150 (holo_system boot_state))
    (set_active_entity_count 2
       (set_entity_pool
          (<[1%nat := set_age 17 (bare_entity 1)]> (entity_pool boot_state))
          filled_state)).

(** A kernel with room for one more buffer and three active entities: the
    entity of slot 0 is weak (fitness 10) and is skipped under pressure, the
    entity of slot 1 owns a state buffer and is fully evaluated, and by the
    time slot 2 is reached no copy can be afforded any more. *)
Definition update_state : State :=
  set_heap_offset 762432
    (set_active_entity_count 3
       (set_entity_pool
          (<[2%nat := set_age 9 (set_fitness_score 60 (bare_entity 2))]>
             (<[1%nat := set_age 7 (set_fitness_score 60
                 (set_state (mkHyperVector (kernel_heap + 1024) 512 3 77 1)
                    (bare_entity 1)))]>
                (<[0%nat := set_age 5 (set_fitness_score 10 (bare_entity 0))]>
                   (entity_pool boot_state))))
          boot_state)).

(** A collective whose buffer is full: the thought of slot [i] has hash
    [100 + i] and a 16-byte buffer at offset [4096 + 16 i] of the arena. *)
Definition full_collective : CollectiveConsciousness :=
  mkCollective
    (map (fun i => mkHyperVector (kernel_heap + 4096 + 16 * Z.of_nat i) 4 3
                     (100 + Z.of_nat i) 1)
         (seq 0 (Z.to_nat MAX_THOUGHTS)))
    MAX_THOUGHTS f1.

(** A thought of four dimensions whose buffer sits at offset 1024. *)
Definition fresh_thought : HyperVector :=
  mkHyperVector (kernel_heap + 1024) 4 3 7 1.

(** The full buffer in a kernel with most of the arena free, in a kernel
    whose arena is used up, and in a kernel with 11 % of the arena free. *)
Definition roomy_state : State :=
  set_collective full_collective
    (set_heap (store_float ∅ (kernel_heap + 1024) (float_lit 1 2))
       (set_heap_offset 8192 boot_state)).
Definition tight_state : State :=
  set_collective full_collective (set_heap_offset 700000 boot_state).

(** A kernel under pressure at tick 100 whose entity of slot 1 owns a state
    buffer and is due for sacrifice (roll 100 against a threshold of 150). *)
Definition doomed_state : State :=
  set_holo_system (set_global_timestamp 100 (holo_system boot_state))
    (set_active_entity_count 2
       (set_entity_pool
          (<[1%nat := set_state (mkHyperVector (kernel_heap + 1024) 512 3 77 1)
                        (bare_entity 1)]> (entity_pool boot_state))
          filled_state)).

(** The kernel of [pressured_state] with a third gene, not yet linked to
    any entity, at offset 3000 of the arena. *)
Definition spare_gene_state : State :=
  set_genes
    (<[kernel_heap + 3000 := mkGene zero_vector NULL 9 1 "new"]>
       (genes pressured_state)) pressured_state.

(** A holographic memory of three valid entries whose input hashes are 5,
    7 and 5 again. *)
Definition memory_state : State :=
  set_holo_system
    (mkHolographicSystem
       (<[2%nat := mkMemoryEntry (mkHyperVector 0 512 3 5 0)
                     (mkHyperVector 0 512 3 33 0) 2 1]>
          (<[1%nat := mkMemoryEntry (mkHyperVector 0 512 3 7 0)
                        (mkHyperVector 0 512 3 22 0) 1 1]>
             (<[0%nat := mkMemoryEntry (mkHyperVector 0 512 3 5 0)
                           (mkHyperVector 0 512 3 11 0) 0 1]>
                (memory_pool (holo_system boot_state)))))
       3 3) boot_state.

(** [holographic_kernel.c] after its static initialisers, with the heap
    array placed at 1 MB. *)
Definition holo_boot : HoloKernel.State :=
  HoloKernel.mkState 0 ∅ ∅
    (replicate (Z.to_nat MAX_ENTITIES) blank_entity) 0.



(** A full memory at tick 500. *)
Definition full_memory : HolographicSystem :=
  mkHolographicSystem
    (replicate (Z.to_nat MAX_MEMORY_ENTRIES)
       (mkMemoryEntry zero_vector zero_vector 0 1))
    MAX_MEMORY_ENTRIES 500.

(** A pool of four tracking records: the allocation list is 2, 1, 0, the
    record 1 is flagged as garbage, and the record 3 is free. *)
Definition small_pool : PoolAllocator.State :=
  PoolAllocator.mkState 48
    [PoolAllocator.mkBlock (kernel_heap + 0) 16 0 0 0 None;
     PoolAllocator.mkBlock (kernel_heap + 16) 16 1 0 1 (Some 0%nat);
     PoolAllocator.mkBlock (kernel_heap + 32) 16 2 0 0 (Some 1%nat);
     PoolAllocator.mkBlock 0 0 0 0 0 None]
    (Some 3%nat) (Some 2%nat) 3.

(** The same pool with two records in use, none flagged, and two free. *)
Definition clean_pool : PoolAllocator.State :=
  PoolAllocator.mkState 32
    [PoolAllocator.mkBlock (kernel_heap + 0) 16 0 0 0 None;
     PoolAllocator.mkBlock (kernel_heap + 16) 16 1 0 0 (Some 0%nat);
     PoolAllocator.mkBlock 0 0 0 0 0 (Some 3%nat);
     PoolAllocator.mkBlock 0 0 0 0 0 None]
    (Some 2%nat) (Some 1%nat) 2.

(** A kernel at tick 100 with 11 % of the arena free and a full thought
    buffer.  Slot 0 holds an inactive entity of fitness 30 that owns no
    vector; slot 1 holds an active entity that owns its state buffer and
    is due for sacrifice (roll 100 against a threshold of 150). *)
Definition stuck_state : State :=
  set_holo_system (set_global_timestamp 100 (holo_system boot_state))
    (set_active_entity_count 2
       (set_entity_pool
          (<[1%nat := set_state (mkHyperVector (kernel_heap + 1024) 512 3 77 1)
                        (bare_entity 1)]>
             (<[0%nat := set_fitness_score 30 blank_entity]>
                (entity_pool boot_state)))
          tight_state)).

(** * Properties *)

(** ** The pool allocator *)

Lemma pool_kmalloc_total (s : PoolAllocator.State) (sz : Z) (b : nat) :
  PoolAllocator.free_metadata_list s = Some b ->
  (b < length (PoolAllocator.metadata_pool s))%nat ->
  exists r, PoolAllocator.kmalloc sz s = Some r.
Proof.
  intros Hf Hb. unfold PoolAllocator.kmalloc.
  destruct (sz =? 0); [eauto|].
  destruct (KERNEL_HEAP_SIZE <=? _); [eauto|].
  rewrite Hf. apply lookup_lt_is_Some_2 in Hb as [blk ->]. simpl. eauto.
Qed.

(** C2.  In the pool revision a successful [kmalloc] takes its tracking
    record from the head of the free list of [metadata_pool]: the record is
    unlinked from the free list, filled in for the new allocation and linked
    at the head of the allocation list, and the arena offset advances by
    the aligned request only, so no arena space was spent on the record (no
    recursive allocation).  With an empty free list the call returns [NULL]
    and changes nothing, whatever space the arena still has. *)
Theorem pool_kmalloc_metadata_from_pool (s : PoolAllocator.State) (sz : Z) :
  (PoolAllocator.free_metadata_list s = None ->
   PoolAllocator.kmalloc sz s = Some (s, NULL))
  /\
  (forall s' p,
     PoolAllocator.kmalloc sz s = Some (s', p) -> p <> NULL ->
     exists b blk,
       PoolAllocator.free_metadata_list s = Some b
       /\ PoolAllocator.metadata_pool s !! b = Some blk
       /\ PoolAllocator.free_metadata_list s' = PoolAllocator.next blk
       /\ PoolAllocator.allocation_list s' = Some b
       /\ PoolAllocator.metadata_pool s'
          = <[b := PoolAllocator.mkBlock p (PoolAllocator.align4 sz)
                     (PoolAllocator.allocation_counter s) NULL 0
                     (PoolAllocator.allocation_list s)]>
              (PoolAllocator.metadata_pool s)
       /\ PoolAllocator.heap_offset s'
          = u32 (PoolAllocator.heap_offset s + PoolAllocator.align4 sz)
       /\ p = u32 (kernel_heap + PoolAllocator.heap_offset s)).
Proof.
  split.
  - intros Hf. unfold PoolAllocator.kmalloc. rewrite Hf.
    destruct (sz =? 0); [reflexivity|].
    destruct (KERNEL_HEAP_SIZE <=? _); reflexivity.
  - intros s' p H Hp. unfold PoolAllocator.kmalloc in H.
    destruct (sz =? 0); [injection H as <- <-; done|].
    destruct (KERNEL_HEAP_SIZE <=? _); [injection H as <- <-; done|].
    destruct (PoolAllocator.free_metadata_list s) as [b|] eqn:Hf;
      [|injection H as <- <-; done].
    destruct (PoolAllocator.metadata_pool s !! b) as [blk|] eqn:Hb;
      simpl in H; [|discriminate].
    injection H as <- <-. exists b, blk. simpl. auto 10.
Qed.

Lemma pool_kmalloc_metadata_from_pool_witness :
  PoolAllocator.free_metadata_list pool_exhausted = None
  /\ PoolAllocator.heap_offset pool_exhausted = 8192
  /\ PoolAllocator.kmalloc 16 pool_exhausted = Some (pool_exhausted, NULL)
  /\ exists b blk,
       PoolAllocator.free_metadata_list PoolAllocator.boot = Some b
       /\ PoolAllocator.metadata_pool PoolAllocator.boot !! b = Some blk
       /\ PoolAllocator.heap_offset
            (default (PoolAllocator.boot, 0)
               (PoolAllocator.kmalloc 16 PoolAllocator.boot)).1 = 16.
Proof.
  split; [reflexivity|]. split; [reflexivity|]. split.
  - apply (proj1 (pool_kmalloc_metadata_from_pool pool_exhausted 16)).
    reflexivity.
  - destruct (PoolAllocator.kmalloc 16 PoolAllocator.boot)
      as [[s' p]|] eqn:E; [|vm_compute in E; discriminate].
    destruct (proj2 (pool_kmalloc_metadata_from_pool PoolAllocator.boot 16)
                s' p E) as (b & blk & H1 & H2 & _ & _ & _ & H6 & _).
    + vm_compute in E. injection E as <- <-. discriminate.
    + exists b, blk. split; [exact H1|]. split; [exact H2|].
      simpl. rewrite H6. reflexivity.
Defined.

(** ** Applying a kernel patch *)

Lemma patch_copy_memcpy (n : nat) (i target src limit : Z) (m : memory) :
  i + Z.of_nat n <= limit ->
  patch_copy n i target src limit m = memcpy m (target + i) (src + i) n.
Proof.
  revert i m. induction n as [|n IH]; intros i m Hn; [reflexivity|].
  cbn [patch_copy memcpy].
  destruct (i <? limit) eqn:E; [|apply Z.ltb_ge in E; lia].
  rewrite IH by lia. f_equal; lia.
Qed.

Lemma u32_small (x : Z) : 0 <= x < 2 ^ 32 -> u32 x = x.
Proof. intros. unfold u32. apply Z.mod_small. lia. Qed.

(** ** Reasoning about calls *)

Lemma bind_Done {A B} (c : M A) (k : A -> M B) (s s' : State) (b : B) :
  bind c k s = Done s' b ->
  exists s1 a, c s = Done s1 a /\ k a s1 = Done s' b.
Proof.
  unfold bind. destruct (c s) as [s1 a| | |]; try discriminate. eauto.
Qed.

Lemma the_Done {A} (o : option A) (s s' : State) (a : A) :
  the o s = Done s' a -> o = Some a /\ s' = s.
Proof.
  destruct o; simpl; unfold ret, undefined; intros H; inversion H; auto.
Qed.

Lemma Done_inj {A} (s s' : State) (a a' : A) :
  Done s a = Done s' a' -> s = s' /\ a = a'.
Proof. intros H. injection H. auto. Qed.

(** Running a bind forwards. *)
Lemma bind_run {A B} (c : M A) (k : A -> M B) (s s1 : State) (a : A) :
  c s = Done s1 a -> bind c k s = k a s1.
Proof. intros H. unfold bind. rewrite H. reflexivity. Qed.

Lemma bind_stuck {A B} (c : M A) (k : A -> M B) (s : State) :
  c s = OutOfFuel -> bind c k s = OutOfFuel.
Proof. intros H. unfold bind. rewrite H. reflexivity. Qed.

(** Splits a hypothesis [c s = Done s' a] along the binds of [c]. *)
Ltac step_in H :=
  match type of H with
  | bind get _ _ = Done _ _ => unfold bind at 1, get at 1 in H
  | bind (modify _) _ _ = Done _ _ => unfold bind at 1, modify at 1 in H
  | bind (ret _) _ _ = Done _ _ => unfold bind at 1, ret at 1 in H
  | bind (the _) _ _ = Done _ _ =>
      let s1 := fresh "s" in let a := fresh "a" in
      let H1 := fresh "Hthe" in let e := fresh "E" in
      apply bind_Done in H as (s1 & a & H1 & H);
      apply the_Done in H1 as [e ->]
  | bind _ _ _ = Done _ _ =>
      let s1 := fresh "s" in let a := fresh "a" in let H1 := fresh "Hc" in
      apply bind_Done in H as (s1 & a & H1 & H)
  | ret _ _ = Done _ _ =>
      unfold ret in H; apply Done_inj in H as [? ?]; subst
  | modify _ _ = Done _ _ =>
      unfold modify in H; apply Done_inj in H as [? ?]; subst
  | halt _ = Done _ _ => discriminate H
  | undefined _ = Done _ _ => discriminate H
  | OutOfFuel = Done _ _ => discriminate H
  end.

(** Case analysis on the condition of the [if] at the head of [H]. *)
Ltac case_if_in H :=
  match type of H with
  | (if ?c then _ else _) _ = _ =>
      let E := fresh "Eif" in destruct c eqn:E
  end.

(** ** Bytes *)

Lemma load_store_byte (m : memory) (a a' b : Z) :
  load_byte (store_byte m a b) a' = if a =? a' then u8 b else load_byte m a'.
Proof.
  unfold load_byte, store_byte. destruct (a =? a') eqn:E.
  - apply Z.eqb_eq in E as ->. rewrite lookup_insert_eq. reflexivity.
  - apply Z.eqb_neq in E. rewrite lookup_insert_ne by exact E. reflexivity.
Qed.






(** ** The allocator does not touch the bytes of the arena *)

Lemma kmalloc_heap (fuel : nat) (n : Z) (s s' : State) (p : Z) :
  kmalloc fuel n s = Done s' p -> heap s' = heap s.
Proof.
  revert n s s' p. induction fuel as [|f IH]; intros n s s' p H;
    [discriminate|].
  cbn [kmalloc] in H. step_in H.
  destruct (KERNEL_HEAP_SIZE <=? _); [step_in H; reflexivity|].
  step_in H. step_in H. apply IH in Hc.
  destruct (truthy a); repeat step_in H; exact Hc.
Qed.

(** ** Hypervector creation *)


Lemma u32_range (x : Z) : 0 <= u32 x < 2 ^ 32.
Proof. unfold u32. apply Z.mod_pos_bound. lia. Qed.

Lemma u32_le (x : Z) : 0 <= x -> u32 x <= x.
Proof. intros. unfold u32. apply Z.mod_le; lia. Qed.

Lemma fill_dimensions_bound (n : nat) (i p seed dims : Z) (m : memory) :
  0 <= dims ->
  0 <= (fill_dimensions n i p seed dims m).1 <= dims + Z.of_nat n.
Proof.
  revert i seed dims m. induction n as [|n IH]; intros i seed dims m H.
  - cbn [fill_dimensions fst]. lia.
  - cbn [fill_dimensions]. destruct (_ mod 10 =? 0).
    + pose proof (u32_range (dims + 1)). pose proof (u32_le (dims + 1)).
      specialize (IH (i + 1) (Z.land (u32 (seed * 1103515245 + 12345)) 2147483647)
                     (u32 (dims + 1))
                     (store_float m (p + sizeof_float * i)
                        (fdiv (float_of_Z
                                 (u32 (Z.land (u32 (seed * 1103515245 + 12345))
                                         2147483647 mod 2000 - 1000)))
                              (float_of_Z 1000)))).
      lia.
    + specialize (IH (i + 1) (Z.land (u32 (seed * 1103515245 + 12345)) 2147483647)
                     dims m). lia.
Qed.


Lemma dimensions_count : Z.of_nat (Z.to_nat INITIAL_DIMENSIONS) = 512.
Proof. reflexivity. Qed.





(** ** The self-recursive allocator *)

Lemma same_world_refl (s : State) : same_world s s.
Proof. repeat split. Qed.

Lemma same_world_trans (s1 s2 s3 : State) :
  same_world s1 s2 -> same_world s2 s3 -> same_world s1 s3.
Proof.
  intros (A1 & A2 & A3 & A4 & A5 & A6) (B1 & B2 & B3 & B4 & B5 & B6).
  repeat split; congruence.
Qed.

Lemma kmalloc_same_world (fuel : nat) (n : Z) (s s' : State) (p : Z) :
  kmalloc fuel n s = Done s' p -> same_world s s'.
Proof.
  revert n s s' p. induction fuel as [|f IH]; intros n s s' p H;
    [discriminate|].
  cbn [kmalloc] in H. step_in H.
  destruct (KERNEL_HEAP_SIZE <=? _); [step_in H; apply same_world_refl|].
  step_in H. step_in H. apply IH in Hc.
  destruct (truthy a); repeat step_in H;
    (eapply same_world_trans; [|eapply same_world_trans; [exact Hc|]]);
    repeat split.
Qed.

(** A request that the bound check refuses has no effect at all. *)
Lemma kmalloc_refused (fuel : nat) (n : Z) (s : State) :
  KERNEL_HEAP_SIZE <= u32 (heap_offset s + n) ->
  kmalloc (S fuel) n s = Done s NULL.
Proof.
  intros H. cbn [kmalloc]. unfold bind, get.
  apply Z.leb_le in H. rewrite H. reflexivity.
Qed.

Lemma land_align8 (x : Z) :
  0 <= x < 2 ^ 32 -> Z.land x 4294967288 = 8 * (x / 8).
Proof.
  intros Hx.
  change 4294967288 with (Z.land (Z.lnot (Z.ones 3)) (Z.ones 32)).
  rewrite Z.land_assoc, <- Z.ldiff_land, Z.ldiff_ones_r by lia.
  rewrite Z.land_ones by lia.
  rewrite Z.shiftl_mul_pow2, Z.shiftr_div_pow2 by lia.
  change (2 ^ 3) with 8.
  pose proof (Z.div_mod x 8 ltac:(lia)).
  pose proof (Z.mod_pos_bound x 8 ltac:(lia)).
  rewrite Z.mod_small; lia.
Qed.

Lemma align8_bounds (n : Z) :
  0 <= n -> n + 7 < 2 ^ 32 -> n <= align8 n <= n + 7.
Proof.
  intros Hn Hlt. unfold align8. rewrite u32_small by lia.
  rewrite land_align8 by lia.
  pose proof (Z.div_mod (n + 7) 8 ltac:(lia)).
  pose proof (Z.mod_pos_bound (n + 7) 8 ltac:(lia)). lia.
Qed.

Lemma exhausted_track (block p n : Z) (s : State) :
  exhausted s -> exhausted (track block p n s).
Proof. intros H. exact H. Qed.

Lemma kmalloc_record_exhausts (fuel : nat) (s s' : State) (p : Z) :
  kmalloc fuel sizeof_mem_block_t s = Done s' p ->
  0 <= heap_offset s < KERNEL_HEAP_SIZE + 8 ->
  (p = NULL /\ s' = s /\ exhausted s) \/ (p <> NULL /\ exhausted s').
Proof.
  revert s s' p. induction fuel as [|f IH]; intros s s' p H Hh;
    [discriminate|].
  cbn [kmalloc] in H. step_in H.
  assert (Hu : u32 (heap_offset s + sizeof_mem_block_t)
               = heap_offset s + sizeof_mem_block_t)
    by (apply u32_small; unfold sizeof_mem_block_t, KERNEL_HEAP_SIZE in *; lia).
  rewrite Hu in H.
  destruct (KERNEL_HEAP_SIZE <=? _) eqn:E.
  - step_in H. left. apply Z.leb_le in E.
    repeat split; [lia|lia|exact E].
  - apply Z.leb_gt in E. step_in H. step_in H.
    change (align8 sizeof_mem_block_t) with sizeof_mem_block_t in Hc.
    rewrite Hu in Hc.
    apply IH in Hc;
      [|cbn [heap_offset set_heap_offset];
        unfold sizeof_mem_block_t, KERNEL_HEAP_SIZE in *; lia].
    right. destruct Hc as [(-> & -> & Hx)|(Hp & Hx)].
    + change (truthy NULL) with false in H; cbv iota in H. step_in H.
      split; [|exact Hx].
      rewrite u32_small
        by (unfold kernel_heap, KERNEL_HEAP_SIZE in *; lia).
      unfold kernel_heap, NULL. lia.
    + case_if_in H; repeat step_in H;
        (split; [|exact Hx]);
        (rewrite u32_small
           by (unfold kernel_heap, KERNEL_HEAP_SIZE in *; lia));
        unfold kernel_heap, NULL; lia.
Qed.

(** A granted request leaves the arena exhausted. *)
Lemma kmalloc_granted_exhausts (fuel : nat) (n : Z) (s s' : State) (p : Z) :
  kmalloc fuel n s = Done s' p ->
  0 <= heap_offset s -> 0 <= n -> heap_offset s + n < KERNEL_HEAP_SIZE ->
  p = kernel_heap + heap_offset s /\ exhausted s'.
Proof.
  intros H Hh Hn Hfit. destruct fuel as [|f]; [discriminate|].
  cbn [kmalloc] in H. step_in H.
  rewrite (u32_small (heap_offset s + n)) in H
    by (unfold KERNEL_HEAP_SIZE in *; lia).
  destruct (KERNEL_HEAP_SIZE <=? _) eqn:E; [apply Z.leb_le in E; lia|].
  step_in H. step_in H.
  pose proof (align8_bounds n Hn
                ltac:(unfold KERNEL_HEAP_SIZE in *; lia)) as Ha.
  assert (Hu : u32 (heap_offset s + align8 n) = heap_offset s + align8 n)
    by (apply u32_small; unfold KERNEL_HEAP_SIZE in *; lia).
  rewrite Hu in Hc.
  rewrite (u32_small (kernel_heap + heap_offset s)) in H
    by (unfold kernel_heap, KERNEL_HEAP_SIZE in *; lia).
  apply kmalloc_record_exhausts in Hc;
    [|cbn [heap_offset set_heap_offset]; lia].
  destruct Hc as [(-> & -> & Hx)|(Hp & Hx)].
  - change (truthy NULL) with false in H; cbv iota in H. step_in H.
    split; [reflexivity|exact Hx].
  - case_if_in H; repeat step_in H; (split; [reflexivity|exact Hx]).
Qed.

(** In an exhausted arena nothing of 24 bytes or more is granted. *)
Lemma kmalloc_exhausted (fuel : nat) (n : Z) (s : State) :
  exhausted s -> 0 <= heap_offset s ->
  sizeof_mem_block_t <= n -> n < 2 ^ 31 ->
  kmalloc (S fuel) n s = Done s NULL.
Proof.
  intros [[_ Hlt] Hge] Hh Hn Hn'. apply kmalloc_refused.
  rewrite u32_small; unfold KERNEL_HEAP_SIZE, sizeof_mem_block_t in *; lia.
Qed.

(** A request of an aligned size is either refused, without any effect, or
    granted at the current offset, and then the arena is exhausted. *)
Lemma kmalloc_aligned_cases (fuel : nat) (n : Z) (s s' : State) (p : Z) :
  align8 n = n ->
  kmalloc fuel n s = Done s' p ->
  (p = NULL /\ s' = s)
  \/ (p = u32 (kernel_heap + heap_offset s) /\ exhausted s').
Proof.
  intros Ha H. destruct fuel as [|f]; [discriminate|].
  cbn [kmalloc] in H. step_in H. rewrite Ha in H.
  destruct (KERNEL_HEAP_SIZE <=? _) eqn:E; [step_in H; left; split; reflexivity|].
  apply Z.leb_gt in E. step_in H. step_in H. right.
  pose proof (u32_range (heap_offset s + n)) as Hr.
  apply kmalloc_record_exhausts in Hc;
    [|cbn [heap_offset set_heap_offset]; lia].
  destruct Hc as [(-> & -> & Hx)|(Hp & Hx)].
  - change (truthy NULL) with false in H; cbv iota in H. step_in H.
    split; [reflexivity|exact Hx].
  - case_if_in H; repeat step_in H; (split; [reflexivity|exact Hx]).
Qed.

Lemma create_hyper_vector_valid (fuel : nat) (input : list Z) (s s' : State)
    (v : HyperVector) :
  create_hyper_vector fuel input s = Done s' v ->
  truthy (valid v) = true -> exhausted s'.
Proof.
  intros H Hv. unfold create_hyper_vector in H. step_in H.
  apply kmalloc_aligned_cases in Hc; [|reflexivity].
  case_if_in H.
  - step_in H. cbv zeta in H. step_in H. step_in H.
    destruct Hc as [[-> _]|[_ Hx]]; [discriminate|exact Hx].
  - step_in H. discriminate.
Qed.

Lemma create_gene_exhausted (fuel : nat) (nm : string) (pat : HyperVector)
    (s s' : State) (g : Z) :
  exhausted s -> create_gene fuel nm pat s = Done s' g -> g = NULL.
Proof.
  intros Hx H. unfold create_gene in H. step_in H.
  destruct fuel as [|f]; [discriminate|].
  rewrite kmalloc_exhausted in Hc;
    [|exact Hx|apply Hx|unfold sizeof_Gene, sizeof_mem_block_t; lia
     |unfold sizeof_Gene; lia].
  apply Done_inj in Hc as [<- <-].
  change (truthy NULL) with false in H; cbv iota in H. step_in H. reflexivity.
Qed.

Lemma exhausted_alter_entity (i : nat) (f : Entity -> Entity) (s : State) :
  exhausted s -> exhausted (alter_entity i f s).
Proof. intros H. exact H. Qed.

(** With room in the pool, [spawn_entity] never returns: the state vector
    cannot be allocated, or its allocation exhausts the arena and the gene
    cannot be allocated; either way the call ends in a fatal halt. *)
Theorem spawn_entity_never_returns (fuel : nat) (s s' : State)
    (r : option nat) :
  active_entity_count s < MAX_ENTITIES ->
  spawn_entity fuel s <> Done s' r.
Proof.
  intros Hroom H. unfold spawn_entity in H. step_in H.
  destruct (MAX_ENTITIES <=? active_entity_count s) eqn:E;
    [apply Z.leb_le in E; lia|].
  step_in H. step_in H. step_in H. step_in H.
  case_if_in H; [step_in H|].
  apply negb_false_iff in Eif.
  apply create_hyper_vector_valid in Hc; [|exact Eif].
  step_in H.
  apply create_gene_exhausted in Hc0; [|exact Hc]. subst.
  change (truthy NULL) with false in H. cbn [negb] in H. step_in H.
Qed.

(** ** What a collection may change *)

Lemma same_traits_refl (e : Entity) : same_traits e e.
Proof. destruct e. reflexivity. Qed.

Lemma same_traits_trans (e1 e2 e3 : Entity) :
  same_traits e1 e2 -> same_traits e2 e3 -> same_traits e1 e3.
Proof.
  unfold same_traits. intros H1 H2. rewrite H2 at 1. rewrite H1 at 1.
  reflexivity.
Qed.

Lemma same_traits_fields (e e' : Entity) :
  same_traits e e' ->
  id e' = id e /\ age e' = age e /\ confidence e' = confidence e
  /\ fitness_score e' = fitness_score e.
Proof. unfold same_traits. intros ->. repeat split. Qed.

Lemma same_traits_sacrifices (s s' : State) (e e' : Entity) :
  global_timestamp (holo_system s') = global_timestamp (holo_system s) ->
  same_traits e e' -> sacrifices s' e' = sacrifices s e.
Proof.
  intros Ht H. apply same_traits_fields in H as (Hi & Ha & Hc & Hf).
  unfold sacrifices, random_roll, sacrifice_threshold, sacrifice_probability.
  rewrite Ht, Hi, Ha, Hc, Hf. reflexivity.
Qed.

Lemma cleared_refl (v : HyperVector) : cleared v v.
Proof. left. reflexivity. Qed.

Lemma cleared_trans (v1 v2 v3 : HyperVector) :
  cleared v1 v2 -> cleared v2 v3 -> cleared v1 v3.
Proof. intros [->|H1] [->|H2]; unfold cleared; auto. Qed.

Lemma collected_refl (s : State) (e : Entity) : collected s e e.
Proof.
  split; [|split; [|split; [|split]]];
    auto using same_traits_refl, cleared_refl.
Qed.

Lemma collected_trans (s s' : State) (e1 e2 e3 : Entity) :
  global_timestamp (holo_system s') = global_timestamp (holo_system s) ->
  collected s e1 e2 -> collected s' e2 e3 -> collected s e1 e3.
Proof.
  intros Ht (T1 & S1 & K1 & A1 & I1) (T2 & S2 & K2 & A2 & I2).
  pose proof (same_traits_sacrifices s s' e1 e2 Ht T1) as Hs.
  split; [|split; [|split; [|split]]].
  - eapply same_traits_trans; eassumption.
  - eapply cleared_trans; eassumption.
  - eapply cleared_trans; eassumption.
  - destruct A1 as [A1|(Ha & Hsac & Z1)].
    + destruct A2 as [A2|(Ha & Hsac & Z2)].
      * left. congruence.
      * right. rewrite <- A1, <- Hs. auto.
    + right. split; [exact Ha|]. split; [exact Hsac|].
      destruct Z1 as (Z0 & Zg & Zc & Zs & Zt).
      assert (Hin : truthy (is_active e2) = false) by (rewrite Z0; reflexivity).
      destruct (I2 Hin) as [Hg Hc].
      assert (is_active e3 = 0).
      { destruct A2 as [A2|(Ha2 & _)]; [congruence|congruence]. }
      repeat split; try congruence.
      * destruct S2 as [->|S2]; assumption.
      * destruct K2 as [->|K2]; assumption.
  - intros Hin. destruct (I1 Hin) as [Hg Hc].
    assert (Hin2 : truthy (is_active e2) = false).
    { destruct A1 as [A1|(Ha & _)]; [rewrite A1; exact Hin|congruence]. }
    destruct (I2 Hin2). split; congruence.
Qed.

Lemma collection_step_refl (s : State) : collection_step s s.
Proof.
  repeat split. apply Forall2_same_length_lookup. split; [reflexivity|].
  intros i x y Hx Hy. rewrite Hx in Hy. injection Hy as <-.
  apply collected_refl.
Qed.

Lemma collection_step_trans (s1 s2 s3 : State) :
  collection_step s1 s2 -> collection_step s2 s3 -> collection_step s1 s3.
Proof.
  intros (C1 & T1 & F1) (C2 & T2 & F2). split; [congruence|].
  split; [congruence|].
  apply Forall2_same_length_lookup in F1 as [L1 F1].
  apply Forall2_same_length_lookup in F2 as [L2 F2].
  apply Forall2_same_length_lookup. split; [congruence|].
  intros i x z Hx Hz.
  destruct (lookup_lt_is_Some_2 (entity_pool s2) i) as [y Hy].
  { rewrite <- L1. eapply lookup_lt_Some. exact Hx. }
  eapply collected_trans; [exact T1|eapply F1|eapply F2]; eassumption.
Qed.

(** Code that leaves the entities, the slot count and the global tick
    alone. *)
Lemma collection_step_same (s s' : State) :
  entity_pool s' = entity_pool s ->
  active_entity_count s' = active_entity_count s ->
  global_timestamp (holo_system s') = global_timestamp (holo_system s) ->
  collection_step s s'.
Proof.
  intros Hp Hc Ht. split; [exact Hc|]. split; [exact Ht|]. rewrite Hp.
  apply (collection_step_refl s).
Qed.

Lemma same_world_collection_step (s s' : State) :
  same_world s s' -> collection_step s s'.
Proof.
  intros (_ & _ & Hp & Hc & Hh & _).
  apply collection_step_same; congruence.
Qed.

(** One entity rewritten in place. *)
Lemma collection_step_alter (s : State) (i : nat) (f : Entity -> Entity) :
  (forall e, entity_pool s !! i = Some e -> collected s e (f e)) ->
  collection_step s (alter_entity i f s).
Proof.
  intros H. repeat split. cbn [entity_pool alter_entity set_entity_pool].
  apply Forall2_alter_r.
  - apply (collection_step_refl s).
  - intros x y Hx Hy _. rewrite Hx in Hy. injection Hy as <-. apply H, Hx.
Qed.

Lemma create_hyper_vector_world (fuel : nat) (input : list Z) (s s' : State)
    (v : HyperVector) :
  create_hyper_vector fuel input s = Done s' v ->
  genes s' = genes s /\ entity_pool s' = entity_pool s
  /\ active_entity_count s' = active_entity_count s
  /\ holo_system s' = holo_system s /\ collective s' = collective s.
Proof.
  intros H. unfold create_hyper_vector in H. step_in H.
  apply kmalloc_same_world in Hc as (_ & W2 & W3 & W4 & W5 & W6).
  case_if_in H.
  - step_in H. cbv zeta in H. step_in H. step_in H. auto.
  - step_in H. auto.
Qed.

Lemma copy_hyper_vector_world (fuel : nat) (src : HyperVector) (s s' : State)
    (v : HyperVector) :
  copy_hyper_vector fuel src s = Done s' v ->
  genes s' = genes s /\ entity_pool s' = entity_pool s
  /\ active_entity_count s' = active_entity_count s
  /\ holo_system s' = holo_system s /\ collective s' = collective s.
Proof.
  intros H. unfold copy_hyper_vector in H. case_if_in H.
  - step_in H. auto.
  - cbv zeta in H. step_in H.
    apply kmalloc_same_world in Hc as (_ & W2 & W3 & W4 & W5 & W6).
    case_if_in H.
    + step_in H. step_in H. auto.
    + step_in H. auto.
Qed.

Lemma create_hyper_vector_step (fuel : nat) (input : list Z) (s s' : State)
    (v : HyperVector) :
  create_hyper_vector fuel input s = Done s' v -> collection_step s s'.
Proof.
  intros H. apply create_hyper_vector_world in H as (_ & Hp & Hc & Hh & _).
  apply collection_step_same; congruence.
Qed.

Lemma copy_hyper_vector_step (fuel : nat) (src : HyperVector) (s s' : State)
    (v : HyperVector) :
  copy_hyper_vector fuel src s = Done s' v -> collection_step s s'.
Proof.
  intros H. apply copy_hyper_vector_world in H as (_ & Hp & Hc & Hh & _).
  apply collection_step_same; congruence.
Qed.

Lemma alter_vector_clear_step (l : vector_place) (s : State) :
  collection_step s
    (alter_vector (fun v => set_valid 0 (set_data NULL v)) l s).
Proof.
  destruct l; try (apply collection_step_same; reflexivity).
  - apply collection_step_alter. intros e _.
    split; [|split; [|split; [|split]]]; auto using cleared_refl.
    + destruct e. reflexivity.
    + right. reflexivity.
  - apply collection_step_alter. intros e _.
    split; [|split; [|split; [|split]]]; auto using cleared_refl.
    + destruct e. reflexivity.
    + right. reflexivity.
Qed.

Lemma find_weakest_state (k : nat) (current prev weakest weakest_prev : Z)
    (s s' : State) (r : Z * Z) :
  find_weakest k current prev weakest weakest_prev s = Done s' r -> s' = s.
Proof.
  revert current prev weakest weakest_prev s.
  induction k as [|k IH]; intros current prev weakest weakest_prev s H.
  - cbn [find_weakest] in H. case_if_in H; [discriminate|].
    step_in H. reflexivity.
  - cbn [find_weakest] in H. case_if_in H; [|step_in H; reflexivity].
    step_in H. step_in H. step_in H.
    assert (s0 = s) as ->.
    { case_if_in Hc; repeat step_in Hc; reflexivity. }
    case_if_in H; apply IH in H; exact H.
Qed.

Section CollectorFrame.

Variable fuel : nat.
Variable gc : M unit.
Hypothesis gc_step : forall s s' u, gc s = Done s' u -> collection_step s s'.

Lemma kfree_step (ptr : Z) (s s' : State) (u : unit) :
  kfree gc ptr s = Done s' u -> collection_step s s'.
Proof.
  intros H. unfold kfree in H. case_if_in H.
  - step_in H. step_in H.
    eapply collection_step_trans;
      [|case_if_in H;
        [eapply gc_step; exact H|step_in H; apply collection_step_refl]].
    apply collection_step_same; reflexivity.
  - step_in H. apply collection_step_refl.
Qed.

Lemma destroy_hyper_vector_step (l : vector_place) (s s' : State) (u : unit) :
  destroy_hyper_vector gc l s = Done s' u -> collection_step s s'.
Proof.
  intros H. unfold destroy_hyper_vector in H. step_in H. step_in H.
  case_if_in H.
  - step_in H. step_in H. apply kfree_step in Hc.
    eapply collection_step_trans; [exact Hc|].
    apply alter_vector_clear_step.
  - step_in H. apply collection_step_refl.
Qed.

Lemma destroy_local_step (v v' : HyperVector) (s s' : State) :
  destroy_local gc v s = Done s' v' -> collection_step s s'.
Proof.
  intros H. unfold destroy_local in H. case_if_in H.
  - step_in H. step_in H. eapply kfree_step. exact Hc.
  - step_in H. apply collection_step_refl.
Qed.

Lemma destroy_genome_from_step (k : nat) (current : Z) (s s' : State)
    (u : unit) :
  destroy_genome_from gc k current s = Done s' u -> collection_step s s'.
Proof.
  revert current s. induction k as [|k IH]; intros current s H.
  - cbn [destroy_genome_from] in H. case_if_in H; [discriminate|].
    step_in H. apply collection_step_refl.
  - cbn [destroy_genome_from] in H.
    case_if_in H; [|step_in H; apply collection_step_refl].
    step_in H. step_in H. cbv zeta in H. step_in H. step_in H.
    apply destroy_hyper_vector_step in Hc. apply kfree_step in Hc0.
    apply IH in H.
    eapply collection_step_trans; [exact Hc|].
    eapply collection_step_trans; [exact Hc0|exact H].
Qed.

Lemma broadcast_thought_step (thought : HyperVector) (s s' : State)
    (u : unit) :
  broadcast_thought fuel gc thought s = Done s' u -> collection_step s s'.
Proof.
  intros H. unfold broadcast_thought in H.
  case_if_in H; [step_in H; apply collection_step_refl|].
  step_in H. step_in H.
  assert (Hfirst : collection_step s s0).
  { case_if_in Hc.
    - step_in Hc. step_in Hc. apply destroy_hyper_vector_step in Hc0.
      eapply collection_step_trans; [exact Hc0|].
      apply collection_step_same; reflexivity.
    - step_in Hc. apply collection_step_refl. }
  step_in H. apply copy_hyper_vector_step in Hc0.
  step_in H. step_in H. step_in H. step_in H. step_in H.
  eapply collection_step_trans; [exact Hfirst|].
  eapply collection_step_trans; [exact Hc0|].
  apply collection_step_same; reflexivity.
Qed.

(** After [destroy_hyper_vector] the vector at the place has no buffer. *)
Lemma destroy_hyper_vector_released (l : vector_place) (s s' : State)
    (u : unit) (v : HyperVector) :
  destroy_hyper_vector gc l s = Done s' u ->
  load_vector l s' = Some v -> data v = NULL.
Proof.
  intros H Hv. unfold destroy_hyper_vector in H. step_in H. step_in H.
  case_if_in H.
  - step_in H. step_in H. clear Hc.
    destruct l; cbn [load_vector alter_vector entity_pool set_entity_pool
      genes set_genes collective set_collective thought_space
      set_thought_space holo_system set_holo_system memory_pool
      set_memory_pool] in Hv;
      first [rewrite list_lookup_alter_eq in Hv
            |rewrite lookup_alter_eq in Hv];
      repeat match type of Hv with
        | context [?m !! ?k] => destruct (m !! k); cbn in Hv
        end;
      try discriminate; injection Hv as <-; reflexivity.
  - step_in H. rewrite E in Hv. injection Hv as <-.
    unfold truthy in Eif. apply negb_false_iff, Z.eqb_eq in Eif. exact Eif.
Qed.

Lemma collect_entity_step (i : nat) (s s' : State) (u : unit) :
  collect_entity fuel gc i s = Done s' u ->
  collection_step s s'
  /\ forall e, entity_pool s !! i = Some e -> sacrifices s e = true ->
       exists e', entity_pool s' !! i = Some e'
                  /\ truthy (is_active e') = false.
Proof.
  intros H. unfold collect_entity in H. step_in H. step_in H.
  rename a into e. rename E into He.
  case_if_in H.
  { (* inactive: skipped *)
    step_in H. split; [apply collection_step_refl|].
    intros e0 He0 _. exists e. split; [exact He|].
    rewrite He in He0. apply negb_true_iff in Eif. exact Eif. }
  apply negb_false_iff in Eif. rename Eif into Hact.
  case_if_in H.
  - (* sacrifice *)
    step_in H. step_in H. step_in H. step_in H.
    pose proof (destroy_genome_from_step _ _ _ _ _ Hc) as R1.
    pose proof (destroy_hyper_vector_step _ _ _ _ Hc0) as R2.
    pose proof (destroy_hyper_vector_step _ _ _ _ Hc1) as R3.
    pose proof (collection_step_trans _ _ _ R1
                  (collection_step_trans _ _ _ R2 R3)) as R.
    destruct R as (Rc & Rt & Rf).
    destruct (Forall2_lookup_l _ _ _ _ _ Rf He) as (y & Hy & Cy).
    (* the state buffer is gone since the second destroy *)
    assert (Hstate : data (state y) = NULL).
    { destruct R3 as (_ & _ & F3).
      destruct (Forall2_lookup_r _ _ _ _ _ F3 Hy) as (y2 & Hy2 & C2).
      assert (data (state y2) = NULL).
      { eapply destroy_hyper_vector_released; [exact Hc0|].
        cbn [load_vector]. rewrite Hy2. reflexivity. }
      destruct C2 as (_ & [->|S2] & _); assumption. }
    assert (Htask : data (task_vector y) = NULL).
    { eapply destroy_hyper_vector_released; [exact Hc1|].
      cbn [load_vector]. rewrite Hy. reflexivity. }
    split.
    + split; [exact Rc|]. split; [exact Rt|].
      cbn [entity_pool alter_entity set_entity_pool].
      apply Forall2_alter_r; [exact Rf|].
      intros x y' Hx Hy' (T & S & K & A & I).
      rewrite He in Hx. injection Hx as <-.
      rewrite Hy in Hy'. injection Hy' as <-.
      split; [|split; [|split; [|split]]].
      * unfold same_traits in *. cbn. rewrite T at 1. reflexivity.
      * exact S.
      * exact K.
      * right. split; [exact Hact|]. split; [exact Eif|].
        repeat split; assumption.
      * intros Hin. rewrite Hact in Hin. discriminate.
    + intros e0 He0 _.
      cbn [entity_pool alter_entity set_entity_pool].
      rewrite list_lookup_alter_eq, Hy. cbn. eexists. split; reflexivity.
  - (* weakest gene *)
    rename Eif into Hkeep.
    step_in H. apply find_weakest_state in Hc. subst s0.
    cbv zeta in H.
    case_if_in H.
    + step_in H. step_in H. step_in H. step_in H. step_in H. step_in H.
      assert (R0 : collection_step s s0).
      { case_if_in Hc.
        - step_in Hc. step_in Hc. apply collection_step_same; reflexivity.
        - step_in Hc. apply collection_step_alter. intros e0 He0.
          rewrite He in He0. injection He0 as <-.
          split; [|split; [|split; [|split]]]; auto using cleared_refl.
          + destruct e. reflexivity.
          + intros Hin. rewrite Hact in Hin. discriminate. }
      pose proof (destroy_hyper_vector_step _ _ _ _ Hc0) as R1.
      pose proof (kfree_step _ _ _ _ Hc1) as R2.
      pose proof (collection_step_trans _ _ _ R0
                    (collection_step_trans _ _ _ R1 R2)) as R.
      assert (Rlast : collection_step s2
                (alter_entity i
                   (fun e => set_gene_count (u32 (gene_count e - 1)) e) s2)).
      { apply collection_step_alter. intros y Hy.
        destruct R as (_ & _ & Rf).
        pose proof (Forall2_lookup_lr _ _ _ _ _ _ Rf He Hy)
          as (_ & _ & _ & A & _).
        assert (Ay : is_active y = is_active e).
        { destruct A as [A|(_ & Hs & _)]; [exact A|congruence]. }
        split; [|split; [|split; [|split]]]; auto using cleared_refl.
        + destruct y. reflexivity.
        + intros Hin. rewrite Ay, Hact in Hin. discriminate. }
      split; [eapply collection_step_trans; eassumption|].
      intros e0 He0 Hs. rewrite He in He0. injection He0 as <-. congruence.
    + step_in H. split; [apply collection_step_refl|].
      intros e0 He0 Hs. rewrite He in He0. injection He0 as <-. congruence.
Qed.

(** The entity loop of the collector: every slot it visits that passes
    the sacrifice test is inactive afterwards. *)
Lemma collect_entities_step (k i : nat) (s s' : State) (u : unit) :
  for_entities k i (collect_entity fuel gc) s = Done s' u ->
  collection_step s s'
  /\ forall j e, (i <= j < i + k)%nat ->
       Z.of_nat j < active_entity_count s ->
       entity_pool s !! j = Some e -> sacrifices s e = true ->
       exists e', entity_pool s' !! j = Some e'
                  /\ truthy (is_active e') = false.
Proof.
  revert i s. induction k as [|k IH]; intros i s H.
  - cbn [for_entities] in H. step_in H.
    split; [apply collection_step_refl|]. intros j e Hj. lia.
  - cbn [for_entities] in H. step_in H. case_if_in H.
    + step_in H. apply collect_entity_step in Hc as [R1 V1].
      apply IH in H as [R2 V2].
      split; [eapply collection_step_trans; eassumption|].
      intros j e Hj Hcount He Hs.
      destruct R1 as (Rc & Rt & Rf).
      destruct (Forall2_lookup_l _ _ _ _ _ Rf He) as (y & Hy & Cy).
      destruct (decide (j = i)) as [->|Hne].
      * destruct (V1 e He Hs) as (e1 & He1 & Hin1).
        rewrite Hy in He1. injection He1 as <-.
        destruct R2 as (_ & _ & Rf2).
        destruct (Forall2_lookup_l _ _ _ _ _ Rf2 Hy) as (z & Hz & Cz).
        exists z. split; [exact Hz|].
        destruct Cz as (_ & _ & _ & [A|(Ha & _)] & _);
          [rewrite A; exact Hin1|congruence].
      * apply (V2 j y); [lia|congruence|exact Hy|].
        rewrite (same_traits_sacrifices s s0 e y Rt); [exact Hs|apply Cy].
    + step_in H. split; [apply collection_step_refl|].
      intros j e Hj Hcount. apply Z.ltb_ge in Eif.
      (* the loop stopped at [i]: no slot at or beyond [i] is in range *)
      lia.
Qed.

Lemma collect_step (s s' : State) (u : unit) :
  collect fuel gc s = Done s' u ->
  collection_step s s'
  /\ forall j e, Z.of_nat j < active_entity_count s ->
       entity_pool s !! j = Some e -> sacrifices s e = true ->
       exists e', entity_pool s' !! j = Some e'
                  /\ truthy (is_active e') = false.
Proof.
  intros H. unfold collect in H. step_in H. step_in H. step_in H.
  pose proof (create_hyper_vector_step _ _ _ _ _ Hc) as R1.
  assert (R2 : collection_step s0 s1).
  { case_if_in Hc0.
    - step_in Hc0. step_in Hc0. step_in Hc0.
      apply broadcast_thought_step in Hc1.
      apply destroy_local_step in Hc2.
      eapply collection_step_trans; eassumption.
    - step_in Hc0. apply collection_step_refl. }
  pose proof (collection_step_trans _ _ _ R1 R2) as R.
  apply collect_entities_step in H as [R3 V].
  split; [eapply collection_step_trans; eassumption|].
  intros j e Hj He Hs. destruct R as (Rc & Rt & Rf).
  destruct (Forall2_lookup_l _ _ _ _ _ Rf He) as (y & Hy & Cy).
  apply (V j y); [lia|lia|exact Hy|].
  rewrite (same_traits_sacrifices s s1 e y Rt); [exact Hs|apply Cy].
Qed.

End CollectorFrame.

(** The collector, whatever the fuel. *)
Lemma collection_is_a_step (fuel : nat) (s s' : State) (u : unit) :
  perform_emergent_garbage_collection fuel s = Done s' u ->
  collection_step s s'.
Proof.
  revert s s' u. induction fuel as [|f IH]; intros s s' u H;
    [discriminate|].
  cbn [perform_emergent_garbage_collection] in H.
  eapply collect_step; [exact IH|exact H].
Qed.

(** The passes that complete.  In the arithmetic of this embedding
    (binary32, every operation rounded), an entity of the pool that was
    active when such a pass began is inactive afterwards exactly when its
    roll [(global_timestamp * id) mod 1000] is below the truncated product
    [(uint32_t)(p * 1000)]; and an entity so deactivated has
    [is_active = 0], [gene_count = 0], no genome and no state or task
    buffer.  A pass that sacrifices an entity owning a buffer under memory
    pressure is not among them (see [collection_of_owner]). *)
Lemma sacrifice_decision (fuel : nat) (s s' : State) (u : unit)
    (i : nat) (e : Entity) :
  perform_emergent_garbage_collection fuel s = Done s' u ->
  Z.of_nat i < active_entity_count s ->
  entity_pool s !! i = Some e ->
  truthy (is_active e) = true ->
  exists e',
    entity_pool s' !! i = Some e'
    /\ (truthy (is_active e') = false
        <-> u32 (global_timestamp (holo_system s) * id e) mod 1000
            < uint32_of_float
                (fmul
                   (fsub
                      (fadd
                         (fadd (float_lit 5 100)
                            (fmul (fsub f1 (confidence e)) (float_lit 2 10)))
                         (fmul (fdiv (float_of_Z (age e)) (float_of_Z 10000))
                            (float_lit 3 10)))
                      (fmul (fdiv (float_of_Z (fitness_score e))
                               (float_of_Z 1000)) (float_lit 4 10)))
                   (float_of_Z 1000)))
    /\ (truthy (is_active e') = false ->
        is_active e' = 0 /\ genome e' = NULL /\ gene_count e' = 0
        /\ data (state e') = NULL /\ data (task_vector e') = NULL).
Proof.
  intros H Hi He Hact. destruct fuel as [|f]; [discriminate|].
  cbn [perform_emergent_garbage_collection] in H.
  apply (collect_step f _ (collection_is_a_step f)) in H as [R V].
  destruct R as (_ & _ & Rf).
  destruct (Forall2_lookup_l _ _ _ _ _ Rf He) as (e' & He' & C).
  destruct C as (_ & _ & _ & A & _).
  exists e'. split; [exact He'|].
  change (u32 (global_timestamp (holo_system s) * id e) mod 1000 < _)
    with (random_roll s e < sacrifice_threshold e).
  split; [split|].
  - intros Hin. destruct A as [A|(_ & Hs & _)].
    + rewrite A, Hact in Hin. discriminate.
    + apply Z.ltb_lt. exact Hs.
  - intros Hlt. apply Z.ltb_lt in Hlt.
    destruct (V i e Hi He Hlt) as (e'' & He'' & Hin).
    rewrite He' in He''. injection He'' as <-. exact Hin.
  - intros Hin. destruct A as [A|(_ & _ & Z)].
    + rewrite A, Hact in Hin. discriminate.
    + exact Z.
Qed.

Lemma sacrifice_decision_example :
  match perform_emergent_garbage_collection 50 sacrifice_state with
  | Done s' _ =>
      (exists e1, entity_pool s' !! 1%nat = Some e1
                  /\ truthy (is_active e1) = false /\ gene_count e1 = 0)
      /\ (exists e2, entity_pool s' !! 2%nat = Some e2
                     /\ truthy (is_active e2) = true)
  | _ => False
  end.
Proof.
  assert (D : returned (perform_emergent_garbage_collection 50 sacrifice_state)
              = Some tt) by (vm_compute; reflexivity).
  destruct (perform_emergent_garbage_collection 50 sacrifice_state)
    as [s' u| | |] eqn:E; try discriminate D.
  split.
  - destruct (sacrifice_decision 50 sacrifice_state s' u 1 (bare_entity 1) E)
      as (e1 & H1 & Hiff & Hz); [reflexivity|reflexivity|reflexivity|].
    exists e1. split; [exact H1|].
    assert (Hin : truthy (is_active e1) = false)
      by (apply Hiff; vm_compute; reflexivity).
    split; [exact Hin|]. apply Hz. exact Hin.
  - destruct (sacrifice_decision 50 sacrifice_state s' u 2 (bare_entity 2) E)
      as (e2 & H2 & Hiff & _); [reflexivity|reflexivity|reflexivity|].
    exists e2. split; [exact H2|].
    destruct Hiff as [Hto _].
    destruct (truthy (is_active e2)); [reflexivity|].
    specialize (Hto eq_refl). vm_compute in Hto. discriminate Hto.
Qed.

(** The comparison is with the truncated product: at tick 150 the entity
    of slot 1 draws 150, which is below [p * 1000 = 150.51], and yet the
    pass leaves it active. *)
Lemma truncated_threshold_example :
  exists e,
    entity_pool truncation_state !! 1%nat = Some e
    /\ truthy (is_active e) = true
    /\ stated_sacrifice truncation_state e
    /\ (is_active <$>
        (final_state (perform_emergent_garbage_collection 50 truncation_state)
           ≫= fun s' => entity_pool s' !! 1%nat))
       = Some 1
    /\ returned (perform_emergent_garbage_collection 50 truncation_state)
       = Some tt.
Proof.
  exists (set_age 17 (bare_entity 1)).
  split; [reflexivity|]. split; [reflexivity|].
  split; [vm_compute; reflexivity|].
  split; vm_compute; reflexivity.
Qed.

(** ** A collection that does not end *)

Lemma destroy_genome_null (f : nat) (gc : M unit) (s : State) :
  destroy_genome f gc NULL s = Done s tt.
Proof. unfold destroy_genome. destruct f; reflexivity. Qed.

Lemma collect_entity_doomed (f : nat) (gc : M unit) :
  gc doomed_state = OutOfFuel ->
  collect_entity f gc 1 doomed_state = OutOfFuel.
Proof.
  intros Hg. unfold collect_entity.
  unfold bind at 1, get at 1.
  erewrite bind_run by reflexivity.
  change (negb (truthy (is_active _))) with false. cbv iota.
  replace (sacrifices doomed_state _) with true by (vm_compute; reflexivity).
  cbv iota.
  erewrite bind_run by apply destroy_genome_null.
  apply bind_stuck. unfold destroy_hyper_vector.
  unfold bind at 1, get at 1. erewrite bind_run by reflexivity.
  change (truthy (data _)) with true. cbv iota.
  apply bind_stuck. unfold kfree.
  change (truthy (data _)) with true. cbv iota.
  unfold bind at 1, modify at 1, bind at 1, get at 1.
  change (under_pressure _) with true. cbv iota.
  exact Hg.
Qed.

Lemma collect_doomed (f : nat) (gc : M unit) :
  gc doomed_state = OutOfFuel ->
  collect (S f) gc doomed_state = OutOfFuel.
Proof.
  intros Hg. unfold collect.
  erewrite bind_run;
    [|unfold create_hyper_vector; erewrite bind_run;
      [|apply kmalloc_exhausted;
        [repeat split; vm_compute; first [reflexivity|discriminate]|vm_compute; discriminate
        |vm_compute; discriminate|reflexivity]];
      reflexivity].
  change (truthy (valid _)) with false. cbv iota.
  erewrite bind_run by reflexivity.
  unfold bind at 1, get at 1.
  change (Z.to_nat (active_entity_count doomed_state)) with 2%nat.
  cbn [for_entities].
  unfold bind at 1, get at 1.
  change (Z.of_nat 0 <? active_entity_count doomed_state) with true. cbv iota.
  erewrite bind_run by reflexivity.
  unfold bind at 1, get at 1.
  change (Z.of_nat 1 <? active_entity_count doomed_state) with true. cbv iota.
  apply bind_stuck. apply collect_entity_doomed. exact Hg.
Qed.

(** The sacrifice of an entity that owns a buffer re-enters the collector
    from [kfree] before the entity is marked inactive and before the buffer
    pointer is cleared; the inner pass finds the same entity in the same
    state, and so on: no amount of fuel lets the pass return. *)
Lemma collection_recurses_without_end (fuel : nat) :
  perform_emergent_garbage_collection fuel doomed_state = OutOfFuel.
Proof.
  induction fuel as [|f IH]; [reflexivity|].
  cbn [perform_emergent_garbage_collection].
  destruct f as [|f]; [reflexivity|].
  apply collect_doomed. exact IH.
Qed.

(** ** Ageing *)

Lemma aged_empty (n m : nat) (s s' : State) :
  aged n n s s' -> aged m m s s'.
Proof.
  intros (C & L & F). split; [exact C|]. split; [exact L|].
  intros j e e' He He'. destruct (F j e e' He He') as [Hi Ha].
  split; [exact Hi|].
  replace ((n <=? j)%nat && (j <? n)%nat) with false in Ha
    by (symmetry; apply andb_false_iff;
        destruct (Nat.leb_spec n j); [right; apply Nat.ltb_ge; lia|left; reflexivity]).
  replace ((m <=? j)%nat && (j <? m)%nat) with false
    by (symmetry; apply andb_false_iff;
        destruct (Nat.leb_spec m j); [right; apply Nat.ltb_ge; lia|left; reflexivity]).
  exact Ha.
Qed.

Lemma aged_refl (n : nat) (s : State) : aged n n s s.
Proof.
  apply (aged_empty 0). split; [reflexivity|]. split; [reflexivity|].
  intros j e e' He He'. rewrite He in He'. injection He' as <-.
  split; reflexivity.
Qed.

Lemma aged_trans (lo mid hi : nat) (s1 s2 s3 : State) :
  (lo <= mid <= hi)%nat ->
  aged lo mid s1 s2 -> aged mid hi s2 s3 -> aged lo hi s1 s3.
Proof.
  intros Hm (C1 & L1 & F1) (C2 & L2 & F2).
  split; [congruence|]. split; [congruence|].
  intros j e e'' He He''.
  destruct (lookup_lt_is_Some_2 (entity_pool s2) j) as [e' He'].
  { rewrite L1. eapply lookup_lt_Some. exact He. }
  destruct (F1 j e e' He He') as [I1 A1].
  destruct (F2 j e' e'' He' He'') as [I2 A2].
  split; [congruence|]. rewrite A2, A1.
  destruct (Nat.leb_spec lo j), (Nat.ltb_spec j mid), (Nat.leb_spec mid j),
    (Nat.ltb_spec j hi); cbn [andb]; try reflexivity; lia.
Qed.

Lemma aged_then_same (lo hi : nat) (s1 s2 s3 : State) :
  aged lo hi s1 s2 -> aged 0 0 s2 s3 -> (lo <= hi)%nat -> aged lo hi s1 s3.
Proof.
  intros H1 H2 Hle. apply (aged_trans lo hi hi s1 s2 s3); [lia|exact H1|].
  apply (aged_empty 0). exact H2.
Qed.

Lemma same_then_aged (lo hi : nat) (s1 s2 s3 : State) :
  aged 0 0 s1 s2 -> aged lo hi s2 s3 -> (lo <= hi)%nat -> aged lo hi s1 s3.
Proof.
  intros H1 H2 Hle. apply (aged_trans lo lo hi s1 s2 s3); [lia| |exact H2].
  apply (aged_empty 0). exact H1.
Qed.

Lemma unaged_trans (s1 s2 s3 : State) :
  aged 0 0 s1 s2 -> aged 0 0 s2 s3 -> aged 0 0 s1 s3.
Proof. intros H1 H2. apply (aged_trans 0 0 0 s1 s2 s3); [lia|exact H1|exact H2]. Qed.

(** Code that leaves the pool and the slot count alone. *)
Lemma unaged_same (s s' : State) :
  entity_pool s' = entity_pool s ->
  active_entity_count s' = active_entity_count s -> aged 0 0 s s'.
Proof.
  intros Hp Hc. split; [exact Hc|]. rewrite Hp. split; [reflexivity|].
  intros j e e' He He'. rewrite He in He'. injection He' as <-.
  split; reflexivity.
Qed.

(** One entity rewritten, identifier and age kept. *)
Lemma unaged_alter (i : nat) (f : Entity -> Entity) (s : State) :
  (forall e, id (f e) = id e /\ age (f e) = age e) ->
  aged 0 0 s (alter_entity i f s).
Proof.
  intros Hf. split; [reflexivity|].
  cbn [entity_pool alter_entity set_entity_pool].
  split; [apply length_alter|].
  intros j e e' He He'. destruct (decide (i = j)) as [->|Hne].
  - rewrite list_lookup_alter_eq, He in He'. injection He' as <-.
    destruct (Hf e) as [-> ->]. split; reflexivity.
  - rewrite list_lookup_alter_ne, He in He' by exact Hne.
    injection He' as <-. split; reflexivity.
Qed.

Lemma collection_step_unaged (s s' : State) :
  collection_step s s' -> aged 0 0 s s'.
Proof.
  intros (C & _ & F). split; [exact C|].
  split; [symmetry; eapply Forall2_length; exact F|].
  intros j e e' He He'.
  destruct (Forall2_lookup_lr _ _ _ _ _ _ F He He') as (T & _).
  apply same_traits_fields in T as (Hi & Ha & _). split; assumption.
Qed.

Lemma age_one_aged (i : nat) (s s' : State) (u : unit) :
  age_one i s = Done s' u -> aged i (S i) s s'.
Proof.
  intros H. unfold age_one in H. step_in H.
  split; [reflexivity|].
  cbn [entity_pool alter_entity set_entity_pool].
  split; [apply length_alter|].
  intros j e e' He He'. destruct (decide (i = j)) as [->|Hne].
  - rewrite list_lookup_alter_eq, He in He'. injection He' as <-.
    split; [reflexivity|]. cbn [age set_age].
    replace ((j <=? j)%nat && (j <? S j)%nat) with true; [reflexivity|].
    symmetry. apply andb_true_iff. split;
      [apply Nat.leb_le|apply Nat.ltb_lt]; lia.
  - rewrite list_lookup_alter_ne, He in He' by exact Hne.
    injection He' as <-. split; [reflexivity|].
    replace ((i <=? j)%nat && (j <? S i)%nat) with false; [reflexivity|].
    symmetry. apply andb_false_iff.
    destruct (Nat.leb_spec i j); [right; apply Nat.ltb_ge; lia|left; reflexivity].
Qed.

(** Breaks every hypothesis about a finished computation into the calls it
    made. *)
Ltac explode :=
  repeat match goal with
    | H : bind _ _ _ = Done _ _ |- _ => step_in H
    | H : ret _ _ = Done _ _ |- _ => step_in H
    | H : modify _ _ = Done _ _ |- _ => step_in H
    | H : the _ _ = Done _ _ |- _ => apply the_Done in H as [? ->]
    | H : halt _ = Done _ _ |- _ => discriminate H
    | H : undefined _ = Done _ _ |- _ => discriminate H
    | H : OutOfFuel = Done _ _ |- _ => discriminate H
    | H : (if ?c then _ else _) _ = Done _ _ |- _ =>
        let E := fresh "Eif" in destruct c eqn:E
    end.

Lemma unaged_alter_vector (f : HyperVector -> HyperVector) (l : vector_place)
    (s : State) :
  aged 0 0 s (alter_vector f l s).
Proof.
  destruct l; try (apply unaged_same; reflexivity);
    apply (unaged_alter _ _ s); intros e; split; reflexivity.
Qed.

Create HintDb frame.

(** Walks back from the final state of a computation to its first one. *)
Ltac unaged_back :=
  repeat match goal with
    | |- aged 0 0 ?s ?s => apply aged_refl
    | |- aged 0 0 ?s (alter_entity ?i ?g ?t) =>
        apply (unaged_trans s t);
          [|apply unaged_alter; intros ?; split; reflexivity]
    | |- aged 0 0 ?s (alter_vector ?g ?l ?t) =>
        apply (unaged_trans s t); [|apply unaged_alter_vector]
    | |- aged 0 0 ?s (set_heap ?m ?t) =>
        apply (unaged_trans s t); [|apply unaged_same; reflexivity]
    | |- aged 0 0 ?s (set_collective ?m ?t) =>
        apply (unaged_trans s t); [|apply unaged_same; reflexivity]
    | |- aged 0 0 ?s (set_holo_system ?m ?t) =>
        apply (unaged_trans s t); [|apply unaged_same; reflexivity]
    | H : ?f ?t = Done ?s' _ |- aged 0 0 ?s ?s' =>
        apply (unaged_trans s t); [clear H|solve [eauto with frame]]
    end.

Lemma merge_hyper_vectors_unaged (dest : vector_place) (src : HyperVector)
    (s s' : State) (u : unit) :
  merge_hyper_vectors dest src s = Done s' u -> aged 0 0 s s'.
Proof.
  intros H. unfold merge_hyper_vectors in H. explode; unaged_back.
Qed.

Lemma create_hyper_vector_unaged (fuel : nat) (input : list Z) (s s' : State)
    (v : HyperVector) :
  create_hyper_vector fuel input s = Done s' v -> aged 0 0 s s'.
Proof.
  intros H. apply collection_step_unaged.
  eapply create_hyper_vector_step. exact H.
Qed.

Lemma copy_hyper_vector_unaged (fuel : nat) (src : HyperVector) (s s' : State)
    (v : HyperVector) :
  copy_hyper_vector fuel src s = Done s' v -> aged 0 0 s s'.
Proof.
  intros H. apply collection_step_unaged.
  eapply copy_hyper_vector_step. exact H.
Qed.

#[global] Hint Resolve merge_hyper_vectors_unaged create_hyper_vector_unaged
  copy_hyper_vector_unaged : frame.

Section UpdateFrame.

Variable fuel : nat.
Variable gc : M unit.
Variable entity_pool_address : Z.
Hypothesis gc_step : forall s s' u, gc s = Done s' u -> collection_step s s'.

Lemma destroy_hyper_vector_unaged (l : vector_place) (s s' : State)
    (u : unit) :
  destroy_hyper_vector gc l s = Done s' u -> aged 0 0 s s'.
Proof.
  intros H. apply collection_step_unaged.
  eapply destroy_hyper_vector_step; [exact gc_step|exact H].
Qed.

Lemma broadcast_thought_unaged (thought : HyperVector) (s s' : State)
    (u : unit) :
  broadcast_thought fuel gc thought s = Done s' u -> aged 0 0 s s'.
Proof.
  intros H. apply collection_step_unaged.
  eapply broadcast_thought_step; [exact gc_step|exact H].
Qed.

#[local] Hint Resolve destroy_hyper_vector_unaged broadcast_thought_unaged : frame.

Lemma encode_holographic_memory_unaged (input output : HyperVector)
    (s s' : State) (u : unit) :
  encode_holographic_memory fuel gc input output s = Done s' u ->
  aged 0 0 s s'.
Proof.
  intros H. unfold encode_holographic_memory in H. explode; unaged_back.
Qed.

#[local] Hint Resolve encode_holographic_memory_unaged : frame.

Lemma propose_kernel_patch_unaged (i : nat) (old_pattern new_pattern : HyperVector)
    (addr : Z) (s s' : State) (u : unit) :
  propose_kernel_patch fuel gc i old_pattern new_pattern addr s = Done s' u ->
  aged 0 0 s s'.
Proof.
  intros H. unfold propose_kernel_patch in H. explode; unaged_back.
Qed.

#[local] Hint Resolve propose_kernel_patch_unaged : frame.

Lemma resonate_unaged (k t i : nat) (s s' : State) (u : unit) :
  resonate k t i s = Done s' u -> aged 0 0 s s'.
Proof.
  revert t s. induction k as [|k IH]; intros t s H; cbn [resonate] in H.
  - explode. apply aged_refl.
  - step_in H. case_if_in H; [|explode; apply aged_refl].
    step_in H. step_in H. step_in H. apply IH in H.
    apply (unaged_trans s s0 s'); [|exact H].
    clear H. explode; unaged_back.
Qed.

#[local] Hint Resolve resonate_unaged : frame.

Lemma self_modification_unaged (i : nat) (s s' : State) (u : unit) :
  self_modification fuel gc entity_pool_address i s = Done s' u ->
  aged 0 0 s s'.
Proof.
  intros H. unfold self_modification in H. explode; unaged_back.
Qed.

#[local] Hint Resolve self_modification_unaged : frame.

Lemma commit_entity_unaged (next : list pending) (i : nat) (s s' : State)
    (u : unit) :
  commit_entity gc next i s = Done s' u -> aged 0 0 s s'.
Proof.
  intros H. unfold commit_entity in H. explode; unaged_back.
Qed.

Lemma commit_entities_unaged (next : list pending) (k i : nat)
    (s s' : State) (u : unit) :
  for_entities k i (commit_entity gc next) s = Done s' u -> aged 0 0 s s'.
Proof.
  revert i s. induction k as [|k IH]; intros i s H; cbn [for_entities] in H.
  - explode. apply aged_refl.
  - explode; [|apply aged_refl].
    apply commit_entity_unaged in Hc. apply IH in H.
    apply (unaged_trans s s0 s'); assumption.
Qed.

(** Walks back to the ageing step, which is the only one in an
    evaluation. *)
Ltac aged_back i :=
  repeat match goal with
    | H : age_one i ?t = Done ?s' _ |- aged i (S i) ?s ?s' =>
        apply (same_then_aged i (S i) s t s');
          [clear H; unaged_back|exact (age_one_aged i t s' _ H)|lia]
    | |- aged i (S i) ?s (alter_entity ?j ?g ?t) =>
        apply (aged_then_same i (S i) s t);
          [|apply unaged_alter; intros ?; split; reflexivity|lia]
    | H : ?f ?t = Done ?s' _ |- aged i (S i) ?s ?s' =>
        apply (aged_then_same i (S i) s t s');
          [clear H|solve [eauto with frame]|lia]
    end.

Lemma evaluate_entity_aged (pressure : float) (i : nat) (s s' : State)
    (p : pending) :
  evaluate_entity fuel gc entity_pool_address pressure i s = Done s' p ->
  aged i (S i) s s'.
Proof.
  intros H. unfold evaluate_entity in H. explode; aged_back i.
Qed.

Lemma evaluate_entities_aged (k i : nat) (pressure : float)
    (acc : list pending) (s s' : State) (r : list pending) :
  evaluate_entities fuel gc entity_pool_address k i pressure acc s
    = Done s' r ->
  exists hi : nat,
    aged i hi s s' /\ (i <= hi)%nat
    /\ (hi = (i + k)%nat \/ active_entity_count s <= Z.of_nat hi)
    /\ ((i < hi)%nat -> Z.of_nat hi <= active_entity_count s).
Proof.
  revert i acc s. induction k as [|k IH]; intros i acc s H;
    cbn [evaluate_entities] in H.
  - explode. exists i. split; [apply aged_refl|]. split; [lia|].
    split; [left; lia|lia].
  - step_in H. case_if_in H.
    + step_in H. apply evaluate_entity_aged in Hc.
      apply IH in H as (hi & Ha & Hle & Hend & Hin).
      pose proof Hc as (Hcount & _).
      apply Z.ltb_lt in Eif.
      exists hi. split; [|split; [lia|split; [|]]].
      * apply (aged_trans i (S i) hi s s0 s'); [lia|exact Hc|exact Ha].
      * rewrite Hcount in Hend. destruct Hend as [->|Hend];
          [left; lia|right; exact Hend].
      * intros _. rewrite Hcount in Hin.
        destruct (decide (S i = hi)) as [<-|Hne]; [lia|apply Hin; lia].
    + explode. apply Z.ltb_ge in Eif. exists i.
      split; [apply aged_refl|]. split; [lia|]. split; [right; exact Eif|lia].
Qed.

Lemma update_entities_aged (s s' : State) (u : unit) :
  update_entities fuel gc entity_pool_address s = Done s' u ->
  aged 0 (Z.to_nat (active_entity_count s)) s s'.
Proof.
  intros H. unfold update_entities in H.
  step_in H. step_in H. step_in H.
  apply evaluate_entities_aged in Hc as (hi & Ha & _ & Hend & Hin).
  apply commit_entities_unaged in H.
  assert (Hhi : hi = Z.to_nat (active_entity_count s)).
  { destruct Hend as [->|Hend]; [reflexivity|].
    destruct (decide (0 < hi)%nat) as [Hpos|Hz]; [specialize (Hin Hpos); lia|].
    lia. }
  rewrite <- Hhi.
  apply (aged_then_same 0 hi s s0 s'); [exact Ha|exact H|lia].
Qed.

End UpdateFrame.

(** ** A tick that cannot afford copies returns *)

Section Starved.

Variable fuel : nat.
Variable gc : M unit.
Variable entity_pool_address : Z.

Lemma evaluate_entity_starved (pressure : float) (i : nat) (s : State)
    (e : Entity) :
  entity_pool s !! i = Some e ->
  can_afford_vector_copy 2 s = false ->
  exists p,
    evaluate_entity fuel gc entity_pool_address pressure i s
    = Done (alter_entity i (fun e => set_age (u32 (age e + 1)) e) s) p
    /\ next_state p = state e /\ next_task_vector p = task_vector e.
Proof.
  intros He Ha. unfold evaluate_entity.
  unfold bind at 1, get at 1.
  erewrite bind_run by (rewrite He; reflexivity).
  cbv zeta.
  destruct (flt (float_lit 8 10) pressure && (fitness_score e <? 30)).
  - eexists. split; [reflexivity|]. split; reflexivity.
  - rewrite Ha. cbn [negb].
    eexists. split; [reflexivity|]. split; reflexivity.
Qed.

Lemma shallow_age (next : list pending) (i : nat) (s : State) :
  shallow next s ->
  shallow next (alter_entity i (fun e => set_age (u32 (age e + 1)) e) s).
Proof.
  intros Hs j p e' Hp He'.
  cbn [entity_pool alter_entity set_entity_pool] in He'.
  destruct (decide (i = j)) as [->|Hne].
  - rewrite list_lookup_alter_eq in He'.
    destruct (entity_pool s !! j) as [e|] eqn:He; [|discriminate].
    injection He' as <-. exact (Hs j p e Hp He).
  - rewrite list_lookup_alter_ne in He' by exact Hne.
    exact (Hs j p e' Hp He').
Qed.

Lemma evaluate_entities_starved (k i : nat) (pressure : float)
    (acc : list pending) (s : State) :
  can_afford_vector_copy 2 s = false ->
  active_entity_count s <= Z.of_nat (length (entity_pool s)) ->
  length acc = i -> shallow acc s ->
  exists s' next,
    evaluate_entities fuel gc entity_pool_address k i pressure acc s
    = Done s' next
    /\ active_entity_count s' = active_entity_count s
    /\ length (entity_pool s') = length (entity_pool s)
    /\ shallow next s'
    /\ (active_entity_count s <= Z.of_nat (i + k) ->
        active_entity_count s <= Z.of_nat (length next)).
Proof.
  revert i acc s. induction k as [|k IH]; intros i acc s Ha Hwf Hlen Hsh;
    cbn [evaluate_entities].
  - exists s, acc. split; [reflexivity|]. split; [reflexivity|].
    split; [reflexivity|]. split; [exact Hsh|]. lia.
  - unfold bind at 1, get at 1.
    destruct (Z.ltb_spec (Z.of_nat i) (active_entity_count s)) as [Hlt|Hge].
    + destruct (lookup_lt_is_Some_2 (entity_pool s) i ltac:(lia)) as [e He].
      destruct (evaluate_entity_starved pressure i s e He Ha)
        as (p & Hrun & Hps & Hpt).
      erewrite bind_run by exact Hrun.
      set (s1 := alter_entity i _ s) in *.
      destruct (IH (S i) (acc ++ [p]) s1) as (s' & next & Hgo & Hc & Hl & Hn & Hcov).
      * exact Ha.
      * subst s1. cbn [active_entity_count entity_pool alter_entity
                       set_entity_pool]. rewrite length_alter. exact Hwf.
      * rewrite length_app. cbn [length]. lia.
      * intros j q e' Hq He'. subst s1.
        cbn [entity_pool alter_entity set_entity_pool] in He'.
        destruct (decide (j = i)) as [->|Hne].
        -- rewrite lookup_app_r in Hq by lia.
           replace (i - length acc)%nat with 0%nat in Hq by lia.
           injection Hq as <-. rewrite list_lookup_alter_eq, He in He'.
           injection He' as <-. rewrite Hps, Hpt. split; reflexivity.
        -- rewrite list_lookup_alter_ne in He' by congruence.
           assert (Hj : (j < length acc)%nat).
           { apply lookup_lt_Some in Hq. rewrite length_app in Hq.
             cbn [length] in Hq. lia. }
           rewrite lookup_app_l in Hq by exact Hj.
           exact (Hsh j q e' Hq He').
      * exists s', next. split; [exact Hgo|].
        subst s1. cbn [active_entity_count entity_pool alter_entity
                       set_entity_pool] in Hc, Hl, Hcov.
        rewrite length_alter in Hl.
        split; [exact Hc|]. split; [exact Hl|]. split; [exact Hn|].
        intros Hk. apply Hcov. lia.
    + exists s, acc. split; [reflexivity|]. split; [reflexivity|].
      split; [reflexivity|]. split; [exact Hsh|]. lia.
Qed.

Lemma commit_entity_starved (next : list pending) (i : nat) (s : State)
    (p : pending) (e : Entity) :
  next !! i = Some p -> entity_pool s !! i = Some e -> shallow next s ->
  exists s',
    commit_entity gc next i s = Done s' tt
    /\ active_entity_count s' = active_entity_count s
    /\ length (entity_pool s') = length (entity_pool s)
    /\ shallow next s'.
Proof.
  intros Hp He Hsh. destruct (Hsh i p e Hp He) as [Hds Hdt].
  unfold commit_entity.
  erewrite bind_run by (rewrite Hp; reflexivity).
  unfold bind at 1, get at 1.
  erewrite bind_run by (rewrite He; reflexivity).
  unfold bind at 1, modify at 1, bind at 1, get at 1.
  cbn [entity_pool alter_entity set_entity_pool].
  erewrite bind_run
    by (rewrite list_lookup_alter_eq, He; reflexivity).
  cbn [state set_is_active]. rewrite Hds, Z.eqb_refl.
  rewrite andb_false_r.
  erewrite bind_run by reflexivity.
  unfold bind at 1, modify at 1, bind at 1, get at 1.
  cbn [entity_pool alter_entity set_entity_pool].
  erewrite bind_run
    by (rewrite !list_lookup_alter_eq, He; reflexivity).
  cbn [task_vector set_is_active set_state set_domain_name].
  rewrite Hdt, Z.eqb_refl. rewrite andb_false_r.
  erewrite bind_run by reflexivity.
  unfold modify. eexists. split; [reflexivity|].
  cbn [active_entity_count entity_pool alter_entity set_entity_pool].
  split; [reflexivity|]. split; [rewrite !length_alter; reflexivity|].
  intros j q e' Hq He'.
  cbn [entity_pool alter_entity set_entity_pool] in He'.
  destruct (decide (i = j)) as [<-|Hne].
  - rewrite !list_lookup_alter_eq, He in He'. injection He' as <-.
    rewrite Hp in Hq. injection Hq as <-. split; reflexivity.
  - rewrite !list_lookup_alter_ne in He' by exact Hne.
    exact (Hsh j q e' Hq He').
Qed.

Lemma commit_entities_starved (next : list pending) (k i : nat) (s : State) :
  shallow next s ->
  active_entity_count s <= Z.of_nat (length next) ->
  active_entity_count s <= Z.of_nat (length (entity_pool s)) ->
  exists s', for_entities k i (commit_entity gc next) s = Done s' tt.
Proof.
  revert i s. induction k as [|k IH]; intros i s Hsh Hn Hwf;
    cbn [for_entities]; [eexists; reflexivity|].
  unfold bind at 1, get at 1.
  destruct (Z.ltb_spec (Z.of_nat i) (active_entity_count s)) as [Hlt|Hge];
    [|eexists; reflexivity].
  destruct (lookup_lt_is_Some_2 next i ltac:(lia)) as [p Hp].
  destruct (lookup_lt_is_Some_2 (entity_pool s) i ltac:(lia)) as [e He].
  destruct (commit_entity_starved next i s p e Hp He Hsh)
    as (s1 & Hrun & Hc & Hl & Hsh1).
  erewrite bind_run by exact Hrun.
  apply IH; [exact Hsh1|rewrite Hc; exact Hn|rewrite Hc, Hl; exact Hwf].
Qed.

(** Once two vector copies cannot be afforded (in this revision: once
    anything has been allocated), every tick returns, whatever the fuel and
    without entering the collector. *)
Lemma update_entities_starved (s : State) :
  can_afford_vector_copy 2 s = false ->
  active_entity_count s <= Z.of_nat (length (entity_pool s)) ->
  exists s', update_entities fuel gc entity_pool_address s = Done s' tt.
Proof.
  intros Ha Hwf. unfold update_entities.
  unfold bind at 1, get at 1. cbv zeta.
  destruct (evaluate_entities_starved (Z.to_nat (active_entity_count s)) 0
              (get_system_memory_pressure s) [] s Ha Hwf eq_refl)
    as (s1 & next & Hrun & Hc & Hl & Hsh & Hcov).
  { intros j p e Hp. rewrite lookup_nil in Hp. discriminate. }
  erewrite bind_run by exact Hrun.
  unfold bind at 1, get at 1.
  apply commit_entities_starved;
    [exact Hsh|rewrite Hc; apply Hcov; lia|rewrite Hc, Hl; exact Hwf].
Qed.

End Starved.

(** The calls that return.  Such a call leaves [active_entity_count] and
    every entity's [id] as they were, and adds one (in [uint32_t]
    arithmetic) to the [age] of each of the first [active_entity_count]
    entities and to no other, whichever of the three paths (full
    evaluation, skip under memory pressure, shallow carry-forward) each
    entity took.  The call does return whenever two vector copies cannot
    be afforded; it need not otherwise. *)
Lemma update_entities_ages_every_slot (fuel : nat) (addr : Z) (s : State) :
  (can_afford_vector_copy 2 s = false ->
   active_entity_count s <= Z.of_nat (length (entity_pool s)) ->
   exists s',
     update_entities fuel (perform_emergent_garbage_collection fuel) addr s
     = Done s' tt)
  /\ forall s' u,
       update_entities fuel (perform_emergent_garbage_collection fuel) addr s
       = Done s' u ->
       active_entity_count s' = active_entity_count s
       /\ forall j e, entity_pool s !! j = Some e ->
            exists e', entity_pool s' !! j = Some e'
              /\ id e' = id e
              /\ age e' = if Z.of_nat j <? active_entity_count s
                          then u32 (age e + 1) else age e.
Proof.
  split; [apply update_entities_starved|].
  intros s' u H. apply update_entities_aged in H as (Hc & Hl & Hf);
    [|intros t t' v; apply collection_is_a_step].
  split; [exact Hc|]. intros j e He.
  destruct (lookup_lt_is_Some_2 (entity_pool s') j) as [e' He'].
  { rewrite Hl. eapply lookup_lt_Some. exact He. }
  exists e'. split; [exact He'|].
  destruct (Hf j e e' He He') as [Hi Ha]. split; [exact Hi|].
  rewrite Ha. cbn [Nat.leb andb].
  destruct (Nat.ltb_spec j (Z.to_nat (active_entity_count s))),
    (Z.ltb_spec (Z.of_nat j) (active_entity_count s)); try reflexivity; lia.
Qed.

Lemma update_entities_ages_every_slot_example :
  match update_entities 2000 (perform_emergent_garbage_collection 2000)
          2097152 update_state with
  | Done s' _ =>
      active_entity_count s' = 3
      /\ (age <$> entity_pool s' !! 0%nat) = Some 6
      /\ (age <$> entity_pool s' !! 1%nat) = Some 8
      /\ (age <$> entity_pool s' !! 2%nat) = Some 10
      /\ (age <$> entity_pool s' !! 3%nat) = Some 0
  | _ => False
  end.
Proof.
  assert (D : returned (update_entities 2000
                (perform_emergent_garbage_collection 2000) 2097152
                update_state) = Some tt) by (vm_compute; reflexivity).
  destruct (update_entities 2000 (perform_emergent_garbage_collection 2000)
              2097152 update_state) as [s' u| | |] eqn:E; try discriminate D.
  destruct (update_entities_ages_every_slot 2000 2097152 update_state)
    as [_ Hret].
  destruct (Hret s' u E) as [Hc Hf].
  split; [exact Hc|].
  split; [|split; [|split]].
  - destruct (Hf 0%nat _ eq_refl) as (e' & He' & _ & Ha).
    rewrite He'. cbn [fmap option_fmap option_map]. rewrite Ha. reflexivity.
  - destruct (Hf 1%nat _ eq_refl) as (e' & He' & _ & Ha).
    rewrite He'. cbn [fmap option_fmap option_map]. rewrite Ha. reflexivity.
  - destruct (Hf 2%nat _ eq_refl) as (e' & He' & _ & Ha).
    rewrite He'. cbn [fmap option_fmap option_map]. rewrite Ha. reflexivity.
  - destruct (Hf 3%nat _ eq_refl) as (e' & He' & _ & Ha).
    rewrite He'. cbn [fmap option_fmap option_map]. rewrite Ha. reflexivity.
Qed.

(** ** Where the code leaves the described behaviour *)

Lemma create_hyper_vector_exhausted (fuel : nat) (input : list Z)
    (s s' : State) (v : HyperVector) :
  exhausted s -> create_hyper_vector fuel input s = Done s' v ->
  truthy (valid v) = false.
Proof.
  intros Hx H. unfold create_hyper_vector in H. step_in H.
  destruct fuel as [|f]; [discriminate|].
  rewrite kmalloc_exhausted in Hc;
    [|exact Hx|apply Hx|vm_compute; discriminate|vm_compute; reflexivity].
  apply Done_inj in Hc as [<- <-].
  change (truthy NULL) with false in H. cbv iota in H. step_in H. reflexivity.
Qed.

(** In this revision the self-modification trigger changes nothing but the
    arena: of its two vectors the second can never be allocated. *)
Lemma self_modification_inert (fuel : nat) (gc : M unit) (addr : Z) (i : nat)
    (s s' : State) (u : unit) :
  self_modification fuel gc addr i s = Done s' u ->
  entity_pool s' = entity_pool s /\ holo_system s' = holo_system s
  /\ collective s' = collective s.
Proof.
  intros H. unfold self_modification in H. step_in H. step_in H.
  case_if_in H; [|step_in H; auto].
  step_in H. step_in H.
  pose proof (create_hyper_vector_world _ _ _ _ _ Hc) as (_ & P1 & _ & H1 & C1).
  pose proof (create_hyper_vector_world _ _ _ _ _ Hc0) as (_ & P2 & _ & H2 & C2).
  case_if_in H.
  - apply andb_true_iff in Eif0 as [Vb Va].
    apply create_hyper_vector_valid in Hc; [|exact Vb].
    apply (create_hyper_vector_exhausted _ _ _ _ _ Hc) in Hc0. congruence.
  - step_in H. repeat split; congruence.
Qed.

(** C1.  The capacity test of [kmalloc] is made in [uint32_t] arithmetic,
    so a request whose sum with the heap offset passes [2^32] is granted:
    from the booted kernel, after [kmalloc(1)] has left the offset at
    786416, the call [kmalloc(0xFFFFFFF8)] exceeds the capacity by far and
    yet returns the address [kernel_heap + 786416] and moves the offset
    back to 786408. *)
Theorem kmalloc_accepts_wrapping_request :
  (heap_offset <$> final_state (kmalloc ample_fuel 1 boot_state)) = Some 786416
  /\ KERNEL_HEAP_SIZE < 786416 + 4294967288
  /\ returned ((kmalloc ample_fuel 1 ;; kmalloc 8 4294967288) boot_state)
     = Some (kernel_heap + 786416)
  /\ (heap_offset <$>
      final_state ((kmalloc ample_fuel 1 ;; kmalloc 8 4294967288) boot_state))
     = Some 786408
  /\ forall fuel s,
       heap_offset s = 786416 ->
       exists s', kmalloc (S (S fuel)) 4294967288 s
                  = Done s' (kernel_heap + 786416)
                  /\ heap_offset s' = 786408.
Proof.
  split; [vm_compute; reflexivity|].
  split; [reflexivity|].
  split; [vm_compute; reflexivity|].
  split; [vm_compute; reflexivity|].
  intros fuel s Hs. eexists.
  cbn [kmalloc]. unfold bind, get, modify, ret. rewrite Hs.
  cbn [heap_offset set_heap_offset].
  change (KERNEL_HEAP_SIZE <=? u32 (786416 + 4294967288)) with false.
  cbv iota.
  change (KERNEL_HEAP_SIZE
          <=? u32 (u32 (786416 + align8 4294967288) + sizeof_mem_block_t))
    with true.
  cbv iota. change (truthy NULL) with false. cbv iota.
  split; reflexivity.
Qed.

(** C3.  One collection pass over a kernel under memory pressure takes both
    genes of an entity that it does not deactivate: releasing the weakest
    gene's pattern re-enters the collector through [kfree] before
    [gene_count] is decremented, and the inner pass removes the other gene.
    The entity of slot 1 enters with [gene_count = 2], is not sacrificed,
    and comes out active with [gene_count = 0] and no genome. *)
Theorem collection_takes_last_gene :
  entity_pool pressured_state !! 1%nat = Some two_gene_entity
  /\ gene_count two_gene_entity = 2
  /\ truthy (is_active two_gene_entity) = true
  /\ sacrifices pressured_state two_gene_entity = false
  /\ returned (perform_emergent_garbage_collection 50 pressured_state)
     = Some tt
  /\ ((fun e => (is_active e, gene_count e, genome e)) <$>
      (final_state (perform_emergent_garbage_collection 50 pressured_state)
         ≫= fun s' => entity_pool s' !! 1%nat))
     = Some (1, 0, NULL).
Proof.
  split; [reflexivity|]. split; [reflexivity|]. split; [reflexivity|].
  split; [vm_compute; reflexivity|].
  split; vm_compute; reflexivity.
Qed.

(** C8.  In this revision a triggered entity proposes nothing and keeps its
    confidence and fitness: the first of the two vectors of the proposal
    uses up the arena, the second cannot be allocated, and the guarded
    block is skipped.  This holds for every call of the trigger; on
    Scenario C one tick leaves confidence 0.85 (bit pattern 0x3F59999A),
    fitness 60, no memory entry and no thought. *)
Theorem self_modification_proposes_nothing :
  (forall fuel gc addr i s s' u,
     self_modification fuel gc addr i s = Done s' u ->
     entity_pool s' = entity_pool s /\ holo_system s' = holo_system s
     /\ collective s' = collective s)
  /\ entity_pool scenario_c !! 0%nat = Some eager_entity
  /\ flt (float_lit 8 10) (confidence eager_entity)
     && (50 <? fitness_score eager_entity)
     && (100 <? mutation_rate eager_entity) = true
  /\ ((fun s' =>
         ((fun e => (bits_of_float (confidence e), fitness_score e, age e))
            <$> entity_pool s' !! 0%nat,
          memory_count (holo_system s'), thought_count (collective s'))) <$>
      final_state
        (update_entities ample_fuel
           (perform_emergent_garbage_collection ample_fuel) 2097152
           scenario_c))
     = Some (Some (1062836634, 60, 1), 0, 0)
  /\ returned
       (update_entities ample_fuel
          (perform_emergent_garbage_collection ample_fuel) 2097152
          scenario_c) = Some tt.
Proof.
  split; [intros *; apply self_modification_inert|].
  split; [reflexivity|]. split; [vm_compute; reflexivity|].
  split; vm_compute; reflexivity.
Qed.

(** C9.  With a full pool [spawn_entity] returns NULL and changes nothing;
    with room in the pool it never returns: the state vector uses up the
    arena, the gene cannot be allocated, and the call ends in the fatal
    halt.  On the booted kernel the halted state has slot 0 marked active
    and [active_entity_count] still 0. *)
Theorem spawn_entity_outcomes :
  (forall fuel s,
     MAX_ENTITIES <= active_entity_count s ->
     spawn_entity fuel s = Done s None)
  /\ (forall fuel s s' r,
        active_entity_count s < MAX_ENTITIES ->
        spawn_entity fuel s <> Done s' r)
  /\ active_entity_count boot_state < MAX_ENTITIES
  /\ is_halted (spawn_entity ample_fuel boot_state) = true
  /\ ((fun s' => (active_entity_count s',
                  is_active <$> entity_pool s' !! 0%nat)) <$>
      final_state (spawn_entity ample_fuel boot_state))
     = Some (0, Some 1).
Proof.
  split.
  { intros fuel s Hfull. unfold spawn_entity, bind, get, ret.
    apply Z.leb_le in Hfull. rewrite Hfull. reflexivity. }
  split; [intros fuel s s' r; apply spawn_entity_never_returns|].
  split; [reflexivity|].
  split; vm_compute; reflexivity.
Qed.

(** ** Granted requests return *)

(** The recursion for the tracking records ends: every level moves the
    offset 24 bytes towards the capacity. *)
Lemma kmalloc_record_total (n fuel : nat) (s : State) :
  0 <= heap_offset s < KERNEL_HEAP_SIZE + 8 ->
  KERNEL_HEAP_SIZE - heap_offset s <= 24 * Z.of_nat n ->
  (n < fuel)%nat ->
  exists s' p, kmalloc fuel sizeof_mem_block_t s = Done s' p.
Proof.
  revert fuel s. induction n as [|n IH]; intros fuel s Hh Hm Hf;
    (destruct fuel as [|f]; [lia|]); cbn [kmalloc]; unfold bind at 1, get at 1;
    rewrite (u32_small (heap_offset s + sizeof_mem_block_t))
      by (unfold KERNEL_HEAP_SIZE, sizeof_mem_block_t in *; lia).
  - destruct (KERNEL_HEAP_SIZE <=? _) eqn:E;
      [eexists _, _; reflexivity|].
    apply Z.leb_gt in E. unfold sizeof_mem_block_t in E. lia.
  - destruct (KERNEL_HEAP_SIZE <=? _) eqn:E;
      [eexists _, _; reflexivity|].
    apply Z.leb_gt in E. unfold bind at 1, modify at 1.
    change (align8 sizeof_mem_block_t) with 24.
    rewrite (u32_small (heap_offset s + 24))
      by (unfold KERNEL_HEAP_SIZE, sizeof_mem_block_t in *; lia).
    destruct (IH f (set_heap_offset (heap_offset s + 24) s))
      as (s1 & block & Hrec);
      [cbn [heap_offset set_heap_offset];
       unfold KERNEL_HEAP_SIZE, sizeof_mem_block_t in *; lia
      |cbn [heap_offset set_heap_offset]; lia|lia|].
    unfold bind at 1. rewrite Hrec.
    destruct (truthy block); eexists _, _; reflexivity.
Qed.

(** A request that fits is granted at the current offset, given fuel for
    the deepest possible chain of records. *)
Lemma kmalloc_granted (fuel : nat) (n : Z) (s : State) :
  0 <= heap_offset s -> 0 <= n -> heap_offset s + n < KERNEL_HEAP_SIZE ->
  (Z.to_nat 32770 <= fuel)%nat ->
  exists s', kmalloc fuel n s = Done s' (kernel_heap + heap_offset s)
             /\ same_world s s'.
Proof.
  intros Hh Hn Hfit Hf.
  assert (T : exists s' p, kmalloc fuel n s = Done s' p).
  { destruct fuel as [|f]; [lia|]. cbn [kmalloc]. unfold bind at 1, get at 1.
    rewrite (u32_small (heap_offset s + n))
      by (unfold KERNEL_HEAP_SIZE in *; lia).
    destruct (KERNEL_HEAP_SIZE <=? _) eqn:E; [apply Z.leb_le in E; lia|].
    unfold bind at 1, modify at 1.
    pose proof (align8_bounds n Hn
                  ltac:(unfold KERNEL_HEAP_SIZE in *; lia)) as Ha.
    rewrite (u32_small (heap_offset s + align8 n))
      by (unfold KERNEL_HEAP_SIZE in *; lia).
    destruct (kmalloc_record_total (Z.to_nat 32768) f
                (set_heap_offset (heap_offset s + align8 n) s))
      as (s1 & block & Hrec);
      [cbn [heap_offset set_heap_offset]; lia
      |cbn [heap_offset set_heap_offset];
       unfold KERNEL_HEAP_SIZE in *; lia|lia|].
    unfold bind at 1. rewrite Hrec.
    destruct (truthy block); eexists _, _; reflexivity. }
  destruct T as (s' & p & H). exists s'.
  pose proof (kmalloc_granted_exhausts _ _ _ _ _ H Hh Hn Hfit) as [-> _].
  split; [exact H|]. eapply kmalloc_same_world. exact H.
Qed.

(** ** Copies *)

Lemma load_memcpy (n : nat) (m : memory) (d q a : Z) :
  q + Z.of_nat n <= d \/ d + Z.of_nat n <= q ->
  load_byte (memcpy m d q n) a
  = if (d <=? a) && (a <? d + Z.of_nat n)
    then u8 (load_byte m (q + (a - d)))
    else load_byte m a.
Proof.
  revert m d q. induction n as [|n IH]; intros m d q Hdis.
  - cbn [memcpy]. destruct (d <=? a) eqn:E1, (a <? d + Z.of_nat 0) eqn:E2;
      try reflexivity. apply Z.leb_le in E1. apply Z.ltb_lt in E2. lia.
  - cbn [memcpy]. rewrite IH by lia. rewrite !load_store_byte.
    destruct (d + 1 <=? a) eqn:E1, (a <? d + 1 + Z.of_nat n) eqn:E2,
             (d <=? a) eqn:E3, (a <? d + Z.of_nat (S n)) eqn:E4,
             (d =? a) eqn:E5, (d =? q + 1 + (a - (d + 1))) eqn:E6;
      cbn [andb];
      repeat match goal with
        | H : (_ <=? _) = true |- _ => apply Z.leb_le in H
        | H : (_ <=? _) = false |- _ => apply Z.leb_gt in H
        | H : (_ <? _) = true |- _ => apply Z.ltb_lt in H
        | H : (_ <? _) = false |- _ => apply Z.ltb_ge in H
        | H : (_ =? _) = true |- _ => apply Z.eqb_eq in H
        | H : (_ =? _) = false |- _ => apply Z.eqb_neq in H
        end; try lia; try reflexivity; do 2 f_equal; lia.
Qed.

(** ** The FIFO shift *)

Lemma shift_down_lookup {A} (n : Z) (l : list A) (i : nat) :
  n <= Z.of_nat (length l) ->
  shift_down n l !! i
  = if Z.of_nat i <? n - 1 then l !! S i else l !! i.
Proof.
  intros Hn. unfold shift_down.
  assert (G : forall k, (k < length l)%nat ->
            let r := fold_left
                       (fun l i => match l !! S i with
                                   | Some v => <[i := v]> l | None => l end)
                       (seq 0 k) l in
            length r = length l
            /\ forall j, r !! j = if (j <? k)%nat then l !! S j else l !! j).
  { induction k as [|k IH]; intros Hk; cbn zeta.
    - split; [reflexivity|]. intros j. reflexivity.
    - rewrite seq_S, fold_left_app. cbn [fold_left Nat.add].
      destruct (IH ltac:(lia)) as [Hlen Hget]. cbn zeta in Hlen, Hget.
      set (r := fold_left _ (seq 0 k) l) in *.
      destruct (lookup_lt_is_Some_2 l (S k) Hk) as [v Hv].
      rewrite Hget. replace (S k <? k)%nat with false
        by (symmetry; apply Nat.ltb_ge; lia).
      rewrite Hv. split; [rewrite length_insert; exact Hlen|].
      intros j. destruct (decide (k = j)) as [<-|Hne].
      + rewrite list_lookup_insert_eq by lia.
        replace (k <? S k)%nat with true
          by (symmetry; apply Nat.ltb_lt; lia). symmetry. exact Hv.
      + rewrite list_lookup_insert_ne by exact Hne. rewrite Hget.
        destruct (Nat.ltb_spec j k), (Nat.ltb_spec j (S k));
          try reflexivity; lia. }
  destruct (Z.ltb_spec (Z.of_nat i) (n - 1)) as [Hlt|Hge].
  - destruct (G (Z.to_nat (n - 1)) ltac:(lia)) as [_ Hget].
    cbn zeta in Hget. rewrite Hget.
    replace (i <? Z.to_nat (n - 1))%nat with true
      by (symmetry; apply Nat.ltb_lt; lia). reflexivity.
  - destruct (Z.le_gt_cases n 1) as [Hsmall|Hbig].
    + replace (Z.to_nat (n - 1)) with 0%nat by lia. reflexivity.
    + destruct (G (Z.to_nat (n - 1)) ltac:(lia)) as [_ Hget].
      cbn zeta in Hget. rewrite Hget.
      replace (i <? Z.to_nat (n - 1))%nat with false
        by (symmetry; apply Nat.ltb_ge; lia). reflexivity.
Qed.

Lemma shift_down_length {A} (n : Z) (l : list A) :
  length (shift_down n l) = length l.
Proof.
  unfold shift_down. generalize (seq 0 (Z.to_nat (n - 1))). intros ks.
  revert l. induction ks as [|k ks IH]; intros l; [reflexivity|].
  cbn [fold_left]. rewrite IH.
  destruct (l !! S k); [apply length_insert|reflexivity].
Qed.

(** ** Broadcast into a full buffer *)

Section Calm.

Variable gc : M unit.



End Calm.


(** Whatever the collector does in between, a broadcast that returns leaves
    at most [MAX_THOUGHTS] thoughts in the buffer. *)
Lemma broadcast_thought_count_bound (fuel : nat) (gc : M unit)
    (thought : HyperVector) (s s' : State) (u : unit) :
  broadcast_thought fuel gc thought s = Done s' u ->
  0 <= thought_count (collective s) <= MAX_THOUGHTS ->
  0 <= thought_count (collective s') <= MAX_THOUGHTS.
Proof.
  intros H Hb. unfold broadcast_thought in H.
  case_if_in H; [step_in H; exact Hb|].
  step_in H. step_in H. step_in H.
  apply copy_hyper_vector_world in Hc0 as (_ & _ & _ & _ & Hcol).
  step_in H. step_in H. step_in H. step_in H. step_in H.
  cbn [collective set_collective thought_count set_thought_count
       set_thought_space set_global_coherence].
  rewrite Hcol.
  assert (Hs0 : 0 <= thought_count (collective s0) < MAX_THOUGHTS).
  { case_if_in Hc.
    - step_in Hc. step_in Hc. cbn. unfold MAX_THOUGHTS. lia.
    - step_in Hc. apply Z.leb_gt in Eif0. lia. }
  rewrite u32_small; unfold MAX_THOUGHTS in *; lia.
Qed.




(** * Further properties of the kernel *)

(** ** The allocator *)

Lemma align8_multiple (n : Z) : align8 n mod 8 = 0.
Proof.
  unfold align8. rewrite land_align8 by apply u32_range.
  rewrite Z.mul_comm. apply Z.mod_mul. lia.
Qed.

Lemma u32_mod8 (x : Z) : u32 x mod 8 = x mod 8.
Proof.
  unfold u32. rewrite (Z.mod_eq x (2 ^ 32)) by lia.
  replace (x - 2 ^ 32 * (x / 2 ^ 32))
    with (x + (- (536870912 * (x / 2 ^ 32))) * 8) by lia.
  apply Z.mod_add. lia.
Qed.

(** The offset only moves forward, and a granted request moves it past
    the request. *)
Lemma kmalloc_offset (fuel : nat) (n : Z) (s s' : State) (p : Z) :
  kmalloc fuel n s = Done s' p ->
  0 <= heap_offset s < KERNEL_HEAP_SIZE + 8 -> 0 <= n < 2 ^ 31 ->
  heap_offset s <= heap_offset s' < KERNEL_HEAP_SIZE + 8
  /\ (p <> NULL -> heap_offset s + n <= heap_offset s').
Proof.
  revert n s s' p. induction fuel as [|f IH]; intros n s s' p H Hh Hn;
    [discriminate|].
  cbn [kmalloc] in H. step_in H.
  rewrite (u32_small (heap_offset s + n)) in H
    by (unfold KERNEL_HEAP_SIZE in *; lia).
  case_if_in H.
  - step_in H. split; [lia|]. intros Hp. contradiction.
  - apply Z.leb_gt in Eif. step_in H. step_in H.
    pose proof (align8_bounds n ltac:(lia) ltac:(lia)) as Ha.
    rewrite (u32_small (heap_offset s + align8 n)) in Hc
      by (unfold KERNEL_HEAP_SIZE in *; lia).
    apply IH in Hc;
      [|cbn [heap_offset set_heap_offset]; unfold KERNEL_HEAP_SIZE in *; lia
       |unfold sizeof_mem_block_t; lia].
    cbn [heap_offset set_heap_offset] in Hc. destruct Hc as [Hc _].
    case_if_in H; repeat step_in H;
      cbn [heap_offset track set_allocation_counter set_allocation_list];
      (split; [lia|intros _; lia]).
Qed.

Lemma same_world_statics (s s' : State) :
  same_world s s' -> statics_kept s s'.
Proof. intros (_ & _ & He & Ha & Hh & Hc). repeat split; assumption. Qed.

Lemma statics_kept_refl (s : State) : statics_kept s s.
Proof. repeat split. Qed.

(** X1.  A request that is granted while it fits in the arena gets the
    address at the current offset, and the recursion for its tracking
    records uses up what was left: afterwards every request of 24 bytes or
    more (and below [2^31]) returns NULL, does not move [heap_offset] and
    leaves the static tables of the kernel as they are. *)
Theorem kmalloc_starves_itself (fuel : nat) (n : Z) (s s' : State) (p : Z) :
  kmalloc fuel n s = Done s' p ->
  0 <= heap_offset s -> 0 <= n -> heap_offset s + n < KERNEL_HEAP_SIZE ->
  p = kernel_heap + heap_offset s
  /\ forall fuel' m,
       sizeof_mem_block_t <= m < 2 ^ 31 ->
       exists s'',
         kmalloc (S fuel') m s' = Done s'' NULL
         /\ heap_offset s'' = heap_offset s'
         /\ statics_kept s' s''.
Proof.
  intros H Hh Hn Hfit.
  destruct (kmalloc_granted_exhausts fuel n s s' p H Hh Hn Hfit) as [Hp Hx].
  split; [exact Hp|]. intros fuel' m [Hm1 Hm2].
  exists s'. split; [|split; [reflexivity|apply statics_kept_refl]].
  apply kmalloc_exhausted; [exact Hx|apply Hx|exact Hm1|exact Hm2].
Qed.

Lemma kmalloc_starves_itself_witness :
  match kmalloc ample_fuel 100 early_state with
  | Done s' p =>
      p = kernel_heap + 780000
      /\ (exists s'', kmalloc 1 2048 s' = Done s'' NULL
                      /\ heap_offset s'' = heap_offset s')
      /\ (exists s'', kmalloc 1 48 s' = Done s'' NULL
                      /\ heap_offset s'' = heap_offset s')
  | _ => False
  end.
Proof.
  assert (D : returned (kmalloc ample_fuel 100 early_state)
              = Some (kernel_heap + 780000)) by (vm_compute; reflexivity).
  destruct (kmalloc ample_fuel 100 early_state) as [s' p| | |] eqn:E;
    try discriminate D.
  destruct (kmalloc_starves_itself ample_fuel 100 early_state s' p E)
    as [Hp Hno]; [vm_compute; discriminate|lia|reflexivity|].
  split; [exact Hp|].
  split.
  - destruct (Hno 0%nat 2048) as (s'' & H1 & H2 & _);
      [split; vm_compute; first [reflexivity|discriminate]|].
    exists s''. split; assumption.
  - destruct (Hno 0%nat 48) as (s'' & H1 & H2 & _);
      [split; vm_compute; first [reflexivity|discriminate]|].
    exists s''. split; assumption.
Defined.

(** X2.  Given fuel for the deepest chain of tracking records (32770
    levels), a request that fits in the arena returns; it returns the
    address at the offset, moves the offset forward by at least the
    request, and leaves the static tables of the kernel (entity pool and
    count, holographic memory, collective) as they are. *)
Theorem kmalloc_returns (fuel : nat) (n : Z) (s : State) :
  0 <= heap_offset s -> 0 <= n -> heap_offset s + n < KERNEL_HEAP_SIZE ->
  (Z.to_nat 32770 <= fuel)%nat ->
  exists s',
    kmalloc fuel n s = Done s' (kernel_heap + heap_offset s)
    /\ heap_offset s + n <= heap_offset s' < KERNEL_HEAP_SIZE + 8
    /\ statics_kept s s'.
Proof.
  intros Hh Hn Hfit Hf.
  destruct (kmalloc_granted fuel n s Hh Hn Hfit Hf) as (s' & H & W).
  exists s'. split; [exact H|]. split; [|apply same_world_statics; exact W].
  destruct (kmalloc_offset fuel n s s' _ H) as [[_ Hhi] Hlo];
    [unfold KERNEL_HEAP_SIZE in *; lia|unfold KERNEL_HEAP_SIZE in *; lia|].
  split; [|exact Hhi]. apply Hlo. unfold NULL, kernel_heap. lia.
Qed.

Lemma kmalloc_returns_witness :
  exists s',
    kmalloc ample_fuel 2048 boot_state = Done s' kernel_heap
    /\ 2048 <= heap_offset s'
    /\ entity_pool s' = entity_pool boot_state.
Proof.
  destruct (kmalloc_returns ample_fuel 2048 boot_state)
    as (s' & H & [Ho _] & Hp & _);
    [reflexivity|discriminate|reflexivity|unfold ample_fuel; lia|].
  exists s'. split; [exact H|]. split; assumption.
Defined.

(** X3.  Alignment is kept: from an offset that is a multiple of 8, every
    call of [kmalloc] that returns, granted or not and whatever the size,
    leaves the offset a multiple of 8 and returns NULL or an address that
    is a multiple of 8. *)
Theorem kmalloc_keeps_alignment (fuel : nat) (n : Z) (s s' : State) (p : Z) :
  heap_offset s mod 8 = 0 ->
  kmalloc fuel n s = Done s' p ->
  heap_offset s' mod 8 = 0 /\ p mod 8 = 0.
Proof.
  revert n s s' p. induction fuel as [|f IH]; intros n s s' p Ha H;
    [discriminate|].
  cbn [kmalloc] in H. step_in H. case_if_in H.
  - step_in H. split; [exact Ha|reflexivity].
  - step_in H. step_in H.
    assert (Ha1 : heap_offset
                    (set_heap_offset (u32 (heap_offset s + align8 n)) s)
                  mod 8 = 0).
    { cbn [heap_offset set_heap_offset]. rewrite u32_mod8.
      rewrite Z.add_mod, Ha, align8_multiple by lia. reflexivity. }
    destruct (IH _ _ _ _ Ha1 Hc) as [Hs0 _].
    assert (Hp : u32 (kernel_heap + heap_offset s) mod 8 = 0).
    { rewrite u32_mod8, Z.add_mod, Ha by lia. reflexivity. }
    case_if_in H; repeat step_in H; (split; [exact Hs0|exact Hp]).
Qed.

Lemma kmalloc_keeps_alignment_witness :
  match kmalloc ample_fuel 13 early_state with
  | Done s' p => heap_offset s' mod 8 = 0 /\ p mod 8 = 0
  | _ => False
  end.
Proof.
  assert (D : is_Some (returned (kmalloc ample_fuel 13 early_state)))
    by (vm_compute; eexists; reflexivity).
  destruct (kmalloc ample_fuel 13 early_state) as [s' p| | |] eqn:E;
    try (destruct D as [? D]; discriminate D).
  apply (kmalloc_keeps_alignment ample_fuel 13 early_state s' p);
    [reflexivity|exact E].
Defined.

(** ** Hypervectors *)

Lemma load_store_float_other (m : memory) (a a' : Z) (x : float) :
  a' < a \/ a + 4 <= a' ->
  load_byte (store_float m a x) a' = load_byte m a'.
Proof.
  intros Hd. unfold store_float, store_u32. rewrite !load_store_byte.
  repeat match goal with
    | |- context [?u =? ?v] =>
        destruct (Z.eqb_spec u v); [lia|]
    end.
  reflexivity.
Qed.

Lemma same_outside_refl (m : memory) (p len : Z) : same_outside m m p len.
Proof. intros a _. reflexivity. Qed.

Lemma same_outside_trans (m1 m2 m3 : memory) (p len : Z) :
  same_outside m1 m2 p len -> same_outside m2 m3 p len ->
  same_outside m1 m3 p len.
Proof. intros H1 H2 a Ha. rewrite H2, H1 by exact Ha. reflexivity. Qed.

Lemma fill_dimensions_outside (n : nat) (i p seed dims : Z) (m : memory) :
  0 <= i ->
  same_outside m (fill_dimensions n i p seed dims m).2 p
    (sizeof_float * (i + Z.of_nat n)).
Proof.
  revert i seed dims m. induction n as [|n IH]; intros i seed dims m Hi;
    [apply same_outside_refl|].
  cbn [fill_dimensions]. destruct (_ mod 10 =? 0).
  - intros a Ha.
    rewrite IH by (try lia; unfold sizeof_float in *; lia).
    apply load_store_float_other. unfold sizeof_float in *. lia.
  - intros a Ha. apply IH; [lia|unfold sizeof_float in *; lia].
Qed.

(** X4.  What [create_hyper_vector] hands back.  If the buffer is refused
    the vector is invalid and has no buffer, and [heap_offset] has not
    moved.  Otherwise the vector is valid with capacity 512, its buffer is
    the 2048 bytes at the old offset, [active_dims] is between 0 and the
    capacity, and [hash_sig] is the hash of the active part of the buffer
    as the memory holds it on return.  Either way the static tables of the
    kernel are as they were. *)
Theorem create_hyper_vector_result (fuel : nat) (input : list Z)
    (s s' : State) (v : HyperVector) :
  create_hyper_vector fuel input s = Done s' v ->
  0 <= heap_offset s < KERNEL_HEAP_SIZE + 8 ->
  statics_kept s s'
  /\ ((data v = NULL /\ valid v = 0 /\ heap_offset s' = heap_offset s)
      \/ (data v = kernel_heap + heap_offset s /\ valid v = 1
          /\ capacity v = INITIAL_DIMENSIONS
          /\ 0 <= active_dims v <= capacity v
          /\ hash_ok (heap s') v)).
Proof.
  intros H Hh.
  split.
  { apply create_hyper_vector_world in H as (_ & W). exact W. }
  unfold create_hyper_vector in H. step_in H.
  destruct (truthy a) eqn:Ea.
  - right. step_in H. cbv zeta in H. step_in H. step_in H.
    cbn [data valid capacity active_dims].
    assert (Ha : a = kernel_heap + heap_offset s).
    { destruct fuel as [|f]; [discriminate|]. cbn [kmalloc] in Hc.
      step_in Hc. case_if_in Hc; [step_in Hc; discriminate|].
      step_in Hc. step_in Hc.
      case_if_in Hc; repeat step_in Hc; apply u32_small;
        unfold kernel_heap, KERNEL_HEAP_SIZE in *; lia. }
    apply kmalloc_heap in Hc.
    split; [exact Ha|]. split; [reflexivity|]. split; [reflexivity|].
    split.
    { pose proof (fill_dimensions_bound (Z.to_nat INITIAL_DIMENSIONS) 0 a
                    (hash_data input) 0
                    (memset (heap s0) a 0
                       (Z.to_nat (u32 (INITIAL_DIMENSIONS * sizeof_float))))
                    ltac:(lia)) as Hb.
      rewrite dimensions_count in Hb. destruct Hb as [Hb1 Hb2].
      split; [exact Hb1|]. etransitivity; [exact Hb2|].
      vm_compute. discriminate. }
    cbn [heap set_heap].
    unfold hash_ok; cbn [hash_sig data active_dims]; reflexivity.
  - left. step_in H. cbn [data valid].
    assert (Ha : a = NULL)
      by (unfold truthy in Ea; apply negb_false_iff, Z.eqb_eq in Ea; exact Ea).
    split; [reflexivity|]. split; [reflexivity|].
    subst a. destruct fuel as [|f]; [discriminate|]. cbn [kmalloc] in Hc.
    step_in Hc. case_if_in Hc; [step_in Hc; reflexivity|].
    step_in Hc. step_in Hc.
    assert (Hne : u32 (kernel_heap + heap_offset s) <> NULL)
      by (rewrite u32_small;
          unfold NULL, kernel_heap, KERNEL_HEAP_SIZE in *; lia).
    case_if_in Hc; repeat step_in Hc; congruence.
Qed.

Lemma create_hyper_vector_result_witness :
  match create_hyper_vector 300 (cstring "TRAIT_ACTIVE") early_state with
  | Done s' v =>
      data v = kernel_heap + 780000 /\ valid v = 1
      /\ 0 <= active_dims v <= 512 /\ hash_ok (heap s') v
  | _ => False
  end.
Proof.
  assert (D : (data <$> returned (create_hyper_vector 300
                 (cstring "TRAIT_ACTIVE") early_state))
              = Some (kernel_heap + 780000)) by (vm_compute; reflexivity).
  destruct (create_hyper_vector 300 (cstring "TRAIT_ACTIVE") early_state)
    as [s' v| | |] eqn:E; try discriminate D.
  injection D as D.
  destruct (create_hyper_vector_result 300 _ early_state s' v E)
    as [_ [(Hn & _)|(Hd & Hv & Hcap & Hdims & Hh)]];
    [vm_compute; split; [discriminate|reflexivity]
    |rewrite Hn in D; discriminate D|].
  rewrite Hcap in Hdims.
  split; [exact Hd|]. split; [exact Hv|]. split; [exact Hdims|exact Hh].
Defined.

(** A granted request sits at the old offset. *)
Lemma kmalloc_pointer (fuel : nat) (n : Z) (s s' : State) (p : Z) :
  kmalloc fuel n s = Done s' p ->
  0 <= heap_offset s < KERNEL_HEAP_SIZE + 8 ->
  (p = NULL /\ s' = s) \/ p = kernel_heap + heap_offset s.
Proof.
  intros H Hh. destruct fuel as [|f]; [discriminate|]. cbn [kmalloc] in H.
  step_in H. case_if_in H; [step_in H; left; split; reflexivity|].
  step_in H. step_in H. right.
  case_if_in H; repeat step_in H; apply u32_small;
    unfold kernel_heap, KERNEL_HEAP_SIZE in *; lia.
Qed.

(** X5.  The three outcomes of [copy_hyper_vector].  An invalid source
    gives the all-zero vector and touches nothing.  For a valid source
    whose buffer is an earlier allocation, either the buffer is refused,
    and the result is invalid, without buffer, [heap_offset] unmoved; or
    the result is a deep copy in a fresh buffer at the old offset: same
    capacity, [active_dims] and [hash_sig], and on return the new buffer
    holds the same bytes as the buffer of the source.  The static tables
    of the kernel are as they were. *)
Theorem copy_hyper_vector_result (fuel : nat) (src : HyperVector)
    (s s' : State) (c : HyperVector) :
  copy_hyper_vector fuel src s = Done s' c ->
  (truthy (valid src) = false -> c = zero_vector /\ s' = s)
  /\ (truthy (valid src) = true ->
      0 <= heap_offset s < KERNEL_HEAP_SIZE + 8 ->
      0 < capacity src <= MAX_DIMENSIONS ->
      kernel_heap <= data src ->
      data src + capacity src * sizeof_float <= kernel_heap + heap_offset s ->
      statics_kept s s'
      /\ ((c = mkHyperVector NULL (capacity src) (active_dims src) 0 0
           /\ heap_offset s' = heap_offset s)
          \/ (data c = kernel_heap + heap_offset s
              /\ deep_copy (heap s') (heap s') src c))).
Proof.
  intros H. split.
  - intros Hv. unfold copy_hyper_vector in H. rewrite Hv in H.
    cbn [negb orb] in H. step_in H. split; reflexivity.
  - intros Hv Hh Hcap Hlo Hhi.
    split.
    { apply copy_hyper_vector_world in H as (_ & W). exact W. }
    unfold copy_hyper_vector in H.
    assert (Hd : truthy (data src) = true)
      by (unfold truthy; apply negb_true_iff, Z.eqb_neq;
          unfold kernel_heap in Hlo; lia).
    rewrite Hv, Hd in H. cbn [negb orb] in H. cbv zeta in H.
    rewrite (u32_small (capacity src * sizeof_float)) in H
      by (unfold MAX_DIMENSIONS, sizeof_float in *; lia).
    step_in H. pose proof (kmalloc_heap _ _ _ _ _ Hc) as Hheap.
    apply kmalloc_pointer in Hc; [|exact Hh].
    destruct Hc as [[-> ->]| ->].
    + left. change (truthy NULL) with false in H. cbv iota in H.
      step_in H. split; reflexivity.
    + right.
      replace (truthy (kernel_heap + heap_offset s)) with true in H
        by (symmetry; unfold truthy; apply negb_true_iff, Z.eqb_neq;
            unfold kernel_heap; lia).
      step_in H. step_in H.
      cbn [data heap set_heap]. rewrite Hheap.
      split; [reflexivity|].
      unfold deep_copy.
      cbn [valid data capacity active_dims hash_sig].
      split; [reflexivity|].
      split; [unfold sizeof_float in *; lia|].
      split; [reflexivity|]. split; [reflexivity|]. split; [reflexivity|].
      intros j Hj.
      rewrite !load_memcpy by (left; unfold sizeof_float in *; lia).
      destruct (Z.leb_spec (kernel_heap + heap_offset s)
                  (kernel_heap + heap_offset s + j));
        destruct (Z.ltb_spec (kernel_heap + heap_offset s + j)
                    (kernel_heap + heap_offset s
                     + Z.of_nat (Z.to_nat (capacity src * sizeof_float))));
        cbn [andb]; try lia.
      destruct (Z.leb_spec (kernel_heap + heap_offset s) (data src + j));
        destruct (Z.ltb_spec (data src + j)
                    (kernel_heap + heap_offset s
                     + Z.of_nat (Z.to_nat (capacity src * sizeof_float))));
        cbn [andb]; try (unfold sizeof_float in *; lia).
      all: do 2 f_equal; lia.
Qed.

Lemma copy_hyper_vector_result_witness :
  match copy_hyper_vector ample_fuel fresh_thought roomy_state with
  | Done s' c =>
      data c = kernel_heap + 8192
      /\ load_byte (heap s') (data c) = u8 (load_byte (heap s') (data fresh_thought))
      /\ entity_pool s' = entity_pool roomy_state
  | _ => False
  end.
Proof.
  assert (D : (data <$> returned (copy_hyper_vector ample_fuel fresh_thought
                                    roomy_state))
              = Some (kernel_heap + 8192)) by (vm_compute; reflexivity).
  destruct (copy_hyper_vector ample_fuel fresh_thought roomy_state)
    as [s' c| | |] eqn:E; try discriminate D.
  injection D as D.
  destruct (copy_hyper_vector_result _ _ _ _ _ E) as [_ Hc].
  destruct Hc as [[Hp _] [[Hz _]|(Hd & Hdeep)]];
    [reflexivity|vm_compute; split; [discriminate|reflexivity]
    |vm_compute; split; [reflexivity|discriminate]
    |vm_compute; discriminate|vm_compute; discriminate
    |rewrite Hz in D; discriminate D|].
  split; [exact Hd|].
  destruct Hdeep as (_ & _ & _ & _ & _ & Hb).
  split; [|exact Hp].
  rewrite <- (Z.add_0_r (data c)), <- (Z.add_0_r (data fresh_thought)).
  apply Hb. vm_compute. split; congruence.
Defined.

(** ** Similarity *)

Lemma fmul_comm (x y : float) : fmul x y = fmul y x.
Proof.
  unfold fmul, SFmul.
  destruct x as [sx|sx| |sx mx ex], y as [sy|sy| |sy my ey];
    try reflexivity; try (rewrite xorb_comm; reflexivity).
  rewrite xorb_comm, Pos.mul_comm, Z.add_comm. reflexivity.
Qed.

Lemma similarity_sums_swap (n : nat) (i : Z) (m : memory) (pa pb : Z)
    (dot mag_a mag_b : float) :
  similarity_sums n i m pb pa dot mag_b mag_a
  = let '(d, a, b) := similarity_sums n i m pa pb dot mag_a mag_b in
    (d, b, a).
Proof.
  revert i dot mag_a mag_b. induction n as [|n IH]; intros i dot mag_a mag_b;
    [reflexivity|].
  cbn [similarity_sums]. rewrite IH, (fmul_comm (load_float m (pb + _))).
  reflexivity.
Qed.

(** X6.  [compute_similarity] does not depend on the order of its two
    arguments, and it is 0.0 whenever one of them is invalid, has no
    buffer, or has no active dimension. *)
Theorem compute_similarity_symmetric (m : memory) (a b : HyperVector) :
  compute_similarity m a b = compute_similarity m b a
  /\ (truthy (valid a) = false \/ truthy (data a) = false
      \/ active_dims a = 0 ->
      0 <= active_dims b ->
      compute_similarity m a b = f0).
Proof.
  split.
  - unfold compute_similarity.
    destruct (truthy (valid a)), (truthy (valid b)), (truthy (data a)),
      (truthy (data b)); cbn [negb orb]; try reflexivity.
    assert (Hmin : (if active_dims b <? active_dims a then active_dims b
                    else active_dims a)
                   = (if active_dims a <? active_dims b then active_dims a
                      else active_dims b)).
    { destruct (Z.ltb_spec (active_dims b) (active_dims a)),
        (Z.ltb_spec (active_dims a) (active_dims b)); lia. }
    rewrite Hmin. destruct (_ =? 0); [reflexivity|].
    rewrite similarity_sums_swap.
    match goal with
    | |- context [similarity_sums ?n 0 m (data b) (data a) f0 f0 f0] =>
        destruct (similarity_sums n 0 m (data b) (data a) f0 f0 f0)
          as [[d mb] ma]
    end.
    rewrite (fmul_comm (if flt f0 mb then sqrtf mb else f1)). reflexivity.
  - intros H Hb. unfold compute_similarity.
    destruct H as [-> | [-> | Hz]];
      [reflexivity|rewrite !orb_true_r; reflexivity|].
    destruct (negb _ || negb _ || negb _ || negb _); [reflexivity|].
    rewrite Hz.
    replace (if 0 <? active_dims b then 0 else active_dims b) with 0
      by (destruct (Z.ltb_spec 0 (active_dims b)); lia).
    reflexivity.
Qed.

(** ** Merging *)

Lemma merge_loop_outside (n : nat) (i pd ps : Z) (m : memory) :
  0 <= i ->
  same_outside m (merge_loop n i pd ps m) pd (sizeof_float * (i + Z.of_nat n)).
Proof.
  revert i m. induction n as [|n IH]; intros i m Hi;
    [apply same_outside_refl|].
  cbn [merge_loop]. intros a Ha.
  rewrite IH by (try lia; unfold sizeof_float in *; lia).
  apply load_store_float_other. unfold sizeof_float in *. lia.
Qed.

Lemma load_alter_vector (f : HyperVector -> HyperVector) (l : vector_place)
    (s : State) (v : HyperVector) :
  load_vector l s = Some v -> load_vector l (alter_vector f l s) = Some (f v).
Proof.
  destruct l; cbn [load_vector alter_vector entity_pool set_entity_pool genes
                   set_genes collective set_collective thought_space
                   set_thought_space holo_system set_holo_system memory_pool
                   set_memory_pool]; intros H.
  - rewrite list_lookup_alter_eq.
    destruct (entity_pool s !! i); [|discriminate]. injection H as <-.
    reflexivity.
  - rewrite list_lookup_alter_eq.
    destruct (entity_pool s !! i); [|discriminate]. injection H as <-.
    reflexivity.
  - rewrite lookup_alter_eq.
    destruct (genes s !! g); [|discriminate]. injection H as <-.
    reflexivity.
  - rewrite list_lookup_alter_eq, H. reflexivity.
  - rewrite list_lookup_alter_eq.
    destruct (memory_pool (holo_system s) !! i); [|discriminate].
    injection H as <-. reflexivity.
  - rewrite list_lookup_alter_eq.
    destruct (memory_pool (holo_system s) !! i); [|discriminate].
    injection H as <-. reflexivity.
Qed.

(** X7.  [merge_hyper_vectors] is a no-op when the destination or the
    source is invalid.  Otherwise it writes only the first
    [min(active_dims)] floats of the destination buffer, keeps the
    destination's buffer pointer, capacity, [active_dims] and validity,
    and leaves its [hash_sig] equal to the hash of the active part of the
    buffer; it never allocates. *)
Theorem merge_hyper_vectors_frame (dest : vector_place) (src : HyperVector)
    (s s' : State) (u : unit) (d : HyperVector) :
  merge_hyper_vectors dest src s = Done s' u ->
  load_vector dest s = Some d ->
  heap_offset s' = heap_offset s
  /\ (truthy (valid d) = false \/ truthy (valid src) = false -> s' = s)
  /\ (truthy (valid d) = true -> truthy (valid src) = true ->
      exists d',
        load_vector dest s' = Some d'
        /\ data d' = data d /\ capacity d' = capacity d
        /\ active_dims d' = active_dims d /\ valid d' = valid d
        /\ hash_ok (heap s') d'
        /\ same_outside (heap s) (heap s') (data d)
             (sizeof_float * Z.min (active_dims d) (active_dims src))).
Proof.
  intros H Hd. unfold merge_hyper_vectors in H. step_in H. rewrite Hd in H.
  step_in H. injection E as <-.
  destruct (truthy (valid d)) eqn:Ea, (truthy (valid src)) eqn:Es;
    cbn [negb orb] in H;
    try (step_in H; split; [reflexivity|]; split; [reflexivity|];
         intros; discriminate).
  step_in H. step_in H.
  set (m := merge_loop _ 0 (data d) (data src) (heap s)).
  split; [destruct dest; reflexivity|].
  split; [intros [Hf|Hf]; discriminate Hf|]. intros _ _.
  eexists. split; [apply load_alter_vector; destruct dest; exact Hd|].
  cbn [data capacity active_dims valid set_hash_sig].
  split; [reflexivity|]. split; [reflexivity|]. split; [reflexivity|].
  split; [reflexivity|].
  assert (Hheap : heap (alter_vector
                          (set_hash_sig
                             (hash_data
                                (load_bytes m (data d)
                                   (Z.to_nat (u32 (active_dims d * sizeof_float))))))
                          dest (set_heap m s)) = m)
    by (destruct dest; reflexivity).
  rewrite Hheap. split; [unfold hash_ok; reflexivity|].
  intros a Ha. subst m.
  apply merge_loop_outside; [lia|].
  replace (0 + Z.of_nat (Z.to_nat (if active_dims d <? active_dims src
                                   then active_dims d else active_dims src)))
    with (Z.max 0 (Z.min (active_dims d) (active_dims src)))
    by (destruct (Z.ltb_spec (active_dims d) (active_dims src)); lia).
  unfold sizeof_float in *. lia.
Qed.

Lemma merge_hyper_vectors_frame_witness :
  match merge_hyper_vectors (Thought 0) fresh_thought roomy_state with
  | Done s' _ =>
      heap_offset s' = 8192
      /\ (exists d', load_vector (Thought 0) s' = Some d'
                     /\ data d' = kernel_heap + 4096 /\ hash_ok (heap s') d')
      /\ load_byte (heap s') (kernel_heap + 1027) = 63
  | _ => False
  end.
Proof.
  assert (D : returned (merge_hyper_vectors (Thought 0) fresh_thought
                          roomy_state) = Some tt) by (vm_compute; reflexivity).
  destruct (merge_hyper_vectors (Thought 0) fresh_thought roomy_state)
    as [s' u| | |] eqn:E; try discriminate D.
  destruct (merge_hyper_vectors_frame _ _ _ _ _ _ E eq_refl)
    as (Ho & _ & Hm).
  destruct (Hm eq_refl eq_refl) as (d' & Hl & Hd & _ & _ & _ & Hh & Hout).
  split; [exact Ho|]. split; [exists d'; repeat split; assumption|].
  rewrite Hout by (left; vm_compute; reflexivity).
  vm_compute. reflexivity.
Defined.

(** ** Genomes *)

Lemma find_weakest_scan (s : State) (cur : Z) (l : list Z) :
  gene_chain (genes s) cur l ->
  forall (k : nat) (seen : list Z) (prev w wp : Z),
    (length l <= k)%nat -> scanned (genes s) seen prev w wp ->
    exists w' wp',
      find_weakest k cur prev w wp s = Done s (w', wp')
      /\ scanned (genes s) (seen ++ l) (List.last (seen ++ l) NULL) w' wp'.
Proof.
  induction 1 as [|a g l Ha Hg Hl IH]; intros k seen prev w wp Hk Hs.
  - exists w, wp. split; [destruct k; reflexivity|].
    rewrite app_nil_r.
    destruct Hs as [(-> & -> & -> & ->)|(l1 & l2 & Hs)];
      [left; repeat split; reflexivity|].
    right. exists l1, l2. destruct Hs as (E & H1 & H2 & H3 & H4 & H5 & H6).
    repeat split; assumption.
  - destruct k as [|k]; [cbn [length] in Hk; lia|]. cbn [length] in Hk.
    cbn [find_weakest].
    replace (truthy a) with true
      by (symmetry; unfold truthy; apply negb_true_iff, Z.eqb_neq; exact Ha).
    unfold bind at 1, get at 1.
    erewrite bind_run by (rewrite Hg; reflexivity).
    assert (Hfa : fitness_at (genes s) a = fitness g)
      by (unfold fitness_at; rewrite Hg; reflexivity).
    replace (seen ++ a :: l) with ((seen ++ [a]) ++ l)
      by (rewrite <- app_assoc; reflexivity).
    destruct Hs as [(-> & -> & -> & ->)|(l1 & l2 & E & Hw & [gw Hgw] & H1 & H2 & -> & ->)].
    + change (truthy NULL) with false. cbv iota.
      erewrite bind_run by reflexivity. cbv iota.
      apply IH; [lia|]. right. exists [], [].
      split; [reflexivity|]. split; [exact Ha|]. split; [eauto|].
      split; [intros x Hx; apply not_elem_of_nil in Hx; contradiction|].
      split; [intros x Hx; apply not_elem_of_nil in Hx; contradiction|].
      split; reflexivity.
    + replace (truthy w) with true
        by (symmetry; unfold truthy; apply negb_true_iff, Z.eqb_neq; exact Hw).
      assert (Hfw : fitness_at (genes s) w = fitness gw)
        by (unfold fitness_at; rewrite Hgw; reflexivity).
      erewrite bind_run
        by (erewrite bind_run by (rewrite Hgw; reflexivity); reflexivity).
      destruct (Z.ltb_spec (fitness g) (fitness gw)) as [Hlt|Hge].
      * apply IH; [lia|]. right. exists seen, [].
        split; [reflexivity|]. split; [exact Ha|]. split; [eauto|].
        split.
        { intros x Hx. rewrite Hfa. subst seen.
          apply elem_of_app in Hx as [Hx|Hx];
            [specialize (H1 x Hx); lia|].
          apply elem_of_cons in Hx as [->|Hx]; [lia|].
          specialize (H2 x Hx). lia. }
        split; [intros x Hx; apply not_elem_of_nil in Hx; contradiction|].
        split; [reflexivity|]. rewrite last_last. reflexivity.
      * apply IH; [lia|]. right. exists l1, (l2 ++ [a]).
        split; [subst seen; rewrite <- app_assoc; reflexivity|].
        split; [exact Hw|]. split; [eauto|]. split; [exact H1|].
        split.
        { intros x Hx. apply elem_of_app in Hx as [Hx|Hx];
            [exact (H2 x Hx)|].
          apply list_elem_of_singleton in Hx as ->. lia. }
        split; [reflexivity|]. rewrite last_last. reflexivity.
Qed.

(** X8.  The scan of a gene chain returns the first gene of least fitness
    and the gene that precedes it in the chain (NULL when it is the head);
    on an empty chain it returns NULL.  It reads only and needs one unit of
    fuel for each gene. *)
Theorem find_weakest_finds_minimum (k : nat) (start : Z) (s : State)
    (l : list Z) :
  gene_chain (genes s) start l -> (length l <= k)%nat ->
  exists w wp,
    find_weakest k start NULL NULL NULL s = Done s (w, wp)
    /\ ((l = [] /\ w = NULL /\ wp = NULL)
        \/ exists l1 l2,
             l = l1 ++ w :: l2
             /\ (forall a, a ∈ l1 ->
                   fitness_at (genes s) w < fitness_at (genes s) a)
             /\ (forall a, a ∈ l2 ->
                   fitness_at (genes s) w <= fitness_at (genes s) a)
             /\ wp = List.last l1 NULL).
Proof.
  intros Hc Hk.
  destruct (find_weakest_scan s start l Hc k [] NULL NULL NULL Hk)
    as (w & wp & Hrun & Hs);
    [left; repeat split; reflexivity|].
  exists w, wp. split; [exact Hrun|]. cbn [app] in Hs.
  destruct Hs as [(-> & _ & -> & ->)|(l1 & l2 & E & _ & _ & H1 & H2 & Hp & _)];
    [left; repeat split; reflexivity|].
  right. exists l1, l2. repeat split; assumption.
Qed.

Lemma find_weakest_finds_minimum_witness :
  exists w wp,
    find_weakest 2 (kernel_heap + 2096) NULL NULL NULL pressured_state
    = Done pressured_state (w, wp)
    /\ fitness_at (genes pressured_state) w
       <= fitness_at (genes pressured_state) (kernel_heap + 2048).
Proof.
  destruct (find_weakest_finds_minimum 2 (kernel_heap + 2096) pressured_state
              [kernel_heap + 2096; kernel_heap + 2048])
    as (w & wp & Hrun & Hmin).
  - apply (chain_link _ _ gene_b); [discriminate|reflexivity|].
    apply (chain_link _ _ gene_a); [discriminate|reflexivity|].
    apply chain_end.
  - cbn [length]. lia.
  - exists w, wp. split; [exact Hrun|].
    destruct Hmin as [(Hnil & _)|(l1 & l2 & E & H1 & H2 & _)];
      [discriminate Hnil|].
    assert (Hin : (kernel_heap + 2048) ∈ l1 ++ w :: l2)
      by (rewrite <- E; apply elem_of_cons; right; apply elem_of_cons;
          left; reflexivity).
    apply elem_of_app in Hin as [Hin|Hin]; [specialize (H1 _ Hin); lia|].
    apply elem_of_cons in Hin as [<-|Hin]; [lia|exact (H2 _ Hin)].
Defined.

Lemma gene_chain_alter (G : gmap Z Gene) (f : Gene -> Gene) (x a : Z)
    (l : list Z) :
  gene_chain G a l -> x ∉ l -> gene_chain (alter f x G) a l.
Proof.
  induction 1 as [|a g l Ha Hg Hl IH]; intros Hx; [apply chain_end|].
  apply not_elem_of_cons in Hx as [Hxa Hxl].
  apply (chain_link _ _ g); [exact Ha| |apply IH; exact Hxl].
  rewrite lookup_alter_ne by exact Hxa. exact Hg.
Qed.

(** X9.  [add_gene_to_entity] refuses a NULL gene and an entity that
    already has [MAX_GENES_PER_ENTITY] genes, changing nothing.  Otherwise
    it pushes the gene on the front of the entity's chain: the chain
    becomes the gene followed by the old chain, and [gene_count] grows by
    one, staying at most [MAX_GENES_PER_ENTITY]. *)
Theorem add_gene_to_entity_prepends (i : nat) (gene : Z) (s s' : State)
    (u : unit) (e : Entity) (l : list Z) :
  add_gene_to_entity i gene s = Done s' u ->
  entity_pool s !! i = Some e ->
  gene_chain (genes s) (genome e) l ->
  0 <= gene_count e ->
  (gene = NULL \/ MAX_GENES_PER_ENTITY <= gene_count e -> s' = s)
  /\ (gene <> NULL -> gene_count e < MAX_GENES_PER_ENTITY -> gene ∉ l ->
      exists e',
        entity_pool s' !! i = Some e'
        /\ genome e' = gene
        /\ gene_count e' = gene_count e + 1
        /\ gene_count e' <= MAX_GENES_PER_ENTITY
        /\ gene_chain (genes s') gene (gene :: l)).
Proof.
  intros H He Hl H0. unfold add_gene_to_entity in H.
  step_in H. rewrite He in H. step_in H. injection E as <-.
  split.
  - intros [-> |Hfull].
    + change (truthy NULL) with false in H. cbn [negb orb] in H.
      step_in H. reflexivity.
    + apply Z.leb_le in Hfull. rewrite Hfull, orb_true_r in H.
      step_in H. reflexivity.
  - intros Hg Hroom Hnew.
    replace (truthy gene) with true in H
      by (symmetry; unfold truthy; apply negb_true_iff, Z.eqb_neq; exact Hg).
    replace (MAX_GENES_PER_ENTITY <=? gene_count e) with false in H
      by (symmetry; apply Z.leb_gt; exact Hroom).
    cbn [negb orb] in H. step_in H. step_in H. step_in H.
    cbn [entity_pool set_entity_pool genes set_genes].
    eexists. split; [rewrite list_lookup_alter_eq, He; reflexivity|].
    cbn [genome gene_count set_gene_count set_genome].
    rewrite u32_small by (unfold MAX_GENES_PER_ENTITY in *; lia).
    split; [reflexivity|]. split; [reflexivity|]. split; [lia|].
    apply (chain_link _ _ (set_next (genome e) a)); [exact Hg| |].
    + rewrite lookup_alter_eq, E. reflexivity.
    + cbn [next set_next]. apply gene_chain_alter; assumption.
Qed.

Lemma add_gene_to_entity_prepends_witness :
  match add_gene_to_entity 1 (kernel_heap + 3000) spare_gene_state with
  | Done s' _ =>
      exists e',
        entity_pool s' !! 1%nat = Some e'
        /\ gene_count e' = 3
        /\ gene_chain (genes s') (genome e')
             [kernel_heap + 3000; kernel_heap + 2096; kernel_heap + 2048]
  | _ => False
  end.
Proof.
  assert (D : returned (add_gene_to_entity 1 (kernel_heap + 3000)
                          spare_gene_state) = Some tt)
    by (vm_compute; reflexivity).
  destruct (add_gene_to_entity 1 (kernel_heap + 3000) spare_gene_state)
    as [s' u| | |] eqn:E; try discriminate D.
  destruct (add_gene_to_entity_prepends 1 _ _ s' u two_gene_entity
              [kernel_heap + 2096; kernel_heap + 2048] E eq_refl)
    as [_ Hpush].
  - apply (chain_link _ _ gene_b); [discriminate|reflexivity|].
    apply (chain_link _ _ gene_a); [discriminate|reflexivity|].
    apply chain_end.
  - discriminate.
  - destruct Hpush as (e' & He' & Hg & Hc & _ & Hchain);
      [discriminate|reflexivity| |].
    + intros Hin. apply elem_of_cons in Hin as [Hin|Hin];
        [discriminate Hin|].
      apply elem_of_cons in Hin as [Hin|Hin]; [discriminate Hin|].
      apply not_elem_of_nil in Hin. exact Hin.
    + exists e'. split; [exact He'|]. split; [exact Hc|].
      rewrite Hg. exact Hchain.
Defined.

(** ** The collector *)

(** X10.  What a collection pass that returns never does.  It leaves
    [active_entity_count], the global tick and the size of the pool alone;
    it changes no identifier, age, confidence, fitness, mutation rate,
    interaction count, resource allocation or domain name; it never
    activates an entity; a state or task vector is either untouched or left
    without buffer; and the genome of an entity that was inactive is not
    touched. *)
Theorem collection_leaves_traits (fuel : nat) (s s' : State) (u : unit) :
  perform_emergent_garbage_collection fuel s = Done s' u ->
  active_entity_count s' = active_entity_count s
  /\ global_timestamp (holo_system s') = global_timestamp (holo_system s)
  /\ length (entity_pool s') = length (entity_pool s)
  /\ forall i e e',
       entity_pool s !! i = Some e -> entity_pool s' !! i = Some e' ->
       (id e' = id e /\ age e' = age e /\ confidence e' = confidence e
        /\ fitness_score e' = fitness_score e
        /\ mutation_rate e' = mutation_rate e
        /\ interaction_count e' = interaction_count e
        /\ resource_allocation e' = resource_allocation e
        /\ domain_name e' = domain_name e)
       /\ (is_active e' = is_active e \/ is_active e' = 0)
       /\ (state e' = state e \/ data (state e') = NULL)
       /\ (task_vector e' = task_vector e \/ data (task_vector e') = NULL)
       /\ (truthy (is_active e) = false ->
           genome e' = genome e /\ gene_count e' = gene_count e).
Proof.
  intros H. apply collection_is_a_step in H as (Hc & Ht & Hf).
  split; [exact Hc|]. split; [exact Ht|].
  split; [symmetry; eapply Forall2_length; exact Hf|].
  intros i e e' He He'.
  destruct (Forall2_lookup_lr _ _ _ _ _ _ Hf He He')
    as (Htr & Hs & Htv & Ha & Hg).
  split; [unfold same_traits in Htr; rewrite Htr; repeat split|].
  split; [destruct Ha as [Ha|(_ & _ & Hz & _)]; [left; exact Ha|right; exact Hz]|].
  split; [exact Hs|]. split; [exact Htv|exact Hg].
Qed.

Lemma collection_leaves_traits_witness :
  match perform_emergent_garbage_collection 50 pressured_state with
  | Done s' _ =>
      active_entity_count s' = 2
      /\ exists e', entity_pool s' !! 1%nat = Some e'
                    /\ id e' = 1 /\ age e' = 0 /\ mutation_rate e' = 50
  | _ => False
  end.
Proof.
  assert (D : returned (perform_emergent_garbage_collection 50 pressured_state)
              = Some tt) by (vm_compute; reflexivity).
  destruct (perform_emergent_garbage_collection 50 pressured_state)
    as [s' u| | |] eqn:E; try discriminate D.
  destruct (collection_leaves_traits 50 pressured_state s' u E)
    as (Hc & _ & Hl & Hf).
  split; [exact Hc|].
  destruct (lookup_lt_is_Some_2 (entity_pool s') 1) as [e' He'];
    [rewrite Hl; vm_compute; lia|].
  exists e'. split; [exact He'|].
  destruct (Hf 1%nat two_gene_entity e' eq_refl He')
    as ((Hi & Ha & _ & _ & Hm & _) & _).
  rewrite Hi, Ha, Hm. repeat split.
Defined.

(** ** Nothing is given back to the arena *)

Lemma forward_refl (s : State) : forward s s.
Proof. intros H. lia. Qed.

Lemma forward_trans (s1 s2 s3 : State) :
  forward s1 s2 -> forward s2 s3 -> forward s1 s3.
Proof. intros H1 H2 H. specialize (H1 H). specialize (H2 ltac:(lia)). lia. Qed.

Lemma forward_same (s s' : State) :
  heap_offset s' = heap_offset s -> forward s s'.
Proof. intros E H. rewrite E. lia. Qed.

Lemma forward_alter_vector (f : HyperVector -> HyperVector) (l : vector_place)
    (s : State) : forward s (alter_vector f l s).
Proof. apply forward_same. destruct l; reflexivity. Qed.

Lemma kmalloc_forward (fuel : nat) (n : Z) (s s' : State) (p : Z) :
  0 <= n < 2 ^ 31 -> kmalloc fuel n s = Done s' p -> forward s s'.
Proof.
  intros Hn H Hh. apply (kmalloc_offset fuel n s s' p H Hh Hn).
Qed.

Lemma create_hyper_vector_forward (fuel : nat) (input : list Z)
    (s s' : State) (v : HyperVector) :
  create_hyper_vector fuel input s = Done s' v ->
  forward s s' /\ capacity v = INITIAL_DIMENSIONS.
Proof.
  intros H. unfold create_hyper_vector in H. step_in H.
  apply kmalloc_forward in Hc; [|vm_compute; split; [discriminate|reflexivity]].
  case_if_in H.
  - step_in H. cbv zeta in H. step_in H. step_in H.
    split; [|reflexivity].
    eapply forward_trans; [exact Hc|apply forward_same; reflexivity].
  - step_in H. split; [exact Hc|reflexivity].
Qed.

Lemma copy_hyper_vector_forward (fuel : nat) (src : HyperVector)
    (s s' : State) (v : HyperVector) :
  0 <= capacity src <= MAX_DIMENSIONS ->
  copy_hyper_vector fuel src s = Done s' v -> forward s s'.
Proof.
  intros Hcap H. unfold copy_hyper_vector in H.
  case_if_in H; [step_in H; apply forward_refl|].
  cbv zeta in H. step_in H.
  apply kmalloc_forward in Hc;
    [|rewrite u32_small; unfold MAX_DIMENSIONS, sizeof_float in *; lia].
  case_if_in H.
  - step_in H. step_in H.
    eapply forward_trans; [exact Hc|apply forward_same; reflexivity].
  - step_in H. exact Hc.
Qed.

Create HintDb forward.

(** Walks back from the final state of a computation to its first one. *)
Ltac forward_back :=
  repeat match goal with
    | |- forward ?s ?s => apply forward_refl
    | H : ?f ?t = Done ?s' _ |- forward ?s ?s' =>
        apply (forward_trans s t); [clear H|solve [eauto with forward]]
    | |- forward ?s (alter_vector ?g ?l ?t) =>
        apply (forward_trans s t); [|apply forward_alter_vector]
    | |- forward ?s (?f ?t) =>
        apply (forward_trans s t); [|apply forward_same; reflexivity]
    end.

Section CollectorForward.

Variable fuel : nat.
Variable gc : M unit.
Hypothesis gc_forward : forall s s' u, gc s = Done s' u -> forward s s'.

Lemma kfree_forward (ptr : Z) (s s' : State) (u : unit) :
  kfree gc ptr s = Done s' u -> forward s s'.
Proof.
  intros H. unfold kfree in H. explode; forward_back.
Qed.

#[local] Hint Resolve kfree_forward : forward.

Lemma destroy_hyper_vector_forward (l : vector_place) (s s' : State)
    (u : unit) :
  destroy_hyper_vector gc l s = Done s' u -> forward s s'.
Proof. intros H. unfold destroy_hyper_vector in H. explode; forward_back. Qed.

Lemma destroy_local_forward (v v' : HyperVector) (s s' : State) :
  destroy_local gc v s = Done s' v' -> forward s s'.
Proof. intros H. unfold destroy_local in H. explode; forward_back. Qed.

#[local] Hint Resolve destroy_hyper_vector_forward destroy_local_forward
  : forward.

Lemma destroy_genome_from_forward (k : nat) (current : Z) (s s' : State)
    (u : unit) :
  destroy_genome_from gc k current s = Done s' u -> forward s s'.
Proof.
  revert current s. induction k as [|k IH]; intros current s H;
    cbn [destroy_genome_from] in H.
  - case_if_in H; [discriminate|]. explode. apply forward_refl.
  - case_if_in H; [|explode; apply forward_refl].
    cbv zeta in H. repeat step_in H. apply IH in H.
    eapply forward_trans; [|exact H]. forward_back.
Qed.

Lemma destroy_genome_forward (genome : Z) (s s' : State) (u : unit) :
  destroy_genome fuel gc genome s = Done s' u -> forward s s'.
Proof. apply destroy_genome_from_forward. Qed.

#[local] Hint Resolve destroy_genome_forward : forward.

Lemma broadcast_thought_forward (thought : HyperVector) (s s' : State)
    (u : unit) :
  0 <= capacity thought <= MAX_DIMENSIONS ->
  broadcast_thought fuel gc thought s = Done s' u -> forward s s'.
Proof.
  intros Hcap H. unfold broadcast_thought in H.
  case_if_in H; [explode; apply forward_refl|].
  step_in H. step_in H. step_in H.
  apply (copy_hyper_vector_forward _ _ _ _ _ Hcap) in Hc0.
  assert (Hfirst : forward s s0) by (clear H Hc0; explode; forward_back).
  clear Hc. explode.
  repeat match goal with
    | |- forward ?s (?f ?t) =>
        apply (forward_trans s t); [|apply forward_same; reflexivity]
    end.
  eapply forward_trans; [exact Hfirst|exact Hc0].
Qed.

Lemma collect_entity_forward (i : nat) (s s' : State) (u : unit) :
  collect_entity fuel gc i s = Done s' u -> forward s s'.
Proof.
  intros H. unfold collect_entity in H.
  step_in H. step_in H. case_if_in H; [explode; apply forward_refl|].
  case_if_in H; [explode; forward_back|].
  step_in H. apply find_weakest_state in Hc. subst.
  cbv zeta in H. case_if_in H; [|explode; apply forward_refl].
  explode; forward_back.
Qed.

Lemma collect_entities_forward (k i : nat) (s s' : State) (u : unit) :
  for_entities k i (collect_entity fuel gc) s = Done s' u -> forward s s'.
Proof.
  revert i s. induction k as [|k IH]; intros i s H; cbn [for_entities] in H.
  - explode. apply forward_refl.
  - explode; [|apply forward_refl].
    apply collect_entity_forward in Hc. apply IH in H.
    eapply forward_trans; eassumption.
Qed.

Lemma collect_forward (s s' : State) (u : unit) :
  collect fuel gc s = Done s' u -> forward s s'.
Proof.
  intros H. unfold collect in H. step_in H.
  apply create_hyper_vector_forward in Hc as [Hc Hcap].
  step_in H. step_in H. apply collect_entities_forward in H.
  eapply forward_trans; [exact Hc|]. eapply forward_trans; [|exact H].
  case_if_in Hc0; [|explode; apply forward_refl].
  step_in Hc0. apply broadcast_thought_forward in Hc1;
    [|rewrite Hcap; vm_compute; split; discriminate].
  explode. forward_back. exact Hc1.
Qed.

End CollectorForward.

Lemma collection_forward (fuel : nat) (s s' : State) (u : unit) :
  perform_emergent_garbage_collection fuel s = Done s' u -> forward s s'.
Proof.
  revert s s' u. induction fuel as [|f IH]; intros s s' u H;
    [discriminate|].
  cbn [perform_emergent_garbage_collection] in H.
  eapply collect_forward; [exact IH|exact H].
Qed.

(** X11.  Nothing is ever given back to the arena: neither [kfree]
    (collections it starts included) nor a collection pass lowers
    [heap_offset]; the "garbage" they handle stays allocated. *)
Theorem nothing_returns_to_the_arena (fuel : nat) (s : State) :
  0 <= heap_offset s < KERNEL_HEAP_SIZE + 8 ->
  (forall ptr s' u,
     kfree (perform_emergent_garbage_collection fuel) ptr s = Done s' u ->
     heap_offset s <= heap_offset s' < KERNEL_HEAP_SIZE + 8)
  /\ (forall s' u,
        perform_emergent_garbage_collection fuel s = Done s' u ->
        heap_offset s <= heap_offset s' < KERNEL_HEAP_SIZE + 8).
Proof.
  intros Hh. split.
  - intros ptr s' u H.
    apply (kfree_forward (perform_emergent_garbage_collection fuel)) in H;
      [exact (H Hh)|].
    intros t t' v. apply collection_forward.
  - intros s' u H. apply collection_forward in H. exact (H Hh).
Qed.

Lemma nothing_returns_to_the_arena_witness :
  match kfree (perform_emergent_garbage_collection 50) (kernel_heap + 4096)
          pressured_state with
  | Done s' _ => 786416 <= heap_offset s'
  | _ => False
  end.
Proof.
  assert (D : returned (kfree (perform_emergent_garbage_collection 50)
                          (kernel_heap + 4096) pressured_state) = Some tt)
    by (vm_compute; reflexivity).
  destruct (kfree (perform_emergent_garbage_collection 50)
              (kernel_heap + 4096) pressured_state) as [s' u| | |] eqn:E;
    try discriminate D.
  destruct (nothing_returns_to_the_arena 50 pressured_state) as [Hk _];
    [vm_compute; split; [discriminate|reflexivity]|].
  apply (Hk _ _ _ E).
Defined.

(** X12.  Destruction is idempotent: once [destroy_hyper_vector] has
    returned, the vector has no buffer, and destroying it again returns at
    once, frees nothing and changes nothing, whatever the collector did in
    between. *)
Theorem destroy_hyper_vector_idempotent (gc : M unit) (l : vector_place)
    (s s' : State) (u : unit) (v : HyperVector) :
  destroy_hyper_vector gc l s = Done s' u ->
  load_vector l s' = Some v ->
  data v = NULL /\ destroy_hyper_vector gc l s' = Done s' tt.
Proof.
  intros H Hv.
  pose proof (destroy_hyper_vector_released gc l s s' u v H Hv) as Hd.
  split; [exact Hd|].
  unfold destroy_hyper_vector. unfold bind at 1, get at 1.
  erewrite bind_run by (rewrite Hv; reflexivity).
  rewrite Hd. reflexivity.
Qed.

Lemma destroy_hyper_vector_idempotent_witness :
  match destroy_hyper_vector (perform_emergent_garbage_collection 50)
          (Thought 0) roomy_state with
  | Done s' _ =>
      destroy_hyper_vector (perform_emergent_garbage_collection 50)
        (Thought 0) s' = Done s' tt
  | _ => False
  end.
Proof.
  assert (D : (hash_sig <$>
               (final_state (destroy_hyper_vector
                               (perform_emergent_garbage_collection 50)
                               (Thought 0) roomy_state)
                  ≫= load_vector (Thought 0))) = Some 100)
    by (vm_compute; reflexivity).
  assert (R : returned (destroy_hyper_vector
                          (perform_emergent_garbage_collection 50)
                          (Thought 0) roomy_state) = Some tt)
    by (vm_compute; reflexivity).
  destruct (destroy_hyper_vector (perform_emergent_garbage_collection 50)
              (Thought 0) roomy_state) as [s' u| | |] eqn:E;
    try discriminate R.
  cbn [final_state mbind option_bind] in D.
  destruct (load_vector (Thought 0) s') as [v|] eqn:Hv; [|discriminate D].
  apply (destroy_hyper_vector_idempotent _ _ _ _ _ _ E Hv).
Defined.

(** ** A tick without copies *)

Section Carry.

Variable fuel : nat.
Variable gc : M unit.
Variable entity_pool_address : Z.

Lemma evaluate_entity_carry (pressure : float) (i : nat) (s : State)
    (e : Entity) :
  entity_pool s !! i = Some e ->
  can_afford_vector_copy 2 s = false ->
  evaluate_entity fuel gc entity_pool_address pressure i s
  = Done (alter_entity i (fun e => set_age (u32 (age e + 1)) e) s)
         (pending_of e).
Proof.
  intros He Ha. unfold evaluate_entity.
  unfold bind at 1, get at 1.
  erewrite bind_run by (rewrite He; reflexivity).
  cbv zeta.
  destruct (flt (float_lit 8 10) pressure && (fitness_score e <? 30));
    [reflexivity|].
  rewrite Ha. reflexivity.
Qed.

(** Phase 1 from slot [i]: the slots from [i] up to the count have aged,
    and their pending records are the shallow carry-forward. *)
Lemma evaluate_entities_carry (k i : nat) (pressure : float)
    (acc : list pending) (s : State) :
  can_afford_vector_copy 2 s = false ->
  active_entity_count s <= Z.of_nat (length (entity_pool s)) ->
  length acc = i ->
  exists s' next,
    evaluate_entities fuel gc entity_pool_address k i pressure acc s
    = Done s' next
    /\ s' = set_entity_pool (entity_pool s') s
    /\ length (entity_pool s') = length (entity_pool s)
    /\ (forall j e, entity_pool s !! j = Some e ->
          entity_pool s' !! j
          = Some (if (i <=? j)%nat && (Z.of_nat j <? active_entity_count s)
                     && (j <? i + k)%nat
                  then set_age (u32 (age e + 1)) e else e))
    /\ (forall j, (j < i)%nat -> next !! j = acc !! j)
    /\ (forall j e, (i <= j < i + k)%nat ->
          Z.of_nat j < active_entity_count s ->
          entity_pool s !! j = Some e -> next !! j = Some (pending_of e)).
Proof.
  revert i acc s. induction k as [|k IH]; intros i acc s Ha Hwf Hlen;
    cbn [evaluate_entities].
  - exists s, acc. split; [reflexivity|].
    split; [destruct s; reflexivity|]. split; [reflexivity|].
    split.
    { intros j e He. rewrite He.
      destruct (Nat.leb_spec i j), (Nat.ltb_spec j (i + 0));
        destruct (Z.of_nat j <? active_entity_count s); cbn [andb];
        try reflexivity; lia. }
    split; [reflexivity|]. intros j e Hj. lia.
  - unfold bind at 1, get at 1.
    destruct (Z.ltb_spec (Z.of_nat i) (active_entity_count s)) as [Hlt|Hge].
    + destruct (lookup_lt_is_Some_2 (entity_pool s) i ltac:(lia)) as [ei Hei].
      rewrite (bind_run _ _ _ _ _
                 (evaluate_entity_carry pressure i s ei Hei Ha)).
      set (s1 := alter_entity i (fun e => set_age (u32 (age e + 1)) e) s).
      destruct (IH (S i) (acc ++ [pending_of ei]) s1)
        as (s' & next & Hrun & Hs' & Hl & Hp & Hacc & Hnext).
      * exact Ha.
      * subst s1. cbn [active_entity_count entity_pool alter_entity
                       set_entity_pool]. rewrite length_alter. exact Hwf.
      * rewrite length_app. cbn [length]. lia.
      * exists s', next. split; [exact Hrun|].
        subst s1. cbn [active_entity_count entity_pool alter_entity
                       set_entity_pool] in *.
        rewrite length_alter in Hl.
        split; [rewrite Hs' at 1; destruct s; reflexivity|].
        split; [exact Hl|]. split; [|split].
        -- intros j e He. destruct (decide (i = j)) as [<-|Hne].
           ++ rewrite (Hp i (set_age (u32 (age e + 1)) e))
                by (rewrite list_lookup_alter_eq, He; reflexivity).
              replace (S i <=? i)%nat with false
                by (symmetry; apply Nat.leb_gt; lia).
              replace (i <=? i)%nat with true
                by (symmetry; apply Nat.leb_le; lia).
              replace (Z.of_nat i <? active_entity_count s) with true
                by (symmetry; apply Z.ltb_lt; lia).
              replace (i <? i + S k)%nat with true
                by (symmetry; apply Nat.ltb_lt; lia).
              reflexivity.
           ++ rewrite (Hp j e)
                by (rewrite list_lookup_alter_ne by exact Hne; exact He).
              replace (S i <=? j)%nat with (i <=? j)%nat
                by (destruct (Nat.leb_spec (S i) j), (Nat.leb_spec i j);
                    try reflexivity; lia).
              replace (j <? S i + k)%nat with (j <? i + S k)%nat
                by (f_equal; lia).
              reflexivity.
        -- intros j Hj. rewrite Hacc by lia.
           apply lookup_app_l. lia.
        -- intros j e Hj Hjc He. destruct (decide (i = j)) as [<-|Hne].
           ++ rewrite Hacc by lia. rewrite lookup_app_r by lia.
              replace (i - length acc)%nat with 0%nat by lia.
              rewrite Hei in He. injection He as <-. reflexivity.
           ++ apply Hnext; [lia|exact Hjc|].
              rewrite list_lookup_alter_ne by exact Hne. exact He.
    + exists s, acc. split; [reflexivity|].
      split; [destruct s; reflexivity|]. split; [reflexivity|].
      split.
      { intros j e He. rewrite He.
        destruct (Nat.leb_spec i j); cbn [andb]; [|reflexivity].
        replace (Z.of_nat j <? active_entity_count s) with false
          by (symmetry; apply Z.ltb_ge; lia).
        reflexivity. }
      split; [reflexivity|]. intros j e Hj Hjc. lia.
Qed.

Lemma commit_entity_carry (next : list pending) (i : nat) (s : State)
    (e0 : Entity) :
  next !! i = Some (pending_of e0) ->
  entity_pool s !! i = Some (set_age (u32 (age e0 + 1)) e0) ->
  exists s',
    commit_entity gc next i s = Done s' tt
    /\ s' = set_entity_pool (entity_pool s') s
    /\ length (entity_pool s') = length (entity_pool s)
    /\ entity_pool s' !! i = Some (carried e0)
    /\ forall j, j <> i -> entity_pool s' !! j = entity_pool s !! j.
Proof.
  intros Hp He. unfold commit_entity.
  erewrite bind_run by (rewrite Hp; reflexivity).
  unfold bind at 1, get at 1.
  erewrite bind_run by (rewrite He; reflexivity).
  unfold bind at 1, modify at 1, bind at 1, get at 1.
  cbn [entity_pool alter_entity set_entity_pool].
  erewrite bind_run
    by (rewrite list_lookup_alter_eq, He; reflexivity).
  cbn [state set_is_active set_age next_state pending_of].
  rewrite Z.eqb_refl, andb_false_r.
  erewrite bind_run by reflexivity.
  unfold bind at 1, modify at 1, bind at 1, get at 1.
  cbn [entity_pool alter_entity set_entity_pool].
  erewrite bind_run
    by (rewrite !list_lookup_alter_eq, He; reflexivity).
  cbn [task_vector set_is_active set_state set_domain_name set_age
       next_task_vector pending_of].
  rewrite Z.eqb_refl, andb_false_r.
  erewrite bind_run by reflexivity.
  unfold modify. eexists. split; [reflexivity|].
  cbn [entity_pool alter_entity set_entity_pool].
  split; [destruct s; reflexivity|].
  split; [rewrite !length_alter; reflexivity|].
  split.
  - rewrite !list_lookup_alter_eq, He. destruct e0. reflexivity.
  - intros j Hj. rewrite !list_lookup_alter_ne by congruence. reflexivity.
Qed.

(** Phase 2 from slot [i], over a pool whose slots below the count have
    aged and whose pending records are the shallow carry-forward of the
    pool [P0] the tick started from. *)
Lemma commit_entities_carry (P0 : list Entity) (next : list pending)
    (k i : nat) (s : State) :
  length (entity_pool s) = length P0 ->
  active_entity_count s <= Z.of_nat (length P0) ->
  (forall j e0, P0 !! j = Some e0 -> Z.of_nat j < active_entity_count s ->
     next !! j = Some (pending_of e0)) ->
  (forall j e0, P0 !! j = Some e0 ->
     entity_pool s !! j
     = Some (if Z.of_nat j <? active_entity_count s
             then if (j <? i)%nat then carried e0
                  else set_age (u32 (age e0 + 1)) e0
             else e0)) ->
  exists s',
    for_entities k i (commit_entity gc next) s = Done s' tt
    /\ s' = set_entity_pool (entity_pool s') s
    /\ forall j e0, P0 !! j = Some e0 ->
         entity_pool s' !! j
         = Some (if Z.of_nat j <? active_entity_count s
                 then if (j <? i + k)%nat then carried e0
                      else set_age (u32 (age e0 + 1)) e0
                 else e0).
Proof.
  revert i s. induction k as [|k IH]; intros i s Hlen Hwf Hnext Hpool;
    cbn [for_entities].
  - exists s. split; [reflexivity|]. split; [destruct s; reflexivity|].
    intros j e0 He0. rewrite (Hpool j e0 He0).
    replace (i + 0)%nat with i by lia. reflexivity.
  - unfold bind at 1, get at 1.
    destruct (Z.ltb_spec (Z.of_nat i) (active_entity_count s)) as [Hlt|Hge].
    + destruct (lookup_lt_is_Some_2 P0 i ltac:(lia)) as [ei Hei].
      pose proof (Hpool i ei Hei) as Hi.
      replace (Z.of_nat i <? active_entity_count s) with true in Hi
        by (symmetry; apply Z.ltb_lt; lia).
      rewrite Nat.ltb_irrefl in Hi.
      destruct (commit_entity_carry next i s ei (Hnext i ei Hei Hlt) Hi)
        as (s1 & Hrun & Hs1 & Hl1 & Hat & Hother).
      erewrite bind_run by exact Hrun.
      assert (Hc1 : active_entity_count s1 = active_entity_count s)
        by (rewrite Hs1; reflexivity).
      destruct (IH (S i) s1) as (s' & Hgo & Hs' & Hfin).
      * rewrite Hl1. exact Hlen.
      * rewrite Hc1. exact Hwf.
      * intros j e0 He0 Hj. rewrite Hc1 in Hj. exact (Hnext j e0 He0 Hj).
      * intros j e0 He0. rewrite Hc1.
        destruct (decide (j = i)) as [->|Hne].
        -- rewrite Hat. rewrite Hei in He0. injection He0 as <-.
           replace (Z.of_nat i <? active_entity_count s) with true
             by (symmetry; apply Z.ltb_lt; lia).
           replace (i <? S i)%nat with true
             by (symmetry; apply Nat.ltb_lt; lia).
           reflexivity.
        -- rewrite (Hother j Hne), (Hpool j e0 He0).
           replace (j <? S i)%nat with (j <? i)%nat
             by (destruct (Nat.ltb_spec j (S i)), (Nat.ltb_spec j i);
                 try reflexivity; lia).
           reflexivity.
      * exists s'. split; [exact Hgo|].
        split; [rewrite Hs' at 1; rewrite Hs1; destruct s; reflexivity|].
        intros j e0 He0. rewrite (Hfin j e0 He0), Hc1.
        replace (S i + k)%nat with (i + S k)%nat by lia. reflexivity.
    + exists s. split; [reflexivity|]. split; [destruct s; reflexivity|].
      intros j e0 He0. rewrite (Hpool j e0 He0).
      destruct (Z.ltb_spec (Z.of_nat j) (active_entity_count s));
        [|reflexivity].
      replace (j <? i)%nat with true by (symmetry; apply Nat.ltb_lt; lia).
      replace (j <? i + S k)%nat with true
        by (symmetry; apply Nat.ltb_lt; lia).
      reflexivity.
Qed.

End Carry.

Lemma holds_from_spec (P : Z -> bool) (n : nat) (k j : Z) :
  holds_from P n k = true -> k <= j < k + Z.of_nat n -> P j = true.
Proof.
  revert k. induction n as [|n IH]; intros k H Hj; [lia|].
  cbn [holds_from] in H. apply andb_true_iff in H as [H0 H1].
  destruct (Z.eq_dec j k) as [->|Hne]; [exact H0|].
  apply (IH (k + 1)); [exact H1|lia].
Qed.

(** With fewer than 20480 free bytes two vector copies are not affordable:
    0.8 times the free space stays below the 16384 bytes needed by 0.8 at
    least, a margin that no rounding of the product closes. *)
Lemma short_of_two_copies :
  holds_from (fun k => negb (flt (float_of_Z 16384)
                               (fmul (float_of_Z k) (float_lit 8 10))))
    (Z.to_nat 20480) 0 = true.
Proof. vm_compute. reflexivity. Qed.

Lemma cannot_afford_two_copies (s : State) :
  KERNEL_HEAP_SIZE - 20480 < heap_offset s <= KERNEL_HEAP_SIZE ->
  can_afford_vector_copy 2 s = false.
Proof.
  intros Hr. unfold can_afford_vector_copy. cbv zeta.
  change (u32 (2 * MAX_DIMENSIONS * sizeof_float)) with 16384.
  rewrite u32_small by (unfold KERNEL_HEAP_SIZE in *; lia).
  apply negb_true_iff.
  apply (holds_from_spec _ _ _ (KERNEL_HEAP_SIZE - heap_offset s)
           short_of_two_copies).
  rewrite Z2Nat.id by lia. lia.
Qed.

(** X13.  A tick that starts with fewer than 20480 free bytes in the arena
    cannot afford two vector copies and does nothing but carry every
    entity forward: the call returns, whatever the fuel and without
    allocating, freeing or entering the collector; each of the first
    [active_entity_count] entities is one tick older and keeps its state
    and task vectors (the same buffers), its activity flag and all its
    other fields, the domain name being cut to 31 characters; the entities
    beyond the count, the count, [heap_offset], the holographic memory and
    the collective are as before. *)
Theorem update_entities_carries_forward (fuel : nat) (gc : M unit)
    (addr : Z) (s : State) :
  KERNEL_HEAP_SIZE - 20480 < heap_offset s <= KERNEL_HEAP_SIZE ->
  active_entity_count s <= Z.of_nat (length (entity_pool s)) ->
  exists s',
    update_entities fuel gc addr s = Done s' tt
    /\ heap_offset s' = heap_offset s
    /\ active_entity_count s' = active_entity_count s
    /\ holo_system s' = holo_system s
    /\ collective s' = collective s
    /\ forall j e, entity_pool s !! j = Some e ->
         entity_pool s' !! j
         = Some (if Z.of_nat j <? active_entity_count s then carried e
                 else e).
Proof.
  intros Hr Hwf. pose proof (cannot_afford_two_copies s Hr) as Ha.
  unfold update_entities.
  unfold bind at 1, get at 1. cbv zeta.
  destruct (evaluate_entities_carry fuel gc addr
              (Z.to_nat (active_entity_count s)) 0
              (get_system_memory_pressure s) [] s Ha Hwf eq_refl)
    as (s1 & next & Hrun & Hs1 & Hl1 & Hp1 & _ & Hnext).
  erewrite bind_run by exact Hrun.
  unfold bind at 1, get at 1.
  assert (Hc1 : active_entity_count s1 = active_entity_count s)
    by (rewrite Hs1; reflexivity).
  destruct (commit_entities_carry gc (entity_pool s) next
              (Z.to_nat (active_entity_count s1)) 0 s1)
    as (s' & Hgo & Hs' & Hfin).
  - exact Hl1.
  - rewrite Hc1. exact Hwf.
  - intros j e0 He0 Hj. rewrite Hc1 in Hj.
    apply Hnext; [lia|exact Hj|exact He0].
  - intros j e0 He0. rewrite (Hp1 j e0 He0), Hc1.
    destruct (Z.ltb_spec (Z.of_nat j) (active_entity_count s)).
    + replace (0 <=? j)%nat with true by (symmetry; apply Nat.leb_le; lia).
      replace (j <? 0 + Z.to_nat (active_entity_count s))%nat with true
        by (symmetry; apply Nat.ltb_lt; lia).
      reflexivity.
    + rewrite andb_false_r. reflexivity.
  - exists s'. split; [exact Hgo|].
    assert (E : s' = set_entity_pool (entity_pool s') s)
      by (rewrite Hs' at 1; rewrite Hs1; destruct s; reflexivity).
    split; [rewrite E; reflexivity|]. split; [rewrite E; reflexivity|].
    split; [rewrite E; reflexivity|]. split; [rewrite E; reflexivity|].
    intros j e He. rewrite (Hfin j e He), Hc1.
    destruct (Z.ltb_spec (Z.of_nat j) (active_entity_count s));
      [|reflexivity].
    replace (j <? 0 + Z.to_nat (active_entity_count s))%nat with true
      by (symmetry; apply Nat.ltb_lt; lia).
    reflexivity.
Qed.

Lemma update_entities_carries_forward_witness :
  exists s',
    update_entities 0 (perform_emergent_garbage_collection 0) 2097152
      pressured_state = Done s' tt
    /\ heap_offset s' = 786416
    /\ (age <$> entity_pool s' !! 1%nat) = Some 1
    /\ (gene_count <$> entity_pool s' !! 1%nat) = Some 2
    /\ (age <$> entity_pool s' !! 2%nat) = Some 0.
Proof.
  destruct (update_entities_carries_forward 0
              (perform_emergent_garbage_collection 0) 2097152
              pressured_state) as (s' & Hrun & Ho & _ & _ & _ & Hp);
    [vm_compute; split; [reflexivity|discriminate]|vm_compute; discriminate|].
  exists s'. split; [exact Hrun|].
  split; [exact Ho|].
  rewrite (Hp 1%nat _ eq_refl), (Hp 2%nat _ eq_refl).
  repeat split.
Defined.

(** ** The holographic memory *)

Lemma retrieve_from_newest (n : nat) (hash : Z) (s : State) :
  (n <= length (memory_pool (holo_system s)))%nat ->
  exists r,
    retrieve_from n hash s = Done s r
    /\ newest_match (memory_pool (holo_system s)) n hash r.
Proof.
  induction n as [|n IH]; intros Hn; cbn [retrieve_from].
  - exists None. split; [reflexivity|]. intros j e Hj. lia.
  - unfold bind at 1, get at 1.
    destruct (lookup_lt_is_Some_2 (memory_pool (holo_system s)) n ltac:(lia))
      as [e He].
    erewrite bind_run by (rewrite He; reflexivity).
    fold (matches hash e). destruct (matches hash e) eqn:Em.
    + exists (Some n). split; [reflexivity|].
      split; [lia|]. split; [exists e; split; assumption|].
      intros j e' Hj. lia.
    + destruct (IH ltac:(lia)) as (r & Hrun & Hr).
      exists r. split; [exact Hrun|].
      destruct r as [i|]; cbn [newest_match] in *.
      * destruct Hr as (Hi & Hm & Hnew). split; [lia|]. split; [exact Hm|].
        intros j e' Hj He'. destruct (decide (j = n)) as [->|Hne].
        -- rewrite He in He'. injection He' as <-. exact Em.
        -- apply (Hnew j e'); [lia|exact He'].
      * intros j e' Hj He'. destruct (decide (j = n)) as [->|Hne].
        -- rewrite He in He'. injection He' as <-. exact Em.
        -- apply (Hr j e'); [lia|exact He'].
Qed.

(** X14.  [retrieve_holographic_memory] is a read-only search of the
    first [memory_count] entries: it returns the newest valid entry whose
    input pattern has the hash asked for, and NULL exactly when no valid
    entry has it. *)
Theorem retrieve_holographic_memory_newest (hash : Z) (s : State) :
  0 <= memory_count (holo_system s) < 2 ^ 31 ->
  memory_count (holo_system s)
    <= Z.of_nat (length (memory_pool (holo_system s))) ->
  exists r,
    retrieve_holographic_memory hash s = Done s r
    /\ newest_match (memory_pool (holo_system s))
         (Z.to_nat (memory_count (holo_system s))) hash r.
Proof.
  intros Hc Hl. unfold retrieve_holographic_memory.
  unfold bind at 1, get at 1.
  destruct (Z.ltb_spec 0 (memory_count (holo_system s))) as [Hpos|Hz].
  - cbv zeta. unfold int_of_u32.
    replace (memory_count (holo_system s) <? 2 ^ 31) with true
      by (symmetry; apply Z.ltb_lt; lia).
    replace (0 <=? memory_count (holo_system s) - 1) with true
      by (symmetry; apply Z.leb_le; lia).
    replace (memory_count (holo_system s) - 1 + 1)
      with (memory_count (holo_system s)) by lia.
    apply retrieve_from_newest. lia.
  - exists None. split; [reflexivity|]. intros j e Hj. lia.
Qed.

Lemma retrieve_holographic_memory_newest_witness :
  retrieve_holographic_memory 5 memory_state = Done memory_state (Some 2%nat).
Proof.
  destruct (retrieve_holographic_memory_newest 5 memory_state)
    as (r & Hrun & Hr);
    [vm_compute; split; [discriminate|reflexivity]|vm_compute; discriminate|].
  rewrite Hrun. f_equal.
  change (Z.to_nat (memory_count (holo_system memory_state))) with 3%nat in Hr.
  destruct r as [i|]; cbn [newest_match] in Hr.
  - destruct Hr as (Hi & _ & Hnew). f_equal.
    destruct (decide (i < 2)%nat) as [Hlt|Hge]; [|lia].
    specialize (Hnew 2%nat _ ltac:(lia) eq_refl). discriminate Hnew.
  - specialize (Hr 2%nat _ ltac:(lia) eq_refl). discriminate Hr.
Defined.
(** ** Encoding returns *)

(** [kmalloc] returns on every request, wrapped sums included: a granted
    request leaves the offset below the capacity plus 8, from where the
    chain of records is at most 32769 long. *)
Lemma kmalloc_total (fuel : nat) (n : Z) (s : State) :
  (Z.to_nat 32770 <= fuel)%nat ->
  exists s' p, kmalloc fuel n s = Done s' p.
Proof.
  intros Hf. destruct fuel as [|f]; [lia|]. cbn [kmalloc].
  unfold bind at 1, get at 1.
  destruct (KERNEL_HEAP_SIZE <=? _) eqn:E; [eexists _, _; reflexivity|].
  apply Z.leb_gt in E.
  unfold bind at 1, modify at 1.
  destruct (kmalloc_record_total (Z.to_nat 32768) f
              (set_heap_offset (u32 (heap_offset s + align8 n)) s))
    as (s1 & block & Hrec).
  - cbn [heap_offset set_heap_offset]. unfold align8.
    rewrite land_align8 by (unfold u32; apply Z.mod_pos_bound; lia).
    unfold u32, KERNEL_HEAP_SIZE in *.
    Z.div_mod_to_equations. lia.
  - cbn [heap_offset set_heap_offset].
    assert (0 <= u32 (heap_offset s + align8 n))
      by (unfold u32; apply Z.mod_pos_bound; lia).
    unfold KERNEL_HEAP_SIZE in *. lia.
  - lia.
  - unfold bind at 1. rewrite Hrec.
    destruct (truthy block); eexists _, _; reflexivity.
Qed.

Lemma copy_hyper_vector_total (fuel : nat) (src : HyperVector) (s : State) :
  (Z.to_nat 32770 <= fuel)%nat ->
  exists s' c, copy_hyper_vector fuel src s = Done s' c.
Proof.
  intros Hf. unfold copy_hyper_vector.
  destruct (negb (truthy (valid src)) || negb (truthy (data src)));
    [exists s, zero_vector; reflexivity|].
  cbv zeta.
  destruct (kmalloc_total fuel (u32 (capacity src * sizeof_float)) s Hf)
    as (s1 & p & Hk).
  erewrite bind_run by exact Hk.
  destruct (truthy p); eexists _, _; reflexivity.
Qed.

Lemma encode_holographic_memory_total (fuel : nat) (gc : M unit)
    (input output : HyperVector) (s : State) :
  (Z.to_nat 32770 <= fuel)%nat ->
  0 <= memory_count (holo_system s) < MAX_MEMORY_ENTRIES ->
  (Z.to_nat (memory_count (holo_system s))
   < length (memory_pool (holo_system s)))%nat ->
  exists s', encode_holographic_memory fuel gc input output s = Done s' tt.
Proof.
  intros Hf Hc Hl. unfold encode_holographic_memory.
  unfold bind at 1, get at 1.
  replace (MAX_MEMORY_ENTRIES <=? memory_count (holo_system s)) with false
    by (symmetry; apply Z.leb_gt; lia).
  erewrite bind_run by reflexivity.
  unfold bind at 1, get at 1. cbv zeta.
  destruct (lookup_lt_is_Some_2 _ _ Hl) as [e0 He0].
  erewrite bind_run by (rewrite He0; reflexivity).
  destruct (copy_hyper_vector_total fuel input s Hf) as (s1 & i & Hi).
  erewrite bind_run by exact Hi.
  erewrite bind_run by reflexivity.
  destruct (copy_hyper_vector_total fuel output
              (set_holo_system
                 (set_memory_pool
                    (alter (set_input_pattern i)
                       (Z.to_nat (memory_count (holo_system s)))
                       (memory_pool (holo_system s1))) (holo_system s1)) s1))
    as (s2 & o & Ho); [exact Hf|].
  erewrite bind_run by exact Ho.
  eexists. reflexivity.
Qed.

(** What a call that returns has done. *)
Lemma encode_appends (fuel : nat) (gc : M unit)
    (input output : HyperVector) (s s' : State) (u : unit) :
  encode_holographic_memory fuel gc input output s = Done s' u ->
  0 <= memory_count (holo_system s) < MAX_MEMORY_ENTRIES ->
  exists e,
    memory_pool (holo_system s')
      !! Z.to_nat (memory_count (holo_system s)) = Some e
    /\ entry_valid e = 1
    /\ timestamp e = global_timestamp (holo_system s)
    /\ (data (input_pattern e) <> NULL ->
        hash_sig (input_pattern e) = hash_sig input)
    /\ memory_count (holo_system s') = memory_count (holo_system s) + 1
    /\ global_timestamp (holo_system s')
       = u32 (global_timestamp (holo_system s) + 1)
    /\ (forall j, j <> Z.to_nat (memory_count (holo_system s)) ->
          memory_pool (holo_system s') !! j
          = memory_pool (holo_system s) !! j)
    /\ retrieve_holographic_memory (hash_sig (input_pattern e)) s'
       = Done s' (Some (Z.to_nat (memory_count (holo_system s)))).
Proof.
  intros H Hc. unfold encode_holographic_memory in H.
  step_in H.
  replace (MAX_MEMORY_ENTRIES <=? memory_count (holo_system s)) with false in H
    by (symmetry; apply Z.leb_gt; lia).
  step_in H. step_in H. step_in H. step_in H.
  pose proof (copy_hyper_vector_world _ _ _ _ _ Hc0) as (_ & _ & _ & Hh1 & _).
  step_in H. step_in H.
  pose proof (copy_hyper_vector_world _ _ _ _ _ Hc1) as (_ & _ & _ & Hh2 & _).
  step_in H.
  cbn [holo_system set_holo_system memory_pool memory_count global_timestamp
       set_memory_pool] in *.
  rewrite Hh2. cbn [holo_system set_holo_system memory_pool memory_count
                    global_timestamp set_memory_pool].
  rewrite Hh1.
  set (n := Z.to_nat (memory_count (holo_system s))) in *.
  set (e' := mkMemoryEntry (input_pattern (set_input_pattern a0 a)) a1
               (global_timestamp (holo_system s)) 1).
  assert (He' : alter (fun e => mkMemoryEntry (input_pattern e) a1
                                  (global_timestamp (holo_system s)) 1) n
                  (alter (set_input_pattern a0) n
                     (memory_pool (holo_system s))) !! n = Some e').
  { rewrite !list_lookup_alter_eq, E. reflexivity. }
  exists e'. split; [exact He'|]. split; [reflexivity|].
  split; [reflexivity|]. split.
  { cbn [e' input_pattern set_input_pattern]. intros Hd.
    unfold copy_hyper_vector in Hc0.
    case_if_in Hc0; [step_in Hc0; contradiction|].
    cbv zeta in Hc0. step_in Hc0.
    case_if_in Hc0; [step_in Hc0; step_in Hc0; reflexivity|].
    step_in Hc0. contradiction. }
  split; [apply u32_small; unfold MAX_MEMORY_ENTRIES in *; lia|].
  split; [reflexivity|]. split.
  { intros j Hj. rewrite !list_lookup_alter_ne by congruence. reflexivity. }
  unfold retrieve_holographic_memory. unfold bind at 1, get at 1.
  cbn [holo_system set_holo_system memory_pool memory_count].
  rewrite u32_small by (unfold MAX_MEMORY_ENTRIES in *; lia).
  replace (0 <? memory_count (holo_system s) + 1) with true
    by (symmetry; apply Z.ltb_lt; lia).
  cbv zeta. unfold int_of_u32.
  replace (memory_count (holo_system s) + 1 <? 2 ^ 31) with true
    by (symmetry; apply Z.ltb_lt; unfold MAX_MEMORY_ENTRIES in *; lia).
  replace (0 <=? memory_count (holo_system s) + 1 - 1) with true
    by (symmetry; apply Z.leb_le; lia).
  replace (Z.to_nat (memory_count (holo_system s) + 1 - 1 + 1)) with (S n)
    by (subst n; lia).
  cbn [retrieve_from]. unfold bind at 1, get at 1.
  cbn [holo_system set_holo_system memory_pool].
  erewrite bind_run by (rewrite He'; reflexivity).
  cbn [e' entry_valid input_pattern]. rewrite Z.eqb_refl. reflexivity.
Qed.

(** X15.  Encoding into a memory that is not full returns, given fuel for
    the deepest chain of tracking records (32770 levels), and appends one
    valid entry at index [memory_count] of the pool (the array of
    [MAX_MEMORY_ENTRIES] entries), stamped with the global tick, which
    then advances by one; no other entry changes.  The entry is found
    again: retrieval under the hash stored with it returns this entry, the
    newest one, whatever older entries carry the same hash.  The stored
    hash is the hash of the input whenever the input could be copied. *)
Theorem encode_then_retrieve (fuel : nat) (gc : M unit)
    (input output : HyperVector) (s : State) :
  (Z.to_nat 32770 <= fuel)%nat ->
  0 <= memory_count (holo_system s) < MAX_MEMORY_ENTRIES ->
  length (memory_pool (holo_system s)) = Z.to_nat MAX_MEMORY_ENTRIES ->
  exists s' e,
    encode_holographic_memory fuel gc input output s = Done s' tt
    /\ memory_pool (holo_system s')
         !! Z.to_nat (memory_count (holo_system s)) = Some e
    /\ entry_valid e = 1
    /\ timestamp e = global_timestamp (holo_system s)
    /\ (data (input_pattern e) <> NULL ->
        hash_sig (input_pattern e) = hash_sig input)
    /\ memory_count (holo_system s') = memory_count (holo_system s) + 1
    /\ global_timestamp (holo_system s')
       = u32 (global_timestamp (holo_system s) + 1)
    /\ (forall j, j <> Z.to_nat (memory_count (holo_system s)) ->
          memory_pool (holo_system s') !! j
          = memory_pool (holo_system s) !! j)
    /\ retrieve_holographic_memory (hash_sig (input_pattern e)) s'
       = Done s' (Some (Z.to_nat (memory_count (holo_system s)))).
Proof.
  intros Hf Hc Hl.
  destruct (encode_holographic_memory_total fuel gc input output s Hf Hc
              ltac:(lia)) as (s' & H).
  destruct (encode_appends _ _ _ _ _ _ _ H Hc) as (e & He).
  exists s', e. split; [exact H|exact He].
Qed.

Lemma encode_then_retrieve_witness :
  exists s',
    encode_holographic_memory ample_fuel
      (perform_emergent_garbage_collection ample_fuel)
      fresh_thought fresh_thought early_state = Done s' tt
    /\ memory_count (holo_system s') = 1
    /\ retrieve_holographic_memory 7 s' = Done s' (Some 0%nat).
Proof.
  destruct (encode_then_retrieve ample_fuel
              (perform_emergent_garbage_collection ample_fuel)
              fresh_thought fresh_thought early_state)
    as (s' & e & E & He & _ & _ & Hh & Hc & _ & _ & Hr);
    [unfold ample_fuel; lia
    |vm_compute; split; [discriminate|reflexivity]
    |vm_compute; reflexivity|].
  exists s'. split; [exact E|]. split; [exact Hc|].
  assert (D : ((fun e => data (input_pattern e)) <$>
               (final_state
                  (encode_holographic_memory ample_fuel
                     (perform_emergent_garbage_collection ample_fuel)
                     fresh_thought fresh_thought early_state)
                  ≫= fun s' => memory_pool (holo_system s') !! 0%nat))
              = Some (kernel_heap + 780000)) by (vm_compute; reflexivity).
  rewrite E in D.
  change (Z.to_nat (memory_count (holo_system early_state))) with 0%nat in *.
  cbn [final_state mbind option_bind] in D. rewrite He in D.
  injection D as D.
  rewrite Hh in Hr by (rewrite D; discriminate). exact Hr.
Defined.

(** ** Booting *)

Lemma create_hyper_vector_denied (fuel : nat) (input : list Z) (s : State) :
  kmalloc fuel (u32 (INITIAL_DIMENSIONS * sizeof_float)) s = Done s NULL ->
  create_hyper_vector fuel input s
  = Done s (mkHyperVector NULL INITIAL_DIMENSIONS 0 0 0).
Proof.
  intros Hk. unfold create_hyper_vector. cbv zeta.
  erewrite bind_run by exact Hk.
  reflexivity.
Qed.

Lemma create_hyper_vector_refused (f : nat) (input : list Z) (s : State) :
  exhausted s ->
  create_hyper_vector (S f) input s
  = Done s (mkHyperVector NULL INITIAL_DIMENSIONS 0 0 0).
Proof.
  intros Hx. apply create_hyper_vector_denied.
  apply kmalloc_exhausted;
    [exact Hx|apply Hx|vm_compute; discriminate|reflexivity].
Qed.

Lemma copy_hyper_vector_refused (f : nat) (src : HyperVector) (s : State) :
  exhausted s ->
  truthy (valid src) = true -> truthy (data src) = true ->
  capacity src = INITIAL_DIMENSIONS ->
  copy_hyper_vector (S f) src s
  = Done s (mkHyperVector NULL INITIAL_DIMENSIONS (active_dims src) 0 0).
Proof.
  intros Hx Hv Hd Hc. unfold copy_hyper_vector.
  rewrite Hv, Hd, Hc. cbn [negb orb]. cbv zeta.
  erewrite bind_run
    by (apply kmalloc_exhausted;
        [exact Hx|apply Hx|vm_compute; discriminate|reflexivity]).
  reflexivity.
Qed.

Lemma create_hyper_vector_granted (fuel : nat) (input : list Z) (s : State) :
  0 <= heap_offset s ->
  heap_offset s + INITIAL_DIMENSIONS * sizeof_float < KERNEL_HEAP_SIZE ->
  (Z.to_nat 32770 <= fuel)%nat ->
  exists s' v,
    create_hyper_vector fuel input s = Done s' v
    /\ truthy (valid v) = true /\ truthy (data v) = true
    /\ capacity v = INITIAL_DIMENSIONS /\ exhausted s'
    /\ active_entity_count s' = active_entity_count s
    /\ holo_system s' = holo_system s /\ collective s' = collective s.
Proof.
  intros Hh Hfit Hf.
  destruct (kmalloc_granted fuel (INITIAL_DIMENSIONS * sizeof_float) s Hh
              ltac:(vm_compute; discriminate) Hfit Hf)
    as (s1 & Hk & _ & _ & _ & Wc & Wh & Wt).
  pose proof (kmalloc_granted_exhausts _ _ _ _ _ Hk Hh
                ltac:(vm_compute; discriminate) Hfit) as [_ Hx].
  unfold create_hyper_vector. cbv zeta.
  change (u32 (INITIAL_DIMENSIONS * sizeof_float))
    with (INITIAL_DIMENSIONS * sizeof_float) at 1.
  erewrite bind_run by exact Hk.
  assert (Hp : truthy (kernel_heap + heap_offset s) = true)
    by (unfold truthy; apply negb_true_iff, Z.eqb_neq;
        unfold kernel_heap; lia).
  rewrite Hp. unfold bind at 1, get at 1, bind at 1, modify at 1, ret.
  eexists _, _. split; [reflexivity|].
  cbn [valid data capacity]. split; [reflexivity|]. split; [exact Hp|].
  split; [reflexivity|]. split; [exact Hx|].
  split; [exact Wc|]. split; [exact Wh|exact Wt].
Qed.

Section Boot.

Variable fuel : nat.
Variable gc : M unit.

Lemma encode_holographic_memory_starved (p : HyperVector) (s : State) :
  exhausted s ->
  truthy (valid p) = true -> truthy (data p) = true ->
  capacity p = INITIAL_DIMENSIONS ->
  0 <= memory_count (holo_system s) < MAX_MEMORY_ENTRIES ->
  length (memory_pool (holo_system s)) = Z.to_nat MAX_MEMORY_ENTRIES ->
  exists s',
    encode_holographic_memory (S fuel) gc p p s = Done s' tt
    /\ exhausted s'
    /\ active_entity_count s' = active_entity_count s
    /\ collective s' = collective s
    /\ memory_count (holo_system s') = memory_count (holo_system s) + 1.
Proof.
  intros Hx Hv Hd Hc Hm Hl. unfold encode_holographic_memory.
  unfold bind at 1, get at 1.
  replace (MAX_MEMORY_ENTRIES <=? memory_count (holo_system s)) with false
    by (symmetry; apply Z.leb_gt; lia).
  erewrite bind_run by reflexivity.
  unfold bind at 1, get at 1.
  destruct (lookup_lt_is_Some_2 (memory_pool (holo_system s))
              (Z.to_nat (memory_count (holo_system s))))
    as [e He]; [rewrite Hl; lia|].
  erewrite bind_run by (rewrite He; reflexivity).
  erewrite bind_run by (apply copy_hyper_vector_refused; assumption).
  unfold bind at 1, modify at 1.
  erewrite bind_run by (apply copy_hyper_vector_refused; assumption).
  unfold modify. eexists. split; [reflexivity|].
  cbn [active_entity_count collective holo_system set_holo_system
       memory_count].
  split; [exact Hx|]. split; [reflexivity|]. split; [reflexivity|].
  apply u32_small. unfold MAX_MEMORY_ENTRIES in *. lia.
Qed.

Lemma broadcast_thought_starved (p : HyperVector) (s : State) :
  exhausted s ->
  truthy (valid p) = true -> truthy (data p) = true ->
  capacity p = INITIAL_DIMENSIONS ->
  0 <= thought_count (collective s) < MAX_THOUGHTS ->
  length (thought_space (collective s)) = Z.to_nat MAX_THOUGHTS ->
  exists s',
    broadcast_thought (S fuel) gc p s = Done s' tt
    /\ exhausted s'
    /\ active_entity_count s' = active_entity_count s
    /\ holo_system s' = holo_system s.
Proof.
  intros Hx Hv Hd Hc Hm Hl. unfold broadcast_thought.
  rewrite Hv. cbn [negb]. unfold bind at 1, get at 1.
  replace (MAX_THOUGHTS <=? thought_count (collective s)) with false
    by (symmetry; apply Z.leb_gt; lia).
  erewrite bind_run by reflexivity.
  erewrite bind_run by (apply copy_hyper_vector_refused; assumption).
  unfold bind at 1, get at 1.
  destruct (lookup_lt_is_Some_2 (thought_space (collective s))
              (Z.to_nat (thought_count (collective s))))
    as [t Ht]; [rewrite Hl; lia|].
  erewrite bind_run by (rewrite Ht; reflexivity).
  unfold bind at 1, modify at 1, bind at 1, get at 1, modify.
  eexists. split; [reflexivity|].
  split; [exact Hx|]. split; reflexivity.
Qed.

End Boot.

(** X16.  The vocabulary is never loaded.  Called as [kmain] calls it
    (memory and collective not full), [load_initial_genome_vocabulary]
    ends in its fatal halt: either the first pattern is refused, or the
    first pattern is granted, its tracking records use up the arena, and
    the second pattern is refused.  At most one word reaches the memory,
    and no entity has been initialised when the kernel stops. *)
Theorem load_initial_genome_vocabulary_halts (fuel : nat) (gc : M unit)
    (s : State) :
  0 <= heap_offset s < KERNEL_HEAP_SIZE + 8 ->
  0 <= memory_count (holo_system s) < MAX_MEMORY_ENTRIES ->
  0 <= thought_count (collective s) < MAX_THOUGHTS ->
  length (memory_pool (holo_system s)) = Z.to_nat MAX_MEMORY_ENTRIES ->
  length (thought_space (collective s)) = Z.to_nat MAX_THOUGHTS ->
  (Z.to_nat 32770 <= fuel)%nat ->
  exists s',
    load_initial_genome_vocabulary fuel gc s = Halted s'
    /\ memory_count (holo_system s') <= memory_count (holo_system s) + 1
    /\ active_entity_count s' = active_entity_count s.
Proof.
  intros Hh Hm Ht Hlm Hlt Hf.
  destruct fuel as [|f]; [lia|].
  unfold load_initial_genome_vocabulary, vocab. cbn [load_words].
  destruct (Z.lt_ge_cases (heap_offset s + INITIAL_DIMENSIONS * sizeof_float)
              KERNEL_HEAP_SIZE) as [Hfit|Hfull].
  - destruct (create_hyper_vector_granted (S f) (cstring "ACTION_PRODUCE") s
                ltac:(lia) Hfit Hf)
      as (s1 & v & Hrun & Hv & Hd & Hcap & Hx & Hc1 & Hh1 & Ht1).
    erewrite bind_run by exact Hrun. rewrite Hv. cbn [negb].
    destruct (encode_holographic_memory_starved f gc v s1 Hx Hv Hd Hcap)
      as (s2 & Henc & Hx2 & Hc2 & Ht2 & Hm2);
      [rewrite Hh1; exact Hm|rewrite Hh1; exact Hlm|].
    erewrite bind_run by exact Henc.
    destruct (broadcast_thought_starved f gc v s2 Hx2 Hv Hd Hcap)
      as (s3 & Hbr & Hx3 & Hc3 & Hh3);
      [rewrite Ht2, Ht1; exact Ht|rewrite Ht2, Ht1; exact Hlt|].
    erewrite bind_run by exact Hbr.
    erewrite bind_run by (apply create_hyper_vector_refused; exact Hx3).
    exists s3. split; [reflexivity|].
    split; [rewrite Hh3, Hm2, Hh1; lia|congruence].
  - exists s. split; [|split; [lia|reflexivity]].
    erewrite bind_run
      by (apply create_hyper_vector_denied, kmalloc_refused;
          change (u32 (INITIAL_DIMENSIONS * sizeof_float))
            with (INITIAL_DIMENSIONS * sizeof_float);
          rewrite u32_small;
          unfold KERNEL_HEAP_SIZE, INITIAL_DIMENSIONS, sizeof_float in *; lia).
    reflexivity.
Qed.

Lemma load_initial_genome_vocabulary_halts_witness :
  exists s',
    (initialize_holographic_memory ;;
     initialize_collective_consciousness ;;
     load_initial_genome_vocabulary ample_fuel
       (perform_emergent_garbage_collection ample_fuel)) boot_state
    = Halted s'
    /\ memory_count (holo_system s') <= 1
    /\ active_entity_count s' = 0.
Proof.
  destruct (load_initial_genome_vocabulary_halts ample_fuel
              (perform_emergent_garbage_collection ample_fuel) boot_state)
    as (s' & Hrun & Hm & Hc);
    [vm_compute; split; [discriminate|reflexivity]
    |vm_compute; split; [discriminate|reflexivity]
    |vm_compute; split; [discriminate|reflexivity]
    |reflexivity|reflexivity|unfold ample_fuel; lia|].
  exists s'. split; [|split; [exact Hm|exact Hc]].
  exact Hrun.
Defined.

(** ** Hexadecimal output *)

Lemma hex_digit_read (d : Z) :
  0 <= d < 16 ->
  hex_digit_value
    (nth (Z.to_nat d) (list_ascii_of_string "0123456789ABCDEF") "0"%char)
  = Some d.
Proof.
  intros Hd.
  assert (C : d = 0 \/ d = 1 \/ d = 2 \/ d = 3 \/ d = 4 \/ d = 5 \/ d = 6
              \/ d = 7 \/ d = 8 \/ d = 9 \/ d = 10 \/ d = 11 \/ d = 12
              \/ d = 13 \/ d = 14 \/ d = 15) by lia.
  repeat (destruct C as [->|C]; [reflexivity|]). subst d. reflexivity.
Qed.

Lemma hex_digits_length (n : nat) (value : Z) (acc : list ascii) :
  length (hex_digits n value acc) = (n + length acc)%nat.
Proof.
  revert value acc. induction n as [|k IH]; intros value acc; [reflexivity|].
  cbn [hex_digits]. rewrite IH. cbn [length]. lia.
Qed.

Lemma hex_digits_read (n : nat) (value a : Z) (acc : list ascii) :
  0 <= value ->
  hex_read a (hex_digits n value acc)
  = hex_read (a * 16 ^ Z.of_nat n + value mod 16 ^ Z.of_nat n) acc.
Proof.
  revert value a acc.
  induction n as [|k IH]; intros value a acc Hv.
  - cbn [hex_digits]. change (16 ^ Z.of_nat 0) with 1.
    rewrite Z.mod_1_r. f_equal. lia.
  - cbn [hex_digits]. rewrite Z.shiftr_div_pow2 by lia.
    change (2 ^ 4) with 16.
    rewrite IH by (apply Z.div_pos; lia).
    cbn [hex_read].
    change 15 with (Z.ones 4). rewrite Z.land_ones by lia.
    change (2 ^ 4) with 16.
    rewrite hex_digit_read by (apply Z.mod_pos_bound; lia).
    f_equal.
    rewrite Nat2Z.inj_succ, Z.pow_succ_r by lia.
    rewrite (Z.rem_mul_r value 16 (16 ^ Z.of_nat k)) by lia.
    lia.
Qed.

(** X17.  [print_hex] writes [0x] and exactly eight upper-case hexadecimal
    digits, and the digits read back give the value printed: no 32-bit
    value is truncated and no two values print alike. *)
Theorem print_hex_round_trip (value : Z) :
  0 <= value < 2 ^ 32 ->
  exists digits,
    print_hex value = "0"%char :: "x"%char :: digits
    /\ length digits = 8%nat
    /\ hex_read 0 digits = Some value.
Proof.
  intros Hv. exists (hex_digits 8 value []).
  split; [reflexivity|]. split; [apply hex_digits_length|].
  rewrite hex_digits_read by lia.
  change (16 ^ Z.of_nat 8) with (2 ^ 32).
  rewrite Z.mod_small by lia. reflexivity.
Qed.

Lemma print_hex_round_trip_witness :
  exists digits,
    print_hex 3735928559 = "0"%char :: "x"%char :: digits
    /\ length digits = 8%nat
    /\ hex_read 0 digits = Some 3735928559.
Proof.
  apply (print_hex_round_trip 3735928559). lia.
Defined.

(** ** Broadcasting below the cap *)

(** X19.  A broadcast of a valid thought into a collective that is not full
    stores one entry at index [thought_count] and counts it; no other
    thought changes, and nothing else of the kernel state but memory and
    the allocator.  The stored entry is marked valid even when the copy was
    refused and it has no buffer; when it has one, it carries the hash,
    capacity and dimensions of the thought. *)
Theorem broadcast_thought_appends (fuel : nat) (gc : M unit)
    (thought : HyperVector) (s s' : State) (u : unit) :
  broadcast_thought fuel gc thought s = Done s' u ->
  truthy (valid thought) = true ->
  0 <= thought_count (collective s) < MAX_THOUGHTS ->
  exists c,
    thought_space (collective s')
      !! Z.to_nat (thought_count (collective s)) = Some c
    /\ valid c = 1
    /\ (data c <> NULL ->
        hash_sig c = hash_sig thought /\ capacity c = capacity thought
        /\ active_dims c = active_dims thought)
    /\ thought_count (collective s') = thought_count (collective s) + 1
    /\ (forall j, j <> Z.to_nat (thought_count (collective s)) ->
          thought_space (collective s') !! j
          = thought_space (collective s) !! j)
    /\ holo_system s' = holo_system s
    /\ entity_pool s' = entity_pool s
    /\ active_entity_count s' = active_entity_count s.
Proof.
  intros H Hv Hc. unfold broadcast_thought in H.
  rewrite Hv in H. cbn [negb] in H. step_in H.
  replace (MAX_THOUGHTS <=? thought_count (collective s)) with false in H
    by (symmetry; apply Z.leb_gt; lia).
  step_in H. step_in H.
  pose proof (copy_hyper_vector_world _ _ _ _ _ Hc0) as (_ & We & Wa & Wh & Wc).
  step_in H. step_in H. step_in H. step_in H. step_in H.
  cbn [collective set_collective thought_space thought_count
       set_thought_space set_thought_count set_global_coherence
       holo_system entity_pool active_entity_count] in *.
  rewrite Wc in *.
  set (n := Z.to_nat (thought_count (collective s))) in *.
  exists (set_valid 1 a). split.
  { rewrite list_lookup_insert_eq; [reflexivity|].
    eapply lookup_lt_Some; exact E. }
  split; [reflexivity|]. split.
  { cbn [set_valid data hash_sig capacity active_dims]. intros Hd.
    unfold copy_hyper_vector in Hc0.
    case_if_in Hc0; [step_in Hc0; contradiction|].
    cbv zeta in Hc0. step_in Hc0.
    case_if_in Hc0; [step_in Hc0; step_in Hc0; repeat split; reflexivity|].
    step_in Hc0. contradiction. }
  split; [apply u32_small; unfold MAX_THOUGHTS in *; lia|].
  split.
  { intros j Hj. rewrite list_lookup_insert_ne by congruence. reflexivity. }
  split; [exact Wh|]. split; [exact We|exact Wa].
Qed.

Lemma broadcast_thought_appends_witness :
  match broadcast_thought 300 (perform_emergent_garbage_collection 300)
          fresh_thought early_state with
  | Done s' _ =>
      thought_count (collective s')
      = thought_count (collective early_state) + 1
      /\ holo_system s' = holo_system early_state
  | _ => False
  end.
Proof.
  assert (R : returned (broadcast_thought 300
                          (perform_emergent_garbage_collection 300)
                          fresh_thought early_state) = Some tt)
    by (vm_compute; reflexivity).
  destruct (broadcast_thought 300 (perform_emergent_garbage_collection 300)
              fresh_thought early_state) as [s' u| | |] eqn:E;
    try discriminate R.
  destruct (broadcast_thought_appends _ _ _ _ _ _ E)
    as (c & _ & _ & _ & Hn & _ & Hh & _);
    [reflexivity|vm_compute; split; [discriminate|reflexivity]|].
  split; [exact Hn|exact Hh].
Defined.

(** ** The text console *)

Ltac eqb_cases :=
  repeat match goal with
         | |- context [?x =? ?y] => destruct (Z.eqb_spec x y); try lia
         end.

Lemma scroll_rows_outside (n : nat) (i : Z) (m : memory) (a : Z) :
  a < Console.VIDEO_MEMORY + i * 2
  \/ Console.VIDEO_MEMORY + (i + Z.of_nat n) * 2 <= a ->
  load_byte (Console.scroll_rows n i m) a = load_byte m a.
Proof.
  revert i m. induction n as [|k IH]; intros i m Ha; [reflexivity|].
  cbn [Console.scroll_rows]. cbv zeta. rewrite IH by lia.
  rewrite !load_store_byte.
  eqb_cases; try reflexivity.
Qed.

Lemma blank_row_outside (n : nat) (i : Z) (m : memory) (a : Z) :
  a < Console.VIDEO_MEMORY + (80 * 24 + i) * 2
  \/ Console.VIDEO_MEMORY + (80 * 24 + i + Z.of_nat n) * 2 <= a ->
  load_byte (Console.blank_row n i m) a = load_byte m a.
Proof.
  revert i m. induction n as [|k IH]; intros i m Ha; [reflexivity|].
  cbn [Console.blank_row]. cbv zeta. rewrite IH by lia.
  rewrite !load_store_byte.
  eqb_cases; try reflexivity.
Qed.

Lemma scroll_rows_cell (n : nat) (i : Z) (m : memory) (j : Z) :
  cell (Console.scroll_rows n i m) j
  = if (i <=? j) && (j <? i + Z.of_nat n)
    then (u8 (cell m (j + 80)).1, u8 (cell m (j + 80)).2)
    else cell m j.
Proof.
  revert i m. induction n as [|k IH]; intros i m.
  - cbn [Console.scroll_rows].
    destruct (Z.leb_spec i j); destruct (Z.ltb_spec j (i + Z.of_nat 0));
      cbn [andb]; try reflexivity; lia.
  - cbn [Console.scroll_rows]. cbv zeta. rewrite IH.
    unfold cell. cbn [fst snd]. rewrite !load_store_byte.
    destruct (Z.leb_spec (i + 1) j);
      destruct (Z.ltb_spec j (i + 1 + Z.of_nat k));
      destruct (Z.leb_spec i j);
      destruct (Z.ltb_spec j (i + Z.of_nat (S k)));
      cbn [andb]; try lia;
      eqb_cases;
      try reflexivity;
      repeat match goal with
             | |- context [load_byte _ ?x] =>
                 progress replace x
                   with (Console.VIDEO_MEMORY + (i + 80) * 2) by lia
             | |- context [load_byte _ ?x] =>
                 progress replace x
                   with (Console.VIDEO_MEMORY + ((i + 80) * 2 + 1)) by lia
             end; reflexivity.
Qed.

Lemma blank_row_cell (n : nat) (i : Z) (m : memory) (j : Z) :
  cell (Console.blank_row n i m) j
  = if (80 * 24 + i <=? j) && (j <? 80 * 24 + i + Z.of_nat n)
    then (32, 15) else cell m j.
Proof.
  revert i m. induction n as [|k IH]; intros i m.
  - cbn [Console.blank_row].
    destruct (Z.leb_spec (80 * 24 + i) j);
      destruct (Z.ltb_spec j (80 * 24 + i + Z.of_nat 0));
      cbn [andb]; try reflexivity; lia.
  - cbn [Console.blank_row]. cbv zeta. rewrite IH.
    unfold cell. rewrite !load_store_byte.
    destruct (Z.leb_spec (80 * 24 + (i + 1)) j);
      destruct (Z.ltb_spec j (80 * 24 + (i + 1) + Z.of_nat k));
      destruct (Z.leb_spec (80 * 24 + i) j);
      destruct (Z.ltb_spec j (80 * 24 + i + Z.of_nat (S k)));
      cbn [andb]; try lia;
      eqb_cases;
      reflexivity.
Qed.

Lemma print_char_on_screen (c color : Z) (s : Console.State) :
  on_screen s ->
  on_screen (Console.print_char c color s)
  /\ forall a,
       a < Console.VIDEO_MEMORY \/ Console.VIDEO_MEMORY + 80 * 25 * 2 <= a ->
       load_byte (Console.video (Console.print_char c color s)) a
       = load_byte (Console.video s) a.
Proof.
  unfold on_screen. intros Hs. unfold Console.print_char. cbv zeta.
  assert (H2 : Console.u16 (Console.cursor_pos s * 2)
               = Console.cursor_pos s * 2)
    by (unfold Console.u16; apply Z.mod_small; lia).
  assert (H1 : Console.u16 (Console.cursor_pos s + 1)
               = Console.cursor_pos s + 1)
    by (unfold Console.u16; apply Z.mod_small; lia).
  assert (Hn : Console.u16 ((Console.cursor_pos s / 80 + 1) * 80)
               = (Console.cursor_pos s / 80 + 1) * 80).
  { unfold Console.u16. apply Z.mod_small.
    pose proof (Z.div_lt_upper_bound (Console.cursor_pos s) 80 25
                  ltac:(lia) ltac:(lia)).
    pose proof (Z.div_pos (Console.cursor_pos s) 80 ltac:(lia) ltac:(lia)).
    lia. }
  rewrite H2, H1, Hn.
  destruct (c =? 10); cbn [Console.cursor_pos Console.video];
    match goal with
    | |- context [80 * 25 <=? ?x] =>
        destruct (Z.leb_spec (80 * 25) x) as [Hfull|Hroom]
    end;
    cbn [Console.cursor_pos Console.video].
  - split; [lia|]. intros a Ha.
    rewrite blank_row_outside, scroll_rows_outside by lia. reflexivity.
  - split; [|reflexivity].
    pose proof (Z.div_pos (Console.cursor_pos s) 80 ltac:(lia) ltac:(lia)).
    lia.
  - split; [lia|]. intros a Ha.
    rewrite blank_row_outside, scroll_rows_outside by lia.
    rewrite !load_store_byte.
    eqb_cases; try reflexivity.
  - split; [lia|]. intros a Ha. rewrite !load_store_byte.
    eqb_cases; try reflexivity.
Qed.

(** X20.  The console stays on the screen.  Whatever text is printed, the
    cursor remains a cell of the 80 x 25 screen, and no byte outside the
    4000 bytes of the text buffer at [VIDEO_MEMORY] is written. *)
Theorem print_stays_on_screen (str : list Z) (s : Console.State) :
  on_screen s ->
  on_screen (Console.print str s)
  /\ forall a,
       a < Console.VIDEO_MEMORY \/ Console.VIDEO_MEMORY + 4000 <= a ->
       load_byte (Console.video (Console.print str s)) a
       = load_byte (Console.video s) a.
Proof.
  revert s. induction str as [|c rest IH]; intros s Hs.
  - split; [exact Hs|reflexivity].
  - cbn [Console.print]. destruct (c =? 0); [split; [exact Hs|reflexivity]|].
    destruct (print_char_on_screen c 15 s Hs) as [Hs1 Hf1].
    destruct (IH _ Hs1) as [Hs2 Hf2].
    split; [exact Hs2|]. intros a Ha.
    rewrite Hf2 by exact Ha. apply Hf1. lia.
Qed.

Lemma print_stays_on_screen_witness :
  on_screen
    (Console.print (cstring "KERNEL PATCH APPLIED")
       (Console.mkConsole 1990 ∅))
  /\ load_byte
       (Console.video
          (Console.print (cstring "KERNEL PATCH APPLIED")
             (Console.mkConsole 1990 ∅)))
       (Console.VIDEO_MEMORY + 4000)
     = 0.
Proof.
  destruct (print_stays_on_screen (cstring "KERNEL PATCH APPLIED")
              (Console.mkConsole 1990 ∅)) as [Hs Hf];
    [unfold on_screen; cbn [Console.cursor_pos]; lia|].
  split; [exact Hs|]. rewrite Hf by lia. reflexivity.
Defined.

(** X21.  Scrolling.  When a character is written into the last cell of
    the screen, or a newline is printed on the last row, the screen moves
    up by one row: every cell of rows 0 to 23 shows what the cell below it
    showed (the character just written included), the last row is blank
    with attribute [0x0F], and the cursor is at the start of the last row. *)
Theorem print_char_scrolls (c color : Z) (s : Console.State) :
  (c = 10 /\ 80 * 24 <= Console.cursor_pos s < 80 * 25)
  \/ (c <> 10 /\ Console.cursor_pos s = 80 * 25 - 1) ->
  let s' := Console.print_char c color s in
  let shown := if c =? 10 then Console.video s
               else store_byte
                      (store_byte (Console.video s)
                         (Console.VIDEO_MEMORY + (80 * 25 - 1) * 2) c)
                      (Console.VIDEO_MEMORY + ((80 * 25 - 1) * 2 + 1)) color in
  Console.cursor_pos s' = 80 * 24
  /\ (forall j, 0 <= j < 80 * 24 ->
        cell (Console.video s') j
        = (u8 (cell shown (j + 80)).1, u8 (cell shown (j + 80)).2))
  /\ (forall j, 80 * 24 <= j < 80 * 25 ->
        cell (Console.video s') j = (32, 15)).
Proof.
  intros Hc. cbv zeta. unfold Console.print_char. cbv zeta.
  destruct Hc as [[-> Hcur]|[Hc Hcur]].
  - change (10 =? 10) with true. cbv iota.
    assert (Hrow : Console.cursor_pos s / 80 = 24).
    { symmetry. apply (Z.div_unique _ _ _ (Console.cursor_pos s - 80 * 24));
        lia. }
    rewrite Hrow. change (Console.u16 ((24 + 1) * 80)) with 2000.
    cbn [Console.cursor_pos Console.video].
    change (80 * 25 <=? 2000) with true. cbv iota.
    cbn [Console.cursor_pos Console.video].
    split; [reflexivity|]. split; intros j Hj.
    + rewrite blank_row_cell, scroll_rows_cell.
      destruct (Z.leb_spec (80 * 24 + 0) j); cbn [andb]; [lia|].
      destruct (Z.leb_spec 0 j); [|lia].
      destruct (Z.ltb_spec j (0 + Z.of_nat (80 * 24))); [|lia].
      reflexivity.
    + rewrite blank_row_cell.
      destruct (Z.leb_spec (80 * 24 + 0) j); [|lia].
      destruct (Z.ltb_spec j (80 * 24 + 0 + Z.of_nat 80)); [|lia].
      reflexivity.
  - apply Z.eqb_neq in Hc. rewrite Hc, Hcur.
    change (Console.u16 (80 * 25 - 1 + 1)) with 2000.
    change (Console.u16 ((80 * 25 - 1) * 2)) with ((80 * 25 - 1) * 2).
    cbn [Console.cursor_pos Console.video].
    change (80 * 25 <=? 2000) with true. cbv iota.
    cbn [Console.cursor_pos Console.video].
    split; [reflexivity|]. split; intros j Hj.
    + rewrite blank_row_cell, scroll_rows_cell.
      destruct (Z.leb_spec (80 * 24 + 0) j); cbn [andb]; [lia|].
      destruct (Z.leb_spec 0 j); [|lia].
      destruct (Z.ltb_spec j (0 + Z.of_nat (80 * 24))); [|lia].
      reflexivity.
    + rewrite blank_row_cell.
      destruct (Z.leb_spec (80 * 24 + 0) j); [|lia].
      destruct (Z.ltb_spec j (80 * 24 + 0 + Z.of_nat 80)); [|lia].
      reflexivity.
Qed.

Lemma print_char_scrolls_witness :
  Console.cursor_pos
    (Console.print_char 65 15 (Console.mkConsole 1999 ∅)) = 80 * 24
  /\ cell (Console.video
             (Console.print_char 65 15 (Console.mkConsole 1999 ∅))) 1919
     = (65, 15).
Proof.
  destruct (print_char_scrolls 65 15 (Console.mkConsole 1999 ∅))
    as (Hc & Hrows & _);
    [right; split; [discriminate|reflexivity]|].
  split; [exact Hc|].
  rewrite Hrows by lia. reflexivity.
Defined.

(** ** Decimal output *)

Lemma poke_Some (buf : list Z) (i c : Z) :
  0 <= i < Z.of_nat (length buf) ->
  Text.poke buf i c = Some (<[Z.to_nat i := c]> buf).
Proof.
  intros Hi. unfold Text.poke.
  destruct (Z.leb_spec 0 i); [|lia].
  destruct (Z.ltb_spec i (Z.of_nat (length buf))); [|lia]. reflexivity.
Qed.

Lemma fill_spec (n : nat) (i : Z) (buf : list Z) :
  0 <= i -> i + Z.of_nat n <= Z.of_nat (length buf) ->
  exists b,
    Text.fill n i buf = Some b /\ length b = length buf
    /\ forall j : nat,
         b !! j = if (i <=? Z.of_nat j) && (Z.of_nat j <? i + Z.of_nat n)
                  then Some 32 else buf !! j.
Proof.
  revert i buf. induction n as [|k IH]; intros i buf Hi Hn.
  - exists buf. split; [reflexivity|]. split; [reflexivity|]. intros j.
    destruct (Z.leb_spec i (Z.of_nat j));
      destruct (Z.ltb_spec (Z.of_nat j) (i + Z.of_nat 0));
      cbn [andb]; try reflexivity; lia.
  - cbn [Text.fill]. rewrite poke_Some by lia. cbn [mbind option_bind].
    destruct (IH (i + 1) (<[Z.to_nat i := 32]> buf)) as (b & Hb & Hl & Hj);
      [lia|rewrite length_insert; lia|].
    exists b. split; [exact Hb|].
    split; [rewrite Hl, length_insert; reflexivity|].
    intros j. rewrite Hj.
    destruct (Z.leb_spec (i + 1) (Z.of_nat j));
      destruct (Z.ltb_spec (Z.of_nat j) (i + 1 + Z.of_nat k));
      destruct (Z.leb_spec i (Z.of_nat j));
      destruct (Z.ltb_spec (Z.of_nat j) (i + Z.of_nat (S k)));
      cbn [andb]; try lia; try reflexivity;
      try (apply list_lookup_insert_ne; lia);
      try (symmetry; apply list_lookup_insert_ne; lia);
      replace j with (Z.to_nat i) by lia;
      apply list_lookup_insert_eq; lia.
Qed.

Lemma write_digits_spec (fuel : nat) (num pos : Z) (buf : list Z) :
  0 <= num -> -1 <= pos < Z.of_nat (length buf) ->
  pos + 1 <= Z.of_nat fuel ->
  exists b,
    Text.write_digits fuel num pos buf = Some b /\ length b = length buf
    /\ forall j : nat,
         b !! j = if (Z.of_nat j <=? pos)
                     && (0 <? num / 10 ^ (pos - Z.of_nat j))
                  then Some (48 + (num / 10 ^ (pos - Z.of_nat j)) mod 10)
                  else buf !! j.
Proof.
  revert num pos buf.
  induction fuel as [|k IH]; intros num pos buf Hn Hp Hf.
  - assert (pos = -1) as -> by lia. cbn [Text.write_digits].
    rewrite andb_false_r. exists buf.
    split; [reflexivity|]. split; [reflexivity|]. intros j.
    destruct (Z.leb_spec (Z.of_nat j) (-1)); [lia|reflexivity].
  - cbn [Text.write_digits].
    destruct (Z.ltb_spec 0 num) as [Hpos|Hz];
      destruct (Z.leb_spec 0 pos) as [Hp0|Hp0]; cbn [andb].
    + rewrite poke_Some by lia. cbn [mbind option_bind].
      destruct (IH (num / 10) (pos - 1)
                  (<[Z.to_nat pos := 48 + num mod 10]> buf))
        as (b & Hb & Hl & Hj);
        [apply Z.div_pos; lia|rewrite length_insert; lia|lia|].
      exists b. split; [exact Hb|].
      split; [rewrite Hl, length_insert; reflexivity|].
      intros j. rewrite Hj.
      destruct (Z.leb_spec (Z.of_nat j) (pos - 1)) as [Hlt|Hge];
        cbn [andb].
      * destruct (Z.leb_spec (Z.of_nat j) pos); [|lia]. cbn [andb].
        replace (num / 10 ^ (pos - Z.of_nat j))
          with (num / 10 / 10 ^ (pos - 1 - Z.of_nat j)).
        2:{ rewrite Z.div_div by (try apply Z.pow_pos_nonneg; lia).
            f_equal. rewrite <- Z.pow_succ_r by lia. f_equal. lia. }
        destruct (0 <? num / 10 / 10 ^ (pos - 1 - Z.of_nat j));
          [reflexivity|].
        apply list_lookup_insert_ne. lia.
      * destruct (Z.leb_spec (Z.of_nat j) pos) as [Heq|Hgt]; cbn [andb].
        -- assert (Z.of_nat j = pos) as Hjp by lia.
           rewrite Hjp, Z.sub_diag. change (10 ^ 0) with 1.
           rewrite Z.div_1_r.
           destruct (Z.ltb_spec 0 num); [|lia].
           replace j with (Z.to_nat pos) by lia.
           apply list_lookup_insert_eq. lia.
        -- apply list_lookup_insert_ne. lia.
    + exists buf. split; [reflexivity|]. split; [reflexivity|]. intros j.
      destruct (Z.leb_spec (Z.of_nat j) pos); [lia|reflexivity].
    + exists buf. split; [reflexivity|]. split; [reflexivity|]. intros j.
      assert (num = 0) as -> by lia.
      rewrite Zdiv_0_l.
      rewrite andb_false_r. reflexivity.
    + exists buf. split; [reflexivity|]. split; [reflexivity|]. intros j.
      destruct (Z.leb_spec (Z.of_nat j) pos); [lia|reflexivity].
Qed.

Lemma uint_to_str_chars (num : Z) (buf : list Z) (width : Z) :
  0 <= num -> 0 < width < Z.of_nat (length buf) ->
  exists b,
    Text.uint_to_str num buf width = Some b /\ length b = length buf
    /\ b !! Z.to_nat width = Some 0
    /\ (forall j : nat, width < Z.of_nat j -> b !! j = buf !! j)
    /\ (forall j : nat, Z.of_nat j < width ->
          b !! j = Some (shown num (Z.to_nat width - 1 - j))).
Proof.
  intros Hn Hw. unfold Text.uint_to_str.
  destruct (fill_spec (Z.to_nat width) 0 buf) as (b1 & Hb1 & Hl1 & Hj1);
    [lia|lia|].
  rewrite Hb1. cbn [mbind option_bind].
  rewrite poke_Some by lia. cbn [mbind option_bind].
  assert (Hj2 : forall j : nat,
             <[Z.to_nat width := 0]> b1 !! j
             = if Z.of_nat j <? width then Some 32
               else if Z.of_nat j =? width then Some 0 else buf !! j).
  { intros j. destruct (Z.ltb_spec (Z.of_nat j) width).
    - rewrite list_lookup_insert_ne by lia. rewrite Hj1.
      destruct (Z.leb_spec 0 (Z.of_nat j)); [|lia].
      destruct (Z.ltb_spec (Z.of_nat j) (0 + Z.of_nat (Z.to_nat width)));
        [reflexivity|lia].
    - destruct (Z.eqb_spec (Z.of_nat j) width).
      + replace j with (Z.to_nat width) by lia.
        apply list_lookup_insert_eq. lia.
      + rewrite list_lookup_insert_ne by lia. rewrite Hj1.
        destruct (Z.ltb_spec (Z.of_nat j) (0 + Z.of_nat (Z.to_nat width)));
          [lia|]. rewrite andb_false_r. reflexivity. }
  destruct (Z.eqb_spec num 0) as [->|Hnz].
  - rewrite poke_Some by (rewrite length_insert; lia).
    eexists. split; [reflexivity|].
    split; [rewrite !length_insert; exact Hl1|]. split.
    { rewrite list_lookup_insert_ne by lia. rewrite Hj2.
      destruct (Z.ltb_spec (Z.of_nat (Z.to_nat width)) width); [lia|].
      destruct (Z.eqb_spec (Z.of_nat (Z.to_nat width)) width);
        [reflexivity|lia]. }
    split.
    { intros j Hj. rewrite list_lookup_insert_ne by lia. rewrite Hj2.
      destruct (Z.ltb_spec (Z.of_nat j) width); [lia|].
      destruct (Z.eqb_spec (Z.of_nat j) width); [lia|reflexivity]. }
    intros j Hj. unfold shown. rewrite Zdiv_0_l. cbn [orb andb Z.eqb Z.ltb
                                                      Z.compare].
    destruct (Nat.eqb_spec (Z.to_nat width - 1 - j) 0) as [Hk|Hk].
    + replace j with (Z.to_nat (width - 1)) by lia.
      apply list_lookup_insert_eq. rewrite length_insert. lia.
    + rewrite list_lookup_insert_ne by lia. rewrite Hj2.
      destruct (Z.ltb_spec (Z.of_nat j) width); [reflexivity|lia].
  - destruct (write_digits_spec (Z.to_nat width) num (width - 1)
                (<[Z.to_nat width := 0]> b1))
      as (b & Hb & Hl & Hj); [lia|rewrite length_insert; lia|lia|].
    exists b. split; [exact Hb|].
    split; [rewrite Hl, length_insert; exact Hl1|]. split.
    { rewrite Hj.
      destruct (Z.leb_spec (Z.of_nat (Z.to_nat width)) (width - 1)); [lia|].
      cbn [andb]. rewrite Hj2.
      destruct (Z.ltb_spec (Z.of_nat (Z.to_nat width)) width); [lia|].
      destruct (Z.eqb_spec (Z.of_nat (Z.to_nat width)) width);
        [reflexivity|lia]. }
    split.
    { intros j Hjw. rewrite Hj.
      destruct (Z.leb_spec (Z.of_nat j) (width - 1)); [lia|].
      cbn [andb]. rewrite Hj2.
      destruct (Z.ltb_spec (Z.of_nat j) width); [lia|].
      destruct (Z.eqb_spec (Z.of_nat j) width); [lia|reflexivity]. }
    intros j Hjw. rewrite Hj. unfold shown.
    destruct (Z.leb_spec (Z.of_nat j) (width - 1)); [|lia]. cbn [andb].
    replace (Z.of_nat (Z.to_nat width - 1 - j)) with (width - 1 - Z.of_nat j)
      by lia.
    destruct (Z.eqb_spec num 0); [lia|]. cbn [andb]. rewrite orb_false_r.
    destruct (0 <? num / 10 ^ (width - 1 - Z.of_nat j)); [reflexivity|].
    rewrite Hj2. destruct (Z.ltb_spec (Z.of_nat j) width); [reflexivity|lia].
Qed.

Lemma dec_digits_places (l : list Z) (acc num : Z) :
  0 <= num ->
  (forall j : nat, (j < length l)%nat ->
     l !! j = Some (48 + (num / 10 ^ Z.of_nat (length l - 1 - j)) mod 10)) ->
  dec_digits acc l
  = Some (acc * 10 ^ Z.of_nat (length l) + num mod 10 ^ Z.of_nat (length l)).
Proof.
  intros Hn. revert acc. induction l as [|c r IH]; intros acc Hl.
  - cbn [dec_digits length]. change (10 ^ Z.of_nat 0) with 1.
    rewrite Z.mod_1_r. f_equal. lia.
  - cbn [dec_digits]. cbn [length] in *.
    pose proof (Hl 0%nat ltac:(lia)) as Hc.
    cbn [lookup list_lookup] in Hc. injection Hc as Hc.
    assert (Hc' : c = 48 + (num / 10 ^ Z.of_nat (length r)) mod 10)
      by (rewrite Hc; do 4 f_equal; lia).
    clear Hc; rename Hc' into Hc.
    pose proof (Z.mod_pos_bound (num / 10 ^ Z.of_nat (length r)) 10
                  ltac:(lia)) as Hd.
    destruct (Z.leb_spec 48 c); [|lia]. destruct (Z.leb_spec c 57); [|lia].
    cbn [andb]. rewrite IH.
    + f_equal. rewrite Nat2Z.inj_succ, Z.pow_succ_r by lia.
      rewrite (Z.mul_comm 10 (10 ^ Z.of_nat (length r))).
      rewrite (Z.rem_mul_r num (10 ^ Z.of_nat (length r)) 10)
        by (try apply Z.pow_nonzero; lia).
      subst c. lia.
    + intros j Hj. pose proof (Hl (S j) ltac:(lia)) as Hs.
      change ((c :: r) !! S j) with (r !! j) in Hs.
      replace (S (length r) - 1 - S j)%nat with (length r - 1 - j)%nat in Hs
        by lia.
      exact Hs.
Qed.

Lemma shown_digit (num : Z) (k k' : nat) :
  0 <= num -> (k <= k')%nat -> 0 < num / 10 ^ Z.of_nat k' ->
  shown num k = 48 + (num / 10 ^ Z.of_nat k) mod 10.
Proof.
  intros Hn Hk Hpos. unfold shown.
  assert (Hge : 10 ^ Z.of_nat k' <= num).
  { destruct (Z.lt_ge_cases num (10 ^ Z.of_nat k')) as [Hlt|Hge];
      [|exact Hge]. rewrite Z.div_small in Hpos by lia. lia. }
  assert (Hle : 10 ^ Z.of_nat k <= 10 ^ Z.of_nat k')
    by (apply Z.pow_le_mono_r; lia).
  assert (0 < num / 10 ^ Z.of_nat k).
  { apply Z.div_str_pos. split; [apply Z.pow_pos_nonneg; lia|lia]. }
  destruct (Z.ltb_spec 0 (num / 10 ^ Z.of_nat k)); [reflexivity|lia].
Qed.

Lemma dec_read_shown (l : list Z) (num : Z) :
  0 <= num -> l <> [] ->
  (forall j : nat, (j < length l)%nat ->
     l !! j = Some (shown num (length l - 1 - j))) ->
  dec_read l = Some (num mod 10 ^ Z.of_nat (length l)).
Proof.
  intros Hn. induction l as [|c r IH]; intros Hne Hl; [congruence|].
  cbn [length] in *.
  pose proof (Hl 0%nat ltac:(lia)) as Hc.
  cbn [lookup list_lookup] in Hc. injection Hc as Hc.
  assert (Hc' : c = shown num (length r))
    by (rewrite Hc; f_equal; lia).
  clear Hc; rename Hc' into Hc.
  assert (Hdigits : c = 48 + (num / 10 ^ Z.of_nat (length r)) mod 10 ->
            (forall j : nat, (j < S (length r))%nat ->
               (c :: r) !! j = Some (shown num (S (length r) - 1 - j))) ->
            (forall k : nat, (k <= length r)%nat ->
               shown num k = 48 + (num / 10 ^ Z.of_nat k) mod 10) ->
            dec_read (c :: r)
            = Some (num mod 10 ^ Z.of_nat (S (length r)))).
  { intros Hcd _ Hall.
    pose proof (Z.mod_pos_bound (num / 10 ^ Z.of_nat (length r)) 10
                  ltac:(lia)) as Hd.
    cbn [dec_read]. destruct (Z.eqb_spec c 32); [lia|].
    rewrite (dec_digits_places (c :: r) 0 num Hn).
    - cbn [length]. f_equal.
    - intros j Hj. cbn [length] in *. rewrite Hl by exact Hj.
      rewrite Hall by lia. reflexivity. }
  unfold shown in Hc.
  destruct (Z.ltb_spec 0 (num / 10 ^ Z.of_nat (length r))) as [Hpos|Hzero];
    cbn [orb] in Hc.
  - apply Hdigits; [exact Hc|exact Hl|].
    intros k Hk. apply (shown_digit num k (length r)); assumption.
  - destruct r as [|c' r'].
    + cbn [length] in *. change (10 ^ Z.of_nat 0) with 1 in *.
      rewrite Z.div_1_r in *. assert (num = 0) as -> by lia.
      cbn in Hc. subst c. reflexivity.
    + cbn [length Nat.eqb] in Hc. rewrite andb_false_r in Hc. subst c.
      change (dec_read (32 :: c' :: r')) with (dec_read (c' :: r')).
      rewrite IH.
      * f_equal.
        assert (Hsmall : num < 10 ^ Z.of_nat (length (c' :: r'))).
        { destruct (Z.lt_ge_cases num (10 ^ Z.of_nat (length (c' :: r'))))
            as [Hlt|Hge]; [exact Hlt|].
          assert (0 < num / 10 ^ Z.of_nat (length (c' :: r')));
            [|lia].
          apply Z.div_str_pos. split; [apply Z.pow_pos_nonneg; lia|lia]. }
        rewrite !Z.mod_small; try lia.
        split; [lia|]. rewrite Nat2Z.inj_succ, Z.pow_succ_r by lia.
        pose proof (Z.pow_pos_nonneg 10 (Z.of_nat (length (c' :: r')))
                      ltac:(lia) ltac:(lia)). lia.
      * discriminate.
      * intros j Hj. pose proof (Hl (S j) ltac:(lia)) as Hs.
        change ((32 :: c' :: r') !! S j) with ((c' :: r') !! j) in Hs.
        replace (S (length (c' :: r')) - 1 - S j)%nat
          with (length (c' :: r') - 1 - j)%nat in Hs by lia.
        exact Hs.
Qed.

(** X22.  [uint_to_str] right-aligns a number in [width] characters.  For
    a buffer with room for the terminator, the call is defined; it writes
    the [width] characters and the NUL after them and nothing beyond; the
    text is spaces followed by digits, and read back it gives the number
    modulo [10 ^ width]: a number of more than [width] digits loses its
    high digits without notice. *)
Theorem uint_to_str_shows (num : Z) (buf : list Z) (width : Z) :
  0 <= num < 2 ^ 32 -> 0 < width <= 255 ->
  width < Z.of_nat (length buf) ->
  exists b,
    Text.uint_to_str num buf width = Some b
    /\ length b = length buf
    /\ b !! Z.to_nat width = Some 0
    /\ (forall j : nat, width < Z.of_nat j -> b !! j = buf !! j)
    /\ dec_read (take (Z.to_nat width) b) = Some (num mod 10 ^ width).
Proof.
  intros Hn Hw Hl.
  destruct (uint_to_str_chars num buf width) as (b & Hb & Hlen & Hz & Hf & Hc);
    [lia|lia|].
  exists b. split; [exact Hb|]. split; [exact Hlen|]. split; [exact Hz|].
  split; [exact Hf|].
  assert (Htl : length (take (Z.to_nat width) b) = Z.to_nat width)
    by (rewrite length_take; lia).
  rewrite (dec_read_shown (take (Z.to_nat width) b) num).
  - rewrite Htl, Z2Nat.id by lia. reflexivity.
  - lia.
  - intros E. rewrite E in Htl. cbn in Htl. lia.
  - intros j Hj. rewrite Htl in *. rewrite lookup_take_lt by exact Hj.
    apply Hc. lia.
Qed.

Lemma uint_to_str_shows_witness :
  exists b,
    Text.uint_to_str 100 (bytes_of_string "Mem:      %" ++ [0]) 2 = Some b
    /\ dec_read (take 2 b) = Some 0.
Proof.
  destruct (uint_to_str_shows 100 (bytes_of_string "Mem:      %" ++ [0]) 2)
    as (b & Hb & _ & _ & _ & Hr); [lia|lia|cbn; lia|].
  exists b. split; [exact Hb|exact Hr].
Defined.
(** * holographic_kernel.c *)

Lemma bump_kmalloc_cases (kh n : Z) (s s' : HoloKernel.State) (p : Z) :
  HoloKernel.kmalloc kh n s = (p, s') ->
  0 < kh -> kh + HoloKernel.sizeof_kernel_heap <= 2 ^ 32 ->
  0 <= HoloKernel.heap_offset s ->
  0 <= n -> HoloKernel.heap_offset s + n < 2 ^ 32 ->
  (p = NULL /\ s' = s)
  \/ (p = kh + HoloKernel.heap_offset s
      /\ HoloKernel.heap_offset s + n < HoloKernel.sizeof_kernel_heap
      /\ s' = HoloKernel.set_heap_offset
                (HoloKernel.heap_offset s + align8 n) s
      /\ n <= align8 n <= n + 7).
Proof.
  unfold HoloKernel.kmalloc, HoloKernel.sizeof_kernel_heap.
  intros H Hk Hk' Ho Hn Hw.
  rewrite (u32_small (HoloKernel.heap_offset s + n)) in H by lia.
  destruct (Z.leb_spec 131072 (HoloKernel.heap_offset s + n)).
  - injection H as <- <-. left. split; reflexivity.
  - pose proof (align8_bounds n ltac:(lia) ltac:(lia)) as Ha.
    rewrite !u32_small in H by lia. injection H as <- <-. right.
    repeat split; lia.
Qed.

(** X23.  The bump allocator of [holographic_kernel.c] hands out disjoint
    blocks inside its array (at address [kh], within the 32-bit address
    space), as long as the 32-bit sum of offset and size does not wrap: of
    two successive granted requests with [heap_offset + size < 2^32], the
    first block starts inside the array,
    the second begins at or after the end of the first and ends inside the
    array; the allocator writes no byte of memory.  When the sum wraps the
    guarantee is lost: at [heap_offset = 16] a request of [0xFFFFFFF8]
    bytes is granted and moves [heap_offset] back to 8. *)
Theorem bump_kmalloc_disjoint (kh : Z) :
  0 < kh -> kh + HoloKernel.sizeof_kernel_heap <= 2 ^ 32 ->
  (forall (n1 n2 : Z) (s s1 s2 : HoloKernel.State) (p1 p2 : Z),
     HoloKernel.kmalloc kh n1 s = (p1, s1) ->
     HoloKernel.kmalloc kh n2 s1 = (p2, s2) ->
     0 <= HoloKernel.heap_offset s ->
     0 <= n1 -> HoloKernel.heap_offset s + n1 < 2 ^ 32 ->
     0 <= n2 -> HoloKernel.heap_offset s1 + n2 < 2 ^ 32 ->
     p1 <> NULL -> p2 <> NULL ->
     kh <= p1 /\ p1 + n1 <= p2
     /\ p2 + n2 < kh + HoloKernel.sizeof_kernel_heap
     /\ HoloKernel.heap s2 = HoloKernel.heap s)
  /\ (forall s : HoloKernel.State,
        HoloKernel.heap_offset s = 16 ->
        HoloKernel.kmalloc kh 0xFFFFFFF8 s
        = (kh + 16, HoloKernel.set_heap_offset 8 s)).
Proof.
  intros Hk Hk'. split.
  - intros n1 n2 s s1 s2 p1 p2 H1 H2 Ho Hn1 Hw1 Hn2 Hw2 Hp1 Hp2.
    destruct (bump_kmalloc_cases _ _ _ _ _ H1 Hk Hk' Ho Hn1 Hw1)
      as [[-> _]|(-> & Hfit1 & -> & Ha1)]; [congruence|].
    cbn [HoloKernel.heap_offset HoloKernel.set_heap_offset] in Hw2.
    destruct (bump_kmalloc_cases _ _ _ _ _ H2 Hk Hk')
      as [[-> _]|(-> & Hfit2 & -> & Ha2)];
      [cbn [HoloKernel.heap_offset HoloKernel.set_heap_offset]; lia
      |exact Hn2
      |cbn [HoloKernel.heap_offset HoloKernel.set_heap_offset]; exact Hw2
      |congruence|].
    cbn [HoloKernel.heap_offset HoloKernel.set_heap_offset HoloKernel.heap]
      in *.
    repeat split; lia.
  - intros s Hs. unfold HoloKernel.kmalloc. rewrite Hs.
    change (u32 (16 + 4294967288)) with 8.
    change (u32 (16 + align8 4294967288)) with 8.
    change (HoloKernel.sizeof_kernel_heap <=? 8) with false. cbv iota.
    rewrite u32_small by (unfold HoloKernel.sizeof_kernel_heap in *; lia).
    reflexivity.
Qed.

Lemma bump_kmalloc_disjoint_witness :
  (1048576
   <= (HoloKernel.kmalloc 1048576 2048 (HoloKernel.mkState 0 ∅ ∅ [] 0)).1
   /\ (HoloKernel.kmalloc 1048576 2048 (HoloKernel.mkState 0 ∅ ∅ [] 0)).1
      + 2048
      <= (HoloKernel.kmalloc 1048576 45
            (HoloKernel.kmalloc 1048576 2048
               (HoloKernel.mkState 0 ∅ ∅ [] 0)).2).1
   /\ (HoloKernel.kmalloc 1048576 45
         (HoloKernel.kmalloc 1048576 2048
            (HoloKernel.mkState 0 ∅ ∅ [] 0)).2).1 + 45
      < 1048576 + HoloKernel.sizeof_kernel_heap
   /\ HoloKernel.heap
        (HoloKernel.kmalloc 1048576 45
           (HoloKernel.kmalloc 1048576 2048
              (HoloKernel.mkState 0 ∅ ∅ [] 0)).2).2
      = HoloKernel.heap (HoloKernel.mkState 0 ∅ ∅ [] 0))
  /\ HoloKernel.kmalloc 1048576 0xFFFFFFF8 (HoloKernel.mkState 16 ∅ ∅ [] 0)
     = (1048576 + 16, HoloKernel.mkState 8 ∅ ∅ [] 0).
Proof.
  destruct (bump_kmalloc_disjoint 1048576) as [Hd Hw];
    [lia|vm_compute; discriminate|].
  split.
  - apply (Hd 2048 45
             (HoloKernel.mkState 0 ∅ ∅ [] 0)
             (HoloKernel.kmalloc 1048576 2048
                (HoloKernel.mkState 0 ∅ ∅ [] 0)).2
             (HoloKernel.kmalloc 1048576 45
                (HoloKernel.kmalloc 1048576 2048
                   (HoloKernel.mkState 0 ∅ ∅ [] 0)).2).2).
    + reflexivity.
    + reflexivity.
    + vm_compute. discriminate.
    + lia.
    + vm_compute. reflexivity.
    + lia.
    + vm_compute. reflexivity.
    + vm_compute. discriminate.
    + vm_compute. discriminate.
  - apply (Hw (HoloKernel.mkState 16 ∅ ∅ [] 0)). reflexivity.
Defined.

(** ** Spawning in holographic_kernel.c *)

Lemma holo_kmalloc_world (kh n : Z) (s s' : HoloKernel.State) (p : Z) :
  HoloKernel.kmalloc kh n s = (p, s') ->
  HoloKernel.heap s' = HoloKernel.heap s
  /\ HoloKernel.genes s' = HoloKernel.genes s
  /\ HoloKernel.entity_pool s' = HoloKernel.entity_pool s
  /\ HoloKernel.active_entity_count s' = HoloKernel.active_entity_count s.
Proof.
  unfold HoloKernel.kmalloc. intros H.
  destruct (_ <=? _); injection H as <- <-; repeat split; reflexivity.
Qed.

Lemma holo_create_hyper_vector_world (kh : Z) (input : list Z)
    (s s' : HoloKernel.State) (v : HyperVector) :
  HoloKernel.create_hyper_vector kh input s = (v, s') ->
  HoloKernel.genes s' = HoloKernel.genes s
  /\ HoloKernel.entity_pool s' = HoloKernel.entity_pool s
  /\ HoloKernel.active_entity_count s' = HoloKernel.active_entity_count s.
Proof.
  unfold HoloKernel.create_hyper_vector. cbv zeta. intros H.
  destruct (HoloKernel.kmalloc _ _ s) as [p s1] eqn:Ek.
  apply holo_kmalloc_world in Ek as (_ & Hg & He & Ha).
  destruct (truthy p); apply pair_equal_spec in H as [_ <-];
    (split; [exact Hg|split; [exact He|exact Ha]]).
Qed.

(** X24.  [spawn_entity] of [holographic_kernel.c] always returns when the
    pool has room: it takes the slot of index [active_entity_count], gives
    it that number as its id, marks it active and mutant with age 0, and
    counts it; no other slot changes.  Lack of memory does not stop it:
    the entity then has no gene.  When the gene is granted, it is the only
    gene, and its pattern is the entity's state vector itself, buffer
    included, not a copy. *)
Theorem holo_spawn_entity_returns (kh : Z) (s : HoloKernel.State) :
  0 <= HoloKernel.active_entity_count s < MAX_ENTITIES ->
  (Z.to_nat (HoloKernel.active_entity_count s)
   < length (HoloKernel.entity_pool s))%nat ->
  exists s' e',
    HoloKernel.spawn_entity kh s
    = Some (Some (Z.to_nat (HoloKernel.active_entity_count s)), s')
    /\ HoloKernel.active_entity_count s'
       = HoloKernel.active_entity_count s + 1
    /\ HoloKernel.entity_pool s'
         !! Z.to_nat (HoloKernel.active_entity_count s) = Some e'
    /\ id e' = HoloKernel.active_entity_count s
    /\ is_active e' = 1 /\ age e' = 0 /\ is_mutant e' = 1
    /\ ((genome e' = NULL /\ gene_count e' = 0)
        \/ (genome e' <> NULL /\ gene_count e' = 1
            /\ exists g, HoloKernel.genes s' !! genome e' = Some g
                         /\ HoloKernel.pattern g = state e'
                         /\ HoloKernel.next g = NULL))
    /\ (forall j, j <> Z.to_nat (HoloKernel.active_entity_count s) ->
          HoloKernel.entity_pool s' !! j = HoloKernel.entity_pool s !! j).
Proof.
  intros Hc Hl. unfold HoloKernel.spawn_entity.
  destruct (Z.leb_spec MAX_ENTITIES (HoloKernel.active_entity_count s));
    [lia|].
  set (n := Z.to_nat (HoloKernel.active_entity_count s)) in *.
  destruct (lookup_lt_is_Some_2 (HoloKernel.entity_pool s) n Hl) as [e0 He0].
  rewrite He0. cbn [mbind option_bind]. cbv zeta.
  match goal with
  | |- context [HoloKernel.create_hyper_vector kh ?i ?s1] =>
      destruct (HoloKernel.create_hyper_vector kh i s1) as [v s2] eqn:Ev
  end.
  apply holo_create_hyper_vector_world in Ev as (Hg2 & He2 & Ha2).
  cbn [HoloKernel.genes HoloKernel.entity_pool HoloKernel.active_entity_count
       HoloKernel.alter_entity HoloKernel.set_entity_pool] in Hg2, He2, Ha2.
  unfold HoloKernel.create_gene.
  match goal with
  | |- context [HoloKernel.kmalloc kh sizeof_Gene ?s3] =>
      destruct (HoloKernel.kmalloc kh sizeof_Gene s3) as [g s4] eqn:Ek
  end.
  apply holo_kmalloc_world in Ek as (_ & Hg4 & He4 & Ha4).
  cbn [HoloKernel.genes HoloKernel.entity_pool HoloKernel.active_entity_count
       HoloKernel.alter_entity HoloKernel.set_entity_pool] in Hg4, He4, Ha4.
  unfold HoloKernel.add_gene_to_entity.
  destruct (truthy g) eqn:Hgp.
  - cbn [HoloKernel.entity_pool HoloKernel.set_genes HoloKernel.genes].
    rewrite He4, He2, !list_lookup_alter_eq, He0.
    cbn [fmap option_fmap option_map mbind option_bind].
    cbn [gene_count set_state set_mutation_rate set_genome set_gene_count].
    change (MAX_GENES_PER_ENTITY <=? 0) with false. rewrite Hgp.
    cbn [negb orb]. rewrite lookup_insert_eq. cbn [mbind option_bind].
    eexists _, _. split; [reflexivity|].
    cbn [HoloKernel.active_entity_count HoloKernel.set_active_entity_count
         HoloKernel.alter_entity HoloKernel.set_entity_pool
         HoloKernel.entity_pool HoloKernel.set_genes HoloKernel.genes].
    rewrite Ha4, Ha2.
    split; [apply u32_small; unfold MAX_ENTITIES in *; lia|].
    rewrite He4, He2. split.
    { rewrite !list_lookup_alter_eq, He0. reflexivity. }
    split; [reflexivity|]. split; [reflexivity|]. split; [reflexivity|].
    split; [reflexivity|]. split.
    { right. cbn. split.
      - unfold truthy in Hgp. apply negb_true_iff, Z.eqb_neq in Hgp.
        exact Hgp.
      - split; [reflexivity|]. eexists. split.
        + apply lookup_insert_eq.
        + split; reflexivity. }
    intros j Hj. rewrite !list_lookup_alter_ne by congruence. reflexivity.
  - cbn [HoloKernel.entity_pool].
    rewrite He4, He2, !list_lookup_alter_eq, He0.
    cbn [fmap option_fmap option_map mbind option_bind].
    change (truthy NULL) with false. cbn [negb orb].
    eexists _, _. split; [reflexivity|].
    cbn [HoloKernel.active_entity_count HoloKernel.set_active_entity_count
         HoloKernel.alter_entity HoloKernel.set_entity_pool
         HoloKernel.entity_pool].
    rewrite Ha4, Ha2.
    split; [apply u32_small; unfold MAX_ENTITIES in *; lia|].
    rewrite He4, He2. split.
    { rewrite !list_lookup_alter_eq, He0. reflexivity. }
    split; [reflexivity|]. split; [reflexivity|]. split; [reflexivity|].
    split; [reflexivity|]. split.
    { left. split; reflexivity. }
    intros j Hj. rewrite !list_lookup_alter_ne by congruence. reflexivity.
Qed.

Lemma holo_spawn_entity_returns_witness :
  exists s',
    HoloKernel.spawn_entity 1048576 holo_boot = Some (Some 0%nat, s')
    /\ HoloKernel.active_entity_count s' = 1.
Proof.
  destruct (holo_spawn_entity_returns 1048576 holo_boot)
    as (s' & e' & Hrun & Hcount & _);
    [vm_compute; split; [discriminate|reflexivity]
    |vm_compute; lia|].
  exists s'. split; [exact Hrun|exact Hcount].
Defined.

(** ** Growing a manifold *)



(** ** The memory of holographic_kernel.c *)

(** X26.  The memory of [holographic_kernel.c] keeps the newest 128
    associations.  Encoding stores the given vectors themselves (the
    structs are assigned, no buffer is copied) as a valid entry stamped
    with the global tick: behind the entries present when the memory is
    not full, and otherwise in the last slot, after every entry has moved
    down by one and the oldest is gone.  Retrieval under the hash of the
    input then finds this entry. *)
Theorem holo_memory_keeps_newest (input output : HyperVector)
    (h : HolographicSystem) :
  0 <= memory_count h < 2 ^ 31 ->
  length (memory_pool h) = Z.to_nat MAX_MEMORY_ENTRIES ->
  let full := MAX_MEMORY_ENTRIES <=? memory_count h in
  let n := if full then Z.to_nat (MAX_MEMORY_ENTRIES - 1)
           else Z.to_nat (memory_count h) in
  exists h',
    HoloKernel.encode_holographic_memory input output h = Some h'
    /\ memory_pool h' !! n
       = Some (mkMemoryEntry input output (global_timestamp h) 1)
    /\ memory_count h' = Z.of_nat n + 1
    /\ global_timestamp h' = u32 (global_timestamp h + 1)
    /\ (forall i, (i < n)%nat ->
          memory_pool h' !! i
          = memory_pool h !! (if full then S i else i))
    /\ HoloKernel.retrieve_holographic_memory (hash_sig input) h'
       = Some (Some n).
Proof.
  intros Hc Hl. cbv zeta. unfold HoloKernel.encode_holographic_memory.
  assert (Hret : forall (pool : list MemoryEntry) (k : nat) (c t : Z),
             (k < Z.to_nat MAX_MEMORY_ENTRIES)%nat ->
             pool !! k
             = Some (mkMemoryEntry input output (global_timestamp h) 1) ->
             HoloKernel.retrieve_holographic_memory (hash_sig input)
               (mkHolographicSystem pool (Z.of_nat k + 1) t)
             = Some (Some k)).
  { intros pool k c t Hk Hp. unfold HoloKernel.retrieve_holographic_memory.
    cbn [memory_count memory_pool]. cbv zeta.
    unfold MAX_MEMORY_ENTRIES in Hk.
    rewrite u32_small by lia. unfold int_of_u32.
    destruct (Z.ltb_spec (Z.of_nat k + 1 - 1) (2 ^ 31)); [|lia].
    destruct (Z.leb_spec 0 (Z.of_nat k + 1 - 1)); [|lia].
    replace (Z.to_nat (Z.of_nat k + 1 - 1 + 1)) with (S k) by lia.
    cbn [HoloKernel.retrieve_from memory_pool]. rewrite Hp.
    cbn [mbind option_bind entry_valid input_pattern].
    rewrite Z.eqb_refl. reflexivity. }
  destruct (Z.leb_spec MAX_MEMORY_ENTRIES (memory_count h)) as [Hfull|Hroom];
    cbv zeta; cbn [memory_count memory_pool global_timestamp].
  - set (pool1 := shift_down MAX_MEMORY_ENTRIES _).
    assert (Hl1 : length pool1 = Z.to_nat MAX_MEMORY_ENTRIES)
      by (unfold pool1; rewrite shift_down_length, length_alter; exact Hl).
    destruct (lookup_lt_is_Some_2 pool1 (Z.to_nat (MAX_MEMORY_ENTRIES - 1)))
      as [e He]; [rewrite Hl1; vm_compute; lia|].
    rewrite He. cbn [mbind option_bind].
    eexists. split; [reflexivity|].
    cbn [memory_count memory_pool global_timestamp].
    assert (Hnew : <[Z.to_nat (MAX_MEMORY_ENTRIES - 1) :=
                      mkMemoryEntry input output (global_timestamp h) 1]>
                     pool1 !! Z.to_nat (MAX_MEMORY_ENTRIES - 1)
                   = Some (mkMemoryEntry input output (global_timestamp h) 1))
      by (apply list_lookup_insert_eq; rewrite Hl1; vm_compute; lia).
    split; [exact Hnew|]. split; [reflexivity|]. split; [reflexivity|].
    split.
    + intros i Hi. rewrite list_lookup_insert_ne by lia.
      unfold pool1. rewrite shift_down_lookup
        by (rewrite length_alter, Hl; vm_compute; discriminate).
      destruct (Z.ltb_spec (Z.of_nat i) (MAX_MEMORY_ENTRIES - 1));
        [|unfold MAX_MEMORY_ENTRIES in *; lia].
      apply list_lookup_alter_ne. lia.
    + change (u32 (MAX_MEMORY_ENTRIES - 1 + 1))
        with (Z.of_nat (Z.to_nat (MAX_MEMORY_ENTRIES - 1)) + 1).
      apply Hret; [exact 0|vm_compute; lia|exact Hnew].
  - destruct (lookup_lt_is_Some_2 (memory_pool h)
                (Z.to_nat (memory_count h)))
      as [e He]; [rewrite Hl; lia|].
    rewrite He. cbn [mbind option_bind].
    eexists. split; [reflexivity|].
    cbn [memory_count memory_pool global_timestamp].
    assert (Hnew : <[Z.to_nat (memory_count h) :=
                      mkMemoryEntry input output (global_timestamp h) 1]>
                     (memory_pool h) !! Z.to_nat (memory_count h)
                   = Some (mkMemoryEntry input output (global_timestamp h) 1))
      by (apply list_lookup_insert_eq; rewrite Hl; lia).
    split; [exact Hnew|].
    assert (Hu : u32 (memory_count h + 1)
                 = Z.of_nat (Z.to_nat (memory_count h)) + 1)
      by (rewrite u32_small; unfold MAX_MEMORY_ENTRIES in *; lia).
    split; [exact Hu|]. split; [reflexivity|]. split.
    + intros i Hi. apply list_lookup_insert_ne. lia.
    + rewrite Hu. apply Hret; [exact 0|lia|exact Hnew].
Qed.

Lemma holo_memory_keeps_newest_witness :
  exists h',
    HoloKernel.encode_holographic_memory fresh_thought fresh_thought
      full_memory = Some h'
    /\ memory_count h' = MAX_MEMORY_ENTRIES
    /\ HoloKernel.retrieve_holographic_memory (hash_sig fresh_thought) h'
       = Some (Some 127%nat).
Proof.
  destruct (holo_memory_keeps_newest fresh_thought fresh_thought full_memory)
    as (h' & Hrun & _ & Hc & _ & _ & Hr);
    [vm_compute; split; [discriminate|reflexivity]|reflexivity|].
  exists h'. split; [exact Hrun|]. split; [exact Hc|exact Hr].
Defined.

(** ** Text on the screen *)

Lemma print_char_plain (c color : Z) (s : Console.State) :
  c <> 10 -> 0 <= Console.cursor_pos s -> Console.cursor_pos s + 1 < 80 * 25 ->
  Console.print_char c color s
  = Console.mkConsole (Console.cursor_pos s + 1)
      (store_byte
         (store_byte (Console.video s)
            (Console.VIDEO_MEMORY + Console.cursor_pos s * 2) c)
         (Console.VIDEO_MEMORY + (Console.cursor_pos s * 2 + 1)) color).
Proof.
  intros Hc H0 H1. unfold Console.print_char. cbv zeta.
  apply Z.eqb_neq in Hc. rewrite Hc.
  assert (H2 : Console.u16 (Console.cursor_pos s * 2)
               = Console.cursor_pos s * 2)
    by (unfold Console.u16; apply Z.mod_small; lia).
  assert (H3 : Console.u16 (Console.cursor_pos s + 1)
               = Console.cursor_pos s + 1)
    by (unfold Console.u16; apply Z.mod_small; lia).
  rewrite H2, H3. cbn [Console.cursor_pos].
  destruct (Z.leb_spec (80 * 25) (Console.cursor_pos s + 1)); [lia|].
  reflexivity.
Qed.

(** X27.  [print] shows its text at the cursor.  For a text without
    newline that fits before the end of the screen, the characters appear
    in the cells from the cursor on, each with attribute [0x0F], the
    cursor moves past them, and every other cell is as before. *)
Theorem print_shows_text (str : list Z) (s : Console.State) :
  Forall (fun c => c <> 0 /\ c <> 10) str ->
  0 <= Console.cursor_pos s ->
  Console.cursor_pos s + Z.of_nat (length str) < 80 * 25 ->
  Console.cursor_pos (Console.print str s)
  = Console.cursor_pos s + Z.of_nat (length str)
  /\ (forall (k : nat) (c : Z), str !! k = Some c ->
        cell (Console.video (Console.print str s))
          (Console.cursor_pos s + Z.of_nat k)
        = (u8 c, 15))
  /\ (forall j, j < Console.cursor_pos s
                \/ Console.cursor_pos s + Z.of_nat (length str) <= j ->
        cell (Console.video (Console.print str s)) j
        = cell (Console.video s) j).
Proof.
  revert s. induction str as [|c rest IH]; intros s Hstr H0 Hfit.
  - cbn [Console.print length]. split; [lia|].
    split; [intros k c Hk; discriminate Hk|reflexivity].
  - apply Forall_cons in Hstr as [[Hc0 Hc10] Hrest].
    cbn [length] in Hfit. cbn [Console.print].
    apply Z.eqb_neq in Hc0. rewrite Hc0.
    rewrite print_char_plain by lia.
    match goal with
    | |- context [Console.print rest ?s1] =>
        destruct (IH s1 Hrest) as (Hcur & Hshow & Hframe);
        cbn [Console.cursor_pos Console.video] in *; try lia
    end.
    split; [rewrite Hcur; cbn [length]; lia|]. split.
    + intros [|k] c' Hk.
      * injection Hk as <-. rewrite Hframe by lia.
        unfold cell. rewrite !load_store_byte.
        eqb_cases; try reflexivity.
      * replace (Console.cursor_pos s + Z.of_nat (S k))
          with (Console.cursor_pos s + 1 + Z.of_nat k) by lia.
        apply Hshow. exact Hk.
    + intros j Hj. rewrite Hframe by (cbn [length] in Hj; lia).
      unfold cell. rewrite !load_store_byte.
      cbn [length] in Hj. eqb_cases; try reflexivity.
Qed.

Lemma print_shows_text_witness :
  Console.cursor_pos
    (Console.print (bytes_of_string "0xDEADBEEF") (Console.mkConsole 160 ∅))
  = 170
  /\ cell (Console.video
             (Console.print (bytes_of_string "0xDEADBEEF")
                (Console.mkConsole 160 ∅))) 162
     = (68, 15).
Proof.
  destruct (print_shows_text (bytes_of_string "0xDEADBEEF")
              (Console.mkConsole 160 ∅)) as (Hc & Hs & _).
  - vm_compute. repeat constructor; discriminate.
  - cbn [Console.cursor_pos]. lia.
  - vm_compute. reflexivity.
  - split; [exact Hc|]. apply (Hs 2%nat 68). reflexivity.
Defined.

(** ** Reclaiming tracking records *)

Lemma record_chain_frame (pool pool' : list PoolAllocator.mem_block_t)
    (h : option nat) (l : list nat) :
  (forall i, i ∈ l -> pool' !! i = pool !! i) ->
  record_chain pool h l -> record_chain pool' h l.
Proof.
  intros Hsame Hc. induction Hc as [|i b l Hi Hc IH].
  - constructor.
  - econstructor.
    + rewrite Hsame by (apply elem_of_cons; left; reflexivity). exact Hi.
    + apply IH. intros j Hj. apply Hsame, elem_of_cons. right. exact Hj.
Qed.

Lemma record_chain_alter (pool : list PoolAllocator.mem_block_t)
    (f : PoolAllocator.mem_block_t -> PoolAllocator.mem_block_t) (k : nat)
    (h : option nat) (l : list nat) :
  k ∉ l -> record_chain pool h l -> record_chain (alter f k pool) h l.
Proof.
  intros Hk. apply record_chain_frame. intros i Hi.
  apply list_lookup_alter_ne. intros ->. contradiction.
Qed.

Lemma record_chain_unlink (pool : list PoolAllocator.mem_block_t)
    (h : option nat) (K R : list nat) (p c : nat)
    (blk : PoolAllocator.mem_block_t) :
  record_chain pool h (K ++ c :: R) -> last K = Some p ->
  NoDup (K ++ c :: R) -> pool !! c = Some blk ->
  record_chain
    (alter (PoolCollector.set_next (PoolAllocator.next blk)) p pool)
    h (K ++ R).
Proof.
  revert h. induction K as [|k K IH]; intros h Hc Hlast Hnd Hblk;
    [discriminate|].
  cbn [app] in *. inversion Hc as [|i b l Hk Hrest]; subst.
  apply NoDup_cons in Hnd as [Hk_notin Hnd].
  destruct K as [|k' K'].
  - cbn [last] in Hlast. injection Hlast as <-. cbn [app] in *.
    inversion Hrest as [|i b' l Hc' Hrest' Heq]; subst.
    rewrite Hblk in Hc'. injection Hc' as <-.
    econstructor.
    + rewrite list_lookup_alter_eq, Hk. reflexivity.
    + cbn [PoolCollector.set_next PoolAllocator.next].
      apply record_chain_alter; [|exact Hrest'].
      intros Hin. apply Hk_notin, elem_of_cons. right. exact Hin.
  - assert (Hp : p ∈ k' :: K').
    { clear -Hlast. revert k' Hlast. induction K' as [|a K' IH];
        intros k' Hlast.
      - cbn in Hlast. injection Hlast as <-. apply elem_of_cons. left.
        reflexivity.
      - apply elem_of_cons. right. apply IH. exact Hlast. }
    econstructor.
    + rewrite list_lookup_alter_ne; [exact Hk|].
      intros <-. apply Hk_notin, elem_of_app. left. exact Hp.
    + apply IH; assumption.
Qed.

Lemma flagged_alter_next (pool : list PoolAllocator.mem_block_t)
    (v : option nat) (k i : nat) :
  flagged (alter (PoolCollector.set_next v) k pool) i = flagged pool i.
Proof.
  unfold flagged. destruct (decide (k = i)) as [->|Hne].
  - rewrite list_lookup_alter_eq. destruct (pool !! i); reflexivity.
  - rewrite list_lookup_alter_ne by exact Hne. reflexivity.
Qed.

Lemma record_chain_lookup (pool : list PoolAllocator.mem_block_t)
    (h : option nat) (l : list nat) (i : nat) :
  record_chain pool h l -> i ∈ l -> is_Some (pool !! i).
Proof.
  intros Hc. induction Hc as [|j b l Hj Hc IH]; intros Hi.
  - apply not_elem_of_nil in Hi. contradiction.
  - apply elem_of_cons in Hi as [->|Hi]; [eexists; exact Hj|auto].
Qed.

Lemma last_elem_of {A} (l : list A) (x : A) : last l = Some x -> x ∈ l.
Proof.
  induction l as [|a l IH]; [discriminate|]. destruct l as [|b l].
  - intros [= <-]. apply elem_of_cons. left. reflexivity.
  - intros H. apply elem_of_cons. right. apply IH. exact H.
Qed.

Lemma iter_count_shift (n : nat) (c : Z) :
  Nat.iter (S n) (fun c => u32 (c + 1)) c
  = Nat.iter n (fun c => u32 (c + 1)) (u32 (c + 1)).
Proof.
  induction n as [|n IH]; [reflexivity|].
  change (Nat.iter (S (S n)) (fun c => u32 (c + 1)) c)
    with (u32 (Nat.iter (S n) (fun c => u32 (c + 1)) c + 1)).
  rewrite IH. reflexivity.
Qed.

Lemma reclaim_loop_spec (R : list nat) :
  forall (fuel : nat) (K F : list nat) (s : PoolAllocator.State) (count : Z)
         (current prev : option nat),
    (length R < fuel)%nat ->
    NoDup (K ++ R ++ F) ->
    record_chain (PoolAllocator.metadata_pool s)
      (PoolAllocator.allocation_list s) (K ++ R) ->
    record_chain (PoolAllocator.metadata_pool s) current R ->
    record_chain (PoolAllocator.metadata_pool s)
      (PoolAllocator.free_metadata_list s) F ->
    prev = last K ->
    exists s' count',
      PoolCollector.reclaim_loop fuel current prev s count = Some (s', count')
      /\ record_chain (PoolAllocator.metadata_pool s')
           (PoolAllocator.allocation_list s')
           (K ++ List.filter
                   (fun i => negb (flagged (PoolAllocator.metadata_pool s) i))
                   R)
      /\ record_chain (PoolAllocator.metadata_pool s')
           (PoolAllocator.free_metadata_list s')
           (rev (List.filter (flagged (PoolAllocator.metadata_pool s)) R)
            ++ F)
      /\ count'
         = Nat.iter
             (length (List.filter (flagged (PoolAllocator.metadata_pool s)) R))
             (fun c => u32 (c + 1)) count
      /\ PoolAllocator.heap_offset s' = PoolAllocator.heap_offset s
      /\ PoolAllocator.allocation_counter s'
         = PoolAllocator.allocation_counter s
      /\ (forall i, flagged (PoolAllocator.metadata_pool s') i
                    = flagged (PoolAllocator.metadata_pool s) i).
Proof.
  induction R as [|c R IH];
    intros fuel K F s count current prev Hf Hnd Hall Hcur Hfree Hprev.
  - inversion Hcur; subst. destruct fuel; cbn [PoolCollector.reclaim_loop];
      (eexists _, _; split; [reflexivity|]);
      cbn [List.filter rev app length Nat.iter]; rewrite app_nil_r in *;
      repeat split; assumption || reflexivity.
  - inversion Hcur as [|i blk l Hc Hrest]; subst.
    destruct fuel as [|f]; [cbn in Hf; lia|]. cbn [length] in Hf.
    cbn [PoolCollector.reclaim_loop]. rewrite Hc. cbn [mbind option_bind].
    assert (Hfl : flagged (PoolAllocator.metadata_pool s) c
                  = truthy (PoolAllocator.is_garbage blk))
      by (unfold flagged; rewrite Hc; reflexivity).
    cbn [List.filter]. rewrite Hfl.
    assert (HcK : c ∉ K).
    { intros Hin. apply NoDup_app in Hnd as (_ & Hd & _).
      apply (Hd c Hin). apply elem_of_app. left. apply elem_of_cons. left.
      reflexivity. }
    assert (Hnd' : NoDup (K ++ R ++ c :: F)).
    { eapply NoDup_Permutation_proper; [|exact Hnd].
      apply Permutation_app_head. cbn [app].
      symmetry. apply Permutation_middle. }
    assert (HcR : (c ∉ R) /\ (c ∉ F)).
    { apply NoDup_app in Hnd as (_ & _ & Hd). cbn [app] in Hd.
      apply NoDup_cons in Hd as [Hd _]. split; intros Hin; apply Hd;
        apply elem_of_app; [left|right]; exact Hin. }
    destruct HcR as [HcR HcF].
    destruct (truthy (PoolAllocator.is_garbage blk)) eqn:Hg; cbn [negb].
    + destruct (last K) as [p|] eqn:Hlast.
      * pose proof (last_elem_of _ _ Hlast) as HpK.
        assert (Hpc : p <> c) by (intros ->; contradiction).
        assert (HpR : (p ∉ R) /\ (p ∉ F)).
        { apply NoDup_app in Hnd as (_ & Hd & _). split; intros Hin;
            apply (Hd p HpK); apply elem_of_app;
            [left; apply elem_of_cons; right|right]; exact Hin. }
        destruct HpR as [HpR HpF].
        destruct (record_chain_lookup _ _ _ p Hall) as [bp Hbp];
          [apply elem_of_app; left; exact HpK|].
        rewrite Hbp. cbn [mbind option_bind].
        cbn [PoolAllocator.metadata_pool PoolCollector.set_metadata_pool
             PoolAllocator.free_metadata_list].
        rewrite list_lookup_alter_ne by exact Hpc. rewrite Hc.
        cbn [mbind option_bind].
        match goal with
        | |- context [PoolCollector.reclaim_loop f ?cur ?pv ?s2 ?cnt] =>
            destruct (IH f K (c :: F) s2 cnt cur pv)
              as (s' & count' & Hrun & Ha & Hfr & Hn & Ho & Hac & Hflag);
              [| | | | |symmetry; exact Hlast|]
        end; cycle 5.
        { rewrite Hrun. eexists _, _. split; [reflexivity|].
          cbn [PoolAllocator.metadata_pool PoolCollector.set_metadata_pool
               PoolCollector.set_free_metadata_list] in *.
          assert (Hext : forall i,
                    flagged
                      (alter (PoolCollector.set_next
                                (PoolAllocator.free_metadata_list s)) c
                         (alter (PoolCollector.set_next
                                   (PoolAllocator.next blk)) p
                            (PoolAllocator.metadata_pool s))) i
                    = flagged (PoolAllocator.metadata_pool s) i)
            by (intros i; rewrite !flagged_alter_next; reflexivity).
          rewrite (List.filter_ext _ _ Hext) in Hfr, Hn.
          rewrite (List.filter_ext _
                     (fun i => negb (flagged (PoolAllocator.metadata_pool s) i)))
            in Ha by (intros i; rewrite Hext; reflexivity).
          split; [exact Ha|]. split.
          { cbn [rev]. rewrite <- app_assoc. exact Hfr. }
          split; [cbn [length]; rewrite Hn; symmetry;
                  apply iter_count_shift|].
          split; [exact Ho|]. split; [exact Hac|].
          intros i. rewrite Hflag. apply Hext. }
        { lia. }
        { exact Hnd'. }
        { cbn [PoolAllocator.metadata_pool PoolCollector.set_metadata_pool
               PoolCollector.set_free_metadata_list
               PoolAllocator.allocation_list].
          apply record_chain_alter.
          - intros Hin. apply elem_of_app in Hin as [Hin|Hin]; contradiction.
          - eapply record_chain_unlink; try eassumption.
            apply NoDup_app in Hnd as (Hk & Hd & Hrf).
            apply NoDup_app. split; [exact Hk|]. split.
            + intros x Hx Hin. apply (Hd x Hx). apply elem_of_app. left.
              exact Hin.
            + apply NoDup_app in Hrf as (Hr & _ & _). exact Hr. }
        { cbn [PoolAllocator.metadata_pool PoolCollector.set_metadata_pool
               PoolCollector.set_free_metadata_list].
          do 2 (apply record_chain_alter; [assumption|]). exact Hrest. }
        { cbn [PoolAllocator.metadata_pool PoolCollector.set_metadata_pool
               PoolCollector.set_free_metadata_list
               PoolAllocator.free_metadata_list].
          econstructor.
          - rewrite list_lookup_alter_eq, list_lookup_alter_ne by exact Hpc.
            rewrite Hc. reflexivity.
          - cbn [PoolCollector.set_next PoolAllocator.next].
            do 2 (apply record_chain_alter; [assumption|]). exact Hfree. }
      * apply last_None in Hlast. subst K. cbn [app] in *. cbn [mbind option_bind].
        cbn [PoolAllocator.metadata_pool PoolCollector.set_allocation_list
             PoolAllocator.free_metadata_list].
        rewrite Hc. cbn [mbind option_bind].
        match goal with
        | |- context [PoolCollector.reclaim_loop f ?cur ?pv ?s2 ?cnt] =>
            destruct (IH f [] (c :: F) s2 cnt cur pv)
              as (s' & count' & Hrun & Ha & Hfr & Hn & Ho & Hac & Hflag);
              [| | | | |reflexivity|]
        end; cycle 5.
        { rewrite Hrun. eexists _, _. split; [reflexivity|].
          cbn [PoolAllocator.metadata_pool PoolCollector.set_metadata_pool
               PoolCollector.set_free_metadata_list
               PoolCollector.set_allocation_list app] in *.
          assert (Hext : forall i,
                    flagged
                      (alter (PoolCollector.set_next
                                (PoolAllocator.free_metadata_list s)) c
                         (PoolAllocator.metadata_pool s)) i
                    = flagged (PoolAllocator.metadata_pool s) i)
            by (intros i; rewrite !flagged_alter_next; reflexivity).
          rewrite (List.filter_ext _ _ Hext) in Hfr, Hn.
          rewrite (List.filter_ext _
                     (fun i => negb (flagged (PoolAllocator.metadata_pool s) i)))
            in Ha by (intros i; rewrite Hext; reflexivity).
          split; [exact Ha|]. split.
          { cbn [rev]. rewrite <- app_assoc. exact Hfr. }
          split; [cbn [length]; rewrite Hn; symmetry;
                  apply iter_count_shift|].
          split; [exact Ho|]. split; [exact Hac|].
          intros i. rewrite Hflag. apply Hext. }
        { lia. }
        { exact Hnd'. }
        { cbn [PoolAllocator.metadata_pool PoolCollector.set_metadata_pool
               PoolCollector.set_free_metadata_list
               PoolCollector.set_allocation_list
               PoolAllocator.allocation_list app].
          apply record_chain_alter; [assumption|]. exact Hrest. }
        { cbn [PoolAllocator.metadata_pool PoolCollector.set_metadata_pool
               PoolCollector.set_free_metadata_list
               PoolCollector.set_allocation_list].
          apply record_chain_alter; [assumption|]. exact Hrest. }
        { cbn [PoolAllocator.metadata_pool PoolCollector.set_metadata_pool
               PoolCollector.set_free_metadata_list
               PoolCollector.set_allocation_list
               PoolAllocator.free_metadata_list].
          econstructor.
          - rewrite list_lookup_alter_eq, Hc. reflexivity.
          - cbn [PoolCollector.set_next PoolAllocator.next].
            apply record_chain_alter; [assumption|]. exact Hfree. }
    + edestruct (IH f (K ++ [c]) F s count (PoolAllocator.next blk) (Some c))
        as (s' & count' & Hrun & Ha & Hfr & Hn & Ho & Hac & Hflag).
      * lia.
      * rewrite <- app_assoc. exact Hnd.
      * rewrite <- app_assoc. exact Hall.
      * exact Hrest.
      * exact Hfree.
      * symmetry. apply last_snoc.
      * rewrite Hrun. eexists _, _. split; [reflexivity|].
        rewrite <- app_assoc in Ha.
        repeat split; assumption.
Qed.

(** X28.  The reclaim loop of the collector splits the allocation list.
    For an allocation list and a free list that are proper lists without
    a common record, the loop ends; afterwards the allocation list holds
    the records that are not flagged, in their old order, the flagged ones
    have been pushed onto the free list one by one, and [gc_metadata_count]
    has grown by one for each.  [heap_offset] is as before: tracking
    records are recycled, no byte of the arena is. *)
Theorem reclaim_metadata_partitions (fuel : nat) (s : PoolAllocator.State)
    (count : Z) (L F : list nat) :
  record_chain (PoolAllocator.metadata_pool s)
    (PoolAllocator.allocation_list s) L ->
  record_chain (PoolAllocator.metadata_pool s)
    (PoolAllocator.free_metadata_list s) F ->
  NoDup (L ++ F) -> (length L < fuel)%nat ->
  exists s' count',
    PoolCollector.reclaim_metadata fuel s count = Some (s', count')
    /\ record_chain (PoolAllocator.metadata_pool s')
         (PoolAllocator.allocation_list s')
         (List.filter
            (fun i => negb (flagged (PoolAllocator.metadata_pool s) i)) L)
    /\ record_chain (PoolAllocator.metadata_pool s')
         (PoolAllocator.free_metadata_list s')
         (rev (List.filter (flagged (PoolAllocator.metadata_pool s)) L) ++ F)
    /\ count'
       = Nat.iter
           (length (List.filter (flagged (PoolAllocator.metadata_pool s)) L))
           (fun c => u32 (c + 1)) count
    /\ PoolAllocator.heap_offset s' = PoolAllocator.heap_offset s.
Proof.
  intros Ha Hf Hnd Hfuel. unfold PoolCollector.reclaim_metadata.
  destruct (reclaim_loop_spec L fuel [] F s count
              (PoolAllocator.allocation_list s) None Hfuel Hnd Ha Ha Hf
              eq_refl)
    as (s' & count' & Hrun & Ha' & Hf' & Hn & Ho & _).
  exists s', count'. repeat split; assumption.
Qed.

Lemma reclaim_metadata_partitions_witness :
  exists s',
    PoolCollector.reclaim_metadata 4 small_pool 0 = Some (s', 1)
    /\ record_chain (PoolAllocator.metadata_pool s')
         (PoolAllocator.allocation_list s') [2; 0]%nat
    /\ record_chain (PoolAllocator.metadata_pool s')
         (PoolAllocator.free_metadata_list s') [1; 3]%nat.
Proof.
  destruct (reclaim_metadata_partitions 4 small_pool 0 [2; 1; 0]%nat [3%nat])
    as (s' & count' & Hrun & Ha & Hf & Hn & _).
  - repeat (econstructor; [reflexivity|]). constructor.
  - repeat (econstructor; [reflexivity|]). constructor.
  - apply (bool_decide_unpack _). vm_compute. exact I.
  - cbn. lia.
  - exists s'. vm_compute in Hn. subst count'.
    split; [exact Hrun|]. split; [exact Ha|exact Hf].
Defined.

(** ** Allocate, release, reclaim *)

Lemma filter_keep {A} (f : A -> bool) (l : list A) :
  (forall x, x ∈ l -> f x = true) -> List.filter f l = l.
Proof.
  induction l as [|a l IH]; intros H; [reflexivity|]. cbn [List.filter].
  rewrite H by (apply elem_of_cons; left; reflexivity).
  f_equal. apply IH. intros x Hx. apply H, elem_of_cons. right. exact Hx.
Qed.

Lemma filter_drop {A} (f : A -> bool) (l : list A) :
  (forall x, x ∈ l -> f x = false) -> List.filter f l = [].
Proof.
  induction l as [|a l IH]; intros H; [reflexivity|]. cbn [List.filter].
  rewrite H by (apply elem_of_cons; left; reflexivity).
  apply IH. intros x Hx. apply H, elem_of_cons. right. exact Hx.
Qed.

(** X29.  A block that is allocated, released and collected gives its
    tracking record back, and nothing else.  From a state whose
    allocation list holds no flagged record, [kmalloc] followed by
    [kfree] of the pointer (with enough of the arena free that [kfree]
    starts no collection) and by the reclaim loop leaves the allocation
    list and the free list with the records they had, in the same order,
    and counts one reclaimed record; [heap_offset] stays where [kmalloc]
    moved it. *)
Theorem allocate_release_reclaim
    (gc : PoolAllocator.State -> option PoolAllocator.State) (fuel : nat)
    (sz : Z) (s s1 : PoolAllocator.State) (p count : Z) (L F : list nat) :
  record_chain (PoolAllocator.metadata_pool s)
    (PoolAllocator.allocation_list s) L ->
  record_chain (PoolAllocator.metadata_pool s)
    (PoolAllocator.free_metadata_list s) F ->
  NoDup (L ++ F) ->
  (forall i, i ∈ L -> flagged (PoolAllocator.metadata_pool s) i = false) ->
  PoolAllocator.kmalloc sz s = Some (s1, p) -> p <> NULL ->
  PoolCollector.under_pressure s1 = false ->
  (length L + 1 < fuel)%nat ->
  exists s2 s3,
    PoolCollector.kfree gc fuel p s1 = Some s2
    /\ PoolCollector.reclaim_metadata fuel s2 count
       = Some (s3, u32 (count + 1))
    /\ record_chain (PoolAllocator.metadata_pool s3)
         (PoolAllocator.allocation_list s3) L
    /\ record_chain (PoolAllocator.metadata_pool s3)
         (PoolAllocator.free_metadata_list s3) F
    /\ PoolAllocator.heap_offset s3 = PoolAllocator.heap_offset s1.
Proof.
  intros Ha Hf Hnd Hclean Hk Hp Hpress Hfuel.
  unfold PoolAllocator.kmalloc in Hk.
  destruct (sz =? 0); [injection Hk as <- <-; congruence|].
  cbv zeta in Hk.
  destruct (KERNEL_HEAP_SIZE <=? _); [injection Hk as <- <-; congruence|].
  destruct (PoolAllocator.free_metadata_list s) as [b|] eqn:Hfree;
    [|injection Hk as <- <-; congruence].
  inversion Hf as [|i blk F' Hb Hrest]; subst.
  rewrite Hb in Hk. cbn [mbind option_bind] in Hk.
  injection Hk as <- <-.
  assert (HbL : b ∉ L).
  { intros Hin. apply NoDup_app in Hnd as (_ & Hd & _).
    apply (Hd b Hin). apply elem_of_cons. left. reflexivity. }
  assert (HbF : b ∉ F').
  { apply NoDup_app in Hnd as (_ & _ & Hd).
    apply NoDup_cons in Hd as [Hd _]. exact Hd. }
  assert (Hlen : (b < length (PoolAllocator.metadata_pool s))%nat)
    by (eapply lookup_lt_Some; exact Hb).
  destruct fuel as [|f]; [lia|].
  unfold PoolCollector.kfree.
  assert (Ht : truthy (u32 (kernel_heap + PoolAllocator.heap_offset s))
               = true)
    by (unfold truthy; apply negb_true_iff, Z.eqb_neq; exact Hp).
  rewrite Ht. cbn [negb PoolCollector.kfree_loop
                   PoolAllocator.allocation_list
                   PoolAllocator.metadata_pool].
  rewrite list_lookup_insert_eq by exact Hlen.
  cbn [mbind option_bind PoolAllocator.ptr]. rewrite Z.eqb_refl. cbv zeta.
  change (PoolCollector.under_pressure (PoolCollector.set_metadata_pool _ ?x))
    with (PoolCollector.under_pressure x).
  rewrite Hpress.
  eexists. 
  match goal with
  | |- context [Some ?s2 = Some _] =>
      destruct (reclaim_loop_spec (b :: L) (S f) [] F' s2 count
                  (PoolAllocator.allocation_list s2) None)
        as (s3 & count' & Hrun & Ha3 & Hf3 & Hn & Ho & _)
  end.
  - cbn [length]. lia.
  - cbn [app]. eapply NoDup_Permutation_proper; [|exact Hnd].
    apply Permutation_middle.
  - cbn [app PoolAllocator.metadata_pool PoolAllocator.allocation_list
         PoolCollector.set_metadata_pool].
    econstructor.
    + rewrite list_lookup_alter_eq, list_lookup_insert_eq by exact Hlen.
      reflexivity.
    + cbn [PoolCollector.set_is_garbage PoolAllocator.next].
      apply record_chain_alter; [exact HbL|].
      eapply record_chain_frame; [|exact Ha].
      intros i Hi. apply list_lookup_insert_ne. intros ->. contradiction.
  - cbn [app PoolAllocator.metadata_pool PoolAllocator.allocation_list
         PoolCollector.set_metadata_pool].
    econstructor.
    + rewrite list_lookup_alter_eq, list_lookup_insert_eq by exact Hlen.
      reflexivity.
    + cbn [PoolCollector.set_is_garbage PoolAllocator.next].
      apply record_chain_alter; [exact HbL|].
      eapply record_chain_frame; [|exact Ha].
      intros i Hi. apply list_lookup_insert_ne. intros ->. contradiction.
  - cbn [PoolAllocator.metadata_pool PoolAllocator.free_metadata_list
         PoolCollector.set_metadata_pool].
    apply record_chain_alter; [exact HbF|].
    eapply record_chain_frame; [|exact Hrest].
    intros i Hi. apply list_lookup_insert_ne. intros ->. contradiction.
  - reflexivity.
  - exists s3. split; [reflexivity|].
    cbn [PoolAllocator.metadata_pool PoolCollector.set_metadata_pool] in *.
    assert (Hb2 : flagged
                    (alter (PoolCollector.set_is_garbage 1) b
                       (<[b := PoolAllocator.mkBlock
                                 (u32 (kernel_heap + PoolAllocator.heap_offset s))
                                 (PoolAllocator.align4 sz)
                                 (PoolAllocator.allocation_counter s) NULL 0
                                 (PoolAllocator.allocation_list s)]>
                          (PoolAllocator.metadata_pool s))) b = true).
    { unfold flagged.
      rewrite list_lookup_alter_eq, list_lookup_insert_eq by exact Hlen.
      reflexivity. }
    assert (HL2 : forall i, i ∈ L ->
                    flagged
                      (alter (PoolCollector.set_is_garbage 1) b
                         (<[b := PoolAllocator.mkBlock
                                   (u32 (kernel_heap
                                         + PoolAllocator.heap_offset s))
                                   (PoolAllocator.align4 sz)
                                   (PoolAllocator.allocation_counter s) NULL 0
                                   (PoolAllocator.allocation_list s)]>
                            (PoolAllocator.metadata_pool s))) i = false).
    { intros i Hi. unfold flagged.
      assert (b <> i) by (intros ->; contradiction).
      rewrite list_lookup_alter_ne, list_lookup_insert_ne by assumption.
      apply (Hclean i Hi). }
    cbn [List.filter] in Ha3, Hf3, Hn. rewrite Hb2 in Ha3, Hf3, Hn.
    cbn [negb app] in Ha3.
    rewrite filter_keep in Ha3
      by (intros i Hi; rewrite HL2 by exact Hi; reflexivity).
    rewrite (filter_drop _ L HL2) in Hf3, Hn.
    cbn [rev app length Nat.iter] in Hf3, Hn.
    unfold PoolCollector.reclaim_metadata. rewrite Hrun, Hn.
    split; [reflexivity|]. split; [exact Ha3|]. split; [exact Hf3|].
    exact Ho.
Qed.

Lemma allocate_release_reclaim_witness :
  match PoolAllocator.kmalloc 16 clean_pool with
  | Some (s1, p) =>
      exists s2 s3,
        PoolCollector.kfree (fun s => Some s) 4 p s1 = Some s2
        /\ PoolCollector.reclaim_metadata 4 s2 7 = Some (s3, 8)
        /\ record_chain (PoolAllocator.metadata_pool s3)
             (PoolAllocator.allocation_list s3) [1; 0]%nat
        /\ record_chain (PoolAllocator.metadata_pool s3)
             (PoolAllocator.free_metadata_list s3) [2; 3]%nat
  | None => False
  end.
Proof.
  destruct (PoolAllocator.kmalloc 16 clean_pool) as [[s1 p]|] eqn:E;
    [|vm_compute in E; discriminate].
  assert (E' := E). vm_compute in E'. injection E' as <- <-.
  assert (H1 : record_chain (PoolAllocator.metadata_pool clean_pool)
                 (PoolAllocator.allocation_list clean_pool) [1; 0]%nat)
    by (repeat (econstructor; [reflexivity|]); constructor).
  assert (H2 : record_chain (PoolAllocator.metadata_pool clean_pool)
                 (PoolAllocator.free_metadata_list clean_pool) [2; 3]%nat)
    by (repeat (econstructor; [reflexivity|]); constructor).
  assert (H3 : NoDup ([1; 0] ++ [2; 3])%nat)
    by (apply (bool_decide_unpack _); vm_compute; exact I).
  assert (H4 : forall i, i ∈ [1; 0]%nat ->
                 flagged (PoolAllocator.metadata_pool clean_pool) i = false).
  { intros i Hi. apply elem_of_cons in Hi as [->|Hi]; [reflexivity|].
    apply elem_of_cons in Hi as [->|Hi]; [reflexivity|].
    apply not_elem_of_nil in Hi. contradiction. }
  destruct (allocate_release_reclaim (fun s => Some s) 4 16 clean_pool _ _ 7
              [1; 0]%nat [2; 3]%nat H1 H2 H3 H4 E
              ltac:(vm_compute; discriminate) ltac:(vm_compute; reflexivity)
              ltac:(cbn; lia))
    as (s2 & s3 & Hfree & Hrun & Ha & Hf & _).
  exists s2, s3. split; [exact Hfree|]. split; [exact Hrun|].
  split; [exact Ha|exact Hf].
Defined.

(** ** The kernel patch *)

Lemma print_on_screen (str : list Z) (s : Console.State) :
  on_screen s ->
  on_screen (Console.print str s)
  /\ forall a,
       a < Console.VIDEO_MEMORY \/ Console.VIDEO_MEMORY + 4000 <= a ->
       load_byte (Console.video (Console.print str s)) a
       = load_byte (Console.video s) a.
Proof.
  revert s. induction str as [|c rest IH]; intros s Hs.
  - split; [exact Hs|reflexivity].
  - cbn [Console.print]. destruct (c =? 0); [split; [exact Hs|reflexivity]|].
    destruct (print_char_on_screen c 15 s Hs) as [Hs1 Hf1].
    destruct (IH _ Hs1) as [Hs2 Hf2].
    split; [exact Hs2|]. intros a Ha.
    rewrite Hf2 by exact Ha. apply Hf1. lia.
Qed.

(** [print_hex] returns, keeps the cursor on the screen and stores into
    the text buffer only. *)
Lemma print_hex_at_frame (value cursor : Z) (s : State) :
  0 <= cursor < 80 * 25 ->
  exists m c,
    print_hex_at value cursor s = Done (set_heap m s) c
    /\ 0 <= c < 80 * 25
    /\ forall a,
         a < Console.VIDEO_MEMORY \/ Console.VIDEO_MEMORY + 4000 <= a ->
         load_byte m a = load_byte (heap s) a.
Proof.
  intros Hc. unfold print_hex_at. cbv zeta.
  destruct (print_on_screen
              (map (fun ch => Z.of_nat (nat_of_ascii ch)) (print_hex value))
              (Console.mkConsole cursor (heap s)) Hc) as [Hs Hf].
  eexists _, _. split; [reflexivity|]. split; [exact Hs|exact Hf].
Qed.



(** The way through: the copy, then the address on the screen. *)
Lemma apply_kernel_patch_applies (p : KernelPatch) (cursor : Z) (s : State) :
  applied p = 0 ->
  u32 (active_dims (replacement p) * sizeof_float) <= 1024 ->
  kernel_heap <= address p < kernel_heap + KERNEL_HEAP_SIZE ->
  0 <= cursor < 80 * 25 ->
  exists m c,
    apply_kernel_patch p cursor s = Done (set_heap m s) (set_applied 1 p, c)
    /\ 0 <= c < 80 * 25
    /\ forall a,
         a < Console.VIDEO_MEMORY \/ Console.VIDEO_MEMORY + 4000 <= a ->
         load_byte m a
         = load_byte
             (patch_copy
                (Z.to_nat (u32 (active_dims (replacement p) * sizeof_float)))
                0 (address p) (data (replacement p))
                (u32 (capacity (replacement p) * sizeof_float)) (heap s)) a.
Proof.
  intros Ha Hsz Had Hc. unfold apply_kernel_patch. cbv zeta.
  change (u32 kernel_heap) with kernel_heap.
  change (u32 (kernel_heap + KERNEL_HEAP_SIZE))
    with (kernel_heap + KERNEL_HEAP_SIZE).
  unfold truthy. rewrite Ha. cbn [Z.eqb negb].
  destruct (Z.ltb_spec 1024 (u32 (active_dims (replacement p) * sizeof_float)));
    [lia|].
  destruct (Z.ltb_spec (address p) kernel_heap); [lia|]. cbn [orb].
  destruct (Z.leb_spec (kernel_heap + KERNEL_HEAP_SIZE) (address p)); [lia|].
  unfold bind at 1, modify at 1.
  match goal with
  | |- context [print_hex_at ?v ?c] =>
      match goal with
      | |- exists _ _, bind _ _ ?s1 = _ /\ _ =>
          destruct (print_hex_at_frame v c s1 Hc) as (m & c' & Hp & Hc' & Hf)
      end
  end.
  exists m, c'. split.
  - erewrite bind_run by exact Hp. destruct s; reflexivity.
  - split; [exact Hc'|]. exact Hf.
Qed.

(** C7.  The size test of [apply_kernel_patch] works on the product
    [active_dims * sizeof(float)] reduced modulo [2^32].  A patch that is
    not yet applied, whose address lies in the arena and whose replacement
    has [active_dims = 2^30 + 4], a payload of 4 GiB and 16 bytes, far over
    the ceiling of 1024, is not rejected: the call returns the record with
    [applied = 1], and when the replacement buffer has room for four
    floats, the 16 bytes at the address (clear of the buffer and of the
    text screen) are overwritten with the first 16 bytes of the
    replacement. *)
Theorem apply_kernel_patch_accepts_wrapped_size (p : KernelPatch)
    (cursor : Z) (s : State) :
  applied p = 0 ->
  active_dims (replacement p) = 2 ^ 30 + 4 ->
  kernel_heap <= address p < kernel_heap + KERNEL_HEAP_SIZE ->
  0 <= cursor < 80 * 25 ->
  1024 < active_dims (replacement p) * sizeof_float
  /\ exists s' c,
       apply_kernel_patch p cursor s = Done s' (set_applied 1 p, c)
       /\ (4 <= capacity (replacement p) < 2 ^ 30 ->
           address p + 16 <= data (replacement p)
           \/ data (replacement p) + 16 <= address p ->
           address p + 16 <= Console.VIDEO_MEMORY
           \/ Console.VIDEO_MEMORY + 4000 <= address p ->
           forall j, 0 <= j < 16 ->
             load_byte (heap s') (address p + j)
             = u8 (load_byte (heap s) (data (replacement p) + j))).
Proof.
  intros Ha Hd Had Hc.
  split; [rewrite Hd; vm_compute; reflexivity|].
  assert (Hsz : u32 (active_dims (replacement p) * sizeof_float) = 16)
    by (rewrite Hd; reflexivity).
  destruct (apply_kernel_patch_applies p cursor s Ha
              ltac:(rewrite Hsz; lia) Had Hc) as (m & c & Hrun & _ & Hf).
  exists (set_heap m s), c. split; [exact Hrun|].
  intros Hcap Hdis Hscr j Hj. cbn [heap set_heap].
  rewrite Hf by lia. rewrite Hsz.
  rewrite (u32_small (capacity (replacement p) * sizeof_float))
    by (unfold sizeof_float; lia).
  rewrite patch_copy_memcpy
    by (change (Z.of_nat (Z.to_nat 16)) with 16; unfold sizeof_float; lia).
  rewrite load_memcpy
    by (change (Z.of_nat (Z.to_nat 16)) with 16; lia).
  change (Z.of_nat (Z.to_nat 16)) with 16.
  destruct (Z.leb_spec (address p + 0) (address p + j)); [|lia].
  destruct (Z.ltb_spec (address p + j) (address p + 0 + 16)); [|lia].
  cbn [andb]. do 2 f_equal. lia.
Qed.

Lemma apply_kernel_patch_accepts_wrapped_size_witness :
  1024 < active_dims (replacement wrapped_patch) * sizeof_float
  /\ exists s' c,
       apply_kernel_patch wrapped_patch 0 patch_state
       = Done s' (set_applied 1 wrapped_patch, c)
       /\ load_byte (heap patch_state) (kernel_heap + 16) = 0
       /\ load_byte (heap s') (kernel_heap + 16) = 0xAB.
Proof.
  destruct (apply_kernel_patch_accepts_wrapped_size wrapped_patch 0
              patch_state) as [Hbig (s' & c & Hrun & Hb)];
    [reflexivity|reflexivity|vm_compute; split; [discriminate|reflexivity]
    |lia|].
  split; [exact Hbig|]. exists s', c. split; [exact Hrun|].
  split; [reflexivity|].
  rewrite <- (Z.add_0_r (kernel_heap + 16)).
  change (kernel_heap + 16) with (address wrapped_patch).
  rewrite Hb;
    [reflexivity
    |vm_compute; split; [discriminate|reflexivity]
    |left; vm_compute; discriminate
    |left; vm_compute; discriminate
    |lia].
Defined.



(** * Calls that do not return *)

(** ** An arena that is used up *)

Lemma nearly_no_free_space :
  holds_from (fun k => flt (fdiv (float_of_Z k) (float_of_Z KERNEL_HEAP_SIZE))
                         (float_lit 2 10))
    25 0 = true.
Proof. vm_compute. reflexivity. Qed.

(** With at most 24 bytes left the free fraction is below 0.2 by a wide
    margin, and no request of 24 bytes or more is granted. *)
Lemma used_up_under_pressure (s : State) :
  KERNEL_HEAP_SIZE - sizeof_mem_block_t <= heap_offset s <= KERNEL_HEAP_SIZE ->
  under_pressure s = true /\ exhausted s.
Proof.
  intros Hr. unfold sizeof_mem_block_t in Hr. split.
  - unfold under_pressure, free_fraction.
    rewrite u32_small by (unfold KERNEL_HEAP_SIZE in *; lia).
    apply (holds_from_spec _ _ _ (KERNEL_HEAP_SIZE - heap_offset s)
             nearly_no_free_space).
    lia.
  - unfold exhausted, sizeof_mem_block_t, KERNEL_HEAP_SIZE in *. lia.
Qed.

(** ** The collector on an entity that owns its state *)

Lemma for_entities_reaches (body : nat -> M unit) (k lo i : nat) (s : State) :
  (lo <= i < lo + k)%nat ->
  Z.of_nat i < active_entity_count s ->
  (forall j, (lo <= j < i)%nat -> body j s = Done s tt) ->
  body i s = OutOfFuel ->
  for_entities k lo body s = OutOfFuel.
Proof.
  revert lo. induction k as [|k IH]; intros lo Hi Hc Hskip Hstuck; [lia|].
  cbn [for_entities]. unfold bind at 1, get at 1.
  destruct (Z.ltb_spec (Z.of_nat lo) (active_entity_count s)); [|lia].
  destruct (decide (lo = i)) as [->|Hne].
  - apply bind_stuck. exact Hstuck.
  - erewrite bind_run by (apply Hskip; lia).
    apply IH; [lia|exact Hc| |exact Hstuck].
    intros j Hj. apply Hskip. lia.
Qed.

Lemma collect_entity_inactive (f : nat) (gc : M unit) (j : nat) (s : State)
    (e : Entity) :
  entity_pool s !! j = Some e -> truthy (is_active e) = false ->
  collect_entity f gc j s = Done s tt.
Proof.
  intros He Ha. unfold collect_entity. unfold bind at 1, get at 1.
  erewrite bind_run by (rewrite He; reflexivity).
  rewrite Ha. reflexivity.
Qed.

(** The sacrifice of an entity that owns its state buffer: [kfree] enters
    the collector before the entity is marked inactive and before the
    pointer is cleared. *)
Lemma collect_entity_owner (f : nat) (gc : M unit) (i : nat) (s : State)
    (e : Entity) :
  entity_pool s !! i = Some e ->
  truthy (is_active e) = true -> sacrifices s e = true ->
  genome e = NULL -> truthy (data (state e)) = true ->
  under_pressure s = true ->
  gc (set_allocation_list
        (mark_garbage (data (state e)) (allocation_list s)) s) = OutOfFuel ->
  collect_entity f gc i s = OutOfFuel.
Proof.
  intros He Ha Hs Hg Hd Hp Hgc. unfold collect_entity.
  unfold bind at 1, get at 1.
  erewrite bind_run by (rewrite He; reflexivity).
  rewrite Ha, Hs, Hg. cbn [negb].
  erewrite bind_run by apply destroy_genome_null.
  apply bind_stuck. unfold destroy_hyper_vector.
  unfold bind at 1, get at 1.
  erewrite bind_run by (cbn [load_vector]; rewrite He; reflexivity).
  rewrite Hd. apply bind_stuck. unfold kfree. rewrite Hd.
  unfold bind at 1, modify at 1, bind at 1, get at 1.
  replace (under_pressure _) with true. exact Hgc.
Qed.

(** No amount of fuel lets the pass return. *)
Lemma collection_of_owner (fuel : nat) (i : nat) (e : Entity) (s : State) :
  KERNEL_HEAP_SIZE - sizeof_mem_block_t <= heap_offset s <= KERNEL_HEAP_SIZE ->
  Z.of_nat i < active_entity_count s ->
  (forall j ej, (j < i)%nat -> entity_pool s !! j = Some ej ->
                truthy (is_active ej) = false) ->
  entity_pool s !! i = Some e ->
  truthy (is_active e) = true -> sacrifices s e = true ->
  genome e = NULL -> truthy (data (state e)) = true ->
  perform_emergent_garbage_collection fuel s = OutOfFuel.
Proof.
  revert s. induction fuel as [|f IH];
    intros s Hr Hi Hbefore He Ha Hs Hg Hd; [reflexivity|].
  cbn [perform_emergent_garbage_collection].
  destruct f as [|f]; [reflexivity|].
  destruct (used_up_under_pressure s Hr) as [Hp Hx].
  unfold collect.
  erewrite bind_run by (apply create_hyper_vector_refused; exact Hx).
  change (truthy (valid _)) with false. cbv iota.
  erewrite bind_run by reflexivity.
  unfold bind at 1, get at 1.
  apply (for_entities_reaches _ _ 0 i); [lia|exact Hi| |].
  - intros j Hj.
    destruct (lookup_lt_is_Some_2 (entity_pool s) j) as [ej Hej];
      [apply lookup_lt_Some in He; lia|].
    apply (collect_entity_inactive _ _ _ _ ej Hej).
    apply (Hbefore j ej); [lia|exact Hej].
  - apply (collect_entity_owner _ _ _ _ e He Ha Hs Hg Hd Hp).
    apply IH; try assumption.
Qed.

Lemma sacrifice_threshold_plain (e : Entity) :
  confidence e = float_lit 1 2 -> age e = 0 -> fitness_score e = 0 ->
  sacrifice_threshold e = 150.
Proof.
  intros Hc Ha Hf. unfold sacrifice_threshold, sacrifice_probability.
  rewrite Hc, Ha, Hf. vm_compute. reflexivity.
Qed.

(** C4.  The sacrifice of an entity that owns its state buffer does not
    complete.  For a kernel whose arena is used up (as every granted
    request leaves it), an entity that is the first active one of the
    pool, has no genome, owns a state buffer, and has confidence 0.5, age
    0 and fitness 0 (so that [p = 0.15] and [p * 1000 = 150]) with a draw
    below 150, is selected by the stated rule and by the test of the code;
    the pass then never returns, with whatever fuel: the entity is not
    deactivated and its vectors are not destroyed. *)
Theorem sacrifice_of_owner_never_completes (fuel : nat) (i : nat)
    (e : Entity) (s : State) :
  KERNEL_HEAP_SIZE - sizeof_mem_block_t <= heap_offset s <= KERNEL_HEAP_SIZE ->
  Z.of_nat i < active_entity_count s ->
  (forall j ej, (j < i)%nat -> entity_pool s !! j = Some ej ->
                is_active ej = 0) ->
  entity_pool s !! i = Some e ->
  is_active e <> 0 -> genome e = NULL -> data (state e) <> NULL ->
  confidence e = float_lit 1 2 -> age e = 0 -> fitness_score e = 0 ->
  random_roll s e < 150 ->
  stated_sacrifice s e
  /\ sacrifices s e = true
  /\ perform_emergent_garbage_collection fuel s = OutOfFuel.
Proof.
  intros Hr Hi Hbefore He Ha Hg Hd Hc Hage Hf Hroll.
  assert (Hs : sacrifices s e = true)
    by (unfold sacrifices; rewrite sacrifice_threshold_plain by assumption;
        apply Z.ltb_lt; exact Hroll).
  split; [|split; [exact Hs|]].
  - unfold stated_sacrifice, stated_probability.
    rewrite Hc, Hage, Hf.
    match goal with
    | |- (_ < ?q)%Q => let q' := eval vm_compute in q in change q with q'
    end.
    unfold Qlt. cbn [Qnum Qden inject_Z]. lia.
  - apply (collection_of_owner fuel i e s Hr Hi); try assumption.
    + intros j ej Hj Hej. unfold truthy.
      rewrite (Hbefore j ej Hj Hej). reflexivity.
    + unfold truthy. apply negb_true_iff, Z.eqb_neq. exact Ha.
    + unfold truthy. apply negb_true_iff, Z.eqb_neq. exact Hd.
Qed.

Lemma sacrifice_of_owner_never_completes_witness :
  stated_sacrifice doomed_state
    (set_state (mkHyperVector (kernel_heap + 1024) 512 3 77 1) (bare_entity 1))
  /\ perform_emergent_garbage_collection ample_fuel doomed_state = OutOfFuel.
Proof.
  destruct (sacrifice_of_owner_never_completes ample_fuel 1
              (set_state (mkHyperVector (kernel_heap + 1024) 512 3 77 1)
                 (bare_entity 1)) doomed_state) as (Hst & _ & Hrun).
  - vm_compute. split; discriminate.
  - vm_compute. reflexivity.
  - intros [|j] ej Hj Hej; [|lia]. injection Hej as <-. reflexivity.
  - reflexivity.
  - vm_compute. discriminate.
  - reflexivity.
  - vm_compute. discriminate.
  - reflexivity.
  - reflexivity.
  - reflexivity.
  - vm_compute. reflexivity.
  - split; [exact Hst|exact Hrun].
Defined.

(** ** The tick that wakes an entity *)

(** [kmalloc] neither halts nor goes wrong. *)
Lemma kmalloc_shape (fuel : nat) (n : Z) (s : State) :
  match kmalloc fuel n s with
  | Done _ _ | OutOfFuel => True
  | _ => False
  end.
Proof.
  revert n s. induction fuel as [|f IH]; intros n s; [exact I|].
  cbn [kmalloc]. unfold bind at 1, get at 1.
  destruct (KERNEL_HEAP_SIZE <=? _); [exact I|].
  unfold bind at 1, modify at 1. unfold bind at 1.
  pose proof (IH sizeof_mem_block_t
                (set_heap_offset (u32 (heap_offset s + align8 n)) s)) as H.
  destruct (kmalloc f sizeof_mem_block_t _) as [s1 b| | |];
    try contradiction; [|exact I].
  destruct (truthy b); exact I.
Qed.

Lemma kmalloc_done_or_out (fuel : nat) (n : Z) (s : State) :
  kmalloc fuel n s = OutOfFuel \/ exists s' p, kmalloc fuel n s = Done s' p.
Proof.
  pose proof (kmalloc_shape fuel n s) as H.
  destruct (kmalloc fuel n s) as [s' p| | |]; try contradiction;
    [right; eexists _, _; reflexivity|left; reflexivity].
Qed.

Lemma kmalloc_aligned (fuel : nat) (n : Z) (s s' : State) (p : Z) :
  heap_offset s mod 8 = 0 ->
  kmalloc fuel n s = Done s' p ->
  heap_offset s' mod 8 = 0.
Proof.
  revert n s s' p. induction fuel as [|f IH]; intros n s s' p Ha H;
    [discriminate|].
  cbn [kmalloc] in H. step_in H. case_if_in H.
  - step_in H. exact Ha.
  - step_in H. step_in H.
    assert (Ha1 : heap_offset
                    (set_heap_offset (u32 (heap_offset s + align8 n)) s)
                  mod 8 = 0).
    { cbn [heap_offset set_heap_offset]. rewrite u32_mod8.
      rewrite Z.add_mod, Ha, align8_multiple by lia. reflexivity. }
    pose proof (IH _ _ _ _ Ha1 Hc) as Hs0.
    case_if_in H; repeat step_in H; exact Hs0.
Qed.

(** A granted request from an aligned offset leaves the arena used up. *)
Lemma kmalloc_uses_up (fuel : nat) (n : Z) (s s' : State) (p : Z) :
  kmalloc fuel n s = Done s' p ->
  heap_offset s mod 8 = 0 ->
  0 <= heap_offset s -> 0 <= n -> heap_offset s + n < KERNEL_HEAP_SIZE ->
  p = kernel_heap + heap_offset s
  /\ KERNEL_HEAP_SIZE - sizeof_mem_block_t <= heap_offset s'
     <= KERNEL_HEAP_SIZE
  /\ same_world s s'.
Proof.
  intros H Ha Hh Hn Hfit.
  destruct (kmalloc_granted_exhausts _ _ _ _ _ H Hh Hn Hfit) as [Hp Hx].
  pose proof (kmalloc_aligned _ _ _ _ _ Ha H) as Ha'.
  split; [exact Hp|]. split; [|eapply kmalloc_same_world; exact H].
  unfold exhausted, sizeof_mem_block_t, KERNEL_HEAP_SIZE in *.
  destruct Hx as [[_ Hlt] Hge].
  apply Z.mod_divide in Ha' as [q Hq]; lia.
Qed.

Lemma resonate_idle (k t i : nat) (s : State) (e : Entity) :
  entity_pool s !! i = Some e ->
  truthy (valid (state e)) = false ->
  thought_count (collective s)
  <= Z.of_nat (length (thought_space (collective s))) ->
  resonate k t i s = Done s tt.
Proof.
  intros He Hv Hl. revert t. induction k as [|k IH]; intros t; [reflexivity|].
  cbn [resonate]. unfold bind at 1, get at 1.
  destruct (Z.ltb_spec (Z.of_nat t) (thought_count (collective s)));
    [|reflexivity].
  erewrite bind_run by (rewrite He; reflexivity).
  destruct (lookup_lt_is_Some_2 (thought_space (collective s)) t
              ltac:(lia)) as [th Hth].
  erewrite bind_run by (rewrite Hth; reflexivity).
  cbv zeta. unfold compute_similarity. rewrite Hv. cbn [negb orb].
  change (flt (float_lit 6 10) f0) with false. cbv iota.
  erewrite bind_run by reflexivity.
  apply IH.
Qed.

(** A vector is created, and the arena is used up, or the fuel runs out. *)
Lemma create_hyper_vector_cases (fuel : nat) (input : list Z) (s : State) :
  heap_offset s mod 8 = 0 -> 0 <= heap_offset s ->
  heap_offset s + INITIAL_DIMENSIONS * sizeof_float < KERNEL_HEAP_SIZE ->
  create_hyper_vector fuel input s = OutOfFuel
  \/ exists s' v,
       create_hyper_vector fuel input s = Done s' v
       /\ truthy (valid v) = true
       /\ KERNEL_HEAP_SIZE - sizeof_mem_block_t <= heap_offset s'
          <= KERNEL_HEAP_SIZE
       /\ statics_kept s s'.
Proof.
  intros Ha Hh Hfit.
  destruct (kmalloc_done_or_out fuel (u32 (INITIAL_DIMENSIONS * sizeof_float))
              s) as [Ho|(s1 & p & Hk)].
  - left. unfold create_hyper_vector. cbv zeta. apply bind_stuck. exact Ho.
  - right.
    destruct (kmalloc_uses_up _ _ _ _ _ Hk Ha Hh ltac:(vm_compute; discriminate)
                Hfit) as (Hp & Hr & _).
    assert (Ht : truthy p = true)
      by (rewrite Hp; unfold truthy; apply negb_true_iff, Z.eqb_neq;
          unfold kernel_heap; lia).
    assert (E : exists s' v, create_hyper_vector fuel input s = Done s' v
                             /\ truthy (valid v) = true
                             /\ heap_offset s' = heap_offset s1).
    { unfold create_hyper_vector. cbv zeta.
      erewrite bind_run by exact Hk. rewrite Ht.
      eexists _, _. split; [reflexivity|]. split; reflexivity. }
    destruct E as (s' & v & Hrun & Hv & Ho).
    exists s', v. split; [exact Hrun|]. split; [exact Hv|].
    split; [rewrite Ho; exact Hr|].
    apply create_hyper_vector_world in Hrun as (_ & W). exact W.
Qed.

(** Broadcasting into a full buffer releases the oldest thought first:
    under pressure [kfree] enters the collector. *)
Lemma broadcast_thought_enters (fuel : nat) (gc : M unit) (v th : HyperVector)
    (s : State) :
  truthy (valid v) = true ->
  MAX_THOUGHTS <= thought_count (collective s) ->
  thought_space (collective s) !! 0%nat = Some th ->
  truthy (data th) = true ->
  under_pressure s = true ->
  gc (set_allocation_list (mark_garbage (data th) (allocation_list s)) s)
  = OutOfFuel ->
  broadcast_thought fuel gc v s = OutOfFuel.
Proof.
  intros Hv Hfull Hth Hd Hp Hgc. unfold broadcast_thought.
  rewrite Hv. cbn [negb]. unfold bind at 1, get at 1.
  apply bind_stuck.
  destruct (Z.leb_spec MAX_THOUGHTS (thought_count (collective s))); [|lia].
  apply bind_stuck. unfold destroy_hyper_vector.
  unfold bind at 1, get at 1.
  erewrite bind_run by (cbn [load_vector]; rewrite Hth; reflexivity).
  rewrite Hd. apply bind_stuck. unfold kfree. rewrite Hd.
  unfold bind at 1, modify at 1, bind at 1, get at 1.
  replace (under_pressure _) with true. exact Hgc.
Qed.

Ltac decide_test :=
  match goal with
  | |- (if ?c then _ else _) _ = _ =>
      let v := eval vm_compute in c in change c with v; cbv iota
  end.

Lemma stuck_evaluate (fuel : nat) (addr : Z) :
  evaluate_entity fuel (perform_emergent_garbage_collection fuel) addr
    (get_system_memory_pressure stuck_state) 0 stuck_state = OutOfFuel.
Proof.
  unfold evaluate_entity.
  unfold bind at 1, get at 1.
  erewrite bind_run by reflexivity.
  cbv zeta.
  change (fitness_score (set_fitness_score 30 blank_entity) <? 30) with false.
  rewrite andb_false_r.
  replace (can_afford_vector_copy 2 stuck_state) with true
    by (vm_compute; reflexivity).
  cbn [negb].
  erewrite bind_run by reflexivity.
  erewrite bind_run by reflexivity.
  unfold age_one. unfold bind at 1, modify at 1.
  unfold bind at 1, get at 1.
  erewrite bind_run
    by (eapply resonate_idle;
        [reflexivity|reflexivity|vm_compute; discriminate]).
  unfold bind at 1, get at 1.
  erewrite bind_run by reflexivity.
  cbv zeta.
  erewrite bind_run by reflexivity.
  erewrite bind_run by reflexivity.
  decide_test.
  set (s0 := alter_entity 0 (fun e => set_age (u32 (age e + 1)) e)
               stuck_state).
  destruct (create_hyper_vector_cases fuel (cstring "TRAIT_ACTIVE") s0)
    as [Ho|(s1 & v & Hrun & Hv & Hr & Hpool & Hcount & Hholo & Hcoll)];
    [reflexivity|vm_compute; discriminate|reflexivity
    |apply bind_stuck; exact Ho|].
  erewrite bind_run by exact Hrun.
  rewrite Hv. cbn [negb].
  unfold bind at 1, modify at 1.
  apply bind_stuck.
  destruct (used_up_under_pressure s1 Hr) as [Hp _].
  eapply broadcast_thought_enters.
  - exact Hv.
  - cbn [collective alter_entity set_entity_pool]. rewrite Hcoll.
    vm_compute. discriminate.
  - cbn [collective alter_entity set_entity_pool]. rewrite Hcoll.
    reflexivity.
  - reflexivity.
  - exact Hp.
  - apply (collection_of_owner fuel 1
             (set_state (mkHyperVector (kernel_heap + 1024) 512 3 77 1)
                (bare_entity 1))).
    + exact Hr.
    + cbn [active_entity_count alter_entity set_entity_pool
           set_allocation_list]. rewrite Hcount. reflexivity.
    + intros [|j] ej Hj Hej; [|lia].
      cbn [entity_pool alter_entity set_entity_pool set_allocation_list]
        in Hej.
      rewrite Hpool in Hej. vm_compute in Hej. injection Hej as <-.
      reflexivity.
    + cbn [entity_pool alter_entity set_entity_pool set_allocation_list].
      rewrite Hpool. reflexivity.
    + reflexivity.
    + unfold sacrifices, random_roll.
      cbn [holo_system alter_entity set_entity_pool set_allocation_list].
      rewrite Hholo. vm_compute. reflexivity.
    + reflexivity.
    + reflexivity.
Qed.

(** C10.  A call of [update_entities] that never returns.  In
    [stuck_state] (two entities, 86432 bytes free, a full thought buffer)
    the inactive entity of slot 0 is woken by its neighbour: its new state
    vector is granted, which uses up the arena, and broadcasting it
    releases the oldest thought; [kfree] then starts a collection, which
    selects the entity of slot 1 for sacrifice and, releasing its state
    buffer, starts the collection again, without end.  Whatever the fuel,
    the call does not return: no age of slot 1 is incremented. *)
Theorem update_entities_never_returns (fuel : nat) (addr : Z) :
  update_entities fuel (perform_emergent_garbage_collection fuel) addr
    stuck_state = OutOfFuel.
Proof.
  unfold update_entities. unfold bind at 1, get at 1. cbv zeta.
  apply bind_stuck.
  change (Z.to_nat (active_entity_count stuck_state)) with 2%nat.
  cbn [evaluate_entities]. unfold bind at 1, get at 1.
  change (Z.of_nat 0 <? active_entity_count stuck_state) with true.
  cbv iota. apply bind_stuck. apply stuck_evaluate.
Qed.
